(* ===== verification/_CoqProject ===== *)
-Q . S2P
Prelude.v
WireFrame.v
Fs.v
Bond.v
PairRecovery.v
PairTransaction.v
PairProtocol.v
PairEngine.v
PairCommit.v
Peripheral.v
AuditTrail.v
Orchestrator.v
Challenge.v
Reload.v
Rpc.v
Server.v
Pam.v
Unlock.v
Mobile.v
Lock.v
Reconcile.v
PamService.v
PairBroker.v
PairCli.v
PairSession.v
UnlockRequest.v
BluerPair.v
Persistent.v
Diagnostics.v
Secrets.v
Runtime.v
DaemonRun.v
InstallPresenced.v
Startup.v
BtLink.v
Confirm.v
StatusCmd.v
