(* ===== verification/Prelude.v ===== *)
(** * DeskUnlock (syauth): a verification of the unlock and pairing core

    DeskUnlock lets a paired phone unlock a desktop.  The phone and the desktop agree on
    a bond (an Ed25519 public key of the phone and a shared key) in a two-phase
    transaction over Bluetooth; at a login the PAM module asks the daemon
    [syauth-presenced], the daemon sends the phone a fresh challenge, the phone signs it,
    the daemon verifies the signature and the PAM module maps the outcome to a return
    code.  The development models the Rust code of these parts as executable
    definitions and proves what each part promises to the next.

    ** The parts of the program and the files that model them

    - crates/syauth-core/src/frame.rs, mac.rs, sign.rs: the frame of a challenge, its
      BLAKE3 tag and its Ed25519 signature.  WireFrame.v.
    - crates/syauth-core/src/bond.rs: the bond store, its TOML document and its atomic
      save.  Bond.v, over the file system with faults of Fs.v.
    - crates/syauth-core/src/pair_recovery.rs: the staging area and the journal of a
      pairing.  PairRecovery.v.
    - crates/syauth-core/src/pair_transaction.rs: the two-phase transaction and its
      messages.  PairTransaction.v; PairProtocol.v puts a desktop and a phone at the two
      ends of a link that loses, delays and duplicates.
    - crates/syauth-transport/src/pair_engine.rs: the driver of a pairing attempt over a
      GATT link.  PairEngine.v.
    - crates/syauth-presenced/src/runtime.rs, the consumer of commit requests, which
      makes a bond durable.  PairCommit.v, under the engine of PairEngine.v.
    - crates/syauth-transport/src/peripheral.rs and bluez.rs: the [Peripheral] trait, its
      two implementations, fragments and session UUIDs.  Peripheral.v has the trait, the
      class [Peripheral] with the laws [PeripheralLaws] against which the daemon is
      verified, and the radio-free implementation; Persistent.v has the one over BlueZ, which
      obeys the same laws.
    - crates/syauth-presenced/src/audit.rs: the audit log.  AuditTrail.v.
    - crates/syauth-presenced/src/orchestrator.rs: challenges, replay cache, reload of the
      bonds, rotation of the UUIDs.  Orchestrator.v has the code, Challenge.v the
      properties of challenges on every schedule, Reload.v those of the reload.
    - crates/syauth-presenced/src/rpc.rs: the frames of the daemon's socket.  Rpc.v.
    - crates/syauth-presenced/src/server.rs: the socket, the accept loop, the connections
      and the dispatcher.  Server.v.
    - crates/syauth-pam/src: the PAM module.  Pam.v; Unlock.v composes it with the server,
      the orchestrator and the frames.
    - crates/syauth-mobile/src/implementation.rs and crates/syauth-cli/src/oob.rs: the
      phone's library and the code the desktop shows.  Mobile.v.
    - crates/syauth-presenced/src/lock.rs: the pid file.  Lock.v.
    - crates/syauth-cli/src/reconcile.rs and revoke.rs, with the status exchange of
      bluez.rs: crash recovery of a pairing and revocation.  Reconcile.v, over the
      transactions, the staging area and the store.
    - crates/syauth-cli/src/install_pam.rs and uninstall_pam.rs: the edits of PAM service
      files.  PamService.v.
    - crates/syauth-transport/src/pairing.rs: the broker that asks the operator to confirm a
      pairing.  PairBroker.v; PairSession.v has the dialog at the other end of its socket
      (pair_backend.rs), the BlueZ agent (peripheral.rs) and the listener that
      scopes it to the sessions (runtime.rs).
    - crates/syauth-cli/src/pair.rs: the pair command, over the recovery files and the store.
      PairCli.v; its BlueZ backend, pair_backend.rs, is BluerPair.v.
    - crates/syauth-cli/src/unlock_request.rs: the request of the lock screen, at the other
      end of the server's connections.  UnlockRequest.v.
    - crates/syauth-cli/src/list.rs, status.rs, doctor.rs: the commands that only read.
      Diagnostics.v, over the log the PAM module writes; StatusCmd.v has what [status] asks the
      daemon and prints, and its watch loop.
    - crates/syauth-core/src/secrets.rs: the secret store over the kernel keyring or the
      secret service.  Secrets.v: the trait is the class [KeyStore] with the contract
      [KeyStoreLaws], which every back end discharges.
    - crates/syauth-presenced/src/runtime.rs, the rest, and main.rs: Runtime.v has the start of
      the orchestrator, the loop on the signals and the watcher of the bonds file; DaemonRun.v
      has [run], from the lock to the shutdown; Startup.v has the process's configuration and
      the gate that lets it serve.
    - crates/syauth-cli/src/install_presenced.rs: the installation of the daemon.
      InstallPresenced.v, on the file system with faults.
    - crates/syauth-transport/src/lib.rs, mock.rs, error.rs and the central of bluez.rs: a session
      with a phone, its mock and the connection over BlueZ.  BtLink.v.
    - crates/syauth-cli/src/pair_backend.rs, the handlers that confirm the Bluetooth code on the
      desktop.  Confirm.v.

    ** How the code is modelled

    - A Rust [u8] or wider integer is a [Z] with its width written out where it matters; a
      byte slice or string is a [list Z]; [Result] is [result]; [?] is [let?].
    - Code that touches the disk is a program of type [io] (Fs.v): every system call takes
      the next entry of a fault script, which lets it succeed, fail (a write after some
      bytes) or be the call during which the process dies.  A theorem for all scripts is
      about every crash point.
    - The asynchronous orchestrator is a program over operations ([op], [prog]): a scheduler
      executes the next operation of any task, in any order, and may drop a task between
      two operations.  The [Arc]s of a peer's entry are a location in a store of cells.
    - The server is a transition function on its tasks; streams are the bytes that
      arrived and how they ended, so every cut into packets is covered.
    - The pid file is a transition system of processes over inodes; the broker, the sessions
      of the agent and the backend of the pair command are state machines over the events
      of their environment (polls, writes of the phone, time, dropped tasks); so are the loops
      of the daemon's runtime, which feed the orchestrator's queue.
    - The radio under [PersistentPeripheral] is a script of the outcomes of BlueZ's calls and
      of what the phones do in every tick.
    - External crates (BLAKE3, ed25519-dalek, hkdf, toml, time, ciborium, hex, tempfile, bluer,
      linux-keyutils, secret-service) are classes or records whose laws state their documented
      behaviour; the modules ToyCrypto, ToyCrates, ToyTempfile, ToyDaemon, ToyCbor and ToySecrets
      instantiate them for the witnesses.

    ** What the theorems show

    - Unlocking: [PAM_SUCCESS] is returned only if the newest bonded phone signed the
      very frame the daemon sent over this connection ([unlock_authentic]); the same for
      the daemon alone ([challenge_ok_authentic]); one challenge at a time per phone, no
      nonce accepted twice within 64, every finished challenge audited once, an honest
      phone unlocks; the PAM module's reasons, panics and return codes.
    - Pairing: desktop and phone never disagree on a bond over a faulty link
      ([bond_agreement]); [Promote] needs the whole exchange; an attempt trusts at most its
      own phone; every ending of an attempt.
    - The pair command changes trust only behind its gates ([pair_is_gated]), no fault after
      the exchange loses the pairing, and a pairing without faults ends bonded; the
      coordinator succeeds only with the phone's whole part, ends, and after its commit
      reports nothing but uncertainty; a confirmation is a yes only if it was answered
      ([broker_yes_is_answered]), one at a time, and ends; the agent is held only in sessions.
    - The lock screen's request unlocks only on the phone's word
      ([unlock_request_authentic]).  The production peripheral writes a challenge exactly once.
      What the PAM module logs is what [status] shows, and so is what the
      daemon answers ([status_shows_the_daemon]); its watch ends with an interrupt; [doctor] says
      "ok" exactly when what it probes is in order.
    - Durability: saving and promoting are atomic at every crash point, staging touches no
      active trust, what is saved is loaded, the store is a finite map; a recovery
      activates trust only when journal and phone agree on the commit, and then completes
      the pairing; a revocation is all or nothing.
    - The PAM service files: where the line goes, that installing is idempotent and undone
      by uninstalling, and that no crash loses a service file.
    - The life of the daemon: it serves exactly with an associated phone or an announced pairing
      ([startup_gate_exact]), starts with what the disk has ([cold_start_exact]), follows every
      change of the bonds file that its watcher sees by a reload ([no_change_is_lost]), and holds
      its lock until its server has ended ([run_lock_covers_server]).  Its installation never leaves a torn unit
      and calls systemctl only when unit and binary are in place.
    - The secret store behaves as a map whichever back end was detected
      ([detected_store_is_a_map]).  A connection over BlueZ is to a phone that advertises the
      service, and only for a bonded peer; sessions carry frames unchanged.  The code of a
      pairing is accepted only on the applet's word for this very request, within the time it has.
    - The daemon: reloads make the peers those of the disk; connections get one answer
      that belongs to their request; at most four are served; frames are bounded and
      survive any chunking; the pid file.
    - Agreement of the two sides: the phone's library accepts and answers the daemon's
      frames, derives the same UUIDs and codes, and its stored transactions are those of
      the state machine.
    - Theorems about behaviour that differs from the documentation are listed as findings
      beside the development.

    ** Bounds and fuel

    Recursion is structural throughout.  [digits] (AuditTrail.v) runs on the number of
    bits plus one, which is at least the number of decimal digits.  The engine's waits
    run on the script of what the link delivers, whose end is the deadline.  The
    nonce cache has the 64 places of the source, the reload queue its 16, the accept loop
    its 4 permits.  The waits of the production peripheral run on its deadline in ticks of
    10 ms (2,000 for a subscription); nothing is claimed about how long its calls take, since
    writes, D-Bus calls and the waits for its locks take no time in the model.  The task of a
    peer runs on the length of its backlog, one unit for every event it can take.  The five waits of the coordinator look every 50 ms for at most 300
    seconds, which with the steps between them is the 30,032 of [coordinator_ends]; a request
    to the broker is polled at most six times.  The wait for the applet polls every 100 ms for
    25 seconds: 251 turns with the check that ends it.  A watch of [status] sleeps 50 ms at a time,
    at most 21 times between two redraws, and needs one redraw for every second until the
    interrupt.

    ** Not modelled

    Log lines and most printed texts (tracing, syslog, error texts, JSON forms); the
    command line of the syauth command (main.rs, which dispatches to the modelled commands);
    the BlueZ set-up, the advertisement and the agent's callbacks (peripheral.rs,
    bluez_advertise.rs, pair_backend.rs), which are calls of services; the filtered RSSI value;
    that secrets are wiped from memory; the
    Android and desktop user interfaces.  Time is a value the environment changes; the loss
    of completed but unsynced writes on a power cut is not modelled (only process
    death is), nor are symbolic links and access checks. *)

From stdpp Require Import prelude list gmap strings.
From Stdlib Require Import ZArith Lia.

#[global] Open Scope Z_scope.

(** ** Results

    Rust's [Result<T, E>]. *)
Inductive result (A E : Type) : Type :=
| Ok (a : A)
| Err (e : E).
Arguments Ok {A E} a.
Arguments Err {A E} e.

Declare Scope rust_scope.
Delimit Scope rust_scope with rust.
#[global] Open Scope rust_scope.

Definition rbind {A B E} (r : result A E) (k : A -> result B E) : result B E :=
  match r with Ok a => k a | Err e => Err e end.

Definition map_err {A E F} (f : E -> F) (r : result A E) : result A F :=
  match r with Ok a => Ok a | Err e => Err (f e) end.

Definition is_ok {A E} (r : result A E) : bool :=
  match r with Ok _ => true | Err _ => false end.

Definition ok_or {A E} (o : option A) (e : E) : result A E :=
  match o with Some a => Ok a | None => Err e end.

(** [let? x := e in k] is Rust's [let x = e?; k]. *)
Notation "'let?' x ':=' e 'in' k" := (rbind e (fun x => k))
  (at level 200, x pattern, e at level 100, k at level 200, right associativity) : rust_scope.

(** ** Bytes and machine integers

    A [u8] is a [Z] in [0, 256), a byte slice a list of them, an array
    [[u8; N]] such a list of length [N]. *)
Definition is_u8 (b : Z) : Prop := 0 <= b < 256.
Definition is_u64 (n : Z) : Prop := 0 <= n < 2 ^ 64.

#[global] Instance is_u8_dec b : Decision (is_u8 b).
Proof. unfold is_u8. apply _. Defined.

Definition bytes_ok (l : list Z) : Prop := Forall is_u8 l.

(** [[u8; n]] *)
Definition arr (n : Z) (l : list Z) : Prop := Z.of_nat (length l) = n /\ bytes_ok l.

#[global] Instance bytes_ok_dec l : Decision (bytes_ok l).
Proof. unfold bytes_ok. apply _. Defined.
#[global] Instance arr_dec n l : Decision (arr n l).
Proof. unfold arr. apply _. Defined.

Definition len {A} (l : list A) : Z := Z.of_nat (length l).

(** [&l[a..b]] *)
Definition slice {A} (a b : Z) (l : list A) : list A :=
  take (Z.to_nat (b - a)) (drop (Z.to_nat a) l).

(** [l[i]]; every use is guarded by a length test of the source. *)
Definition byte_at (l : list Z) (i : Z) : Z := default 0 (l !! Z.to_nat i).

(** [n.to_be_bytes()] for a [k]-byte unsigned integer (or the two's complement
    of a signed one) and [from_be_bytes]. *)
Fixpoint to_be_bytes (k : nat) (n : Z) : list Z :=
  match k with
  | O => []
  | S k' => to_be_bytes k' (n / 256) ++ [n mod 256]
  end.

Definition from_be_bytes (l : list Z) : Z := foldl (fun acc b => acc * 256 + b) 0 l.

(** ** Generic lemmas *)

Lemma len_nonneg {A} (l : list A) : 0 <= len l.
Proof. unfold len. lia. Qed.

Lemma len_app {A} (l k : list A) : len (l ++ k) = len l + len k.
Proof. unfold len. rewrite length_app. lia. Qed.

Lemma len_cons {A} (x : A) (l : list A) : len (x :: l) = 1 + len l.
Proof. unfold len. cbn [length]. lia. Qed.

Lemma len_nil {A} : len (@nil A) = 0.
Proof. reflexivity. Qed.

Lemma len_slice {A} a b (l : list A) :
  0 <= a <= b -> b <= len l -> len (slice a b l) = b - a.
Proof. unfold len, slice. intros ? ?. rewrite length_take, length_drop. lia. Qed.

Lemma arr_len n l : arr n l -> len l = n.
Proof. intros [H _]. exact H. Qed.

(** Taking the slice that starts after a prefix of known length. *)
Lemma slice_skip {A} a b (l k : list A) :
  len l <= a -> slice a b (l ++ k) = slice (a - len l) (b - len l) k.
Proof.
  unfold slice, len. intros H. rewrite drop_app_ge by lia.
  f_equal; [lia |]. f_equal. lia.
Qed.

Lemma slice_prefix {A} b (l k : list A) : len l = b -> slice 0 b (l ++ k) = l.
Proof.
  unfold slice, len. intros <-. rewrite drop_0.
  rewrite take_app_le by lia. apply take_ge. lia.
Qed.

Lemma slice_full {A} b (l : list A) : len l = b -> slice 0 b l = l.
Proof. intros H. rewrite <- (app_nil_r l) at 1. by apply slice_prefix. Qed.

Lemma slice_cat {A} a b c (l : list A) :
  0 <= a <= b -> b <= c -> slice a b l ++ slice b c l = slice a c l.
Proof.
  unfold slice. intros ? ?.
  replace (Z.to_nat b) with (Z.to_nat a + Z.to_nat (b - a))%nat by lia.
  rewrite <- drop_drop.
  replace (Z.to_nat (c - a)) with (Z.to_nat (b - a) + Z.to_nat (c - b))%nat by lia.
  apply take_take_drop.
Qed.

Lemma slice_all {A} b (l : list A) : b = len l -> slice 0 b l = l.
Proof. intros. by apply slice_full. Qed.

Lemma slice_byte a (l : list Z) : 0 <= a < len l -> slice a (a + 1) l = [byte_at l a].
Proof.
  unfold slice, byte_at, len. intros [H1 H2].
  replace (Z.to_nat (a + 1 - a)) with 1%nat by lia.
  destruct (lookup_lt_is_Some_2 l (Z.to_nat a)) as [x Hx]; [lia |].
  rewrite (drop_S l x) by done. rewrite Hx. reflexivity.
Qed.

Lemma bytes_ok_app l k : bytes_ok (l ++ k) <-> bytes_ok l /\ bytes_ok k.
Proof. apply Forall_app. Qed.

Lemma bytes_ok_slice a b l : bytes_ok l -> bytes_ok (slice a b l).
Proof. intros H. apply Forall_take, Forall_drop, H. Qed.

Lemma arr_slice a b l :
  0 <= a <= b -> b <= len l -> bytes_ok l -> arr (b - a) (slice a b l).
Proof. intros. split; [by apply (len_slice a b l) | by apply bytes_ok_slice]. Qed.

Lemma arr_app n m l k : arr n l -> arr m k -> arr (n + m) (l ++ k).
Proof.
  intros [H1 H2] [H3 H4]. split.
  - rewrite length_app. lia.
  - by apply bytes_ok_app.
Qed.

Lemma byte_at_app_l (l k : list Z) i : 0 <= i < len l -> byte_at (l ++ k) i = byte_at l i.
Proof. unfold byte_at, len. intros. rewrite lookup_app_l by lia. done. Qed.

Lemma byte_at_app_r (l k : list Z) i : len l <= i -> byte_at (l ++ k) i = byte_at k (i - len l).
Proof.
  unfold byte_at, len. intros. rewrite lookup_app_r by lia. do 2 f_equal. lia.
Qed.

Lemma byte_at_u8 l i : bytes_ok l -> is_u8 (byte_at l i).
Proof.
  intros H. unfold byte_at. destruct (l !! Z.to_nat i) as [x|] eqn:E; cbn.
  - by apply (proj1 (Forall_lookup _ _) H _ _ E).
  - unfold is_u8. lia.
Qed.

(** ** Big-endian integers *)

Lemma len_to_be_bytes k n : len (to_be_bytes k n) = Z.of_nat k.
Proof.
  revert n. induction k as [|k IH]; intros n; [done |]. cbn [to_be_bytes].
  rewrite len_app, IH, len_cons, len_nil. lia.
Qed.

Lemma to_be_bytes_ok k n : bytes_ok (to_be_bytes k n).
Proof.
  revert n. induction k as [|k IH]; intros n; [constructor |]. cbn [to_be_bytes].
  apply bytes_ok_app. split; [apply IH |]. constructor; [| constructor].
  unfold is_u8. apply Z.mod_pos_bound. lia.
Qed.

Lemma from_be_bytes_app l b : from_be_bytes (l ++ [b]) = from_be_bytes l * 256 + b.
Proof. unfold from_be_bytes. by rewrite foldl_app. Qed.

Lemma from_to_be_bytes k n :
  0 <= n < 256 ^ Z.of_nat k -> from_be_bytes (to_be_bytes k n) = n.
Proof.
  revert n. induction k as [|k IH]; intros n Hn; cbn [to_be_bytes].
  - cbn in *. lia.
  - rewrite from_be_bytes_app, IH.
    + pose proof (Z.div_mod n 256). lia.
    + rewrite Nat2Z.inj_succ, Z.pow_succ_r in Hn by lia.
      split; [apply Z.div_pos; lia | apply Z.div_lt_upper_bound; lia].
Qed.

Lemma to_from_be_bytes l :
  bytes_ok l -> to_be_bytes (length l) (from_be_bytes l) = l.
Proof.
  induction l as [|b l IH] using rev_ind; intros H; [done |].
  apply bytes_ok_app in H as [Hl Hb]. apply Forall_cons in Hb as [Hb _].
  unfold is_u8 in Hb.
  rewrite length_app. cbn [length]. rewrite Nat.add_1_r. cbn [to_be_bytes].
  rewrite from_be_bytes_app.
  rewrite Z.div_add_l, (Z.div_small b), Z.add_0_r, IH by (lia || done).
  by rewrite Z.add_comm, Z.mod_add, Z.mod_small by lia.
Qed.

Lemma from_be_bytes_bound l :
  bytes_ok l -> 0 <= from_be_bytes l < 256 ^ len l.
Proof.
  induction l as [|b l IH] using rev_ind; intros H; [by split; vm_compute |].
  apply bytes_ok_app in H as [Hl Hb]. apply Forall_cons in Hb as [Hb _].
  unfold is_u8 in Hb. specialize (IH Hl).
  rewrite from_be_bytes_app, len_app.
  replace (len [b]) with 1 by done.
  rewrite Z.pow_add_r, Z.pow_1_r by (pose proof (len_nonneg l); lia). lia.
Qed.

(** ** Automation *)

Create HintDb rust.
#[export] Hint Resolve len_nonneg bytes_ok_slice byte_at_u8 to_be_bytes_ok : rust.

Create Rewrite HintDb lens.
#[export] Hint Rewrite @len_app @len_cons @len_nil len_to_be_bytes : lens.

(** Normalise lengths of concatenations, using the array hypotheses. *)
Ltac len_simp :=
  repeat match goal with
  | H : arr _ _ |- _ =>
      let L := fresh "Hlen" in pose proof (arr_len _ _ H) as L; destruct H
  end;
  autorewrite with lens in *.

Ltac len_solve := len_simp; lia.

(** Settle a decidable closed goal by evaluation. *)
Ltac decide_now := apply (bool_decide_unpack _); vm_compute; exact I.

(** Case analysis on the boolean tests of the source. *)
Ltac case_bool :=
  match goal with
  | |- context [Z.eqb ?a ?b] => destruct (Z.eqb_spec a b)
  | |- context [Z.ltb ?a ?b] => destruct (Z.ltb_spec a b)
  | |- context [Z.leb ?a ?b] => destruct (Z.leb_spec a b)
  | H : context [Z.eqb ?a ?b] |- _ => destruct (Z.eqb_spec a b)
  | H : context [Z.ltb ?a ?b] |- _ => destruct (Z.ltb_spec a b)
  | H : context [Z.leb ?a ?b] |- _ => destruct (Z.leb_spec a b)
  end.

Lemma rbind_ok {A B E} (r : result A E) (k : A -> result B E) b :
  rbind r k = Ok b <-> exists a, r = Ok a /\ k a = Ok b.
Proof. destruct r; cbn; naive_solver. Qed.
