(* ===== verification/WireFrame.v ===== *)
(** * The v1 wire frame, its MAC and its signature

    Models crates/syauth-core/src/frame.rs ([Frame], [FrameError], [encode],
    [body_bytes], [decode]), mac.rs ([compute_tag], [verify_tag]) and sign.rs
    ([sign_frame], [verify_frame]).  BLAKE3 and Ed25519 are crates of their
    own: they are the classes [Blake3] and [Ed25519], and what the code relies
    on is stated as the law classes [Blake3Laws] and [Ed25519Laws]. *)

From stdpp Require Import prelude list gmap strings.
From Stdlib Require Import ZArith Lia.
From S2P Require Import Prelude.

(** ** Layout constants *)

Definition SYAUTH_WIRE_VERSION_V1 : Z := 1.
Definition VERSION_LEN : Z := 1.
Definition NONCE_LEN : Z := 16.
Definition TAG_LEN : Z := 16.
Definition VERSION_OFFSET : Z := 0.
Definition NONCE_OFFSET : Z := VERSION_OFFSET + VERSION_LEN.
Definition PAYLOAD_OFFSET : Z := NONCE_OFFSET + NONCE_LEN.
Definition HEADER_LEN : Z := VERSION_LEN + NONCE_LEN.
Definition MIN_FRAME_LEN : Z := HEADER_LEN + TAG_LEN.
Definition MAX_PAYLOAD_LEN : Z := 4096.
Definition MAX_FRAME_LEN : Z := MIN_FRAME_LEN + MAX_PAYLOAD_LEN.
Definition SIGNATURE_LEN : Z := 64.
Definition BOND_KEY_BYTES : Z := 32.

(** Unfold the layout arithmetic before [lia]. *)
Ltac layout :=
  unfold MAX_FRAME_LEN, MIN_FRAME_LEN, HEADER_LEN, PAYLOAD_OFFSET, NONCE_OFFSET,
    VERSION_OFFSET, MAX_PAYLOAD_LEN, TAG_LEN, NONCE_LEN, VERSION_LEN in *.

(** ** Data *)

Record Frame := mkFrame {
  version : Z;
  nonce : list Z;
  payload : list Z;
  tag : list Z;
}.

Inductive FrameError :=
| TooShort (needed got : Z)
| BadVersion (v : Z)
| BadLength.

#[global] Instance FrameError_eq_dec : EqDecision FrameError.
Proof. solve_decision. Defined.
#[global] Instance Frame_eq_dec : EqDecision Frame.
Proof. solve_decision. Defined.

(** What the Rust types already say of a [Frame]: a [u8], two 16-byte arrays
    and a [Vec<u8>]. *)
Definition Frame_typed (f : Frame) : Prop :=
  is_u8 (version f) /\ arr NONCE_LEN (nonce f) /\ bytes_ok (payload f) /\ arr TAG_LEN (tag f).

(** A frame the peer accepts: typed, version 1 and a bounded payload. *)
Definition Frame_wf (f : Frame) : Prop :=
  Frame_typed f /\ version f = SYAUTH_WIRE_VERSION_V1 /\ len (payload f) <= MAX_PAYLOAD_LEN.

#[global] Instance Frame_wf_dec f : Decision (Frame_wf f).
Proof. unfold Frame_wf, Frame_typed, is_u8. apply _. Defined.

(** ** Operations

    [encode] appends to the caller's buffer, so the buffer is state. *)
Definition Frame_encode (self : Frame) (buf : list Z) : list Z * result unit FrameError :=
  if len (payload self) >? MAX_PAYLOAD_LEN then (buf, Err BadLength)
  else
    let buf := buf ++ [version self] in
    let buf := buf ++ nonce self in
    let buf := buf ++ payload self in
    let buf := buf ++ tag self in
    (buf, Ok tt).

Definition Frame_body_bytes (self : Frame) : result (list Z) FrameError :=
  if len (payload self) >? MAX_PAYLOAD_LEN then Err BadLength
  else
    let buf := [version self] in
    let buf := buf ++ nonce self in
    let buf := buf ++ payload self in
    Ok buf.

Definition Frame_decode (input : list Z) : result Frame FrameError :=
  if len input <? MIN_FRAME_LEN then Err (TooShort MIN_FRAME_LEN (len input))
  else
    let v := byte_at input VERSION_OFFSET in
    if negb (v =? SYAUTH_WIRE_VERSION_V1) then Err (BadVersion v)
    else
      let payload_len := len input - MIN_FRAME_LEN in
      if payload_len >? MAX_PAYLOAD_LEN then Err BadLength
      else
        let n := slice NONCE_OFFSET (NONCE_OFFSET + NONCE_LEN) input in
        let payload_end := PAYLOAD_OFFSET + payload_len in
        let p := slice PAYLOAD_OFFSET payload_end input in
        let t := slice payload_end (payload_end + TAG_LEN) input in
        Ok (mkFrame v n p t).

(** ** MAC *)

Class Blake3 := {
  blake3_hash : list Z -> list Z;
  blake3_keyed_hash : list Z -> list Z -> list Z;
}.

(** BLAKE3 outputs 32 bytes. *)
Class Blake3Laws (B : Blake3) : Prop := {
  blake3_hash_arr : forall m, arr 32 (blake3_hash m);
  blake3_keyed_hash_arr : forall k m, arr 32 (blake3_keyed_hash k m);
}.

Definition compute_tag `{Blake3} (bond_key frame_body : list Z) : list Z :=
  slice 0 TAG_LEN (blake3_keyed_hash bond_key frame_body).

(** [subtle::ConstantTimeEq] on two byte slices is byte equality. *)
Definition ct_eq (a b : list Z) : bool := bool_decide (a = b).

Definition verify_tag `{Blake3} (bond_key frame_body t : list Z) : bool :=
  ct_eq (compute_tag bond_key frame_body) t.

(** ** Signatures *)

Class Ed25519 := {
  SigningKey : Type;
  VerifyingKey : Type;
  Signature : Type;
  SignatureError : Type;
  verifying_key : SigningKey -> VerifyingKey;
  ed_sign : SigningKey -> list Z -> Signature;
  verify_strict : VerifyingKey -> list Z -> Signature -> result unit SignatureError;
  VerifyingKey_from_bytes : list Z -> result VerifyingKey SignatureError;
  VerifyingKey_to_bytes : VerifyingKey -> list Z;
  Signature_from_slice : list Z -> result Signature SignatureError;
  Signature_to_bytes : Signature -> list Z;
}.

(** Documented behaviour of ed25519-dalek the code relies on: a signature made
    by a key verifies under it, and keys and signatures survive their byte
    encodings. *)
Class Ed25519Laws (D : Ed25519) : Prop := {
  verify_sign : forall sk m, verify_strict (verifying_key sk) m (ed_sign sk m) = Ok tt;
  signature_roundtrip : forall s, Signature_from_slice (Signature_to_bytes s) = Ok s;
  signature_arr : forall s, arr SIGNATURE_LEN (Signature_to_bytes s);
  verifying_key_roundtrip :
    forall sk, VerifyingKey_from_bytes (VerifyingKey_to_bytes (verifying_key sk)) = Ok (verifying_key sk);
  verifying_key_arr : forall vk, arr 32 (VerifyingKey_to_bytes vk);
}.

Inductive VerifyError `{Ed25519} :=
| VerifySignature (e : SignatureError)
| BadEncoding (e : FrameError).

Definition sign_frame `{Ed25519} (privkey : SigningKey) (frame : Frame) : result Signature FrameError :=
  let? body := Frame_body_bytes frame in
  Ok (ed_sign privkey body).

Definition verify_frame `{Ed25519} (pubkey : VerifyingKey) (frame : Frame) (sig : Signature)
  : result unit VerifyError :=
  let? body := map_err BadEncoding (Frame_body_bytes frame) in
  let? _ := map_err VerifySignature (verify_strict pubkey body sig) in
  Ok tt.

(** ** Lemmas *)

Definition frame_wire (f : Frame) : list Z := [version f] ++ nonce f ++ payload f ++ tag f.

Lemma Frame_encode_ok f buf :
  len (payload f) <= MAX_PAYLOAD_LEN -> Frame_encode f buf = (buf ++ frame_wire f, Ok tt).
Proof.
  intros H. unfold Frame_encode, frame_wire.
  destruct (Z.gtb_spec (len (payload f)) MAX_PAYLOAD_LEN); [lia |].
  by rewrite <- !app_assoc.
Qed.

Lemma Frame_encode_err f buf :
  MAX_PAYLOAD_LEN < len (payload f) -> Frame_encode f buf = (buf, Err BadLength).
Proof.
  intros H. unfold Frame_encode.
  destruct (Z.gtb_spec (len (payload f)) MAX_PAYLOAD_LEN); [done | lia].
Qed.

Lemma Frame_body_ok f :
  len (payload f) <= MAX_PAYLOAD_LEN ->
  Frame_body_bytes f = Ok ([version f] ++ nonce f ++ payload f).
Proof.
  intros H. unfold Frame_body_bytes.
  destruct (Z.gtb_spec (len (payload f)) MAX_PAYLOAD_LEN); [lia |].
  by rewrite <- !app_assoc.
Qed.

Lemma len_frame_wire f :
  Frame_typed f -> len (frame_wire f) = MIN_FRAME_LEN + len (payload f).
Proof.
  intros (_ & Hn & _ & Ht). unfold frame_wire. layout. len_simp. lia.
Qed.

Lemma Frame_decode_wire f : Frame_wf f -> Frame_decode (frame_wire f) = Ok f.
Proof.
  intros (Ht & Hv & Hp). pose proof (len_frame_wire f Ht) as Hl.
  pose proof (len_nonneg (payload f)) as Hpos.
  destruct Ht as (_ & Hn & _ & Hg). apply arr_len in Hn, Hg.
  unfold Frame_decode. rewrite Hl.
  destruct (Z.ltb_spec (MIN_FRAME_LEN + len (payload f)) MIN_FRAME_LEN); [lia |].
  replace (byte_at (frame_wire f) VERSION_OFFSET) with (version f) by done.
  rewrite Hv, Z.eqb_refl. cbn [negb].
  destruct (Z.gtb_spec (MIN_FRAME_LEN + len (payload f) - MIN_FRAME_LEN) MAX_PAYLOAD_LEN);
    [lia |].
  rewrite <- Hv. unfold frame_wire. layout.
  rewrite !(slice_skip _ _ [version f]) by (rewrite len_cons, len_nil; lia).
  replace (len [version f]) with 1 by done.
  rewrite slice_prefix by lia.
  rewrite !(slice_skip _ _ (nonce f)) by lia. rewrite Hn.
  replace (0 + 1 + 16 - 1 - 16) with 0 by lia.
  rewrite slice_prefix by lia.
  rewrite (slice_skip _ _ (payload f)) by lia.
  match goal with |- context [slice ?a _ (tag f)] => replace a with 0 by lia end.
  rewrite slice_full by lia. by destruct f.
Qed.

(** Reassembling the four slices of an accepted input gives the input back. *)
Lemma Frame_decode_inv input f :
  Frame_decode input = Ok f ->
  frame_wire f = input /\ version f = SYAUTH_WIRE_VERSION_V1 /\
  len (nonce f) = NONCE_LEN /\ len (tag f) = TAG_LEN /\ len (payload f) <= MAX_PAYLOAD_LEN /\
  (bytes_ok input -> Frame_wf f).
Proof.
  unfold Frame_decode.
  destruct (Z.ltb_spec (len input) MIN_FRAME_LEN) as [|Hmin]; [done |].
  destruct (Z.eqb_spec (byte_at input VERSION_OFFSET) SYAUTH_WIRE_VERSION_V1) as [Hv|]; [| done].
  cbn [negb].
  destruct (Z.gtb_spec (len input - MIN_FRAME_LEN) MAX_PAYLOAD_LEN) as [|Hmax]; [done |].
  intros [= <-]. unfold frame_wire. cbn [version nonce payload tag].
  assert (Hw : [byte_at input VERSION_OFFSET] = slice 0 1 input).
  { layout. replace 1 with (0 + 1) by lia. symmetry. apply slice_byte. lia. }
  layout. rewrite !len_slice by lia.
  split; [| split; [done | split; [lia | split; [lia | split; [lia |]]]]].
  - rewrite Hw. rewrite !slice_cat by lia. apply slice_all. lia.
  - intros Hok. unfold Frame_wf, Frame_typed. cbn [version nonce payload tag]. layout.
    repeat split; rewrite ?len_slice by lia; auto with rust; try lia.
    all: try (apply byte_at_u8; done).
    all: try (fold (len (slice (0 + 1) (0 + 1 + 16) input)); rewrite len_slice; lia).
    all: match goal with |- Z.of_nat (length ?l) = _ => fold (len l); rewrite len_slice; lia end.
Qed.

Lemma compute_tag_arr `{Blake3Laws} k m : arr TAG_LEN (compute_tag k m).
Proof.
  destruct (blake3_keyed_hash_arr k m) as [Hl Hb]. unfold compute_tag.
  apply (arr_slice 0 16); [lia | unfold len; lia | done].
Qed.

Lemma body_bytes_inj f g b :
  arr NONCE_LEN (nonce f) -> arr NONCE_LEN (nonce g) ->
  Frame_body_bytes f = Ok b -> Frame_body_bytes g = Ok b ->
  version f = version g /\ nonce f = nonce g /\ payload f = payload g.
Proof.
  intros Hf Hg. unfold Frame_body_bytes.
  destruct (_ >? _); [done |]. destruct (_ >? _); [done |].
  intros [= <-] [= Hv E]. apply arr_len in Hf, Hg.
  apply app_inj_1 in E as [En Ep]; [done | unfold len in *; lia].
Qed.

(** ** Concrete primitives

    A small hash and a small signature scheme that satisfy the laws above, so
    that the theorems with such hypotheses are applied to a concrete input. *)
Module ToyCrypto.

Definition mix (l : list Z) : Z := foldl (fun a b => (a * 31 + b) mod 256) 7 l.

#[export] Instance toy_blake3 : Blake3 := {|
  blake3_hash m := replicate 32 (mix m);
  blake3_keyed_hash k m := replicate 32 (mix (k ++ m));
|}.

#[export] Instance toy_ed25519 : Ed25519 := {|
  SigningKey := bool;
  VerifyingKey := bool;
  Signature := bool * bool;
  SignatureError := unit;
  verifying_key := fun sk => sk;
  ed_sign := fun sk m => (sk, Z.odd (mix m));
  verify_strict := fun vk m s => if bool_decide (s = (vk, Z.odd (mix m))) then Ok tt else Err tt;
  VerifyingKey_from_bytes := fun l => if len l =? 32 then Ok (byte_at l 0 =? 1) else Err tt;
  VerifyingKey_to_bytes := fun vk => Z.b2z vk :: replicate 31 0;
  Signature_from_slice := fun l =>
    if len l =? 64 then Ok (byte_at l 0 =? 1, byte_at l 1 =? 1) else Err tt;
  Signature_to_bytes := fun s => Z.b2z (fst s) :: Z.b2z (snd s) :: replicate 62 0;
|}.

Lemma mix_u8 l : is_u8 (mix l).
Proof.
  unfold mix, is_u8. induction l as [|b l IH] using rev_ind; [cbn; lia |].
  rewrite foldl_app. cbn [foldl]. apply Z.mod_pos_bound. lia.
Qed.

Lemma toy_blake3_laws : Blake3Laws toy_blake3.
Proof.
  split; intros; (split; [reflexivity |]);
    apply Forall_replicate, mix_u8.
Qed.

Lemma toy_ed25519_laws : Ed25519Laws toy_ed25519.
Proof.
  split.
  - intros sk m. cbn. by rewrite bool_decide_true.
  - intros [[] []]; reflexivity.
  - intros [[] []]; by apply (bool_decide_unpack _).
  - intros []; reflexivity.
  - intros []; by apply (bool_decide_unpack _).
Qed.

End ToyCrypto.

(** ** Properties *)

(** Encoding a well-formed frame appends exactly its wire form to the
    buffer, and decoding that form returns the same frame. *)
Theorem frame_roundtrip (f : Frame) (buf : list Z) (H : Frame_wf f) :
  exists w, Frame_encode f buf = (buf ++ w, Ok tt) /\ Frame_decode w = Ok f.
Proof.
  exists (frame_wire f). split; [apply Frame_encode_ok, H | by apply Frame_decode_wire].
Qed.

Definition sample_frame : Frame :=
  mkFrame 1 (replicate 16 17) [34; 34; 34] (replicate 16 51).

Lemma frame_roundtrip_witness :
  Frame_wf sample_frame /\
  exists w, Frame_encode sample_frame [1; 2] = ([1; 2] ++ w, Ok tt) /\ Frame_decode w = Ok sample_frame.
Proof.
  assert (H : Frame_wf sample_frame) by (apply (bool_decide_unpack _); vm_compute; exact I).
  exact (conj H (frame_roundtrip sample_frame [1; 2] H)).
Defined.

(** The wire format is canonical: an accepted input is, byte for byte, the
    encoding of the frame it decodes to, so no two inputs decode to the same
    frame; and the frame is well formed when the input is made of octets. *)
Theorem frame_decode_canonical (input : list Z) (f : Frame) (H : Frame_decode input = Ok f) :
  Frame_encode f [] = (input, Ok tt) /\ (bytes_ok input -> Frame_wf f).
Proof.
  apply Frame_decode_inv in H as (Hw & _ & _ & _ & Hp & Hwf).
  split; [| done]. rewrite Frame_encode_ok by done. by rewrite Hw.
Qed.

Lemma frame_decode_canonical_witness :
  exists input, Frame_decode input = Ok sample_frame /\
    Frame_encode sample_frame [] = (input, Ok tt).
Proof.
  exists (frame_wire sample_frame).
  assert (H : Frame_decode (frame_wire sample_frame) = Ok sample_frame) by (vm_compute; reflexivity).
  split; [exact H |]. exact (proj1 (frame_decode_canonical _ _ H)).
Defined.

(** Decoding is total and its three errors partition the rejected inputs
    in the documented order: length below the minimum first, then the version
    byte, then an oversized payload; everything else is accepted. *)
Theorem frame_decode_errors (input : list Z) :
  (Frame_decode input = Err (TooShort MIN_FRAME_LEN (len input)) <-> len input < MIN_FRAME_LEN) /\
  (Frame_decode input = Err (BadVersion (byte_at input 0)) <->
     MIN_FRAME_LEN <= len input /\ byte_at input 0 <> SYAUTH_WIRE_VERSION_V1) /\
  (Frame_decode input = Err BadLength <->
     byte_at input 0 = SYAUTH_WIRE_VERSION_V1 /\ MAX_FRAME_LEN < len input) /\
  (is_ok (Frame_decode input) = true <->
     byte_at input 0 = SYAUTH_WIRE_VERSION_V1 /\ MIN_FRAME_LEN <= len input <= MAX_FRAME_LEN).
Proof.
  unfold Frame_decode. change VERSION_OFFSET with 0.
  destruct (Z.ltb_spec (len input) MIN_FRAME_LEN);
    [| destruct (Z.eqb_spec (byte_at input 0) SYAUTH_WIRE_VERSION_V1); cbn [negb];
       [destruct (Z.gtb_spec (len input - MIN_FRAME_LEN) MAX_PAYLOAD_LEN) |]];
    cbn [is_ok]; layout; repeat split; intros; try done; try lia; naive_solver lia.
Qed.

(** A frame whose payload exceeds the cap is refused by every operation
    that serialises it: [encode] leaves the caller's buffer untouched, and
    neither a signature nor a verification is attempted. *)
Theorem oversized_frame_refused `{Ed25519} (f : Frame) (buf : list Z) sk vk sig
    (H1 : MAX_PAYLOAD_LEN < len (payload f)) :
  Frame_encode f buf = (buf, Err BadLength) /\ Frame_body_bytes f = Err BadLength /\
  sign_frame sk f = Err BadLength /\ verify_frame vk f sig = Err (BadEncoding BadLength).
Proof.
  assert (Hb : Frame_body_bytes f = Err BadLength).
  { unfold Frame_body_bytes.
    destruct (Z.gtb_spec (len (payload f)) MAX_PAYLOAD_LEN); [done | lia]. }
  split; [by apply Frame_encode_err |]. unfold sign_frame, verify_frame. by rewrite Hb.
Qed.

Definition oversized_frame : Frame :=
  mkFrame 1 (replicate 16 0) (replicate (Z.to_nat 4097) 0) (replicate 16 0).

Lemma oversized_frame_refused_witness :
  Frame_encode oversized_frame [9] = ([9], Err BadLength).
Proof.
  assert (H : MAX_PAYLOAD_LEN < len (payload oversized_frame)) by (vm_compute; reflexivity).
  exact (proj1 (@oversized_frame_refused ToyCrypto.toy_ed25519 oversized_frame [9]
    true true (true, true) H)).
Defined.

(** Signing and verifying agree on what is signed: a signature made over a
    frame verifies under the matching key, and whatever frame it verifies for
    with the same signed bytes has the same version, nonce and payload, so
    the nonce of a challenge is bound by the signature. *)
Theorem sign_verify_roundtrip `{Ed25519Laws} (sk : SigningKey) (f g : Frame)
    (Hf : Frame_wf f) (Hg : Frame_wf g) :
  exists sig body, sign_frame sk f = Ok sig /\ verify_frame (verifying_key sk) f sig = Ok tt /\
    Frame_body_bytes f = Ok body /\
    (Frame_body_bytes g = Ok body -> version g = version f /\ nonce g = nonce f /\ payload g = payload f).
Proof.
  destruct Hf as ((_ & Hnf & _) & _ & Hp). destruct Hg as ((_ & Hng & _) & _ & _).
  unfold sign_frame, verify_frame. rewrite (Frame_body_ok f) by done. cbn [rbind map_err].
  eexists _, _. split; [done |]. rewrite verify_sign. cbn. split; [done |]. split; [done |].
  intros Hb. eapply body_bytes_inj; [exact Hng | exact Hnf | exact Hb |].
  by apply Frame_body_ok.
Qed.

Lemma sign_verify_roundtrip_witness :
  exists sig body,
    @sign_frame ToyCrypto.toy_ed25519 true sample_frame = Ok sig /\
    @verify_frame ToyCrypto.toy_ed25519 true sample_frame sig = Ok tt /\
    Frame_body_bytes sample_frame = Ok body /\
    (Frame_body_bytes sample_frame = Ok body -> version sample_frame = version sample_frame /\
      nonce sample_frame = nonce sample_frame /\ payload sample_frame = payload sample_frame).
Proof.
  assert (H : Frame_wf sample_frame) by (apply (bool_decide_unpack _); vm_compute; exact I).
  exact (@sign_verify_roundtrip _ ToyCrypto.toy_ed25519_laws true sample_frame sample_frame H H).
Defined.

(** The MAC check accepts exactly the tag [compute_tag] produces for that
    key and body, which is a 16-byte array, so a freshly tagged frame verifies
    and any other tag is rejected. *)
Theorem verify_tag_exact `{Blake3Laws} (bond_key body t : list Z) :
  (verify_tag bond_key body t = true <-> t = compute_tag bond_key body) /\
  arr TAG_LEN (compute_tag bond_key body).
Proof.
  split; [| apply compute_tag_arr]. unfold verify_tag, ct_eq.
  rewrite bool_decide_eq_true. naive_solver.
Qed.

Lemma verify_tag_exact_witness :
  (@verify_tag ToyCrypto.toy_blake3 [1] [2; 3] (replicate 16 5) = true <->
    replicate 16 5 = @compute_tag ToyCrypto.toy_blake3 [1] [2; 3]) /\
  arr TAG_LEN (@compute_tag ToyCrypto.toy_blake3 [1] [2; 3]).
Proof. exact (@verify_tag_exact _ ToyCrypto.toy_blake3_laws [1] [2; 3] (replicate 16 5)). Defined.
