(* ===== verification/Fs.v ===== *)
(** * The file system, with faults

    The part of [std::fs] (and of the [tempfile] crate) that
    crates/syauth-core/src/bond.rs and pair_recovery.rs call: absolute paths,
    files with bytes and a mode, directories with a mode.  Every system call
    consults a fault script: it may succeed, fail with an error (a write may fail
    half way), or be the call during which the process dies.  A program is then
    judged by what it leaves on disk on every script.

    Not modelled: symbolic links, ownership, access checks (the daemon and the
    CLI run as root) and the loss of completed but unsynced writes on a power
    cut. *)

From stdpp Require Import prelude list gmap strings.
From Stdlib Require Import ZArith Lia.
From S2P Require Import Prelude.

(** A Rust [String] or [&str]: its UTF-8 bytes. *)
Definition str : Type := list Z.

(** A string literal. *)
Definition lit (s : string) : str :=
  map (fun a => Z.of_nat (Ascii.nat_of_ascii a)) (String.list_ascii_of_string s).

(** [str::strip_prefix] *)
Fixpoint strip_prefix (prefix s : str) : option str :=
  match prefix, s with
  | [], _ => Some s
  | a :: prefix, b :: s => if a =? b then strip_prefix prefix s else None
  | _ :: _, [] => None
  end.

Lemma strip_prefix_inv p s r : strip_prefix p s = Some r -> s = p ++ r.
Proof.
  revert s. induction p as [| a p IH]; intros [| b s]; cbn; try naive_solver.
  destruct (Z.eqb_spec a b) as [-> |]; [| done]. intros H. by rewrite (IH s).
Qed.

(** An absolute path: its components; [[]] is the root. *)
Definition path : Type := list str.

(** [Path::join] with a plain file name, [Path::parent]. *)
Definition join (p : path) (name : str) : path := p ++ [name].
Definition parent (p : path) : option path :=
  match p with [] => None | _ => Some (removelast p) end.

Inductive node :=
| File (content : list Z) (mode : Z)
| Dir (mode : Z).

#[global] Instance node_eq_dec : EqDecision node.
Proof. solve_decision. Defined.

#[global] Instance path_eq_dec : EqDecision path.
Proof. unfold path, str. apply _. Defined.
#[global] Instance path_countable : Countable path.
Proof. unfold path, str. apply _. Defined.

Notation fs := (@gmap path path_eq_dec path_countable node).

(** [std::io::ErrorKind], the kinds the code or the calls distinguish. *)
Inductive ErrorKind :=
| NotFound | NotADirectory | IsADirectory | AlreadyExists | InvalidData | InvalidInput
| PermissionDenied | StorageFull | UnexpectedEof | WouldBlock | TimedOut | BrokenPipe | ConnectionRefused | OtherIo.

#[global] Instance ErrorKind_eq_dec : EqDecision ErrorKind.
Proof. solve_decision. Defined.

(** ** Programs *)

(** One entry per system call.  [progress] is how far a call that does not
    complete got: [None] not at all; [Some n] the first [n] bytes of a write,
    or an atomic call whose effect took place. *)
Inductive fault :=
| Fine
| Fails (k : ErrorKind) (progress : option nat)
| Dies (progress : option nat).

Record world := mkWorld { files : fs; script : list fault }.

Inductive outcome (A : Type) :=
| Ret (a : A)
| Killed
| Panicked.
Arguments Ret {A} a.
Arguments Killed {A}.
Arguments Panicked {A}.

Definition io (A : Type) : Type := world -> outcome A * world.

Definition iret {A} (a : A) : io A := fun w => (Ret a, w).
Definition ipanic {A} : io A := fun w => (Panicked, w).

Definition ibind {A B} (m : io A) (k : A -> io B) : io B := fun w =>
  match m w with
  | (Ret a, w') => k a w'
  | (Killed, w') => (Killed, w')
  | (Panicked, w') => (Panicked, w')
  end.

Notation "'let!' x ':=' e 'in' k" := (ibind e (fun x => k))
  (at level 200, x pattern, e at level 100, k at level 200, right associativity) : rust_scope.

(** [let x = e?; k], in a function that performs input and output. *)
Definition itry {A B E} (m : io (result A E)) (k : A -> io (result B E)) : io (result B E) :=
  ibind m (fun r => match r with Ok a => k a | Err e => iret (Err e) end).

Notation "'let!?' x ':=' e 'in' k" := (itry e (fun x => k))
  (at level 200, x pattern, e at level 100, k at level 200, right associativity) : rust_scope.

(** [e.map_err(f)] *)
Definition imap_err {A E F} (f : E -> F) (m : io (result A E)) : io (result A F) :=
  ibind m (fun r => iret (map_err f r)).

Definition next_fault (w : world) : fault * world :=
  match script w with
  | [] => (Fine, w)
  | f :: s => (f, mkWorld (files w) s)
  end.

Definition with_files (g : fs) (w : world) : world := mkWorld g (script w).

(** A call reports [NotFound] only for a path that is missing: a fault is
    another kind of error. *)
Definition fault_kind (k : ErrorKind) : ErrorKind :=
  match k with NotFound => OtherIo | _ => k end.

(** A call whose effect is atomic. *)
Definition syscall {A} (f : fs -> result A ErrorKind * fs) : io (result A ErrorKind) := fun w =>
  let '(flt, w) := next_fault w in
  match flt with
  | Fine => let '(r, g) := f (files w) in (Ret r, with_files g w)
  | Fails k _ => (Ret (Err (fault_kind k)), w)
  | Dies None => (Killed, w)
  | Dies (Some _) => (Killed, with_files (f (files w)).2 w)
  end.

(** ** Calls *)

(** Modes of new files and directories: [0o666] and [0o777] less the umask. *)
Class Umask := { file_mode : Z; dir_mode : Z }.

Section calls.
Context `{Umask}.

(** Walk the directories of a path. *)
Fixpoint resolve (g : fs) (pre rest : path) : result unit ErrorKind :=
  match rest with
  | [] => Ok tt
  | c :: rest =>
      match g !! (join pre c) with
      | Some (Dir _) => resolve g (join pre c) rest
      | Some (File _ _) => Err NotADirectory
      | None => Err NotFound
      end
  end.

Definition resolve_parent (g : fs) (p : path) : result unit ErrorKind :=
  match parent p with
  | None => Err InvalidInput
  | Some d => resolve g [] d
  end.

(** Is the byte string valid UTF-8?  [read_to_string] refuses other files. *)
Definition cont (b : Z) : bool := (128 <=? b) && (b <=? 191).

Fixpoint utf8 (l : list Z) : bool :=
  match l with
  | [] => true
  | a :: l1 =>
      if a <=? 127 then utf8 l1 else
      match l1 with
      | [] => false
      | b :: l2 =>
          if (194 <=? a) && (a <=? 223) && cont b then utf8 l2 else
          match l2 with
          | [] => false
          | c :: l3 =>
              if (((a =? 224) && (160 <=? b) && (b <=? 191)) ||
                  ((225 <=? a) && (a <=? 236) && cont b) ||
                  ((a =? 237) && (128 <=? b) && (b <=? 159)) ||
                  ((238 <=? a) && (a <=? 239) && cont b)) && cont c
              then utf8 l3 else
              match l3 with
              | [] => false
              | d :: l4 =>
                  if (((a =? 240) && (144 <=? b) && (b <=? 191)) ||
                      ((241 <=? a) && (a <=? 243) && cont b) ||
                      ((a =? 244) && (128 <=? b) && (b <=? 143))) && cont c && cont d
                  then utf8 l4 else false
              end
          end
      end
  end.

Definition read_op (p : path) (g : fs) : result (list Z) ErrorKind :=
  match g !! p with
  | Some (File c _) => Ok c
  | Some (Dir _) => Err IsADirectory
  | None => let? _ := resolve_parent g p in Err NotFound
  end.

(** [fs::read] *)
Definition fs_read (p : path) : io (result (list Z) ErrorKind) :=
  syscall (fun g => (read_op p g, g)).

(** [fs::read_to_string] *)
Definition fs_read_to_string (p : path) : io (result str ErrorKind) :=
  syscall (fun g => (let? c := read_op p g in if utf8 c then Ok c else Err InvalidData, g)).

Inductive file_type := IsDir | IsFile.

(** [fs::metadata]: the type and the mode. *)
Definition fs_metadata (p : path) : io (result (file_type * Z) ErrorKind) :=
  syscall (fun g =>
    (match p with
     | [] => Ok (IsDir, dir_mode)
     | _ =>
         let? _ := resolve_parent g p in
         match g !! p with
         | Some (Dir m) => Ok (IsDir, m)
         | Some (File _ m) => Ok (IsFile, m)
         | None => Err NotFound
         end
     end, g)).

(** [Path::exists] *)
Definition fs_exists (p : path) : io bool :=
  let! r := fs_metadata p in iret (is_ok r).

Definition set_permissions_op (p : path) (m : Z) (g : fs) : result unit ErrorKind * fs :=
  match resolve_parent g p with
  | Err e => (Err e, g)
  | Ok _ =>
      match g !! p with
      | Some (File c _) => (Ok tt, <[p := File c m]> g)
      | Some (Dir _) => (Ok tt, <[p := Dir m]> g)
      | None => (Err NotFound, g)
      end
  end.

(** [fs::set_permissions] *)
Definition fs_set_permissions (p : path) (m : Z) : io (result unit ErrorKind) :=
  syscall (set_permissions_op p m).

Definition mkdir_op (p : path) (g : fs) : result unit ErrorKind * fs :=
  match g !! p with
  | Some (Dir _) => (Ok tt, g)
  | Some (File _ _) => (Err AlreadyExists, g)
  | None => (Ok tt, <[p := Dir dir_mode]> g)
  end.

(** [fs::create_dir_all]: each missing directory, the outermost first. *)
Fixpoint create_dirs (pre rest : path) : io (result unit ErrorKind) :=
  match rest with
  | [] => iret (Ok tt)
  | c :: rest =>
      let!? _ := syscall (mkdir_op (join pre c)) in
      create_dirs (join pre c) rest
  end.

Definition fs_create_dir_all (p : path) : io (result unit ErrorKind) := create_dirs [] p.

Definition rename_op (a b : path) (g : fs) : result unit ErrorKind * fs :=
  match resolve_parent g a, resolve_parent g b with
  | Ok _, Ok _ =>
      match g !! a, g !! b with
      | None, _ => (Err NotFound, g)
      | Some (File _ _), Some (Dir _) => (Err IsADirectory, g)
      | Some (Dir _), _ => (Err OtherIo, g)
      | Some n, _ => (Ok tt, <[b := n]> (delete a g))
      end
  | Err e, _ | _, Err e => (Err e, g)
  end.

(** [fs::rename] (of a file). *)
Definition fs_rename (a b : path) : io (result unit ErrorKind) := syscall (rename_op a b).

Definition remove_op (p : path) (g : fs) : result unit ErrorKind * fs :=
  match resolve_parent g p with
  | Err e => (Err e, g)
  | Ok _ =>
      match g !! p with
      | Some (File _ _) => (Ok tt, delete p g)
      | Some (Dir _) => (Err IsADirectory, g)
      | None => (Err NotFound, g)
      end
  end.

(** [fs::remove_file] *)
Definition fs_remove_file (p : path) : io (result unit ErrorKind) := syscall (remove_op p).

(** Open for writing with truncation, then write [data]. *)
Definition write_op (p : path) (data : list Z) (g : fs) : result unit ErrorKind * fs :=
  match resolve_parent g p with
  | Err e => (Err e, g)
  | Ok _ =>
      match g !! p with
      | Some (Dir _) => (Err IsADirectory, g)
      | Some (File _ m) => (Ok tt, <[p := File data m]> g)
      | None => (Ok tt, <[p := File data file_mode]> g)
      end
  end.

(** [fs::write]; also [write_all] on a handle opened at [p]. *)
Definition fs_write (p : path) (data : list Z) : io (result unit ErrorKind) := fun w =>
  let '(flt, w) := next_fault w in
  match flt with
  | Fine => let '(r, g) := write_op p data (files w) in (Ret r, with_files g w)
  | Fails k None => (Ret (Err (fault_kind k)), w)
  | Fails k (Some n) => (Ret (Err (fault_kind k)), with_files (write_op p (take n data) (files w)).2 w)
  | Dies None => (Killed, w)
  | Dies (Some n) => (Killed, with_files (write_op p (take n data) (files w)).2 w)
  end.

(** [File::sync_all] *)
Definition fs_sync_all : io (result unit ErrorKind) := syscall (fun g => (Ok tt, g)).

End calls.

(** [NamedTempFile::new_in]: the [tempfile] crate creates a file that did not
    exist, with mode 0600 and a name of the form [.tmpXXXXXX]; the random part
    is a parameter. *)
Class Tempfile := { tmp_suffix : fs -> path -> str }.

Definition tmp_name `{Tempfile} (g : fs) (d : path) : str := lit ".tmp" ++ tmp_suffix g d.

Definition tmp_create_op `{Tempfile} (d : path) (g : fs) : result path ErrorKind * fs :=
  match resolve g [] d with
  | Err e => (Err e, g)
  | Ok _ =>
      let p := join d (tmp_name g d) in
      match g !! p with
      | None => (Ok p, <[p := File [] 384]> g)
      | Some _ => (Err AlreadyExists, g)
      end
  end.

Definition tmp_create `{Tempfile} (d : path) : io (result path ErrorKind) :=
  syscall (tmp_create_op d).

(** What the code relies on: the name is free. *)
Class TempfileLaws (T : Tempfile) : Prop :=
  { tmp_fresh : forall g d, g !! join d (tmp_name g d) = None }.

Lemma strip_prefix_app p s : strip_prefix p (p ++ s) = Some s.
Proof. induction p as [|a p IH]; [done |]. cbn. by rewrite Z.eqb_refl. Qed.

(** ** Frames: what a program can have changed

    [touches S m]: on every script, and also when it is killed or panics, [m]
    leaves every path outside [S] as it was. *)
Definition touches {A} (S : path -> Prop) (m : io A) : Prop :=
  forall w p, ~ S p -> files (m w).2 !! p = files w !! p.

Lemma touches_weaken {A} (S S' : path -> Prop) (m : io A) :
  touches S m -> (forall p, S p -> S' p) -> touches S' m.
Proof. intros H HS w p Hp. apply H. auto. Qed.

Lemma touches_ret {A} S (a : A) : touches S (iret a).
Proof. by intros w p _. Qed.

Lemma touches_panic {A} S : touches S (@ipanic A).
Proof. by intros w p _. Qed.

Lemma touches_bind {A B} S (m : io A) (k : A -> io B) :
  touches S m -> (forall a, touches S (k a)) -> touches S (ibind m k).
Proof.
  intros Hm Hk w p Hp. unfold ibind. pose proof (Hm w p Hp) as H.
  destruct (m w) as [[a| |] w'] eqn:E; cbn in *; [| done | done]. rewrite <- H. by apply Hk.
Qed.

Lemma touches_try {A B E} S (m : io (result A E)) (k : A -> io (result B E)) :
  touches S m -> (forall a, touches S (k a)) -> touches S (itry m k).
Proof. intros Hm Hk. apply touches_bind; [done |]. intros [a|e]; [apply Hk | apply touches_ret]. Qed.

Lemma touches_try_ok {A B E} S (a : A) (k : A -> io (result B E)) :
  touches S (k a) -> touches S (itry (iret (Ok a)) k).
Proof. done. Qed.

Lemma touches_map_err {A E F} S (f : E -> F) (m : io (result A E)) :
  touches S m -> touches S (imap_err f m).
Proof. intros Hm. apply touches_bind; [done |]. intros r. apply touches_ret. Qed.

Lemma next_fault_files w : files (next_fault w).2 = files w.
Proof. unfold next_fault. by destruct (script w). Qed.

Lemma touches_syscall {A} (S : path -> Prop) (f : fs -> result A ErrorKind * fs) :
  (forall g p, ~ S p -> (f g).2 !! p = g !! p) -> touches S (syscall f).
Proof.
  intros Hf w p Hp. unfold syscall. rewrite <- (next_fault_files w).
  destruct (next_fault w) as [[|k pr|[n|]] w1]; cbn; try done.
  - specialize (Hf (files w1) p Hp). by destruct (f (files w1)).
  - by apply Hf.
Qed.

(** Reduce a call to its effect on one file system. *)
Ltac op_cases :=
  repeat match goal with
  | |- context [match ?x with _ => _ end] => destruct x eqn:?; cbn [fst snd]
  end; try done; rewrite ?lookup_insert_ne, ?lookup_delete_ne by (intros ->; tauto); done.

Lemma touches_read p : touches (fun _ => False) (fs_read p).
Proof. by apply touches_syscall. Qed.

Lemma touches_read_to_string p : touches (fun _ => False) (fs_read_to_string p).
Proof. by apply touches_syscall. Qed.

Lemma touches_metadata `{Umask} p : touches (fun _ => False) (fs_metadata p).
Proof. by apply touches_syscall. Qed.

Lemma touches_exists `{Umask} p : touches (fun _ => False) (fs_exists p).
Proof. apply touches_bind; [apply touches_metadata | intros; apply touches_ret]. Qed.

Lemma touches_sync_all : touches (fun _ => False) fs_sync_all.
Proof. by apply touches_syscall. Qed.

Lemma touches_set_permissions p m : touches (eq p) (fs_set_permissions p m).
Proof. apply touches_syscall. intros g q Hq. unfold set_permissions_op. op_cases. Qed.

Lemma touches_rename a b : touches (fun q => q = a \/ q = b) (fs_rename a b).
Proof. apply touches_syscall. intros g q Hq. unfold rename_op. op_cases. Qed.

Lemma touches_remove_file p : touches (eq p) (fs_remove_file p).
Proof. apply touches_syscall. intros g q Hq. unfold remove_op. op_cases. Qed.

Lemma write_op_other `{Umask} p data g q : p <> q -> (write_op p data g).2 !! q = g !! q.
Proof. intros Hq. unfold write_op. op_cases. Qed.

Lemma touches_write `{Umask} p data : touches (eq p) (fs_write p data).
Proof.
  intros w q Hq. unfold fs_write. rewrite <- (next_fault_files w).
  destruct (next_fault w) as [[|k [n|]|[n|]] w1]; cbn; try done; try by apply write_op_other.
  pose proof (write_op_other p data (files w1) q Hq). by destruct (write_op _ _ _).
Qed.

(** [q] is [p] or one of its ancestors. *)
Definition ancestor (p q : path) : Prop := exists k, q <> [] /\ q ++ k = p.

Lemma touches_create_dirs `{Umask} pre rest : touches (ancestor (pre ++ rest)) (create_dirs pre rest).
Proof.
  revert pre. induction rest as [|c rest IH]; intros pre; [apply touches_ret |].
  cbn [create_dirs]. apply touches_try.
  - apply touches_syscall. intros g q Hq. unfold mkdir_op.
    destruct (g !! join pre c) as [[]|]; try done. cbn.
    rewrite lookup_insert_ne; [done |]. intros <-. apply Hq. exists rest.
    unfold join. split; [by destruct pre | by rewrite <- app_assoc].
  - intros _. specialize (IH (join pre c)). unfold join in *. by rewrite <- app_assoc in IH.
Qed.

Lemma touches_create_dir_all `{Umask} p : touches (ancestor p) (fs_create_dir_all p).
Proof. apply (touches_create_dirs [] p). Qed.

Lemma touches_tmp_create `{Tempfile} d :
  touches (fun q => exists s, q = join d (lit ".tmp" ++ s)) (tmp_create d).
Proof.
  apply touches_syscall. intros g q Hq. unfold tmp_create_op.
  destruct (resolve g [] d); [| done]. destruct (g !! _) eqn:?; [done |]. cbn.
  rewrite lookup_insert_ne; [done |]. intros <-. apply Hq. by eexists.
Qed.

(** ** Crash triples

    [ctriple P m Q R]: from a state with [P], if [m] returns [a] then [Q a]
    holds, and if it is killed or panics then [R] holds of what is on disk. *)
Definition ctriple {A : Type} (P : fs -> Prop) (m : io A) (Q : A -> fs -> Prop) (R : fs -> Prop) : Prop :=
  forall w, P (files w) ->
  match (m w).1 with
  | Ret a => Q a (files (m w).2)
  | Killed | Panicked => R (files (m w).2)
  end.

Lemma ctriple_ret {A : Type} (P : fs -> Prop) (a : A) Q R :
  (forall g, P g -> Q a g) -> ctriple P (iret a) Q R.
Proof. intros H w Hw. by apply H. Qed.

Lemma ctriple_conseq {A : Type} (P P' : fs -> Prop) (m : io A) (Q Q' : A -> fs -> Prop) (R R' : fs -> Prop) :
  ctriple P' m Q' R' -> (forall g, P g -> P' g) -> (forall a g, Q' a g -> Q a g) ->
  (forall g, R' g -> R g) -> ctriple P m Q R.
Proof.
  intros H HP HQ HR w Hw. specialize (H w (HP _ Hw)). destruct (m w).1; auto.
Qed.

Lemma ctriple_pure {A : Type} (phi : Prop) (P : fs -> Prop) (m : io A) Q R :
  (phi -> ctriple P m Q R) -> ctriple (fun g => phi /\ P g) m Q R.
Proof. intros H w [Hphi Hw]. by apply H. Qed.

Lemma ctriple_bind {A B : Type} P (m : io A) (k : A -> io B) (Q' : A -> fs -> Prop) Q R :
  ctriple P m Q' R -> (forall a, ctriple (Q' a) (k a) Q R) -> ctriple P (ibind m k) Q R.
Proof.
  intros Hm Hk w Hw. specialize (Hm w Hw). unfold ibind.
  destruct (m w) as [[a| |] w']; cbn in *; [by apply Hk | done | done].
Qed.

(** [let x = m?; k x]: an error goes straight to the postcondition. *)
Lemma ctriple_try {A B E : Type} P (m : io (result A E)) (k : A -> io (result B E)) (Q' : A -> fs -> Prop) Q R :
  ctriple P m (fun r g => match r with Ok a => Q' a g | Err e => Q (Err e) g end) R ->
  (forall a, ctriple (Q' a) (k a) Q R) -> ctriple P (itry m k) Q R.
Proof.
  intros Hm Hk. eapply ctriple_bind; [exact Hm |]. intros [a|e]; [apply Hk |].
  by apply ctriple_ret.
Qed.

Lemma ctriple_map_err {A E F : Type} P (f : E -> F) (m : io (result A E)) Q R :
  ctriple P m (fun r => Q (map_err f r)) R -> ctriple P (imap_err f m) Q R.
Proof. intros Hm. eapply ctriple_bind; [exact Hm |]. intros r. by apply ctriple_ret. Qed.

Lemma ctriple_syscall {A : Type} (P : fs -> Prop) (f : fs -> result A ErrorKind * fs) Q R :
  (forall g, P g -> Q (f g).1 (f g).2 /\ (forall k, Q (Err k) g) /\ R g /\ R (f g).2) ->
  ctriple P (syscall f) Q R.
Proof.
  intros H w Hw. specialize (H (files w) Hw). destruct H as (H1 & H2 & H3 & H4). unfold syscall.
  rewrite <- (next_fault_files w) in *.
  destruct (next_fault w) as [[|k pr|[n|]] w1]; cbn in *; auto. by destruct (f (files w1)).
Qed.

Lemma ctriple_write `{Umask} (P : fs -> Prop) p data Q R :
  (forall g, P g ->
     Q (write_op p data g).1 (write_op p data g).2 /\ (forall k, Q (Err k) g) /\ R g /\
     forall n, R (write_op p (take n data) g).2 /\ forall k, Q (Err k) (write_op p (take n data) g).2) ->
  ctriple P (fs_write p data) Q R.
Proof.
  intros Hf w Hw. specialize (Hf (files w) Hw). destruct Hf as (H1 & H2 & H3 & H4). unfold fs_write.
  rewrite <- (next_fault_files w) in *.
  destruct (next_fault w) as [[|k [n|]|[n|]] w1]; cbn in *; auto; try by apply H4.
  by destruct (write_op p data (files w1)).
Qed.

(** What a program does not touch it keeps. *)
Lemma ctriple_frame {A : Type} (S : path -> Prop) (m : io A) p n :
  touches S m -> ~ S p ->
  ctriple (fun g => g !! p = n) m (fun _ g => g !! p = n) (fun g => g !! p = n).
Proof. intros Hm Hp w Hw. pose proof (Hm w p Hp) as E. destruct (m w).1; congruence. Qed.

(** ** Runs without faults *)

Definition calm (g : fs) : world := mkWorld g [].

Lemma syscall_calm {A : Type} (f : fs -> result A ErrorKind * fs) g :
  syscall f (calm g) = (Ret (f g).1, calm (f g).2).
Proof. unfold syscall. cbn. by destruct (f g). Qed.

Lemma write_calm `{Umask} p data g :
  fs_write p data (calm g) = (Ret (write_op p data g).1, calm (write_op p data g).2).
Proof. unfold fs_write. cbn. by destruct (write_op p data g). Qed.

(** Every directory of [g] is one of [g']. *)
Definition dirs_kept (g g' : fs) : Prop :=
  forall q m, g !! q = Some (Dir m) -> exists m', g' !! q = Some (Dir m').

Lemma resolve_mono g g' pre rest :
  dirs_kept g g' -> resolve g pre rest = Ok tt -> resolve g' pre rest = Ok tt.
Proof.
  intros Hd. revert pre. induction rest as [|c rest IH]; intros pre; [done |]. cbn.
  destruct (g !! join pre c) as [[|m]|] eqn:E; try done.
  destruct (Hd _ _ E) as [m' ->]. apply IH.
Qed.

Definition not_dir (n : option node) : Prop := match n with Some (Dir _) => False | _ => True end.

Lemma dirs_kept_insert g p n : not_dir (g !! p) -> dirs_kept g (<[p := n]> g).
Proof.
  intros Hp q m Hq. exists m. rewrite lookup_insert_ne; [done |]. intros ->. by rewrite Hq in Hp.
Qed.

Lemma dirs_kept_delete g p : not_dir (g !! p) -> dirs_kept g (delete p g).
Proof.
  intros Hp q m Hq. exists m. rewrite lookup_delete_ne; [done |]. intros ->. by rewrite Hq in Hp.
Qed.

Lemma dirs_kept_trans g1 g2 g3 : dirs_kept g1 g2 -> dirs_kept g2 g3 -> dirs_kept g1 g3.
Proof. intros H1 H2 q m Hq. destruct (H1 _ _ Hq) as [m' Hm]. eauto. Qed.

Lemma parent_join d n : parent (join d n) = Some d.
Proof.
  unfold parent, join. destruct (d ++ [n]) eqn:E; [by destruct d |].
  rewrite <- E. by rewrite removelast_last.
Qed.

Lemma join_inj d n d' n' : join d n = join d' n' -> d = d' /\ n = n'.
Proof. unfold join. apply app_inj_tail. Qed.

Lemma join_not_ancestor d n : ~ ancestor d (join d n).
Proof.
  intros (k & _ & E). unfold join in E. apply (f_equal length) in E.
  rewrite !length_app in E. cbn in E. lia.
Qed.

(** A concrete [tempfile]: a suffix no file of the directory has. *)
Module ToyTempfile.

#[export] Instance toy_tempfile : Tempfile := {|
  tmp_suffix g d := fresh (map (fun p => drop 4 (List.last p [])) (elements (dom g)));
|}.

Lemma toy_tempfile_laws : TempfileLaws toy_tempfile.
Proof.
  split. intros g d. apply not_elem_of_dom. intros Hd. unfold tmp_name in Hd.
  apply elem_of_elements, (list_elem_of_fmap_2 (fun p => drop 4 (List.last p []))) in Hd.
  unfold join in Hd. rewrite last_last in Hd. revert Hd. apply infinite_is_fresh.
Qed.

#[export] Instance toy_umask : Umask := {| file_mode := 420; dir_mode := 493 |}.

End ToyTempfile.

(** ** Automation *)

Create HintDb frame.
#[export] Hint Resolve touches_ret touches_panic touches_read touches_read_to_string touches_metadata
  touches_exists touches_sync_all touches_set_permissions touches_rename touches_remove_file
  touches_write touches_create_dir_all touches_tmp_create : frame.

(** Split a program into its calls and look each frame up. *)
Ltac touch_step :=
  first
    [ apply touches_ret
    | apply touches_panic
    | apply touches_try; [| intros ?]
    | apply touches_map_err
    | apply touches_bind; [| intros ?]
    | solve [eapply touches_weaken; [solve [eauto with frame] | cbn; naive_solver]]
    | match goal with |- touches _ (match ?x with _ => _ end) => destruct x end ].

Ltac touch := repeat touch_step.

(** ** Directories that are ready to hold files *)

Lemma resolve_app g pre a b :
  resolve g pre (a ++ b) = Ok tt -> resolve g pre a = Ok tt /\ resolve g (pre ++ a) b = Ok tt.
Proof.
  revert pre. induction a as [|c a IH]; intros pre; [by rewrite app_nil_r |]. cbn.
  destruct (g !! join pre c) as [[|m]|]; try done. intros Hr. apply IH in Hr as [Ha Hb].
  unfold join in Hb. rewrite <- app_assoc in Hb. done.
Qed.

Lemma resolve_parent_dir g (d : path) :
  d <> [] -> resolve g [] d = Ok tt -> resolve_parent g d = Ok tt.
Proof.
  intros Hd Hr. destruct (exists_last Hd) as (d' & c & ->). unfold resolve_parent.
  fold (join d' c) in *. rewrite parent_join. unfold join in Hr. by apply resolve_app in Hr as [? _].
Qed.

Lemma resolve_parent_join g d n : resolve_parent g (join d n) = resolve g [] d.
Proof. unfold resolve_parent. by rewrite parent_join. Qed.

(** Calls on a file of a directory that resolves. *)
Section ready.
Context `{Umask} (g : fs) (d : path) (Hd : resolve g [] d = Ok tt).

Lemma write_op_ready n data :
  not_dir (g !! join d n) ->
  write_op (join d n) data g =
    (Ok tt, <[join d n := File data (match g !! join d n with Some (File _ m) => m | _ => file_mode end)]> g).
Proof.
  intros Hn. unfold write_op. rewrite resolve_parent_join, Hd. by destruct (g !! join d n) as [[]|].
Qed.

Lemma set_permissions_op_ready n c m m' :
  g !! join d n = Some (File c m) ->
  set_permissions_op (join d n) m' g = (Ok tt, <[join d n := File c m']> g).
Proof. intros E. unfold set_permissions_op. by rewrite resolve_parent_join, Hd, E. Qed.

Lemma rename_op_ready a b c m :
  g !! join d a = Some (File c m) -> not_dir (g !! join d b) ->
  rename_op (join d a) (join d b) g = (Ok tt, <[join d b := File c m]> (delete (join d a) g)).
Proof.
  intros Ea Hb. unfold rename_op. rewrite !resolve_parent_join, Hd, Ea.
  by destruct (g !! join d b) as [[]|].
Qed.

Lemma remove_op_ready n c m :
  g !! join d n = Some (File c m) -> remove_op (join d n) g = (Ok tt, delete (join d n) g).
Proof. intros E. unfold remove_op. by rewrite resolve_parent_join, Hd, E. Qed.

Lemma read_op_missing n : g !! join d n = None -> read_op (join d n) g = Err NotFound.
Proof. intros E. unfold read_op. by rewrite E, resolve_parent_join, Hd. Qed.
End ready.

Lemma read_op_file g p c m : g !! p = Some (File c m) -> read_op p g = Ok c.
Proof. intros E. unfold read_op. by rewrite E. Qed.

(** A predicate that a change inside [S] cannot disturb. *)
Definition stable (S : path -> Prop) (F : fs -> Prop) : Prop :=
  forall g g', (forall q, ~ S q -> g' !! q = g !! q) -> F g -> F g'.

Lemma stable_lookup (S : path -> Prop) p (Q : option node -> Prop) : ~ S p -> stable S (fun g => Q (g !! p)).
Proof. intros Hp g g' Hg. by rewrite (Hg p Hp). Qed.

Lemma stable_and S F G : stable S F -> stable S G -> stable S (fun g => F g /\ G g).
Proof. intros HF HG g g' Hg [? ?]. split; [by eapply HF | by eapply HG]. Qed.

(** The frame rule: what [m] proves, plus what it cannot disturb. *)
Lemma ctriple_keep {A : Type} (S : path -> Prop) (F P : fs -> Prop) (m : io A) Q R :
  touches S m -> stable S F -> ctriple P m Q R ->
  ctriple (fun g => P g /\ F g) m (fun a g => Q a g /\ F g) (fun g => R g /\ F g).
Proof.
  intros Ht Hs Hm w [HP HF]. specialize (Hm w HP).
  assert (F (files (m w).2)) by (apply (Hs (files w)); [intros q Hq; by apply Ht | done]).
  destruct (m w).1; auto.
Qed.

Lemma ctriple_stable {A : Type} (S : path -> Prop) (F : fs -> Prop) (m : io A) :
  touches S m -> stable S F -> ctriple F m (fun _ => F) F.
Proof.
  intros Ht Hs w HF. assert (F (files (m w).2)) by (apply (Hs (files w)); [intros q Hq; by apply Ht | done]).
  by destruct (m w).1.
Qed.

Lemma ctriple_stable_try {A B E : Type} (S : path -> Prop) (F : fs -> Prop) (m : io (result A E))
    (k : A -> io (result B E)) Q (R : fs -> Prop) :
  touches S m -> stable S F -> (forall g, F g -> R g) -> (forall g e, F g -> Q (Err e) g) ->
  (forall a, ctriple F (k a) Q R) -> ctriple F (itry m k) Q R.
Proof.
  intros Ht Hs HR HQ Hk. apply (ctriple_try F m k (fun _ => F)); [| exact Hk].
  eapply ctriple_conseq; [by apply (ctriple_stable S F) | done | | done]. intros [a|e] g HF; auto.
Qed.

Lemma exists_triple `{Umask} (F : fs -> Prop) p :
  ctriple F (fs_exists p) (fun b g => F g /\ (b = true -> p = [] \/ g !! p <> None)) F.
Proof.
  unfold fs_exists, fs_metadata. eapply (ctriple_bind _ _ _ (fun r g => F g /\ (is_ok r = true -> p = [] \/ g !! p <> None))).
  - apply ctriple_syscall. intros g HF. cbn. split_and!; auto; try done.
    destruct p as [|c p]; [by auto |]. intros Hok. right. intros E. rewrite E in Hok.
    by destruct (resolve_parent g (c :: p)).
  - intros r. apply ctriple_ret. by intros g [? ?].
Qed.

Lemma read_triple (F : fs -> Prop) p :
  ctriple F (fs_read p)
    (fun r g => F g /\ forall c, r = Ok c -> exists m, g !! p = Some (File c m)) F.
Proof.
  apply ctriple_syscall. intros g HF. cbn. split_and!; auto; try done. unfold read_op.
  intros c. destruct (g !! p) as [[c' m|m]|]; try done; [| by destruct (resolve_parent g p)].
  intros [= ->]. eauto.
Qed.

(** Write a file, set its mode and rename it: the target is replaced whole. *)
Lemma install_triple `{Umask} (F : fs -> Prop) tmp p data mode :
  stable (fun q => q = tmp) F ->
  ctriple F (let!? _ := fs_write tmp data in let!? _ := fs_set_permissions tmp mode in fs_rename tmp p)
    (fun r g => match r with
                | Ok _ => g !! p = Some (File data mode) /\
                          exists g1, F g1 /\ g1 !! tmp = Some (File data mode) /\ g = <[p := File data mode]> (delete tmp g1)
                | Err _ => F g
                end)
    (fun g => F g \/ exists g1, F g1 /\ g1 !! tmp = Some (File data mode) /\ g = <[p := File data mode]> (delete tmp g1)).
Proof.
  intros Hs.
  assert (Hi : forall g n, F g -> F (<[tmp := n]> g)).
  { intros g n HF. apply (Hs g); [| done]. intros q Hq. by apply lookup_insert_ne. }
  eapply (ctriple_try _ _ _ (fun _ g => F g /\ exists m, g !! tmp = Some (File data m))).
  { apply ctriple_write. intros g HF.
    assert (Hw : forall x, F (write_op tmp x g).2).
    { intros x. unfold write_op. destruct (resolve_parent g tmp); [| done].
      destruct (g !! tmp) as [[]|]; cbn; auto. }
    split_and!; auto. unfold write_op. destruct (resolve_parent g tmp); [| done].
    destruct (g !! tmp) as [[c m|m]|]; cbn; try done; split; auto; rewrite lookup_insert_eq; eauto. }
  intros _. eapply (ctriple_try _ _ _ (fun _ g => F g /\ g !! tmp = Some (File data mode))).
  { apply ctriple_syscall. intros g [HF [m Hm]]. unfold set_permissions_op.
    destruct (resolve_parent g tmp); [| by auto]. rewrite Hm. cbn. rewrite lookup_insert_eq. split_and!; auto. }
  intros _. apply ctriple_syscall. intros g [HF Hm]. unfold rename_op.
  destruct (resolve_parent g tmp), (resolve_parent g p); try (by auto). rewrite Hm.
  destruct (g !! p) as [[c m|m]|]; cbn; rewrite ?lookup_insert_eq; split_and!; eauto.
Qed.

Lemma ctriple_ext {A : Type} P (m m' : io A) Q R :
  (forall w, m' w = m w) -> ctriple P m Q R -> ctriple P m' Q R.
Proof. intros He Hm w HP. rewrite He. by apply Hm. Qed.

(** The errors of a sequence of calls, converted one by one. *)
Lemma install_triple_err `{Umask} {E : Type} (f : ErrorKind -> E) P tmp p data mode Q R :
  ctriple P (imap_err f (let!? _ := fs_write tmp data in let!? _ := fs_set_permissions tmp mode in fs_rename tmp p)) Q R ->
  ctriple P (let!? _ := imap_err f (fs_write tmp data) in
             let!? _ := imap_err f (fs_set_permissions tmp mode) in
             imap_err f (fs_rename tmp p)) Q R.
Proof.
  apply ctriple_ext. intros w. unfold itry, imap_err, ibind.
  destruct (fs_write tmp data w) as [[[]| |] w1]; cbn; try done.
  by destruct (fs_set_permissions tmp mode w1) as [[[]| |] w2].
Qed.

(** ** Directories and installs without faults *)

Lemma create_dirs_calm `{Umask} g pre rest :
  resolve g pre rest = Ok tt -> create_dirs pre rest (calm g) = (Ret (Ok tt), calm g).
Proof.
  revert pre. induction rest as [|c rest IH]; intros pre Hr; [done |]. cbn in *.
  destruct (g !! join pre c) as [[|m]|] eqn:E; try done. unfold itry, ibind.
  rewrite syscall_calm. unfold mkdir_op. rewrite E. cbn. by apply IH.
Qed.

Lemma resolve_last g d c : resolve g [] (join d c) = Ok tt -> exists m, g !! join d c = Some (Dir m).
Proof.
  unfold join. intros Hr. apply resolve_app in Hr as [_ Hr]. cbn [resolve app] in Hr.
  fold (join d c) in *. destruct (g !! join d c) as [[x y|m]|]; try done. by exists m.
Qed.

Lemma resolve_prefix g d c : resolve g [] (join d c) = Ok tt -> resolve g [] d = Ok tt.
Proof. unfold join. intros Hr. by apply resolve_app in Hr as [? _]. Qed.

(** Setting the mode of a directory keeps every directory. *)
Lemma chmod_dir_calm g (d : path) m m' :
  d <> [] -> resolve g [] d = Ok tt -> g !! d = Some (Dir m) ->
  fs_set_permissions d m' (calm g) = (Ret (Ok tt), calm (<[d := Dir m']> g)) /\
  dirs_kept g (<[d := Dir m']> g).
Proof.
  intros Hd Hr Hm. split.
  - unfold fs_set_permissions. rewrite syscall_calm. unfold set_permissions_op.
    by rewrite (resolve_parent_dir _ _ Hd Hr), Hm.
  - intros q k Hq. destruct (decide (q = d)) as [-> | Hne]; [exists m'; apply lookup_insert_eq |].
    exists k. by rewrite lookup_insert_ne.
Qed.

Lemma install_calm `{Umask} g d a b data mode :
  resolve g [] d = Ok tt -> not_dir (g !! join d a) -> not_dir (g !! join d b) -> a <> b ->
  (let!? _ := fs_write (join d a) data in
   let!? _ := fs_set_permissions (join d a) mode in
   fs_rename (join d a) (join d b)) (calm g) =
    (Ret (Ok tt), calm (<[join d b := File data mode]> (delete (join d a) g))).
Proof.
  intros Hd Ha Hb Hne. unfold itry, ibind. rewrite write_calm, (write_op_ready g d Hd) by done. cbn [fst snd].
  set (m0 := match g !! join d a with Some (File _ m) => m | _ => file_mode end).
  set (g1 := <[join d a := File data m0]> g).
  assert (R1 : resolve g1 [] d = Ok tt) by (apply (resolve_mono g); [by apply dirs_kept_insert | done]).
  unfold fs_set_permissions, fs_rename.
  rewrite syscall_calm, (set_permissions_op_ready g1 d R1 a data m0) by apply lookup_insert_eq. cbn [fst snd].
  unfold g1. rewrite insert_insert_eq. set (g2 := <[join d a := File data mode]> g).
  assert (R2 : resolve g2 [] d = Ok tt) by (apply (resolve_mono g); [by apply dirs_kept_insert | done]).
  rewrite syscall_calm, (rename_op_ready g2 d R2 a b data mode).
  - cbn [fst snd]. unfold g2. by rewrite delete_insert_eq.
  - apply lookup_insert_eq.
  - unfold g2. rewrite lookup_insert_ne; [done |]. by intros [_ E] % join_inj.
Qed.

(** One call of a sequence that succeeds. *)
Lemma itry_ok {A B E : Type} (m : io (result A E)) (k : A -> io (result B E)) w a w' :
  m w = (Ret (Ok a), w') -> itry m k w = k a w'.
Proof. intros H. unfold itry, ibind. by rewrite H. Qed.

Lemma itry_map_ok {A B E F : Type} (f : E -> F) (m : io (result A E)) (k : A -> io (result B F)) w a w' :
  m w = (Ret (Ok a), w') -> itry (imap_err f m) k w = k a w'.
Proof. intros H. apply itry_ok. unfold imap_err, ibind. by rewrite H. Qed.

Lemma install_calm_then `{Umask} {B E : Type} (f : ErrorKind -> E) tmp p data mode (k : unit -> io (result B E)) w g' :
  (let!? _ := fs_write tmp data in let!? _ := fs_set_permissions tmp mode in fs_rename tmp p) w
    = (Ret (Ok tt), calm g') ->
  (let!? _ := imap_err f (fs_write tmp data) in
   let!? _ := imap_err f (fs_set_permissions tmp mode) in
   let!? u := imap_err f (fs_rename tmp p) in k u) w = k tt (calm g').
Proof.
  unfold itry, imap_err, ibind.
  destruct (fs_write tmp data w) as [[[]| |] w1]; cbn; try done.
  destruct (fs_set_permissions tmp mode w1) as [[[]| |] w2]; cbn; try done.
  by destruct (fs_rename tmp p w2) as [[[]| |] w3]; cbn; intros [= -> ->].
Qed.

Lemma install_calm_last `{Umask} {E : Type} (f : ErrorKind -> E) tmp p data mode w g' :
  (let!? _ := fs_write tmp data in let!? _ := fs_set_permissions tmp mode in fs_rename tmp p) w
    = (Ret (Ok tt), calm g') ->
  (let!? _ := imap_err f (fs_write tmp data) in
   let!? _ := imap_err f (fs_set_permissions tmp mode) in
   imap_err f (fs_rename tmp p)) w = (Ret (Ok tt), calm g').
Proof.
  unfold itry, imap_err, ibind.
  destruct (fs_write tmp data w) as [[[]| |] w1]; cbn; try done.
  destruct (fs_set_permissions tmp mode w1) as [[[]| |] w2]; cbn; try done.
  by destruct (fs_rename tmp p w2) as [[[]| |] w3]; cbn; intros [= -> ->].
Qed.

Lemma remove_calm g d n c m :
  resolve g [] d = Ok tt -> g !! join d n = Some (File c m) ->
  fs_remove_file (join d n) (calm g) = (Ret (Ok tt), calm (delete (join d n) g)).
Proof.
  intros Hd Hf. unfold fs_remove_file. by rewrite syscall_calm, (remove_op_ready g d Hd _ _ _ Hf).
Qed.

Lemma exists_calm `{Umask} g d n :
  resolve g [] d = Ok tt ->
  fs_exists (join d n) (calm g) = (Ret (bool_decide (is_Some (g !! join d n))), calm g).
Proof.
  intros Hd. unfold fs_exists, fs_metadata, ibind. rewrite syscall_calm. cbn [fst snd].
  destruct (join d n) eqn:E; [by destruct d |]. rewrite <- E, resolve_parent_join, Hd. cbn [rbind].
  by destruct (g !! join d n) as [[]|].
Qed.
