(* ===== verification/Bond.v ===== *)
(** * The bond store

    Models crates/syauth-core/src/bond.rs: peer identifiers and bond keys, the
    in-memory [BondStore] and its operations, and its persistence ([load],
    [save]) on the file system of Fs.v.  TOML, RFC 3339 times and HKDF are other
    crates: they are classes here, with the documented behaviour the store relies
    on as law classes. *)

From stdpp Require Import prelude list gmap strings.
From Stdlib Require Import ZArith Lia.
From S2P Require Import Prelude WireFrame Fs.

Definition PUBKEY_LEN : Z := 32.
Definition PEER_ID_BLAKE3_BYTES : Z := 16.
Definition PEER_ID_HEX_LEN : Z := PEER_ID_BLAKE3_BYTES * 2.
Definition BOND_FILE_MODE : Z := 384.
Definition BOND_DIR_MODE : Z := 448.
Definition BOND_SCHEMA_VERSION_LATEST : Z := 1.
Definition BOND_HKDF_INFO_V1 : list Z := lit "syauth-bond-v1".
Definition BOND_KEY_DERIVED_BYTES : Z := 32.
Definition BOND_DIR_PERMISSION_MASK : Z := 511.

(** ** External crates *)

(** [hkdf::Hkdf::<Sha256>]: extract with an optional salt, expand to a length. *)
Class Hkdf := { hkdf_sha256 : option (list Z) -> list Z -> list Z -> Z -> option (list Z) }.

(** RFC 5869: expansion succeeds up to 255 blocks of 32 bytes. *)
Class HkdfLaws (H : Hkdf) : Prop :=
  { hkdf_expands : forall salt ikm info n, 0 <= n <= 8160 ->
      exists okm, hkdf_sha256 salt ikm info n = Some okm /\ arr n okm }.

(** [time::OffsetDateTime] and its RFC 3339 formatting. *)
Class Chrono := {
  OffsetDateTime : Type;
  OffsetDateTime_eq_dec :: EqDecision OffsetDateTime;
  rfc3339_format : OffsetDateTime -> option str;
  rfc3339_parse : str -> option OffsetDateTime;
}.

Class ChronoLaws (C : Chrono) : Prop :=
  { rfc3339_roundtrip : forall d s, rfc3339_format d = Some s -> rfc3339_parse s = Some d }.

Inductive BondStatus := StBonded | StRevoked (reason : str).

#[global] Instance BondStatus_eq_dec : EqDecision BondStatus.
Proof. solve_decision. Defined.

(** The document TOML carries: a [[bond]] table with its values as strings. *)
Record RawBond := mkRawBond {
  raw_peer_id : str;
  raw_pubkey : str;
  raw_name : str;
  raw_created_at : str;
  raw_status : BondStatus;
}.

Record RawBondFile := mkRawBondFile { raw_schema_version : Z; raw_bonds : list RawBond }.

(** [toml::to_string] and [toml::from_str] at this document type. *)
Class Toml := {
  toml_to_string : RawBondFile -> option str;
  toml_from_str : str -> option RawBondFile;
}.

Class TomlLaws (T : Toml) : Prop := {
  toml_roundtrip : forall f s, toml_to_string f = Some s -> toml_from_str s = Some f;
  toml_utf8 : forall f s, toml_to_string f = Some s -> utf8 s = true;
}.

(** ** Hexadecimal *)

Definition HEX_CHARS : list Z := lit "0123456789abcdef".

Definition hex_lowercase (bytes : list Z) : str :=
  concat (map (fun b => [byte_at HEX_CHARS (Z.shiftr b 4); byte_at HEX_CHARS (Z.land b 15)]) bytes).

(** [char::to_digit(16)] *)
Definition hex_digit (c : Z) : option Z :=
  if (48 <=? c) && (c <=? 57) then Some (c - 48)
  else if (97 <=? c) && (c <=? 102) then Some (c - 87)
  else if (65 <=? c) && (c <=? 70) then Some (c - 55)
  else None.

Fixpoint digits_to_u8 (acc : Z) (s : str) : option Z :=
  match s with
  | [] => Some acc
  | c :: s =>
      match hex_digit c with
      | None => None
      | Some d => if acc * 16 + d <=? 255 then digits_to_u8 (acc * 16 + d) s else None
      end
  end.

(** [u8::from_str_radix(_, 16)]: a leading plus sign is accepted. *)
Definition u8_from_str_radix_16 (s : str) : option Z :=
  match s with
  | [] => None
  | [c] => if (c =? 43) || (c =? 45) then None else digits_to_u8 0 s
  | c :: rest => if c =? 43 then digits_to_u8 0 rest else digits_to_u8 0 s
  end.

(** [&s[a..b]] on a [str]; [None] is the panic of a bad boundary. *)
Definition is_char_boundary (s : str) (i : Z) : bool :=
  (i =? 0) || (i =? len s) || ((i <? len s) && negb (cont (byte_at s i))).

Definition str_slice (a b : Z) (s : str) : option str :=
  if (0 <=? a) && (a <=? b) && (b <=? len s) && is_char_boundary s a && is_char_boundary s b
  then Some (slice a b s) else None.

(** [for (i, out) in array.iter_mut().enumerate()] over the hex pairs of [raw]. *)
Fixpoint hex_bytes (raw : str) (k : nat) (i : Z) : io (result (list Z) unit) :=
  match k with
  | O => iret (Ok [])
  | S k =>
      match str_slice (i * 2) (i * 2 + 2) raw with
      | None => ipanic
      | Some two =>
          match u8_from_str_radix_16 two with
          | None => iret (Err tt)
          | Some b => let!? rest := hex_bytes raw k (i + 1) in iret (Ok (b :: rest))
          end
      end
  end.

Definition hex_pubkey_serialize (bytes : list Z) : str := hex_lowercase bytes.

Definition hex_pubkey_deserialize (raw : str) : io (result (list Z) unit) :=
  if negb (len raw =? PUBKEY_LEN * 2) then iret (Err tt) else hex_bytes raw 32 0.

(** ** Identifiers and keys *)

Definition peer_id_from_pubkey `{Blake3} (pubkey : list Z) : str :=
  let hash := blake3_hash pubkey in
  let bytes := slice 0 PEER_ID_BLAKE3_BYTES hash in
  hex_lowercase bytes.

Definition bond_key_from_pubkeys `{Hkdf} (host_pubkey phone_pubkey : list Z) : list Z :=
  let ikm := host_pubkey ++ phone_pubkey in
  match hkdf_sha256 None ikm BOND_HKDF_INFO_V1 BOND_KEY_DERIVED_BYTES with
  | Some out => out
  | None => replicate 32 0
  end.

Section bonds.
Context `{Blake3, Chrono, Toml, Umask, Tempfile}.

Record Bond := mkBond {
  peer_id : str;
  pubkey : list Z;
  name : str;
  created_at : OffsetDateTime;
  status : BondStatus;
}.

#[global] Instance Bond_eq_dec : EqDecision Bond.
Proof. solve_decision. Defined.

Definition Bond_is_revoked (self : Bond) : bool :=
  match status self with StRevoked _ => true | StBonded => false end.

Record BondFile := mkBondFile { schema_version : Z; file_bonds : list Bond }.
Record BondStore := mkStore { bonds : list Bond }.

Inductive BondError :=
| BondIo (p : path) (source : ErrorKind)
| BondParse
| BondSerialize
| UnsupportedSchemaVersion (found supported_up_to : Z)
| AlreadyBonded (id : str)
| UnknownPeer (id : str)
| ParentDirTooPermissive (p : path) (mode expected : Z)
| PeerIdMismatch (found expected : str).

(** [Deserialize for Bond]: the fields through their helpers. *)
Definition bond_of_raw (r : RawBond) : io (result Bond unit) :=
  let!? k := hex_pubkey_deserialize (raw_pubkey r) in
  match rfc3339_parse (raw_created_at r) with
  | None => iret (Err tt)
  | Some t => iret (Ok (mkBond (raw_peer_id r) k (raw_name r) t (raw_status r)))
  end.

Fixpoint bonds_of_raw (l : list RawBond) : io (result (list Bond) unit) :=
  match l with
  | [] => iret (Ok [])
  | r :: l =>
      let!? b := bond_of_raw r in
      let!? bs := bonds_of_raw l in
      iret (Ok (b :: bs))
  end.

Definition bondfile_from_str (raw : str) : io (result BondFile unit) :=
  match toml_from_str raw with
  | None => iret (Err tt)
  | Some f =>
      let!? bs := bonds_of_raw (raw_bonds f) in
      iret (Ok (mkBondFile (raw_schema_version f) bs))
  end.

(** [Serialize for Bond] *)
Definition bond_to_raw (b : Bond) : option RawBond :=
  match rfc3339_format (created_at b) with
  | None => None
  | Some t => Some (mkRawBond (peer_id b) (hex_pubkey_serialize (pubkey b)) (name b) t (status b))
  end.

Definition bondfile_to_string (f : BondFile) : option str :=
  match mapM bond_to_raw (file_bonds f) with
  | None => None
  | Some rs => toml_to_string (mkRawBondFile (schema_version f) rs)
  end.

(** The consistency loop of [load]. *)
Fixpoint check_peer_ids (l : list Bond) : result unit BondError :=
  match l with
  | [] => Ok tt
  | b :: l =>
      let expected := peer_id_from_pubkey (pubkey b) in
      if negb (bool_decide (peer_id b = expected)) then Err (PeerIdMismatch (peer_id b) expected)
      else check_peer_ids l
  end.

(** [load] once the text is read. *)
Definition load_document (raw : str) : io (result BondStore BondError) :=
  let!? parsed := imap_err (fun _ => BondParse) (bondfile_from_str raw) in
  if schema_version parsed >? BOND_SCHEMA_VERSION_LATEST
  then iret (Err (UnsupportedSchemaVersion (schema_version parsed) BOND_SCHEMA_VERSION_LATEST))
  else
    let!? _ := iret (check_peer_ids (file_bonds parsed)) in
    iret (Ok (mkStore (file_bonds parsed))).

Definition BondStore_load (p : path) : io (result BondStore BondError) :=
  let! r := fs_read_to_string p in
  match r with
  | Err NotFound => iret (Ok (mkStore []))
  | Err e => iret (Err (BondIo p e))
  | Ok raw => load_document raw
  end.

Definition BondStore_empty : BondStore := mkStore [].
Definition BondStore_list (self : BondStore) : list Bond := bonds self.

(** [Iterator::position] *)
Fixpoint position {A} (f : A -> bool) (l : list A) : option nat :=
  match l with
  | [] => None
  | x :: l => if f x then Some O else S <$> position f l
  end.

Definition find_index (self : BondStore) (id : str) : option nat :=
  position (fun b => bool_decide (peer_id b = id)) (bonds self).

Definition BondStore_add (self : BondStore) (bond : Bond) : BondStore * result unit BondError :=
  match find_index self (peer_id bond) with
  | Some _ => (self, Err (AlreadyBonded (peer_id bond)))
  | None => (mkStore (bonds self ++ [bond]), Ok tt)
  end.

Definition BondStore_remove (self : BondStore) (id : str) : BondStore * result unit BondError :=
  match find_index self id with
  | Some i => (mkStore (delete i (bonds self)), Ok tt)
  | None => (self, Err (UnknownPeer id))
  end.

Definition set_status (s : BondStatus) (b : Bond) : Bond :=
  mkBond (peer_id b) (pubkey b) (name b) (created_at b) s.

Definition BondStore_mark_revoked (self : BondStore) (id reason : str)
  : BondStore * result unit BondError :=
  match find_index self id with
  | Some i =>
      match bonds self !! i with
      | Some b =>
          if Bond_is_revoked b then (self, Ok tt)
          else (mkStore (<[i := set_status (StRevoked reason) b]> (bonds self)), Ok tt)
      | None => (self, Ok tt)
      end
  | None => (self, Err (UnknownPeer id))
  end.

(** ** Persistence *)

Definition parent_dir_of (p : path) : result path BondError :=
  match parent p with
  | Some d => Ok d
  | None => Err (BondIo p InvalidInput)
  end.

Definition ensure_parent_dir (d : path) : io (result unit BondError) :=
  let! meta := fs_metadata d in
  match meta with
  | Ok (IsDir, m) =>
      let mode := Z.land m BOND_DIR_PERMISSION_MASK in
      if negb (Z.land mode (2 ^ 32 - 1 - BOND_DIR_MODE) =? 0)
      then iret (Err (ParentDirTooPermissive d mode BOND_DIR_MODE))
      else iret (Ok tt)
  | Ok (IsFile, _) => iret (Err (BondIo d NotADirectory))
  | Err NotFound =>
      let!? _ := imap_err (BondIo d) (fs_create_dir_all d) in
      let!? _ := imap_err (BondIo d) (fs_set_permissions d BOND_DIR_MODE) in
      iret (Ok tt)
  | Err e => iret (Err (BondIo d e))
  end.

Definition set_temp_file_mode (tmp : path) (mode : Z) : io (result unit BondError) :=
  imap_err (BondIo tmp) (fs_set_permissions tmp mode).

Definition serialize_to_toml (self : BondStore) : result (list Z) BondError :=
  ok_or (bondfile_to_string (mkBondFile BOND_SCHEMA_VERSION_LATEST (bonds self))) BondSerialize.

(** Fill the temporary file and rename it over the destination. *)
Definition save_via (tmp p : path) (bytes : list Z) : io (result unit BondError) :=
  let!? _ := set_temp_file_mode tmp BOND_FILE_MODE in
  let!? _ := imap_err (BondIo tmp) (fs_write tmp bytes) in
  let!? _ := imap_err (BondIo tmp) fs_sync_all in
  imap_err (BondIo p) (fs_rename tmp p).

(** An error return drops the [NamedTempFile], which unlinks it. *)
Definition BondStore_save (self : BondStore) (p : path) : io (result unit BondError) :=
  let!? d := iret (parent_dir_of p) in
  let!? _ := ensure_parent_dir d in
  let!? bytes := iret (serialize_to_toml self) in
  let!? tmp := imap_err (BondIo d) (tmp_create d) in
  let! r := save_via tmp p bytes in
  match r with
  | Ok _ => iret (Ok tt)
  | Err e => let! _ := fs_remove_file tmp in iret (Err e)
  end.

End bonds.

(** ** Hexadecimal lemmas *)

Lemma hex_char_digit n :
  0 <= n < 16 -> hex_digit (byte_at HEX_CHARS n) = Some n /\ 48 <= byte_at HEX_CHARS n <= 102.
Proof.
  intros Hn. assert (Hin : n ∈ seqZ 0 16) by (apply elem_of_seqZ; lia). revert Hin.
  apply (proj1 (Forall_forall
    (fun n => hex_digit (byte_at HEX_CHARS n) = Some n /\ 48 <= byte_at HEX_CHARS n <= 102) _)).
  decide_now.
Qed.

Lemma nibbles b : is_u8 b ->
  0 <= Z.shiftr b 4 < 16 /\ 0 <= Z.land b 15 < 16 /\ Z.shiftr b 4 * 16 + Z.land b 15 = b.
Proof.
  unfold is_u8. intros Hb.
  change 15 with (Z.ones 4). rewrite Z.shiftr_div_pow2, Z.land_ones by lia.
  change (2 ^ 4) with 16.
  pose proof (Z.div_mod b 16). pose proof (Z.mod_pos_bound b 16).
  repeat split; try lia; apply Z.div_pos || apply Z.div_lt_upper_bound; lia.
Qed.

Lemma hex_lowercase_app a b : hex_lowercase (a ++ b) = hex_lowercase a ++ hex_lowercase b.
Proof. unfold hex_lowercase. by rewrite map_app, concat_app. Qed.

Lemma len_hex_lowercase l : len (hex_lowercase l) = 2 * len l.
Proof.
  induction l as [|b l IH]; [done |]. change (b :: l) with ([b] ++ l).
  rewrite hex_lowercase_app, !len_app, IH. cbn. unfold len. cbn. lia.
Qed.

Lemma hex_lowercase_ascii l : bytes_ok l -> Forall (fun c => 48 <= c <= 102) (hex_lowercase l).
Proof.
  induction 1 as [|b l Hb _ IH]; [constructor |]. destruct (nibbles b Hb) as (H1 & H2 & _).
  unfold hex_lowercase. cbn [map concat app]. repeat constructor; try apply hex_char_digit; done.
Qed.

Lemma ascii_boundary (s : str) i :
  Forall (fun c => 48 <= c <= 102) s -> 0 <= i <= len s -> is_char_boundary s i = true.
Proof.
  intros Hs Hi. unfold is_char_boundary.
  destruct (Z.eqb_spec i 0), (Z.eqb_spec i (len s)), (Z.ltb_spec i (len s)); cbn; try done; try lia.
  unfold byte_at, cont. unfold len in *.
  destruct (lookup_lt_is_Some_2 s (Z.to_nat i)) as [x Hx]; [lia |]. rewrite Hx. cbn.
  pose proof (proj1 (Forall_lookup _ _) Hs _ _ Hx) as Hb. cbn in Hb.
  destruct (Z.leb_spec 128 x); [lia | done].
Qed.

Lemma radix_hex_pair b : is_u8 b ->
  u8_from_str_radix_16 [byte_at HEX_CHARS (Z.shiftr b 4); byte_at HEX_CHARS (Z.land b 15)] = Some b.
Proof.
  intros Hb. destruct (nibbles b Hb) as (H1 & H2 & H3).
  destruct (hex_char_digit _ H1) as [D1 R1], (hex_char_digit _ H2) as [D2 R2].
  cbn [u8_from_str_radix_16 digits_to_u8]. rewrite D1, D2.
  unfold is_u8 in Hb. repeat case_bool; try lia. f_equal. lia.
Qed.

(** The loop decodes what [hex_lowercase] printed, without panicking. *)
Lemma hex_bytes_hex_lowercase pre l w :
  bytes_ok (pre ++ l) ->
  hex_bytes (hex_lowercase (pre ++ l)) (length l) (len pre) w = (Ret (Ok l), w).
Proof.
  revert pre. induction l as [|b l IH]; intros pre Hb; [done |]. cbn [length hex_bytes].
  pose proof (hex_lowercase_ascii _ Hb) as Ha. pose proof (len_nonneg pre). pose proof (len_nonneg l).
  pose proof (len_hex_lowercase (pre ++ b :: l)) as Hl. rewrite len_app, len_cons in Hl.
  unfold str_slice. rewrite !ascii_boundary by (done || lia).
  repeat case_bool; try lia. cbn [andb].
  rewrite !hex_lowercase_app. change (b :: l) with ([b] ++ l). rewrite hex_lowercase_app.
  rewrite slice_skip by (rewrite len_hex_lowercase; lia). rewrite len_hex_lowercase.
  replace (len pre * 2 - 2 * len pre) with 0 by lia.
  replace (len pre * 2 + 2 - 2 * len pre) with 2 by lia.
  rewrite slice_prefix by done. cbn [hex_lowercase map concat app].
  apply bytes_ok_app in Hb as [Hp Hbl]. apply Forall_cons in Hbl as [Hb Hl'].
  rewrite radix_hex_pair by done. unfold itry, ibind.
  specialize (IH (pre ++ [b])). rewrite <- app_assoc in IH. rewrite len_app in IH.
  replace (len pre + len [b]) with (len pre + 1) in IH by done.
  change ([b] ++ l) with (b :: l) in *. fold (hex_lowercase l).
  rewrite !hex_lowercase_app in IH. cbn [hex_lowercase map concat app] in IH. fold (hex_lowercase l) in IH.
  cbn [app]. rewrite IH; [done |]. apply bytes_ok_app. split; [done |]. by constructor.
Qed.

Lemma hex_pubkey_roundtrip_io k w :
  arr 32 k -> hex_pubkey_deserialize (hex_pubkey_serialize k) w = (Ret (Ok k), w).
Proof.
  intros [Hl Hk]. unfold hex_pubkey_deserialize, hex_pubkey_serialize.
  rewrite len_hex_lowercase. unfold len. rewrite Hl. cbn [Z.mul Z.eqb negb PUBKEY_LEN].
  replace 32%nat with (length k) by lia. by apply (hex_bytes_hex_lowercase [] k).
Qed.

(** ** The store as a finite map *)

Section store.
Context `{Chrono}.

Definition ids (st : BondStore) : list str := map peer_id (bonds st).

Definition keyed (l : list Bond) : list (list Z * Bond) := map (fun b => (peer_id b, b)) l.

(** The abstract content of a store: bonds by identifier. *)
Definition view (st : BondStore) : gmap (list Z) Bond := list_to_map (keyed (bonds st)).

Inductive StoreOp :=
| SAdd (b : Bond)
| SRemove (id : str)
| SRevoke (id reason : str).

Definition apply_op (st : BondStore) (op : StoreOp) : BondStore * result unit BondError :=
  match op with
  | SAdd b => BondStore_add st b
  | SRemove id => BondStore_remove st id
  | SRevoke id reason => BondStore_mark_revoked st id reason
  end.

(** What the operations promise, on the abstract map. *)
Definition spec_op (m : gmap (list Z) Bond) (op : StoreOp) : gmap (list Z) Bond * result unit BondError :=
  match op with
  | SAdd b =>
      match m !! peer_id b with
      | Some _ => (m, Err (AlreadyBonded (peer_id b)))
      | None => (<[peer_id b := b]> m, Ok tt)
      end
  | SRemove id =>
      match m !! id with
      | Some _ => (delete id m, Ok tt)
      | None => (m, Err (UnknownPeer id))
      end
  | SRevoke id reason =>
      match m !! id with
      | Some b => (if Bond_is_revoked b then m else <[id := set_status (StRevoked reason) b]> m, Ok tt)
      | None => (m, Err (UnknownPeer id))
      end
  end.

Lemma position_some {A} (f : A -> bool) l i :
  position f l = Some i -> exists l1 x l2, l = l1 ++ x :: l2 /\ i = length l1 /\ f x = true.
Proof.
  revert i. induction l as [|y l IH]; intros i; [done |]. cbn. destruct (f y) eqn:E.
  - intros [= <-]. by exists [], y, l.
  - destruct (position f l) as [j|]; [| done]. cbn. intros [= <-].
    destruct (IH j eq_refl) as (l1 & x & l2 & -> & -> & Hx). by exists (y :: l1), x, l2.
Qed.

Lemma position_none {A} (f : A -> bool) l x : position f l = None -> In x l -> f x = false.
Proof.
  induction l as [|y l IH]; [done |]. cbn. destruct (f y) eqn:E; [done |].
  destruct (position f l); [done |]. intros _ [<- | Hx]; auto.
Qed.

Lemma keyed_fst l : (keyed l).*1 = map peer_id l.
Proof. unfold keyed. induction l as [|b l IH]; [done |]. cbn. by f_equal. Qed.

Lemma keyed_app a b : keyed (a ++ b) = keyed a ++ keyed b.
Proof. apply map_app. Qed.

(** Cut a store at the bond [find_index] found. *)
Lemma find_index_some st id i :
  find_index st id = Some i ->
  exists l1 b l2, bonds st = l1 ++ b :: l2 /\ i = length l1 /\ peer_id b = id.
Proof.
  intros (l1 & b & l2 & ? & ? & Hb) % position_some. exists l1, b, l2.
  by apply bool_decide_eq_true_1 in Hb.
Qed.

Lemma find_index_none st id : find_index st id = None -> id ∉ ids st.
Proof.
  unfold find_index, ids. intros Hn Hin. apply list_elem_of_fmap in Hin as (b & -> & Hb).
  apply list_elem_of_In, (position_none _ _ b Hn), bool_decide_eq_false_1 in Hb. done.
Qed.

Lemma view_none st id : id ∉ ids st -> view st !! id = None.
Proof. intros Hid. apply not_elem_of_list_to_map_1. by rewrite keyed_fst. Qed.

Lemma view_middle l1 b l2 :
  NoDup (map peer_id (l1 ++ b :: l2)) ->
  view (mkStore (l1 ++ b :: l2)) = <[peer_id b := b]> (view (mkStore (l1 ++ l2))) /\
  view (mkStore (l1 ++ l2)) !! peer_id b = None /\ NoDup (map peer_id (l1 ++ l2)).
Proof.
  intros Hnd.
  assert (Hp : l1 ++ b :: l2 ≡ₚ b :: l1 ++ l2) by (symmetry; apply Permutation_middle).
  assert (Hnd' : NoDup (map peer_id (b :: l1 ++ l2))) by (by rewrite <- Hp).
  cbn in Hnd'. apply NoDup_cons in Hnd' as [Hb Hl]. split; [| split]; [| by apply view_none | done].
  unfold view. cbn [bonds].
  rewrite (list_to_map_proper (keyed (l1 ++ b :: l2)) (keyed (b :: l1 ++ l2))); [done | |].
  - by rewrite keyed_fst.
  - unfold keyed. by rewrite Hp.
Qed.

Lemma view_snoc st b :
  peer_id b ∉ ids st -> view (mkStore (bonds st ++ [b])) = <[peer_id b := b]> (view st).
Proof.
  intros Hb. unfold view. cbn [bonds]. rewrite keyed_app. cbn. apply list_to_map_snoc.
  by rewrite keyed_fst.
Qed.

(** The concrete operation [op] implements its specification on [st]. *)
Definition refines (st : BondStore) (op : StoreOp) : Prop :=
  NoDup (ids (apply_op st op).1) /\
  spec_op (view st) op = (view (apply_op st op).1, (apply_op st op).2).

Lemma refines_add st b : NoDup (ids st) -> refines st (SAdd b).
Proof.
  intros Hnd. unfold refines. cbn [apply_op spec_op]. unfold BondStore_add.
  destruct (find_index st (peer_id b)) as [i|] eqn:E.
  - apply find_index_some in E as (l1 & c & l2 & Hb & _ & Hc). destruct st as [l]. cbn in Hb. subst l.
    destruct (view_middle l1 c l2 Hnd) as (Hv & _). rewrite <- Hc, Hv, lookup_insert_eq.
    cbn [fst snd]. by rewrite Hv.
  - apply find_index_none in E. rewrite view_none by done. cbn [fst snd]. rewrite view_snoc by done.
    split; [| done]. unfold ids. cbn [bonds]. rewrite map_app. apply NoDup_app. repeat split; [done | |].
    + intros x Hx Hx'. cbn in Hx'. apply list_elem_of_singleton in Hx' as ->. done.
    + apply NoDup_singleton.
Qed.

Lemma refines_remove st id : NoDup (ids st) -> refines st (SRemove id).
Proof.
  intros Hnd. unfold refines. cbn [apply_op spec_op]. unfold BondStore_remove.
  destruct (find_index st id) as [i|] eqn:E.
  - apply find_index_some in E as (l1 & c & l2 & Hb & -> & <-). destruct st as [l]. cbn in Hb. subst l.
    destruct (view_middle l1 c l2 Hnd) as (Hv & Hn & Hd). rewrite Hv, lookup_insert_eq.
    cbn [fst snd bonds]. rewrite delete_middle. split; [done |]. by rewrite delete_insert_id.
  - apply find_index_none in E. by rewrite view_none.
Qed.

Lemma refines_revoke st id reason : NoDup (ids st) -> refines st (SRevoke id reason).
Proof.
  intros Hnd. unfold refines. cbn [apply_op spec_op]. unfold BondStore_mark_revoked.
  destruct (find_index st id) as [i|] eqn:E.
  - apply find_index_some in E as (l1 & c & l2 & Hb & -> & <-). destruct st as [l]. cbn in Hb. subst l.
    destruct (view_middle l1 c l2 Hnd) as (Hv & Hn & Hd). cbn [bonds].
    rewrite list_lookup_middle by done. rewrite Hv, lookup_insert_eq.
    destruct (Bond_is_revoked c); cbn [fst snd]; [by rewrite Hv |].
    rewrite <- (Nat.add_0_r (length l1)), insert_app_r. cbn [insert list_insert].
    assert (Hnd' : NoDup (map peer_id (l1 ++ set_status (StRevoked reason) c :: l2))).
    { revert Hnd. unfold ids. cbn [bonds]. by rewrite !map_app. }
    split; [done |]. destruct (view_middle l1 _ l2 Hnd') as (Hv' & _). rewrite Hv'.
    by rewrite insert_insert_eq.
  - apply find_index_none in E. by rewrite view_none.
Qed.

Lemma apply_op_refines st op : NoDup (ids st) -> refines st op.
Proof. destruct op; auto using refines_add, refines_remove, refines_revoke. Qed.

End store.

(** ** Persistence lemmas *)

Lemma touches_hex_bytes raw k i : touches (fun _ => False) (hex_bytes raw k i).
Proof. revert i. induction k as [|k IH]; intros i; cbn; touch. Qed.

Lemma touches_hex_pubkey raw : touches (fun _ => False) (hex_pubkey_deserialize raw).
Proof. unfold hex_pubkey_deserialize. destruct (negb _); [apply touches_ret | apply touches_hex_bytes]. Qed.
#[export] Hint Resolve touches_hex_bytes touches_hex_pubkey : frame.

Section persistence.
Context `{B3 : Blake3, CH : Chrono, TM : Toml, UM : Umask, TF : Tempfile}.

Lemma touches_bonds_of_raw l : touches (fun _ => False) (bonds_of_raw l).
Proof. induction l; cbn; [touch |]. unfold bond_of_raw. touch. Qed.

Lemma touches_bondfile_from_str raw : touches (fun _ => False) (bondfile_from_str raw).
Proof. unfold bondfile_from_str. touch. apply touches_bonds_of_raw. Qed.

Lemma touches_load p : touches (fun _ => False) (BondStore_load p).
Proof. unfold BondStore_load, load_document. touch; apply touches_bondfile_from_str. Qed.

Lemma touches_ensure_parent_dir d : touches (fun q => ancestor d q \/ q = d) (ensure_parent_dir d).
Proof. unfold ensure_parent_dir. touch. Qed.

(** A name [NamedTempFile] may have chosen in [d]. *)
Definition tmp_in (d : path) (q : path) : Prop := exists s, q = join d (lit ".tmp" ++ s).

Definition save_touches (d p q : path) : Prop := ancestor d q \/ q = d \/ tmp_in d q \/ q = p.

Lemma touches_save_via tmp p bytes : touches (fun q => q = tmp \/ q = p) (save_via tmp p bytes).
Proof. unfold save_via, set_temp_file_mode. touch. Qed.

(** The continuation of [NamedTempFile::new_in] only sees such names. *)
Lemma touches_with_tmp {B F} (S : path -> Prop) d (f : ErrorKind -> F) (k : path -> io (result B F)) :
  (forall q, tmp_in d q -> S q) -> (forall q, tmp_in d q -> touches S (k q)) ->
  touches S (itry (imap_err f (tmp_create d)) k).
Proof.
  intros HS Hk w p Hp. pose proof (touches_tmp_create d w p (fun Ht => Hp (HS _ Ht))) as E.
  unfold itry, imap_err, ibind, tmp_create in *.
  destruct (syscall (tmp_create_op d) w) as [[[q|e]| |] w1] eqn:Es; cbn in *; try done.
  rewrite <- E. apply Hk; [| done]. revert Es. unfold syscall.
  destruct (next_fault w) as [[|k' pr|[n|]] w2]; try done. unfold tmp_create_op.
  destruct (resolve (files w2) [] d); [| done].
  destruct (files w2 !! join d (tmp_name (files w2) d)); [done |].
  intros [= <- _]. by eexists.
Qed.

Lemma touches_save st d n : touches (save_touches d (join d n)) (BondStore_save st (join d n)).
Proof.
  unfold BondStore_save, parent_dir_of. rewrite parent_join. intros w q Hq.
  unfold itry at 1, ibind at 1. cbn [iret]. revert w q Hq.
  change (touches (save_touches d (join d n)) (itry (ensure_parent_dir d) (fun _ =>
    itry (iret (serialize_to_toml st)) (fun bytes =>
    itry (imap_err (BondIo d) (tmp_create d)) (fun tmp =>
    ibind (save_via tmp (join d n) bytes) (fun r =>
    match r with Ok _ => iret (Ok tt) | Err e => ibind (fs_remove_file tmp) (fun _ => iret (Err e)) end)))))).
  apply touches_try.
  { eapply touches_weaken; [apply touches_ensure_parent_dir |]. unfold save_touches. naive_solver. }
  intros _. apply touches_try; [apply touches_ret |]. intros bytes.
  apply touches_with_tmp; [unfold save_touches; naive_solver |]. intros q Hq.
  assert (Hsub : forall p, p = q \/ p = join d n -> save_touches d (join d n) p).
  { intros p [-> | ->]; unfold save_touches; auto. }
  apply touches_bind; [eapply touches_weaken; [apply touches_save_via | exact Hsub] |].
  intros [|e]; [apply touches_ret |]. apply touches_bind; [| intros; apply touches_ret].
  eapply touches_weaken; [apply touches_remove_file |]. intros p <-. apply Hsub. by left.
Qed.

(** The destination goes from its old content to the full new one in one step. *)
Lemma save_via_triple tmp p bytes old :
  tmp <> p ->
  ctriple (fun g => g !! p = old) (save_via tmp p bytes)
    (fun r g => match r with
                | Ok _ => g !! p = Some (File bytes BOND_FILE_MODE)
                | Err _ => g !! p = old
                end)
    (fun g => g !! p = old \/ g !! p = Some (File bytes BOND_FILE_MODE)).
Proof.
  intros Hne. unfold save_via, set_temp_file_mode.
  set (moded := fun g : fs => g !! p = old /\
    exists n, g !! tmp = Some n /\ (n = Dir BOND_FILE_MODE \/ exists c, n = File c BOND_FILE_MODE)).
  set (filled := fun g : fs => g !! p = old /\ g !! tmp = Some (File bytes BOND_FILE_MODE)).
  eapply (ctriple_try _ _ _ (fun _ => moded)).
  { apply ctriple_map_err, ctriple_syscall. intros g Hg. unfold set_permissions_op.
    destruct (resolve_parent g tmp); [| by auto].
    destruct (g !! tmp) as [[c m|m]|]; cbn; [| | by auto]; unfold moded;
      rewrite !lookup_insert_ne, lookup_insert_eq by done; naive_solver. }
  intros _. eapply (ctriple_try _ _ _ (fun _ => filled)).
  { apply ctriple_map_err, ctriple_write. intros g (Hp & n & Ht & Hn). unfold write_op.
    destruct (resolve_parent g tmp); [| by naive_solver]. rewrite Ht.
    destruct Hn as [-> | [c ->]]; cbn; [by naive_solver |]. unfold filled.
    rewrite lookup_insert_ne, lookup_insert_eq by done. split_and!; auto.
    intros k. rewrite lookup_insert_ne by done. auto. }
  intros _. eapply (ctriple_try _ _ _ (fun _ => filled)).
  { apply ctriple_map_err, ctriple_syscall. intros g Hg. cbn. destruct Hg; unfold filled; auto. }
  intros _. apply ctriple_map_err, ctriple_syscall. intros g [Hp Ht]. unfold rename_op.
  destruct (resolve_parent g tmp), (resolve_parent g p); try (by auto). rewrite Ht.
  destruct (g !! p) as [[c m|m]|] eqn:E; cbn; rewrite ?lookup_insert_eq, ?E; auto.
Qed.

Lemma ensure_parent_dir_frame d p old :
  ~ (ancestor d p \/ p = d) ->
  ctriple (fun g => g !! p = old) (ensure_parent_dir d) (fun _ g => g !! p = old) (fun g => g !! p = old).
Proof. intros Hp. by apply (ctriple_frame _ _ _ _ (touches_ensure_parent_dir d)). Qed.

(** [join d n] is a file of the directory, not one of the paths [save] prepares. *)
Lemma join_not_dir d n : ~ (ancestor d (join d n) \/ join d n = d).
Proof.
  intros [Ha | E]; [by apply join_not_ancestor in Ha |].
  apply (f_equal length) in E. unfold join in E. rewrite length_app in E. cbn in E. lia.
Qed.

Definition is_tmp_name (n : str) : Prop := exists s, n = lit ".tmp" ++ s.

Lemma save_triple st d n bytes old :
  ~ is_tmp_name n -> serialize_to_toml st = Ok bytes ->
  ctriple (fun g => g !! join d n = old) (BondStore_save st (join d n))
    (fun r g => match r with
                | Ok _ => g !! join d n = Some (File bytes BOND_FILE_MODE)
                | Err _ => g !! join d n = old
                end)
    (fun g => g !! join d n = old \/ g !! join d n = Some (File bytes BOND_FILE_MODE)).
Proof.
  intros Hn Hs. set (kept := fun g : fs => g !! join d n = old).
  unfold BondStore_save, parent_dir_of. rewrite parent_join, Hs.
  eapply (ctriple_try _ _ _ (fun d' g => d' = d /\ kept g)); [by apply ctriple_ret |].
  intros d'. eapply (ctriple_try _ _ _ (fun _ g => d' = d /\ kept g)).
  { intros w [-> Hw]. pose proof (ensure_parent_dir_frame d _ old (join_not_dir d n) w Hw) as He.
    destruct (ensure_parent_dir d w) as [[[]| |] w']; cbn in *; auto. }
  intros _. eapply (ctriple_try _ _ _ (fun b g => b = bytes /\ d' = d /\ kept g)).
  { apply ctriple_ret. naive_solver. }
  intros b. eapply (ctriple_try _ _ _ (fun tmp g => tmp <> join d n /\ b = bytes /\ kept g)).
  { apply ctriple_map_err, ctriple_syscall. intros g (-> & -> & Hg). unfold tmp_create_op.
    assert (Ht : join d (tmp_name g d) <> join d n).
    { intros [_ E] % join_inj. apply Hn. by eexists. }
    destruct (resolve g [] d); [| by auto]. destruct (g !! join d (tmp_name g d)); [by auto |].
    cbn. unfold kept. rewrite !lookup_insert_ne by done. auto. }
  intros tmp. eapply (ctriple_bind _ _ _ (fun r g => tmp <> join d n /\ match r with
    | Ok _ => g !! join d n = Some (File bytes BOND_FILE_MODE) | Err _ => kept g end)).
  { intros w (Ht & -> & Hw). pose proof (save_via_triple tmp _ bytes old Ht w Hw) as Hv.
    destruct (save_via tmp (join d n) bytes w) as [[[]| |] w']; cbn in *; auto. }
  intros [[]|e]; [apply ctriple_ret; naive_solver |].
  eapply (ctriple_bind _ _ _ (fun _ => kept)); [| intros _; by apply ctriple_ret].
  intros w [Ht Hw]. pose proof (touches_remove_file tmp w (join d n) Ht) as E.
  destruct (fs_remove_file tmp w) as [[| |] w']; cbn in *; unfold kept in *; rewrite E; auto.
Qed.

(** The same, whether or not the store can be printed. *)
Lemma save_triple_any st d n old :
  ~ is_tmp_name n ->
  let new g := exists bytes, serialize_to_toml st = Ok bytes /\
    g !! join d n = Some (File bytes BOND_FILE_MODE) in
  ctriple (fun g => g !! join d n = old) (BondStore_save st (join d n))
    (fun r g => match r with Ok _ => new g | Err _ => g !! join d n = old end)
    (fun g => g !! join d n = old \/ new g).
Proof.
  intros Hn new. destruct (serialize_to_toml st) as [bytes|e] eqn:Es.
  - eapply ctriple_conseq; [apply (save_triple st d n bytes old Hn Es) | done | |]; cbn.
    + intros [u|e] g Hg; [exists bytes; auto | done].
    + intros g [Hg | Hg]; [by left | right; exists bytes; auto].
  - unfold BondStore_save, parent_dir_of. rewrite parent_join, Es.
    eapply (ctriple_try _ _ _ (fun d' g => d' = d /\ g !! join d n = old)); [by apply ctriple_ret |].
    intros d'. apply ctriple_pure. intros ->.
    eapply (ctriple_try _ _ _ (fun _ g => g !! join d n = old));
      [| by intros _; apply ctriple_ret].
    eapply ctriple_conseq; [apply (ensure_parent_dir_frame d _ old (join_not_dir d n)) | done | | by left].
    by intros [u|e'] g Hg.
Qed.

(** ** A save that meets no fault *)

(** The bond directory exists with no permission beyond the owner's. *)
Definition ready (g : fs) (d : path) : Prop :=
  d <> [] /\ resolve g [] d = Ok tt /\
  exists m, g !! d = Some (Dir m) /\
    Z.land (Z.land m BOND_DIR_PERMISSION_MASK) (2 ^ 32 - 1 - BOND_DIR_MODE) = 0.

Lemma ensure_parent_dir_ready g d :
  ready g d -> ensure_parent_dir d (calm g) = (Ret (Ok tt), calm g).
Proof.
  intros (Hd & Hr & m & Hm & Hmode). unfold ensure_parent_dir, fs_metadata, ibind.
  rewrite syscall_calm. destruct d as [|c d]; [done |].
  rewrite (resolve_parent_dir _ _ Hd Hr). cbn [rbind]. rewrite Hm. cbn. rewrite Hmode. done.
Qed.

Lemma save_ready `{!TempfileLaws TF} st g d n bytes :
  ready g d -> not_dir (g !! join d n) -> ~ is_tmp_name n -> serialize_to_toml st = Ok bytes ->
  BondStore_save st (join d n) (calm g) =
    (Ret (Ok tt), calm (<[join d n := File bytes BOND_FILE_MODE]> g)).
Proof.
  intros Hg Hnd Hn Hs. pose proof (tmp_fresh g d) as Hf. pose proof Hg as (_ & Hr & _).
  unfold BondStore_save, parent_dir_of. rewrite parent_join, Hs.
  unfold itry at 1 2 3 4, ibind at 1 2 3 4. cbn [iret]. rewrite ensure_parent_dir_ready by done.
  unfold tmp_create, imap_err, ibind at 1. rewrite syscall_calm. unfold tmp_create_op. rewrite Hr, Hf.
  cbn [fst snd map_err iret]. set (tn := tmp_name g d) in *.
  assert (Ht : join d tn <> join d n) by (intros [_ E] % join_inj; apply Hn; by eexists).
  unfold save_via, set_temp_file_mode, imap_err, itry, ibind, fs_set_permissions.
  set (g1 := <[join d tn := File [] 384]> g).
  assert (K1 : dirs_kept g g1) by (apply dirs_kept_insert; by rewrite Hf).
  assert (R1 : resolve g1 [] d = Ok tt) by (by apply (resolve_mono g)).
  assert (L1 : g1 !! join d tn = Some (File [] 384)) by apply lookup_insert_eq.
  rewrite syscall_calm, (set_permissions_op_ready g1 d R1 _ _ _ _ L1). cbn [fst snd map_err iret].
  unfold g1. rewrite insert_insert_eq. fold g1. rewrite write_calm.
  assert (N1 : not_dir (g1 !! join d tn)) by (by rewrite L1).
  rewrite (write_op_ready g1 d R1 _ _ N1), L1. cbn [fst snd map_err iret].
  unfold g1 at 1. rewrite insert_insert_eq. unfold fs_sync_all, fs_rename. rewrite syscall_calm.
  cbn [fst snd map_err iret]. set (g2 := <[join d tn := File bytes 384]> g).
  assert (K2 : dirs_kept g g2) by (apply dirs_kept_insert; by rewrite Hf).
  assert (R2 : resolve g2 [] d = Ok tt) by (by apply (resolve_mono g)).
  rewrite syscall_calm, (rename_op_ready g2 d R2 tn n bytes 384); cbn [fst snd map_err iret].
  - unfold g2. by rewrite delete_insert_id.
  - apply lookup_insert_eq.
  - unfold g2. by rewrite lookup_insert_ne.
Qed.

(** What [load] checks of a bond, and what the type says of its key. *)
Definition bond_wf (b : Bond) : Prop :=
  arr PUBKEY_LEN (pubkey b) /\ peer_id b = peer_id_from_pubkey (pubkey b).

Lemma bonds_of_raw_to_raw `{!ChronoLaws CH} l rs w :
  Forall bond_wf l -> mapM bond_to_raw l = Some rs -> bonds_of_raw rs w = (Ret (Ok l), w).
Proof.
  intros Hl. revert rs. induction Hl as [|b l [Hk _] _ IH]; intros rs; [by intros [= <-] |].
  cbn. destruct (bond_to_raw b) as [r|] eqn:Eb; [| done]. destruct (mapM bond_to_raw l) as [rs'|]; [| done].
  intros [= <-]. cbn. unfold bond_of_raw, itry, ibind, bond_to_raw in *.
  destruct (rfc3339_format (created_at b)) as [t|] eqn:Et; [| done]. injection Eb as <-. cbn.
  rewrite hex_pubkey_roundtrip_io by done. rewrite (rfc3339_roundtrip _ _ Et). cbn.
  rewrite (IH rs' eq_refl). cbn. by destruct b.
Qed.

Lemma check_peer_ids_wf l : Forall bond_wf l -> check_peer_ids l = Ok tt.
Proof.
  induction 1 as [|b l [_ Hb] _ IH]; [done |]. cbn. rewrite bool_decide_eq_true_2 by done. done.
Qed.

Lemma check_peer_ids_ok l :
  check_peer_ids l = Ok tt -> Forall (fun b => peer_id b = peer_id_from_pubkey (pubkey b)) l.
Proof.
  induction l as [|b l IH]; [constructor |]. cbn.
  case_bool_decide; [| done]. cbn. constructor; auto.
Qed.

(** ** What a file holds

    Reading a document depends on its text only. *)
Definition document (raw : str) : outcome (result BondStore BondError) := (load_document raw (calm ∅)).1.

Definition world_free {A} (m : io A) : Prop := forall w, m w = ((m (calm ∅)).1, w).

Lemma world_free_ret {A} (a : A) : world_free (iret a).
Proof. by intros w. Qed.

Lemma world_free_bind {A B} (m : io A) (k : A -> io B) :
  world_free m -> (forall a, world_free (k a)) -> world_free (ibind m k).
Proof.
  intros Hm Hk w. unfold ibind. rewrite (Hm w), (Hm (calm ∅)).
  destruct (m (calm ∅)).1 as [a| |]; cbn; [apply Hk | done | done].
Qed.

Lemma world_free_try {A B E} (m : io (result A E)) (k : A -> io (result B E)) :
  world_free m -> (forall a, world_free (k a)) -> world_free (itry m k).
Proof. intros Hm Hk. apply world_free_bind; [done |]. intros [a|e]; [apply Hk | by intros w]. Qed.

Lemma hex_bytes_world_free raw k i : world_free (hex_bytes raw k i).
Proof.
  revert i. induction k as [|k IH]; intros i; [by intros w |]. cbn.
  destruct (str_slice _ _ raw); [| by intros w]. destruct (u8_from_str_radix_16 _); [| by intros w].
  apply world_free_try; [apply IH | by intros ? w].
Qed.

Lemma bonds_of_raw_world_free l : world_free (bonds_of_raw l).
Proof.
  induction l as [|r l IH]; [by intros w |]. cbn. apply world_free_try.
  - apply world_free_try.
    + unfold hex_pubkey_deserialize. destruct (negb _); [by intros w | apply hex_bytes_world_free].
    + intros k. by destruct (rfc3339_parse _).
  - intros b. apply world_free_try; [done | by intros ? w].
Qed.

Lemma load_document_world_free raw : world_free (load_document raw).
Proof.
  unfold load_document. apply world_free_try.
  - apply world_free_bind; [| by intros ? w]. unfold bondfile_from_str.
    destruct (toml_from_str raw); [| by intros w].
    apply world_free_try; [apply bonds_of_raw_world_free | by intros ? w].
  - intros f. destruct (_ >? _); [by intros w |]. apply world_free_try; by intros ? || intros ? ?.
Qed.

(** The store a bonds file stands for; no file is the empty store. *)
Definition stored (n : option node) (st : BondStore) : Prop :=
  match n with
  | None => st = mkStore []
  | Some (File c _) => utf8 c = true /\ document c = Ret (Ok st)
  | Some (Dir _) => False
  end.

Lemma load_stored p g0 :
  ctriple (eq g0) (BondStore_load p)
    (fun r g => g = g0 /\ forall st, r = Ok st -> stored (g0 !! p) st) (eq g0).
Proof.
  unfold BondStore_load. eapply (ctriple_bind _ _ _ (fun r g => g = g0 /\ match r with
    | Ok raw => exists m, g0 !! p = Some (File raw m) /\ utf8 raw = true
    | Err e => e = NotFound -> g0 !! p = None end)).
  - intros w ->. unfold fs_read_to_string, syscall. rewrite <- (next_fault_files w).
    destruct (next_fault w) as [[|k pr|[n|]] w1]; cbn; try done.
    + unfold read_op. destruct (files w1 !! p) as [[c m|m]|] eqn:E; cbn; try done.
      * destruct (utf8 c) eqn:Eu; [by eauto | done].
      * by destruct (resolve_parent (files w1) p).
    + split; [done |]. by destruct k.
  - intros [raw|e].
    + intros w [Hw (m & Hm & Hu)]. rewrite load_document_world_free. cbn.
      fold (document raw). destruct (document raw) as [r| |] eqn:Ed; [| done | done].
      split; [done |]. intros st ->. unfold stored. by rewrite Hm.
    + destruct e; apply ctriple_ret; intros g [-> He]; (split; [done |]); intros st Hst; try done.
      injection Hst as <-. by rewrite (He eq_refl).
Qed.

Lemma load_calm p g st :
  stored (g !! p) st -> (g !! p = None -> resolve_parent g p = Ok tt) ->
  BondStore_load p (calm g) = (Ret (Ok st), calm g).
Proof.
  intros Hs Hr. unfold BondStore_load, fs_read_to_string, ibind. rewrite syscall_calm. cbn [fst snd].
  unfold read_op. unfold stored in Hs. destruct (g !! p) as [[c m|m]|] eqn:E; [| done |].
  - destruct Hs as [Hu Hd]. cbn [rbind]. rewrite Hu, load_document_world_free. by fold (document c); rewrite Hd.
  - rewrite (Hr eq_refl). cbn. by rewrite Hs.
Qed.

Lemma saved_stored `{!TomlLaws TM, !ChronoLaws CH} st bytes m :
  Forall bond_wf (bonds st) -> serialize_to_toml st = Ok bytes -> stored (Some (File bytes m)) st.
Proof.
  intros Hw Hs. unfold serialize_to_toml in Hs.
  destruct (bondfile_to_string _) as [s|] eqn:Es; [| done]. injection Hs as ->.
  unfold bondfile_to_string in Es. cbn [file_bonds schema_version] in Es.
  destruct (mapM bond_to_raw (bonds st)) as [rs|] eqn:Er; [| done].
  split; [by apply (toml_utf8 _ _ Es) |]. unfold document, load_document, bondfile_from_str.
  rewrite (toml_roundtrip _ _ Es). unfold itry, imap_err, ibind. cbn.
  rewrite (bonds_of_raw_to_raw _ _ _ Hw Er). cbn. rewrite check_peer_ids_wf by done. by destruct st.
Qed.

End persistence.
#[export] Hint Resolve touches_bonds_of_raw touches_bondfile_from_str touches_load
  touches_ensure_parent_dir touches_save_via touches_save : frame.

(** ** Concrete crates *)

Module ToyCrates.

(** Numbers as digits 0 and 1 with a closing comma. *)
Fixpoint bits_of (p : positive) (rest : str) : str :=
  match p with xH => 44 :: rest | xO p => 48 :: bits_of p rest | xI p => 49 :: bits_of p rest end.

Definition text_of (l : list Z) : str := foldr (fun z s => bits_of (encode z) s) [] l.

Fixpoint numbers (s : str) : list positive :=
  match s with
  | [] => []
  | c :: s =>
      if c =? 44 then xH :: numbers s
      else match numbers s with
           | [] => []
           | p :: l => (if c =? 49 then xI p else xO p) :: l
           end
  end.

Definition of_text (s : str) : list Z := map (fun p => default 0 (decode p)) (numbers s).

Lemma numbers_bits_of p rest : numbers (bits_of p rest) = p :: numbers rest.
Proof. induction p as [p IH|p IH|]; cbn [bits_of numbers Z.eqb Pos.eqb]; by rewrite ?IH. Qed.

Lemma of_text_of l : of_text (text_of l) = l.
Proof.
  unfold of_text. induction l as [|z l IH]; [done |]. cbn [text_of foldr]. fold (text_of l).
  rewrite numbers_bits_of. cbn [map]. by rewrite decode_encode, IH.
Qed.

Lemma utf8_bits_of p rest : utf8 rest = true -> utf8 (bits_of p rest) = true.
Proof. intros Hr. induction p as [p IH|p IH|]; [exact IH | exact IH | exact Hr]. Qed.

Lemma utf8_text_of l : utf8 (text_of l) = true.
Proof. induction l as [|z l IH]; [done |]. by apply utf8_bits_of. Qed.

(** The document as numbers: every string after its length. *)
Definition ser_str (s : str) : list Z := len s :: s.
Definition de_str (l : list Z) : str * list Z :=
  match l with [] => ([], []) | n :: l => (take (Z.to_nat n) l, drop (Z.to_nat n) l) end.

Definition ser_bond (r : RawBond) : list Z :=
  ser_str (raw_peer_id r) ++ ser_str (raw_pubkey r) ++ ser_str (raw_name r) ++
  ser_str (raw_created_at r) ++
  ser_str match raw_status r with StBonded => [] | StRevoked why => 1 :: why end.

Definition de_bond (l : list Z) : RawBond * list Z :=
  let '(a, l) := de_str l in
  let '(b, l) := de_str l in
  let '(c, l) := de_str l in
  let '(d, l) := de_str l in
  let '(e, l) := de_str l in
  (mkRawBond a b c d (match e with [] => StBonded | _ :: why => StRevoked why end), l).

Fixpoint de_bonds (k : nat) (l : list Z) : list RawBond :=
  match k with O => [] | S k => let '(r, l) := de_bond l in r :: de_bonds k l end.

Lemma de_ser_str s l : de_str (ser_str s ++ l) = (s, l).
Proof. cbn. unfold len. rewrite Nat2Z.id, take_app_length, drop_app_length. done. Qed.

Lemma de_ser_bond r l : de_bond (ser_bond r ++ l) = (r, l).
Proof.
  unfold de_bond, ser_bond. rewrite <- !app_assoc, !de_ser_str. by destruct r as [? ? ? ? []].
Qed.

Lemma de_ser_bonds rs : de_bonds (length rs) (concat (map ser_bond rs)) = rs.
Proof. induction rs as [|r rs IH]; [done |]. cbn [length de_bonds map concat]. by rewrite de_ser_bond, IH. Qed.

#[export] Instance toy_toml : Toml := {|
  toml_to_string f :=
    Some (text_of (raw_schema_version f :: len (raw_bonds f) :: concat (map ser_bond (raw_bonds f))));
  toml_from_str s :=
    match of_text s with
    | v :: k :: l => Some (mkRawBondFile v (de_bonds (Z.to_nat k) l))
    | _ => None
    end;
|}.

Lemma toy_toml_laws : TomlLaws toy_toml.
Proof.
  split; cbn [toml_to_string toml_from_str toy_toml]; intros f s [= <-];
    [| by repeat apply utf8_bits_of; apply utf8_text_of].
  change (bits_of _ (bits_of _ (text_of ?l))) with (text_of (raw_schema_version f :: len (raw_bonds f) :: l)).
  rewrite of_text_of. unfold len. rewrite Nat2Z.id, de_ser_bonds. by destruct f.
Qed.

#[export] Instance toy_chrono : Chrono := {|
  OffsetDateTime := list Z;
  rfc3339_format d := Some d;
  rfc3339_parse s := Some s;
|}.

Lemma toy_chrono_laws : ChronoLaws toy_chrono.
Proof. split. by intros d s [= ->]. Qed.

#[export] Instance toy_hkdf : Hkdf := {|
  hkdf_sha256 salt ikm info n := Some (replicate (Z.to_nat n) (ToyCrypto.mix (ikm ++ info)));
|}.

Lemma toy_hkdf_laws : HkdfLaws toy_hkdf.
Proof.
  split. intros salt ikm info n Hn. eexists. split; [done |]. split.
  - rewrite length_replicate. lia.
  - apply Forall_replicate, ToyCrypto.mix_u8.
Qed.

End ToyCrates.

(** ** Runs of the store *)

Section runs.
Context `{CH : Chrono}.

Fixpoint run_ops (st : BondStore) (ops : list StoreOp) : BondStore * list (result unit BondError) :=
  match ops with
  | [] => (st, [])
  | op :: ops =>
      let '(st1, r) := apply_op st op in
      let '(st2, rs) := run_ops st1 ops in (st2, r :: rs)
  end.

Fixpoint spec_ops (m : gmap (list Z) Bond) (ops : list StoreOp)
  : gmap (list Z) Bond * list (result unit BondError) :=
  match ops with
  | [] => (m, [])
  | op :: ops =>
      let '(m1, r) := spec_op m op in
      let '(m2, rs) := spec_ops m1 ops in (m2, r :: rs)
  end.

Lemma run_ops_refines st ops :
  NoDup (ids st) ->
  NoDup (ids (run_ops st ops).1) /\
  spec_ops (view st) ops = (view (run_ops st ops).1, (run_ops st ops).2).
Proof.
  revert st. induction ops as [|op ops IH]; intros st Hnd; [done |]. cbn.
  destruct (apply_op_refines st op Hnd) as [Hnd1 ->].
  destruct (apply_op st op) as [st1 r]. cbn in *. destruct (IH st1 Hnd1) as [Hnd2 ->].
  by destruct (run_ops st1 ops).
Qed.

(** A revoked bond under [id]. *)
Definition revoked_as (id reason : str) (m : gmap (list Z) Bond) : Prop :=
  exists b, m !! id = Some b /\ status b = StRevoked reason.

Lemma spec_op_revoked id reason m op :
  op <> SRemove id -> revoked_as id reason m -> revoked_as id reason (spec_op m op).1.
Proof.
  intros Hop (b & Hb & Hs). destruct op as [c|i|i r]; cbn.
  - destruct (m !! peer_id c) eqn:E; [by exists b |]. exists b. split; [| done]. cbn.
    rewrite lookup_insert_ne; congruence.
  - destruct (m !! i); [| by exists b]. exists b. split; [| done]. cbn.
    rewrite lookup_delete_ne; congruence.
  - destruct (m !! i) as [c|] eqn:E; [| by exists b]. cbn.
    destruct (Bond_is_revoked c) eqn:Ec; [by exists b |]. exists b. split; [| done].
    rewrite lookup_insert_ne; [done |]. intros ->. rewrite Hb in E. injection E as ->.
    unfold Bond_is_revoked in Ec. by rewrite Hs in Ec.
Qed.

Lemma spec_ops_revoked id reason m ops :
  SRemove id ∉ ops -> revoked_as id reason m -> revoked_as id reason (spec_ops m ops).1.
Proof.
  revert m. induction ops as [|op ops IH]; intros m Hops Hm; [done |]. cbn.
  apply not_elem_of_cons in Hops as [Hop Hops].
  pose proof (spec_op_revoked id reason m op (not_eq_sym Hop) Hm) as H1.
  destruct (spec_op m op) as [m1 r]. specialize (IH m1 Hops H1). by destruct (spec_ops m1 ops).
Qed.
End runs.

(** ** Properties *)

Section properties.
Context `{B3 : Blake3, CH : Chrono, TM : Toml, UM : Umask, TF : Tempfile}.

(** [BondStore::save] is atomic on every fault script: when it returns [Ok]
    the destination holds the complete new document with mode 0600, when it
    returns an error the destination is what it was, and when the process dies
    inside it the destination is one of the two, never a mixture. *)
Theorem bond_save_atomic st d n bytes w :
  ~ is_tmp_name n -> serialize_to_toml st = Ok bytes ->
  let p := join d n in
  let '(o, w') := BondStore_save st p w in
  match o with
  | Ret (Ok _) => files w' !! p = Some (File bytes BOND_FILE_MODE)
  | Ret (Err _) => files w' !! p = files w !! p
  | Killed | Panicked =>
      files w' !! p = files w !! p \/ files w' !! p = Some (File bytes BOND_FILE_MODE)
  end.
Proof.
  intros Hn Hs p. pose proof (save_triple st d n bytes (files w !! p) Hn Hs w eq_refl) as Ht.
  fold p in Ht. destruct (BondStore_save st p w) as [[[]| |] w']; exact Ht.
Qed.

(** A store of consistent bonds survives [save] then [load]: in a directory
    with mode 0700 and without faults, [save] succeeds, changes only the
    destination, and [load] returns exactly the same store. *)
Theorem bond_save_load `{!TempfileLaws TF, !TomlLaws TM, !ChronoLaws CH} st g d n bytes :
  ready g d -> not_dir (g !! join d n) -> ~ is_tmp_name n ->
  Forall bond_wf (bonds st) -> serialize_to_toml st = Ok bytes ->
  let g' := <[join d n := File bytes BOND_FILE_MODE]> g in
  BondStore_save st (join d n) (calm g) = (Ret (Ok tt), calm g') /\
  BondStore_load (join d n) (calm g') = (Ret (Ok st), calm g').
Proof.
  intros Hg Hnd Hn Hw Hs g'. split; [by apply save_ready |].
  apply load_calm; unfold g'; rewrite lookup_insert_eq; [by apply saved_stored | done].
Qed.

Lemma load_ids p w st :
  (BondStore_load p w).1 = Ret (Ok st) ->
  Forall (fun b => peer_id b = peer_id_from_pubkey (pubkey b)) (bonds st).
Proof.
  unfold BondStore_load, ibind. destruct (fs_read_to_string p w) as [[[raw|e]| |] w1]; cbn; try done.
  - unfold load_document, itry, imap_err, ibind. destruct (bondfile_from_str raw w1) as [[[f|e]| |] w2]; cbn; try done.
    destruct (_ >? _); [done |]. destruct (check_peer_ids (file_bonds f)) as [[]|] eqn:E; cbn; [| done].
    intros [= <-]. by apply check_peer_ids_ok.
  - destruct e; cbn; try done. intros [= <-]. constructor.
Qed.

(** [BondStore::load] never changes a file, and whatever is on disk, every
    bond of a store it returns carries the identifier derived from its own key. *)
Theorem bond_load_consistent p w :
  (forall q, files (BondStore_load p w).2 !! q = files w !! q) /\
  forall st, (BondStore_load p w).1 = Ret (Ok st) ->
    Forall (fun b => peer_id b = peer_id_from_pubkey (pubkey b)) (bonds st).
Proof. split; [intros q; apply (touches_load p); tauto |]. apply load_ids. Qed.

(** The store refines a finite map from identifiers to bonds: every sequence
    of [add], [remove] and [mark_revoked] from the empty store gives the results
    and the content the map operations give ([AlreadyBonded] exactly on a present
    identifier, [UnknownPeer] exactly on an absent one), with no identifier
    stored twice. *)
Theorem bond_store_refines_map ops :
  let '(st, rs) := run_ops BondStore_empty ops in
  spec_ops ∅ ops = (view st, rs) /\ NoDup (ids st).
Proof.
  destruct (run_ops_refines BondStore_empty ops) as [Hnd Hr]; [apply NoDup_nil_2 |].
  destruct (run_ops BondStore_empty ops) as [st rs]. by split.
Qed.

(** Revocation is permanent: after [mark_revoked], no sequence of store
    operations that does not [remove] the peer makes it active again or changes
    the recorded reason; a second revocation included. *)
Theorem bond_revocation_permanent st id reason ops :
  NoDup (ids st) -> SRemove id ∉ ops -> revoked_as id reason (view st) ->
  revoked_as id reason (view (run_ops st ops).1).
Proof.
  intros Hnd Hops Hr. pose proof (spec_ops_revoked id reason _ _ Hops Hr) as H1.
  by rewrite (proj2 (run_ops_refines st ops Hnd)) in H1.
Qed.

(** [load] does not always return: when the document gives a key whose 64
    bytes are not ASCII (here a two-byte character across the first hex pair),
    slicing the string panics and takes the calling process down. *)
Theorem bond_load_panics p w raw f r rest :
  script w = [] -> read_op p (files w) = Ok raw -> utf8 raw = true ->
  toml_from_str raw = Some f -> raw_bonds f = r :: rest ->
  raw_pubkey r = [48] ++ [195; 169] ++ replicate 61 48 ->
  (BondStore_load p w).1 = Panicked.
Proof.
  intros Hs Hr Hu Ht Hb Hk. destruct w as [g s]. cbn in *. subst s.
  unfold BondStore_load, fs_read_to_string, ibind. fold (calm g). rewrite syscall_calm. cbn [fst snd].
  rewrite Hr. cbn [rbind]. rewrite Hu. unfold load_document, bondfile_from_str. rewrite Ht, Hb.
  cbn [bonds_of_raw]. unfold bond_of_raw. by rewrite Hk.
Qed.

End properties.

(** ** The properties on concrete stores *)

Import ToyCrypto ToyCrates ToyTempfile.

Definition sample_pubkey : list Z := replicate 32 171.
Definition sample_bond : Bond :=
  mkBond (peer_id_from_pubkey sample_pubkey) sample_pubkey (lit "Pixel") (lit "2026-01-01T00:00:00Z") StBonded.
Definition sample_store : BondStore := mkStore [sample_bond].
Definition sample_dir : path := [lit "var"; lit "syauth"].
Definition sample_fs : fs :=
  <[[lit "var"] := Dir 493]> (<[sample_dir := Dir 448]> ∅).
Definition sample_bytes : list Z := match serialize_to_toml sample_store with Ok b => b | Err _ => [] end.

Lemma sample_serializes : serialize_to_toml sample_store = Ok sample_bytes.
Proof. vm_compute. reflexivity. Qed.

Lemma bonds_toml_not_tmp : ~ is_tmp_name (lit "bonds.toml").
Proof. by intros [s [=]]. Qed.

Lemma sample_ready : ready sample_fs sample_dir.
Proof. split; [done |]. split; [vm_compute; reflexivity |]. exists 448. by split; vm_compute. Qed.

Lemma bond_save_atomic_witness :
  let w := mkWorld sample_fs [Fine; Fine; Fine; Dies (Some 3%nat)] in
  let p := join sample_dir (lit "bonds.toml") in
  files (BondStore_save sample_store p w).2 !! p = None \/
  files (BondStore_save sample_store p w).2 !! p = Some (File sample_bytes BOND_FILE_MODE).
Proof.
  pose proof (bond_save_atomic sample_store sample_dir (lit "bonds.toml") sample_bytes
    (mkWorld sample_fs [Fine; Fine; Fine; Dies (Some 3%nat)]) bonds_toml_not_tmp sample_serializes) as Ha.
  cbv zeta in *. destruct (BondStore_save _ _ _) as [[[]| |] w']; cbn [snd]; auto.
Defined.

Lemma bond_save_load_witness :
  let p := join sample_dir (lit "bonds.toml") in
  let g' := <[p := File sample_bytes BOND_FILE_MODE]> sample_fs in
  BondStore_save sample_store p (calm sample_fs) = (Ret (Ok tt), calm g') /\
  BondStore_load p (calm g') = (Ret (Ok sample_store), calm g').
Proof.
  apply (bond_save_load (TempfileLaws0 := toy_tempfile_laws) (TomlLaws0 := toy_toml_laws)
    (ChronoLaws0 := toy_chrono_laws) sample_store sample_fs sample_dir (lit "bonds.toml") sample_bytes
    sample_ready); [by vm_compute | exact bonds_toml_not_tmp | | exact sample_serializes].
  constructor; [| constructor]. split; [decide_now | reflexivity].
Defined.

Lemma bond_load_consistent_witness :
  Forall (fun b => peer_id b = peer_id_from_pubkey (pubkey b)) (bonds sample_store).
Proof.
  apply (proj2 (bond_load_consistent (join sample_dir (lit "bonds.toml"))
    (calm (<[join sample_dir (lit "bonds.toml") := File sample_bytes 384]> sample_fs)))).
  vm_compute. reflexivity.
Defined.

Definition revoked_store : BondStore := mkStore [set_status (StRevoked (lit "lost")) sample_bond].

Lemma bond_revocation_permanent_witness :
  let id := peer_id_from_pubkey sample_pubkey in
  revoked_as id (lit "lost") (view (run_ops revoked_store [SRevoke id (lit "again"); SAdd sample_bond]).1).
Proof.
  apply bond_revocation_permanent; [decide_now | by rewrite list_elem_of_In; intros [|[|[]]] |].
  eexists. split; vm_compute; reflexivity.
Defined.

Definition bad_raw : RawBond :=
  mkRawBond [] ([48] ++ [195; 169] ++ replicate 61 48) [] [] StBonded.
Definition bad_bytes : list Z := default [] (toml_to_string (mkRawBondFile 1 [bad_raw])).

Lemma bond_load_panics_witness :
  (BondStore_load (join sample_dir (lit "bonds.toml"))
    (calm (<[join sample_dir (lit "bonds.toml") := File bad_bytes 384]> sample_fs))).1 = Panicked.
Proof.
  apply (bond_load_panics _ _ bad_bytes (mkRawBondFile 1 [bad_raw]) bad_raw []); vm_compute; reflexivity.
Defined.
