(* ===== verification/PairRecovery.v ===== *)
(** * Durable staging and promotion of a pairing

    Models crates/syauth-core/src/pair_recovery.rs on the file system of Fs.v:
    the journal and its text format, [stage], [mark_commit_pending], [promote],
    [discard] and [discard_all].  The theorems are about every fault script: what
    each operation may leave on disk when a call fails or the process dies in it. *)

From stdpp Require Import prelude list gmap strings.
From Stdlib Require Import ZArith Lia.
From S2P Require Import Prelude WireFrame Fs Bond.

Definition BONDS_FILE_NAME : str := lit "bonds.toml".
Definition KEYS_DIR_NAME : str := lit "keys".
Definition KEY_FILE_EXT : str := lit ".bin".
Definition JOURNAL_FILE_NAME : str := lit "pairing-v2.journal".
Definition PENDING_BOND_FILE_NAME : str := lit "pairing-v2.pending".
Definition PENDING_KEY_PREFIX : str := lit ".pending-".

(** [with_extension("bin.tmp")] of a file named [<stem>.bin]. *)
Definition TMP_EXT : str := lit ".tmp".

Inductive JournalState := JPreCommit | JCommitPending.

#[global] Instance JournalState_eq_dec : EqDecision JournalState.
Proof. solve_decision. Defined.

Definition JournalState_as_str (s : JournalState) : str :=
  match s with JPreCommit => lit "pre_commit" | JCommitPending => lit "commit_pending" end.

Record JournalRecord := mkJournal {
  j_transaction : list Z;
  j_peer_id : str;
  j_peer_address : str;
  j_state : JournalState;
}.

Definition bonds_path (d : path) : path := join d BONDS_FILE_NAME.
Definition journal_path (d : path) : path := join d JOURNAL_FILE_NAME.
Definition pending_bond_path (d : path) : path := join d PENDING_BOND_FILE_NAME.
Definition keys_dir (d : path) : path := join d KEYS_DIR_NAME.
Definition active_key_path (d : path) (id : str) : path := join (keys_dir d) (id ++ KEY_FILE_EXT).
Definition pending_key_path (d : path) (id : str) : path :=
  join (keys_dir d) (PENDING_KEY_PREFIX ++ id ++ KEY_FILE_EXT).
Definition staged_tmp_path (d : path) (id : str) : path :=
  join (keys_dir d) (PENDING_KEY_PREFIX ++ id ++ KEY_FILE_EXT ++ TMP_EXT).
Definition final_tmp_path (d : path) (id : str) : path :=
  join (keys_dir d) (id ++ KEY_FILE_EXT ++ TMP_EXT).

(** ** The journal text *)

(** [str::lines] *)
Definition strip_cr (l : str) : str :=
  match last l with Some 13 => removelast l | _ => l end.

Fixpoint lines_from (cur : str) (s : str) : list str :=
  match s with
  | [] => match cur with [] => [] | _ => [cur] end
  | c :: s => if c =? 10 then strip_cr cur :: lines_from [] s else lines_from (cur ++ [c]) s
  end.

Definition str_lines (s : str) : list str := lines_from [] s.

(** The closure [field] of [read_journal]. *)
Fixpoint find_field (name : str) (ls : list str) : option str :=
  match ls with
  | [] => None
  | l :: ls =>
      match (match strip_prefix name l with Some v => strip_prefix (lit "=") v | None => None end) with
      | Some v => Some v
      | None => find_field name ls
      end
  end.

Definition field (text name : str) : option str := find_field name (str_lines text).

Definition newline : str := [10].

(** The [format!] of [write_journal]. *)
Definition journal_text (transaction : list Z) (id address : str) (state : JournalState) : str :=
  lit "version=2" ++ newline ++
  lit "transaction_id=" ++ hex_lowercase transaction ++ newline ++
  lit "peer_id=" ++ id ++ newline ++
  lit "peer_address=" ++ address ++ newline ++
  lit "state=" ++ JournalState_as_str state ++ newline.

Section recovery.
Context `{B3 : Blake3, CH : Chrono, TM : Toml, UM : Umask, TF : Tempfile}.

Inductive RecoveryError :=
| RIo (k : ErrorKind)
| RBond (e : BondError)
| RMalformed.

Definition write_journal (d : path) (transaction : list Z) (id address : str) (state : JournalState)
  : io (result unit RecoveryError) :=
  let!? _ := imap_err RIo (fs_create_dir_all d) in
  let!? _ := imap_err RIo (fs_set_permissions d 448) in
  let!? _ := imap_err RIo (fs_write (journal_path d) (journal_text transaction id address state)) in
  iret (Ok tt).

(** [read_journal] once the text is read. *)
Definition parse_journal (text : str) : io (result (option JournalRecord) RecoveryError) :=
  let!? id_text := iret (ok_or (field text (lit "transaction_id")) RMalformed) in
  if negb (len id_text =? 32) then iret (Err RMalformed)
  else
    let!? transaction := imap_err (fun _ => RMalformed) (hex_bytes id_text 16 0) in
    let state_text := default (lit "pre_commit") (field text (lit "state")) in
    let!? state := iret (
      if bool_decide (state_text = lit "pre_commit") then Ok JPreCommit
      else if bool_decide (state_text = lit "commit_pending") then Ok JCommitPending
      else Err RMalformed) in
    let!? id := iret (ok_or (field text (lit "peer_id")) RMalformed) in
    let!? address := iret (ok_or (field text (lit "peer_address")) RMalformed) in
    iret (Ok (Some (mkJournal transaction id address state))).

Definition read_journal (d : path) : io (result (option JournalRecord) RecoveryError) :=
  let! r := fs_read_to_string (journal_path d) in
  match r with
  | Err NotFound => iret (Ok None)
  | Err e => iret (Err (RIo e))
  | Ok text => parse_journal text
  end.

Definition mark_commit_pending (d : path) : io (result unit RecoveryError) :=
  let!? r := read_journal d in
  match r with
  | None => iret (Err RMalformed)
  | Some record =>
      write_journal d (j_transaction record) (j_peer_id record) (j_peer_address record) JCommitPending
  end.

Definition stage (d : path) (transaction : list Z) (id address : str) (bond : Bond) (bond_key : list Z)
  : io (result unit RecoveryError) :=
  let!? _ := imap_err RIo (fs_create_dir_all d) in
  let!? _ := imap_err RIo (fs_set_permissions d 448) in
  let '(pending, added) := BondStore_add BondStore_empty bond in
  let!? _ := imap_err RBond (iret added) in
  let!? _ := imap_err RBond (BondStore_save pending (pending_bond_path d)) in
  let staged_key := pending_key_path d id in
  let!? p := iret (ok_or (parent staged_key) RMalformed) in
  let!? _ := imap_err RIo (fs_create_dir_all p) in
  let!? _ := imap_err RIo (fs_set_permissions p 448) in
  let staged_tmp := staged_tmp_path d id in
  let!? _ := imap_err RIo (fs_write staged_tmp bond_key) in
  let!? _ := imap_err RIo (fs_set_permissions staged_tmp 384) in
  let!? _ := imap_err RIo (fs_rename staged_tmp staged_key) in
  write_journal d transaction id address JPreCommit.

(** [let _ = fs::remove_file(..)] *)
Definition remove_quietly (p : path) : io unit :=
  let! _ := fs_remove_file p in iret tt.

Definition discard (d : path) (id : str) : io unit :=
  let! _ := remove_quietly (journal_path d) in
  let! _ := remove_quietly (pending_bond_path d) in
  remove_quietly (pending_key_path d id).

Fixpoint remove_pending_keys (d : path) (l : list Bond) : io unit :=
  match l with
  | [] => iret tt
  | b :: l =>
      let! _ := remove_quietly (pending_key_path d (peer_id b)) in
      remove_pending_keys d l
  end.

Definition discard_all (d : path) : io unit :=
  let! store := BondStore_load (pending_bond_path d) in
  let! _ :=
    match store with
    | Ok st => remove_pending_keys d (BondStore_list st)
    | Err _ => iret tt
    end in
  let! _ := remove_quietly (journal_path d) in
  remove_quietly (pending_bond_path d).

Definition find_bond (id : str) (l : list Bond) : option Bond :=
  List.find (fun b => bool_decide (peer_id b = id)) l.

(** Copy the staged key over the active one. *)
Definition promote_key (d : path) (id : str) : io (result unit RecoveryError) :=
  let staged_key := pending_key_path d id in
  let final_key := active_key_path d id in
  let! staged_exists := fs_exists staged_key in
  if staged_exists then
    let!? key := imap_err RIo (fs_read staged_key) in
    if negb (len key =? BOND_KEY_DERIVED_BYTES) then iret (Err RMalformed)
    else
      let!? p := iret (ok_or (parent final_key) RMalformed) in
      let!? _ := imap_err RIo (fs_create_dir_all p) in
      let final_tmp := final_tmp_path d id in
      let!? _ := imap_err RIo (fs_write final_tmp key) in
      let!? _ := imap_err RIo (fs_set_permissions final_tmp 384) in
      imap_err RIo (fs_rename final_tmp final_key)
  else
    let! final_exists := fs_exists final_key in
    if negb final_exists then iret (Err RMalformed) else iret (Ok tt).

(** Replace or add the bond in the active store, in memory. *)
Definition activate (active : BondStore) (bond : Bond) : result BondStore RecoveryError :=
  let? active :=
    if existsb (fun b => bool_decide (peer_id b = peer_id bond)) (BondStore_list active)
    then let '(a, r) := BondStore_remove active (peer_id bond) in
         let? _ := map_err RBond r in Ok a
    else Ok active in
  let '(a, r) := BondStore_add active bond in
  let? _ := map_err RBond r in Ok a.

Definition promote (d : path) (id : str) : io (result unit RecoveryError) :=
  let!? staged := imap_err RBond (BondStore_load (pending_bond_path d)) in
  let!? bond := iret (ok_or (find_bond id (BondStore_list staged)) RMalformed) in
  let!? _ := promote_key d id in
  let active_path := bonds_path d in
  let!? active := imap_err RBond (BondStore_load active_path) in
  let!? active := iret (activate active bond) in
  let!? _ := imap_err RBond (BondStore_save active active_path) in
  let! _ := discard d id in
  iret (Ok tt).

End recovery.

(** ** What staging may touch *)

(** The active trust: the bonds file and the active keys.  Identifiers are
    lowercase hex, so none starts with a dot. *)
Definition plain (id : str) : Prop := match id with 46 :: _ => False | _ => True end.

Definition active_trust (d q : path) : Prop :=
  q = bonds_path d \/ exists id, plain id /\ q = active_key_path d id.

Definition staging (d q : path) : Prop :=
  q = d \/ ancestor (keys_dir d) q \/ tmp_in d q \/ q = pending_bond_path d \/ q = journal_path d \/
  exists id, q = pending_key_path d id \/ q = staged_tmp_path d id.

Lemma join_ne d a b : a <> b -> join d a <> join d b.
Proof. intros Hab [_ E] % join_inj. done. Qed.

Lemma join_join_ne d a b c : join (join d a) b <> join d c.
Proof.
  intros E % (f_equal length). unfold join in E. rewrite !length_app in E. cbn in E. lia.
Qed.

Lemma join_ne_dir d a : join d a <> d.
Proof. intros E % (f_equal length). unfold join in E. rewrite !length_app in E. cbn in E. lia. Qed.

Lemma join_join_ne_dir d a b : join (join d a) b <> d.
Proof. intros E % (f_equal length). unfold join in E. rewrite !length_app in E. cbn in E. lia. Qed.

Lemma ancestor_join d n q : ancestor (join d n) q -> ancestor d q \/ q = join d n.
Proof.
  intros (k & Hq & E). destruct k as [|x k] using rev_ind; [right; by rewrite app_nil_r in E |].
  left. exists k. split; [done |]. unfold join in E. rewrite app_assoc in E. by apply app_inj_tail in E as [].
Qed.

Lemma bonds_not_keys_ancestor d : ~ ancestor (keys_dir d) (bonds_path d).
Proof.
  intros [Ha | E] % ancestor_join; [by apply join_not_ancestor in Ha |].
  by apply join_inj in E as [_ E].
Qed.

Lemma trust_not_staging d q : active_trust d q -> ~ staging d q.
Proof.
  intros [-> | (id & Hid & ->)] [E | [Ha | [[s E] | [E | [E | (id' & [E | E])]]]]].
  - by apply join_ne_dir in E.
  - by apply bonds_not_keys_ancestor in Ha.
  - by apply join_inj in E as [_ [=]].
  - by apply join_inj in E as [_ [=]].
  - by apply join_inj in E as [_ [=]].
  - symmetry in E. by apply join_join_ne in E.
  - symmetry in E. by apply join_join_ne in E.
  - by apply join_join_ne_dir in E.
  - apply ancestor_join in Ha as [Ha | E]; [| by apply join_join_ne in E].
    destruct Ha as (k & _ & E % (f_equal length)). revert E. unfold active_key_path, keys_dir, join.
    rewrite !length_app. cbn. lia.
  - by apply join_join_ne in E.
  - by apply join_join_ne in E.
  - by apply join_join_ne in E.
  - apply join_inj in E as [_ E]. destruct id as [|c id]; [done |]. injection E as -> _. done.
  - apply join_inj in E as [_ E]. destruct id as [|c id]; [done |]. injection E as -> _. done.
Qed.

Section frames.
Context `{B3 : Blake3, CH : Chrono, TM : Toml, UM : Umask, TF : Tempfile}.

Lemma staging_dir d q : ancestor d q \/ q = d -> staging d q.
Proof.
  intros [(k & Hq & <-) | ->]; [right; left | by left].
  exists (k ++ [KEYS_DIR_NAME]). split; [done |]. unfold keys_dir, join. by rewrite app_assoc.
Qed.

Lemma staging_keys_dir d : staging d (keys_dir d).
Proof. right. left. exists []. split; [by destruct d | by rewrite app_nil_r]. Qed.

Lemma staging_save d q : save_touches d (pending_bond_path d) q -> staging d q.
Proof.
  intros [Ha | [-> | [Ht | ->]]]; [apply staging_dir; auto | by left | |]; unfold staging; auto 10.
Qed.

Lemma touches_write_journal d tx id addr st : touches (staging d) (write_journal d tx id addr st).
Proof.
  unfold write_journal. apply touches_try; [| intros _; apply touches_try; [| intros _; apply touches_try]].
  - apply touches_map_err. eapply touches_weaken; [apply touches_create_dir_all |].
    intros q Hq. by apply staging_dir; left.
  - apply touches_map_err. eapply touches_weaken; [apply touches_set_permissions |].
    intros q <-. by left.
  - apply touches_map_err. eapply touches_weaken; [apply touches_write |].
    intros q <-. unfold staging. auto 10.
  - intros. apply touches_ret.
Qed.

Lemma touches_parse_journal text : touches (fun _ => False) (parse_journal text).
Proof. unfold parse_journal. touch. Qed.

Lemma touches_read_journal d : touches (fun _ => False) (read_journal d).
Proof. unfold read_journal. touch; apply touches_parse_journal. Qed.

Lemma touches_mark_commit_pending d : touches (staging d) (mark_commit_pending d).
Proof.
  unfold mark_commit_pending. apply touches_try; [eapply touches_weaken; [apply touches_read_journal | done] |].
  intros [r|]; [apply touches_write_journal | apply touches_ret].
Qed.

Lemma touches_remove_quietly d p : staging d p -> touches (staging d) (remove_quietly p).
Proof.
  intros Hp. apply touches_bind; [| intros; apply touches_ret].
  eapply touches_weaken; [apply touches_remove_file |]. by intros q <-.
Qed.

Lemma touches_discard d id : touches (staging d) (discard d id).
Proof.
  unfold discard. apply touches_bind; [| intros _; apply touches_bind; [| intros _]];
    apply touches_remove_quietly; unfold staging; eauto 10.
Qed.

Lemma touches_discard_all d : touches (staging d) (discard_all d).
Proof.
  unfold discard_all. apply touches_bind; [eapply touches_weaken; [apply touches_load | done] |].
  intros r. apply touches_bind.
  - destruct r as [st|]; [| apply touches_ret]. induction (BondStore_list st) as [|b l IH]; [apply touches_ret |].
    cbn. apply touches_bind; [| intros; apply IH]. apply touches_remove_quietly. unfold staging. eauto 10.
  - intros _. apply touches_bind; intros; apply touches_remove_quietly; unfold staging; eauto 10.
Qed.

Lemma touches_stage d tx id addr b key : touches (staging d) (stage d tx id addr b key).
Proof.
  assert (Hdir : forall p, staging d p -> (forall q, ancestor p q -> staging d q) ->
    touches (staging d) (imap_err RIo (fs_create_dir_all p)) /\
    touches (staging d) (imap_err RIo (fs_set_permissions p 448))).
  { intros p Hp Ha. split; apply touches_map_err.
    - eapply touches_weaken; [apply touches_create_dir_all | done].
    - eapply touches_weaken; [apply touches_set_permissions |]. by intros q <-. }
  destruct (Hdir d) as [D1 D2]; [by left | intros; by apply staging_dir; left |].
  destruct (Hdir (keys_dir d)) as [K1 K2]; [apply staging_keys_dir | unfold staging; auto 10 |].
  unfold stage. destruct (BondStore_add BondStore_empty b) as [pending added].
  apply touches_try; [exact D1 | intros _]. apply touches_try; [exact D2 | intros _].
  apply touches_try; [apply touches_map_err, touches_ret | intros _].
  apply touches_try; [apply touches_map_err; eapply touches_weaken; [apply touches_save | apply staging_save] |].
  intros _. unfold pending_key_path at 1. rewrite parent_join. apply touches_try_ok.
  apply touches_try; [exact K1 | intros _]. apply touches_try; [exact K2 | intros _].
  apply touches_try; [| intros _; apply touches_try; [| intros _; apply touches_try]];
    [.. | intros _; apply touches_write_journal]; apply touches_map_err.
  - eapply touches_weaken; [apply touches_write |]. intros q <-. unfold staging. eauto 10.
  - eapply touches_weaken; [apply touches_set_permissions |]. intros q <-. unfold staging. eauto 10.
  - eapply touches_weaken; [apply touches_rename |]. intros q [-> | ->]; unfold staging; eauto 10.
Qed.

End frames.

(** ** Promotion on every fault script *)

Section promotion.
Context `{B3 : Blake3, CH : Chrono, TM : Toml, UM : Umask, TF : Tempfile}.
Context (d : path) (id : str) (Hid : plain id).

Lemma load_triple (F : fs -> Prop) p :
  ctriple F (BondStore_load p) (fun r g => F g /\ forall st, r = Ok st -> stored (g !! p) st) F.
Proof.
  intros w HF. pose proof (load_stored p (files w) w eq_refl) as Hl.
  destruct (BondStore_load p w) as [[r| |] w']; cbn in *; [| by rewrite <- Hl | by rewrite <- Hl].
  destruct Hl as [-> Hl]. done.
Qed.

(** The key that ends up active: the staged one, or the one that was there.  The
    second case does not say that no key was staged: [Path::exists] answers
    false as well when the call fails. *)
Definition key_installed (g0 g : fs) : Prop :=
  (exists key m, g0 !! pending_key_path d id = Some (File key m) /\ len key = BOND_KEY_DERIVED_BYTES /\
     g !! active_key_path d id = Some (File key 384)) \/
  (g !! active_key_path d id = g0 !! active_key_path d id /\ g0 !! active_key_path d id <> None).

(** The bonds file is the old one with the staged bond in it, and its key is in
    place. *)
Definition promoted (g0 g : fs) : Prop :=
  key_installed g0 g /\
  exists staged b active new bytes,
    stored (g0 !! pending_bond_path d) staged /\ find_bond id (bonds staged) = Some b /\
    stored (g0 !! bonds_path d) active /\ activate active b = Ok new /\
    serialize_to_toml new = Ok bytes /\ g !! bonds_path d = Some (File bytes BOND_FILE_MODE).

(** The active bonds, the journal and the staged bond and key are still the old
    ones: nothing is lost and the promotion can be tried again. *)
Definition intact (g0 g : fs) : Prop :=
  g !! bonds_path d = g0 !! bonds_path d /\ g !! journal_path d = g0 !! journal_path d /\
  g !! pending_bond_path d = g0 !! pending_bond_path d /\
  g !! pending_key_path d id = g0 !! pending_key_path d id.

Lemma final_not_ancestor n : ~ ancestor (keys_dir d) (join (keys_dir d) n).
Proof. apply join_not_ancestor. Qed.

Lemma file_not_keys_ancestor n : n <> KEYS_DIR_NAME -> ~ ancestor (keys_dir d) (join d n).
Proof.
  intros Hn [Ha | E] % ancestor_join; [by apply join_not_ancestor in Ha |].
  by apply join_inj in E as [_ E].
Qed.

(** No file of [keys/] is a file of the bond directory. *)
Lemma key_ne_file n m : join (keys_dir d) n <> join d m.
Proof. apply join_join_ne. Qed.

Lemma ext_ne (a b : str) : a ++ KEY_FILE_EXT <> b ++ KEY_FILE_EXT ++ TMP_EXT.
Proof.
  intros E % (f_equal last). rewrite app_assoc in E. rewrite !last_app in E. done.
Qed.

Lemma stable_intact S g0 :
  (forall p, In p [bonds_path d; journal_path d; pending_bond_path d; pending_key_path d id] -> ~ S p) ->
  stable S (intact g0).
Proof. intros HS g g' Hg. unfold intact. rewrite !Hg; [done | ..]; apply HS; cbn; tauto. Qed.

Lemma intact_ne_tmp p :
  In p [bonds_path d; journal_path d; pending_bond_path d; pending_key_path d id] ->
  p <> final_tmp_path d id /\ p <> active_key_path d id.
Proof.
  intros [<- | [<- | [<- | [<- | []]]]]; split; try (apply not_eq_sym, key_ne_file); apply join_ne.
  - intros E. symmetry in E. revert E. destruct id as [|c i]; [done |]. intros [= -> _]. done.
  - intros E. symmetry in E. revert E. destruct id as [|c i]; [done |]. intros [= -> _]. done.
Qed.

Lemma intact_install g0 g data m :
  intact g0 g -> intact g0 (<[active_key_path d id := File data m]> (delete (final_tmp_path d id) g)).
Proof.
  apply (stable_intact (fun q => q = active_key_path d id \/ q = final_tmp_path d id)).
  - intros p Hp. destruct (intact_ne_tmp p Hp). tauto.
  - intros q Hq. rewrite lookup_insert_ne, lookup_delete_ne by (intros <-; tauto). done.
Qed.

Lemma promote_key_triple g0 :
  ctriple (eq g0) (promote_key d id)
    (fun r g => intact g0 g /\ (is_ok r = true -> key_installed g0 g)) (intact g0).
Proof.
  assert (Hi : forall g, g0 = g -> intact g0 g) by (by intros g <-).
  unfold promote_key. eapply ctriple_bind.
  { eapply ctriple_conseq; [apply (exists_triple (eq g0)) | done | | apply Hi]. intros a g Ha. exact Ha. }
  intros [|].
  - eapply (ctriple_try _ _ _ (fun key g => g0 = g /\ exists m, g !! pending_key_path d id = Some (File key m))).
    { apply ctriple_map_err. eapply ctriple_conseq; [apply (read_triple (eq g0)) | by intros g [] | | apply Hi].
      intros [key|e] g [<- Hk]; cbn; [by eauto |]. by split; [apply Hi |]. }
    intros key. destruct (Z.eqb_spec (len key) BOND_KEY_DERIVED_BYTES) as [Hlen|]; cbn [negb];
      [| apply ctriple_ret; intros g [<- _]; by split; [apply Hi |]].
    unfold active_key_path at 1. rewrite parent_join.
    set (F := fun g : fs => intact g0 g /\ exists m, g0 !! pending_key_path d id = Some (File key m)).
    assert (HS : forall S, (forall p, In p [bonds_path d; journal_path d; pending_bond_path d;
      pending_key_path d id] -> ~ S p) -> stable S F).
    { intros S HS. apply stable_and; [by apply stable_intact | by intros g g' _]. }
    eapply (ctriple_try _ _ _ (fun p g => p = keys_dir d /\ F g)).
    { apply ctriple_ret. intros g [<- Hm]. split; [done |]. by split; [apply Hi |]. }
    intros p. apply ctriple_pure. intros ->. eapply ctriple_stable_try;
      [apply touches_map_err, touches_create_dir_all | | by intros g [] | by intros g e [] |].
    { apply HS. intros p [<- | [<- | [<- | [<- | []]]]]; [by apply file_not_keys_ancestor .. |].
      apply final_not_ancestor. }
    intros _. apply install_triple_err, ctriple_map_err.
    eapply ctriple_conseq; [apply (install_triple F) | done | |].
    { apply HS. intros p Hp. by apply intact_ne_tmp. }
    + intros [u|e] g; cbn; [| by intros []].
      intros [Hg (g1 & [Hg1 [m Hm]] & _ & ->)]. split; [| intros _; left; by exists key, m].
      by apply intact_install.
    + intros g [[HF _] | (g1 & [Hg1 _] & _ & ->)]; [done |]. by apply intact_install.
  - eapply ctriple_bind.
    { eapply ctriple_conseq; [apply (exists_triple (eq g0)) | by intros g [] | | apply Hi]. intros a g Ha. exact Ha. }
    intros [|]; apply ctriple_ret; intros g [<- Hf]; (split; [by apply Hi |]); [| done].
    intros _. right. split; [done |]. destruct (Hf eq_refl) as [E | E]; [| done].
    unfold active_key_path, join in E. by destruct (keys_dir d).
Qed.

Lemma bonds_not_tmp_name : ~ is_tmp_name BONDS_FILE_NAME.
Proof. by intros [s [=]]. Qed.

(** Saving the bonds file disturbs neither the journal nor the keys. *)
Definition staged_kept (g0 g : fs) : Prop :=
  g !! journal_path d = g0 !! journal_path d /\
  g !! pending_bond_path d = g0 !! pending_bond_path d /\
  g !! pending_key_path d id = g0 !! pending_key_path d id.

Lemma save_not_key n : ~ save_touches d (bonds_path d) (join (keys_dir d) n).
Proof.
  intros [Ha | [E | [[s E] | E]]].
  - destruct Ha as (k & _ & E % (f_equal length)). revert E. unfold keys_dir, join.
    rewrite !length_app. cbn. lia.
  - by apply join_join_ne_dir in E.
  - by apply key_ne_file in E.
  - by apply key_ne_file in E.
Qed.

Lemma save_not_file n : n <> BONDS_FILE_NAME -> ~ is_tmp_name n -> ~ save_touches d (bonds_path d) (join d n).
Proof.
  intros Hn Ht [Ha | [E | [[s E] | E]]]; [by apply join_not_ancestor in Ha | by apply join_ne_dir in E | |].
  - apply join_inj in E as [_ ->]. apply Ht. by eexists.
  - by apply join_inj in E as [_ E].
Qed.

Lemma stable_save_staged g0 : stable (save_touches d (bonds_path d)) (staged_kept g0).
Proof.
  intros g g' Hg. unfold staged_kept, pending_key_path.
  rewrite !(Hg _ (save_not_key _)), (Hg (journal_path d)), (Hg (pending_bond_path d)); [done | |];
    (apply save_not_file; [done | by intros [s [=]]]).
Qed.

Lemma stable_save g0 :
  stable (save_touches d (bonds_path d)) (fun g => staged_kept g0 g /\ key_installed g0 g).
Proof.
  apply stable_and; [apply stable_save_staged |]. intros g g' Hg. unfold key_installed, active_key_path, pending_key_path.
  by rewrite !(Hg _ (save_not_key _)).
Qed.

Lemma stable_discard g0 : stable (staging d) (promoted g0).
Proof.
  intros g g' Hg. unfold promoted, key_installed.
  rewrite !(Hg (active_key_path d id)), !(Hg (bonds_path d)); [done | |]; apply trust_not_staging.
  - by left.
  - right. by exists id.
Qed.

Lemma promote_triple g0 :
  ctriple (eq g0) (promote d id)
    (fun r g => (intact g0 g \/ promoted g0 g) /\ (is_ok r = true -> promoted g0 g))
    (fun g => intact g0 g \/ promoted g0 g).
Proof.
  assert (Hi : forall g, g0 = g -> intact g0 g) by (by intros g <-).
  unfold promote.
  eapply (ctriple_try _ _ _ (fun staged g => g0 = g /\ stored (g0 !! pending_bond_path d) staged)).
  { apply ctriple_map_err. eapply ctriple_conseq; [apply (load_triple (eq g0)) | done | | auto].
    intros [st|e] g [<- Hst]; cbn; [auto |]. split; [auto | done]. }
  intros staged. eapply (ctriple_try _ _ _ (fun b g => g0 = g /\
    stored (g0 !! pending_bond_path d) staged /\ find_bond id (bonds staged) = Some b)).
  { apply ctriple_ret. intros g [<- Hst]. unfold BondStore_list.
    destruct (find_bond id (bonds staged)) as [b|]; cbn; [done |]. split; [auto | done]. }
  intros b. eapply (ctriple_try _ _ _ (fun _ g =>
    (stored (g0 !! pending_bond_path d) staged /\ find_bond id (bonds staged) = Some b) /\
    intact g0 g /\ key_installed g0 g)).
  { intros w (Hg & Hst). pose proof (promote_key_triple g0 w Hg) as Hk.
    destruct (promote_key d id w) as [[[u|e]| |] w']; cbn in *; [| | by auto | by auto];
      destruct Hk as [? ?]; [by auto |]. split; [by left | done]. }
  intros _. apply ctriple_pure. intros [Hst Hb].
  eapply (ctriple_try _ _ _ (fun active g => stored (g0 !! bonds_path d) active /\ intact g0 g /\ key_installed g0 g)).
  { apply ctriple_map_err. eapply ctriple_conseq; [apply load_triple | intros g Hg; exact Hg | | by intros g []; auto].
    intros [st|e] g [[Hg Hk] Hl]; cbn; [| split; [auto | done]].
    specialize (Hl st eq_refl). rewrite (proj1 Hg) in Hl. auto. }
  intros active. apply ctriple_pure. intros Hact.
  eapply (ctriple_try _ _ _ (fun new g => activate active b = Ok new /\ intact g0 g /\ key_installed g0 g)).
  { apply ctriple_ret. intros g Hg. destruct (activate active b); cbn; [by auto |].
    destruct Hg. split; [auto | done]. }
  intros new. apply ctriple_pure. intros Hnew.
  eapply (ctriple_try _ _ _ (fun _ => promoted g0)).
  { apply ctriple_map_err. eapply ctriple_conseq.
    - eapply (ctriple_keep _ _ _ _ _ _ (touches_save new d BONDS_FILE_NAME) (stable_save g0)).
      apply (save_triple_any new d BONDS_FILE_NAME (g0 !! bonds_path d)), bonds_not_tmp_name.
    - intros g [[H1 H2] Hk]. by repeat split; try apply H2.
    - intros [u|e] g [Hg [Hj Hk]]; cbn in *.
      + destruct Hg as (bytes & Hs & Hf). split; [done |]. by exists staged, b, active, new, bytes.
      + split; [| done]. left. by split.
    - intros g [[Hg | (bytes & Hs & Hf)] [Hj Hk]]; [left; by split | right].
      split; [done |]. by exists staged, b, active, new, bytes. }
  intros _. eapply ctriple_bind.
  - eapply ctriple_conseq; [apply (ctriple_stable _ _ _ (touches_discard d id) (stable_discard g0)) | done | |].
    + intros u g Hg. exact Hg.
    + auto.
  - intros u. apply ctriple_ret. auto.
Qed.

End promotion.

(** ** The journal text reads back *)

(** Printable ASCII, as identifiers and Bluetooth addresses are. *)
Definition printable (s : str) : Prop := Forall (fun c => 32 <= c <= 126) s.

#[global] Instance printable_dec s : Decision (printable s).
Proof. unfold printable. apply _. Defined.

Lemma printable_app a b : printable a -> printable b -> printable (a ++ b).
Proof. apply Forall_app_2. Qed.

Lemma utf8_ascii s : Forall (fun c => 0 <= c <= 127) s -> utf8 s = true.
Proof.
  induction 1 as [|c s Hc _ IH]; [done |]. cbn. destruct (Z.leb_spec c 127); [done | lia].
Qed.

Lemma strip_cr_printable s : printable s -> strip_cr s = s.
Proof.
  intros Hs. unfold strip_cr. destruct (last s) as [c|] eqn:E; [| done].
  apply last_Some_elem_of, (proj1 (Forall_forall _ _) Hs) in E. cbn in E.
  destruct c as [|p|p]; try done. repeat (destruct p as [p|p|]; try done). lia.
Qed.

Lemma lines_from_printable cur l rest :
  printable l -> lines_from cur (l ++ newline ++ rest) = strip_cr (cur ++ l) :: lines_from [] rest.
Proof.
  intros Hl. revert cur. induction Hl as [|c l Hc _ IH]; intros cur; cbn [app lines_from].
  - cbn. by rewrite app_nil_r.
  - destruct (Z.eqb_spec c 10); [lia |]. rewrite IH. by rewrite <- app_assoc.
Qed.

Lemma hex_printable l : bytes_ok l -> printable (hex_lowercase l).
Proof. intros Hl. eapply Forall_impl; [by apply hex_lowercase_ascii |]. cbn. lia. Qed.

Lemma lit_printable_state st : printable (JournalState_as_str st).
Proof. destruct st; decide_now. Qed.

Lemma journal_lines tx id addr st :
  bytes_ok tx -> printable id -> printable addr ->
  str_lines (journal_text tx id addr st) =
    [lit "version=2"; lit "transaction_id=" ++ hex_lowercase tx; lit "peer_id=" ++ id;
     lit "peer_address=" ++ addr; lit "state=" ++ JournalState_as_str st].
Proof.
  intros Htx Hid Ha. unfold str_lines, journal_text.
  pose proof (hex_printable tx Htx) as Hh. pose proof (lit_printable_state st) as Hst.
  assert (P1 : printable (lit "version=2")) by decide_now.
  assert (P2 : printable (lit "transaction_id=" ++ hex_lowercase tx)) by (apply printable_app; [decide_now | done]).
  assert (P3 : printable (lit "peer_id=" ++ id)) by (apply printable_app; [decide_now | done]).
  assert (P4 : printable (lit "peer_address=" ++ addr)) by (apply printable_app; [decide_now | done]).
  assert (P5 : printable (lit "state=" ++ JournalState_as_str st)) by (apply printable_app; [decide_now | done]).
  rewrite (app_assoc (lit "transaction_id=")), (app_assoc (lit "peer_id=")),
    (app_assoc (lit "peer_address=")), (app_assoc (lit "state=")).
  rewrite !lines_from_printable by done. cbn [app].
  rewrite <- (app_nil_r newline), lines_from_printable by done. by rewrite !strip_cr_printable.
Qed.

Lemma journal_utf8 tx id addr st :
  bytes_ok tx -> printable id -> printable addr -> utf8 (journal_text tx id addr st) = true.
Proof.
  intros Htx Hid Ha. apply utf8_ascii. pose proof (hex_printable tx Htx) as Hh.
  assert (Hp : forall s, printable s -> Forall (fun c => 0 <= c <= 127) s).
  { intros s Hs. eapply Forall_impl; [exact Hs |]. cbn. lia. }
  assert (Hn : Forall (fun c => 0 <= c <= 127) newline) by decide_now.
  unfold journal_text. repeat apply Forall_app_2; auto; try decide_now.
  destruct st; decide_now.
Qed.

Section journal.
Context `{B3 : Blake3, CH : Chrono, TM : Toml, UM : Umask, TF : Tempfile}.

Lemma parse_journal_text tx id addr st w :
  arr 16 tx -> printable id -> printable addr ->
  parse_journal (journal_text tx id addr st) w = (Ret (Ok (Some (mkJournal tx id addr st))), w).
Proof.
  intros [Hl Htx] Hid Ha. unfold parse_journal, field. rewrite journal_lines by done.
  replace (find_field (lit "transaction_id") _) with (Some (hex_lowercase tx)) by done.
  replace (find_field (lit "state") _) with (Some (JournalState_as_str st)) by done.
  replace (find_field (lit "peer_id") _) with (Some id) by done.
  replace (find_field (lit "peer_address") _) with (Some addr) by done.
  unfold itry, imap_err, ibind. cbn [ok_or iret]. rewrite len_hex_lowercase. unfold len. rewrite Hl.
  change (negb (2 * 16 =? 32)) with false. cbv iota beta. replace 16%nat with (length tx) by lia.
  pose proof (hex_bytes_hex_lowercase [] tx w Htx) as Hx. cbn [app] in Hx.
  replace (len []) with 0 in Hx by done. rewrite Hx. cbn [map_err iret default].
  by destruct st.
Qed.

Lemma read_journal_text g d tx id addr st m :
  arr 16 tx -> printable id -> printable addr ->
  g !! journal_path d = Some (File (journal_text tx id addr st) m) ->
  read_journal d (calm g) = (Ret (Ok (Some (mkJournal tx id addr st))), calm g).
Proof.
  intros Htx Hid Ha Hf. unfold read_journal, fs_read_to_string, ibind. rewrite syscall_calm. cbn [fst snd].
  rewrite (read_op_file _ _ _ _ Hf). cbn [rbind]. rewrite journal_utf8 by (done || apply Htx).
  by apply parse_journal_text.
Qed.
End journal.

(** ** The pairing on disk, without faults *)

(** Two of the paths of this file differ. *)
Ltac path_ne :=
  solve
    [ first [apply join_ne_dir | apply not_eq_sym, join_ne_dir | apply join_join_ne_dir
            | apply not_eq_sym, join_join_ne_dir | apply join_join_ne | apply not_eq_sym, join_join_ne]
    | apply join_ne; done
    | apply join_ne; auto with paths ].

(** Read through the updates of a file system. *)
Ltac fs_lookup :=
  repeat first
    [ rewrite lookup_insert_eq
    | rewrite lookup_insert_ne by path_ne
    | rewrite lookup_delete_ne by path_ne
    | rewrite lookup_delete_eq ].

Create HintDb paths.

Lemma staged_names_ne id :
  PENDING_KEY_PREFIX ++ id ++ KEY_FILE_EXT ++ TMP_EXT <> PENDING_KEY_PREFIX ++ id ++ KEY_FILE_EXT.
Proof. intros E % (f_equal length). revert E. rewrite !length_app. cbn. lia. Qed.

Lemma plain_ne_pending id x : plain id -> id ++ KEY_FILE_EXT <> PENDING_KEY_PREFIX ++ x.
Proof. intros Hid E. destruct id as [|c id]; [done |]. injection E as -> _. done. Qed.

Lemma plain_tmp_ne_pending id x : plain id -> id ++ KEY_FILE_EXT ++ TMP_EXT <> PENDING_KEY_PREFIX ++ x.
Proof. intros Hid E. destruct id as [|c id]; [done |]. injection E as -> _. done. Qed.

#[export] Hint Resolve staged_names_ne ext_ne plain_ne_pending plain_tmp_ne_pending not_eq_sym : paths.

(** A bond directory as the daemon keeps it: [d] and [d/keys] are directories
    and hold only files. *)
Record site (g : fs) (d : path) : Prop := mkSite {
  site_root : d <> [];
  site_keys : resolve g [] (keys_dir d) = Ok tt;
  site_files : forall n, n <> KEYS_DIR_NAME -> not_dir (g !! join d n);
  site_key_files : forall n, not_dir (g !! join (keys_dir d) n);
}.

Lemma site_dir g d : site g d -> resolve g [] d = Ok tt.
Proof. intros [_ Hk _ _]. by apply resolve_prefix in Hk. Qed.

Lemma site_mode g d : site g d -> exists m, g !! d = Some (Dir m).
Proof.
  intros Hs. pose proof (site_dir g d Hs) as Hd. destruct Hs as [Hr _ _ _].
  destruct (exists_last Hr) as (d' & c & ->). by apply resolve_last.
Qed.

Lemma not_dir_insert_file (g : fs) (p q : path) c m : not_dir (g !! q) -> not_dir (<[p := File c m]> g !! q).
Proof.
  destruct (decide (p = q)) as [-> | Hne]; [by rewrite lookup_insert_eq | by rewrite lookup_insert_ne].
Qed.

Lemma not_dir_delete (g : fs) (p q : path) : not_dir (g !! q) -> not_dir (delete p g !! q).
Proof.
  destruct (decide (p = q)) as [-> | Hne]; [by rewrite lookup_delete_eq | by rewrite lookup_delete_ne].
Qed.

Lemma site_insert g d p c m : site g d -> not_dir (g !! p) -> site (<[p := File c m]> g) d.
Proof.
  intros [H1 H2 H3 H4] Hp. split; [done | | |]; auto using not_dir_insert_file.
  apply (resolve_mono g); [by apply dirs_kept_insert | done].
Qed.

Lemma site_delete g d p : site g d -> not_dir (g !! p) -> site (delete p g) d.
Proof.
  intros [H1 H2 H3 H4] Hp. split; [done | | |]; auto using not_dir_delete.
  apply (resolve_mono g); [by apply dirs_kept_delete | done].
Qed.

Lemma site_chmod g d q m m' : site g d -> g !! q = Some (Dir m) -> site (<[q := Dir m']> g) d.
Proof.
  intros [H1 H2 H3 H4] Hq. split; [done | | |].
  - apply (resolve_mono g); [| done]. intros p k Hp.
    destruct (decide (q = p)) as [-> | Hne]; [exists m'; apply lookup_insert_eq |].
    exists k. by rewrite lookup_insert_ne.
  - intros n Hn. rewrite lookup_insert_ne; [auto |]. intros ->. specialize (H3 n Hn). by rewrite Hq in H3.
  - intros n. rewrite lookup_insert_ne; [auto |]. intros ->. specialize (H4 n). by rewrite Hq in H4.
Qed.

Lemma keys_chmod_calm g d m' :
  site g d ->
  fs_set_permissions (keys_dir d) m' (calm g) = (Ret (Ok tt), calm (<[keys_dir d := Dir m']> g)) /\
  site (<[keys_dir d := Dir m']> g) d.
Proof.
  intros Hs. destruct (resolve_last g d KEYS_DIR_NAME (site_keys _ _ Hs)) as [m Hm].
  fold (keys_dir d) in Hm. split; [| by eapply site_chmod].
  apply (chmod_dir_calm g (keys_dir d) m m'); [by destruct d | apply Hs | done].
Qed.

Lemma dir_chmod_calm g d m' :
  site g d ->
  fs_set_permissions d m' (calm g) = (Ret (Ok tt), calm (<[d := Dir m']> g)) /\ site (<[d := Dir m']> g) d.
Proof.
  intros Hs. destruct (site_mode g d Hs) as [m Hm]. split; [| by eapply site_chmod].
  apply (chmod_dir_calm g d m m'); [apply Hs | by apply site_dir | done].
Qed.

Section calm_runs.
Context `{B3 : Blake3, CH : Chrono, TM : Toml, UM : Umask, TF : Tempfile, !TempfileLaws TF}.

Lemma create_dir_calm g d : site g d -> fs_create_dir_all d (calm g) = (Ret (Ok tt), calm g).
Proof. intros Hs. by apply create_dirs_calm, site_dir. Qed.

Lemma create_keys_calm g d : site g d -> fs_create_dir_all (keys_dir d) (calm g) = (Ret (Ok tt), calm g).
Proof. intros Hs. apply create_dirs_calm, Hs. Qed.

Lemma site_ready g d : site g d -> ready (<[d := Dir 448]> g) d.
Proof.
  intros Hs. destruct (dir_chmod_calm g d 448 Hs) as [_ Hs']. split; [apply Hs |].
  split; [by apply site_dir |]. exists 448. split; [apply lookup_insert_eq | done].
Qed.

Lemma write_journal_calm g d tx id addr st :
  site g d ->
  exists m, write_journal d tx id addr st (calm g) =
    (Ret (Ok tt), calm (<[journal_path d := File (journal_text tx id addr st) m]> (<[d := Dir 448]> g))).
Proof.
  intros Hs. destruct (dir_chmod_calm g d 448 Hs) as [Hc Hs']. eexists.
  unfold write_journal, itry, imap_err, ibind. rewrite create_dir_calm by done. cbn [iret map_err].
  rewrite Hc. cbn [iret map_err]. rewrite write_calm. unfold journal_path.
  rewrite (write_op_ready _ d (site_dir _ _ Hs')) by (by apply (site_files _ _ Hs')). done.
Qed.

Lemma mark_commit_pending_calm g d tx id addr st m :
  site g d -> arr 16 tx -> printable id -> printable addr ->
  g !! journal_path d = Some (File (journal_text tx id addr st) m) ->
  exists m', mark_commit_pending d (calm g) =
    (Ret (Ok tt),
     calm (<[journal_path d := File (journal_text tx id addr JCommitPending) m']> (<[d := Dir 448]> g))).
Proof.
  intros Hs Htx Hid Ha Hj. destruct (write_journal_calm g d tx id addr JCommitPending Hs) as [m' Hw].
  exists m'. unfold mark_commit_pending, itry, ibind. by rewrite (read_journal_text g d tx id addr st m).
Qed.

Lemma stage_calm g d tx id addr b key bytes :
  site g d -> serialize_to_toml (mkStore [b]) = Ok bytes ->
  exists g' m, stage d tx id addr b key (calm g) = (Ret (Ok tt), calm g') /\ site g' d /\
    g' !! d = Some (Dir 448) /\
    g' !! pending_bond_path d = Some (File bytes BOND_FILE_MODE) /\
    g' !! pending_key_path d id = Some (File key 384) /\
    g' !! journal_path d = Some (File (journal_text tx id addr JPreCommit) m).
Proof.
  intros Hs Hb. destruct (dir_chmod_calm g d 448 Hs) as [Hc Hs1]. pose proof (site_ready g d Hs) as Hr.
  set (g1 := <[d := Dir 448]> g) in *.
  assert (Np : not_dir (g1 !! pending_bond_path d)) by (by apply (site_files _ _ Hs1)).
  set (g2 := <[pending_bond_path d := File bytes BOND_FILE_MODE]> g1).
  assert (Hs2 : site g2 d) by (by apply site_insert).
  destruct (keys_chmod_calm g2 d 448 Hs2) as [Hk Hs3]. set (g3 := <[keys_dir d := Dir 448]> g2) in *.
  set (g4 := <[pending_key_path d id := File key 384]> (delete (staged_tmp_path d id) g3)).
  assert (Hs4 : site g4 d).
  { apply site_insert; [apply site_delete; [done |] | apply not_dir_delete]; apply (site_key_files _ _ Hs3). }
  destruct (write_journal_calm g4 d tx id addr JPreCommit Hs4) as [m Hw].
  destruct (dir_chmod_calm g4 d 448 Hs4) as [_ Hs5].
  exists (<[journal_path d := File (journal_text tx id addr JPreCommit) m]> (<[d := Dir 448]> g4)), m.
  split_and!.
  - unfold stage. erewrite itry_map_ok by (by apply create_dir_calm).
    rewrite (itry_map_ok _ _ _ _ _ _ Hc).
    cbn [BondStore_add BondStore_empty find_index bonds position app].
    erewrite itry_map_ok by reflexivity.
    erewrite itry_map_ok by (apply (save_ready _ g1 d PENDING_BOND_FILE_NAME bytes); done || by intros [s [=]]).
    fold (pending_bond_path d) g2. erewrite itry_ok by (unfold pending_key_path; by rewrite parent_join).
    erewrite itry_map_ok by (by apply create_keys_calm). rewrite (itry_map_ok _ _ _ _ _ _ Hk).
    erewrite (install_calm_then RIo); [exact Hw |].
    apply (install_calm g3 (keys_dir d)); auto using site_keys, site_key_files, staged_names_ne.
  - apply site_insert; [done |]. apply (site_files _ _ Hs5). done.
  - rewrite lookup_insert_ne by apply join_ne_dir. apply lookup_insert_eq.
  - unfold g4, g3, g2, journal_path, pending_bond_path, pending_key_path, staged_tmp_path. by fs_lookup.
  - unfold g4, journal_path, pending_key_path. by fs_lookup.
  - by fs_lookup.
Qed.

Lemma remove_quietly_calm g d n c m :
  resolve g [] d = Ok tt -> g !! join d n = Some (File c m) ->
  remove_quietly (join d n) (calm g) = (Ret tt, calm (delete (join d n) g)).
Proof. intros Hd Hf. unfold remove_quietly, ibind. by rewrite (remove_calm g d n c m). Qed.

Lemma discard_calm g d id j mj p mp k mk :
  site g d -> g !! journal_path d = Some (File j mj) -> g !! pending_bond_path d = Some (File p mp) ->
  g !! pending_key_path d id = Some (File k mk) ->
  discard d id (calm g) =
    (Ret tt, calm (delete (pending_key_path d id) (delete (pending_bond_path d) (delete (journal_path d) g)))).
Proof.
  intros Hs Hj Hp Hk. unfold discard, ibind, journal_path, pending_bond_path, pending_key_path in *.
  rewrite (remove_quietly_calm g d _ j mj) by (done || by apply site_dir).
  assert (Hs1 : site (delete (join d JOURNAL_FILE_NAME) g) d) by (apply site_delete; [done | by rewrite Hj]).
  rewrite (remove_quietly_calm _ d _ p mp) by (by fs_lookup || by apply site_dir).
  rewrite (remove_quietly_calm _ (keys_dir d) _ k mk); [done | | by fs_lookup].
  apply site_keys. apply site_delete; [done |]. fs_lookup. by rewrite Hp.
Qed.

Lemma promote_key_calm g d id key m :
  site g d -> g !! pending_key_path d id = Some (File key m) -> len key = BOND_KEY_DERIVED_BYTES ->
  promote_key d id (calm g) =
    (Ret (Ok tt), calm (<[active_key_path d id := File key 384]> (delete (final_tmp_path d id) g))).
Proof.
  intros Hs Hk Hl. unfold promote_key, ibind at 1. unfold pending_key_path at 1.
  rewrite exists_calm by apply Hs. fold (pending_key_path d id).
  rewrite bool_decide_eq_true_2 by (rewrite Hk; by eexists).
  erewrite itry_map_ok by (unfold fs_read; rewrite syscall_calm, (read_op_file _ _ _ _ Hk); reflexivity).
  rewrite Hl, Z.eqb_refl. cbn [negb].
  erewrite itry_ok by (unfold active_key_path; by rewrite parent_join).
  erewrite itry_map_ok by (by apply create_keys_calm).
  apply install_calm_last, (install_calm g (keys_dir d)); auto using site_keys, site_key_files.
  apply not_eq_sym, ext_ne.
Qed.

Lemma promote_calm g d id staged b key m active new bytes j mj :
  site g d -> plain id -> g !! d = Some (Dir 448) ->
  stored (g !! pending_bond_path d) staged -> find_bond id (bonds staged) = Some b ->
  g !! pending_key_path d id = Some (File key m) -> len key = BOND_KEY_DERIVED_BYTES ->
  stored (g !! bonds_path d) active -> activate active b = Ok new -> serialize_to_toml new = Ok bytes ->
  g !! journal_path d = Some (File j mj) ->
  exists g', promote d id (calm g) = (Ret (Ok tt), calm g') /\
    g' !! bonds_path d = Some (File bytes BOND_FILE_MODE) /\
    g' !! active_key_path d id = Some (File key 384) /\
    g' !! journal_path d = None /\ g' !! pending_bond_path d = None /\ g' !! pending_key_path d id = None.
Proof.
  intros Hs Hid Hm Hst Hb Hk Hl Hact Hnew Hser Hj.
  assert (exists p mp, g !! pending_bond_path d = Some (File p mp)) as (p & mp & Hp).
  { unfold stored in Hst. destruct (g !! pending_bond_path d) as [[p mp|]|]; [by eauto | done |]. by subst staged. }
  set (g1 := <[active_key_path d id := File key 384]> (delete (final_tmp_path d id) g)).
  set (g2 := <[bonds_path d := File bytes BOND_FILE_MODE]> g1).
  assert (Hs1 : site g1 d).
  { apply site_insert; [apply site_delete; [done |] | apply not_dir_delete]; apply (site_key_files _ _ Hs). }
  assert (Hs2 : site g2 d) by (apply site_insert; [done | by apply (site_files _ _ Hs1)]).
  assert (L1 : g1 !! d = Some (Dir 448)) by (unfold g1, active_key_path, final_tmp_path; by fs_lookup).
  assert (L2 : g1 !! bonds_path d = g !! bonds_path d)
    by (unfold g1, active_key_path, final_tmp_path, bonds_path; by fs_lookup).
  assert (L3 : g2 !! journal_path d = Some (File j mj) /\ g2 !! pending_bond_path d = Some (File p mp) /\
    g2 !! pending_key_path d id = Some (File key m)).
  { unfold g2, g1, journal_path, bonds_path, pending_bond_path, active_key_path, final_tmp_path, pending_key_path in *.
    split_and!; by fs_lookup. }
  destruct L3 as (Lj & Lp & Lk). eexists. split; [| split_and!].
  - unfold promote. erewrite itry_map_ok by (apply load_calm; [exact Hst | by rewrite Hp]).
    erewrite itry_ok by (unfold BondStore_list; by rewrite Hb).
    rewrite (itry_ok _ _ _ _ _ (promote_key_calm g d id key m Hs Hk Hl)). fold g1.
    erewrite itry_map_ok by (apply load_calm; [rewrite L2; exact Hact |];
      intros _; unfold bonds_path; rewrite resolve_parent_join; by apply site_dir).
    erewrite itry_ok by (by rewrite Hnew).
    erewrite itry_map_ok.
    2: { apply (save_ready new g1 d BONDS_FILE_NAME bytes).
      - split; [apply Hs |]. split; [by apply site_dir |]. by exists 448.
      - by apply (site_files _ _ Hs1).
      - by intros [s [=]].
      - done. }
    fold (bonds_path d) g2. unfold ibind. rewrite (discard_calm g2 d id j mj p mp key m) by done. reflexivity.
  - unfold g2, bonds_path, pending_key_path, pending_bond_path, journal_path. by fs_lookup.
  - unfold g2, g1, active_key_path, bonds_path, pending_key_path, pending_bond_path, journal_path. by fs_lookup.
  - unfold pending_key_path, pending_bond_path, journal_path. by fs_lookup.
  - unfold pending_key_path, pending_bond_path, journal_path. by fs_lookup.
  - by fs_lookup.
Qed.
End calm_runs.

(** ** The bond that becomes active *)

Section activation.
Context `{B3 : Blake3, CH : Chrono, TM : Toml, UM : Umask, TF : Tempfile}.

Lemma existsb_ids st id :
  existsb (fun b => bool_decide (peer_id b = id)) (bonds st) = true <-> is_Some (find_index st id).
Proof.
  unfold find_index. induction (bonds st) as [|b l IH]; cbn.
  - split; [done | by intros []].
  - destruct (bool_decide (peer_id b = id)); cbn; [by split; [eexists |] |].
    rewrite IH. by rewrite fmap_is_Some.
Qed.

Lemma activate_view active b :
  NoDup (ids active) ->
  exists new, activate active b = Ok new /\ NoDup (ids new) /\
    view new = <[peer_id b := b]> (view active).
Proof.
  intros Hnd. unfold activate, BondStore_list.
  assert (exists a, (if existsb (fun x => bool_decide (peer_id x = peer_id b)) (bonds active)
      then let '(a, r) := BondStore_remove active (peer_id b) in let? _ := map_err RBond r in Ok a
      else Ok active) = Ok a /\ NoDup (ids a) /\ view a = delete (peer_id b) (view active)) as (a & -> & Hna & Hva).
  { destruct (existsb _ _) eqn:E.
    - apply existsb_ids in E as [i Hi]. destruct (refines_remove active (peer_id b) Hnd) as [Hn Hv].
      cbn [apply_op spec_op] in *. unfold BondStore_remove in *. rewrite Hi in *.
      eexists. split; [reflexivity |]. split; [exact Hn |]. cbn [fst snd] in Hv.
      destruct (view active !! peer_id b); by injection Hv as <-.
    - exists active. split; [done |]. split; [done |]. symmetry. apply delete_id, view_none.
      apply find_index_none. destruct (find_index active (peer_id b)) eqn:Ef; [| done].
      by rewrite (proj2 (existsb_ids active (peer_id b))) in E by (by rewrite Ef). }
  cbn [rbind]. destruct (refines_add a b Hna) as [Hn Hv]. cbn [apply_op spec_op] in *.
  rewrite Hva, lookup_delete_eq in Hv. destruct (BondStore_add a b) as [new r]. injection Hv as Hv <-.
  exists new. cbn in *. split; [done |]. split; [done |]. by rewrite <- Hv, insert_delete_eq.
Qed.

Lemma find_bond_in id l b : find_bond id l = Some b -> In b l /\ peer_id b = id.
Proof. intros [Hin Hb] % find_some. by apply bool_decide_eq_true_1 in Hb. Qed.

Lemma find_bond_singleton b : find_bond (peer_id b) [b] = Some b.
Proof. unfold find_bond. cbn. by rewrite bool_decide_eq_true_2. Qed.
End activation.

(** ** Properties *)

Section properties.
Context `{B3 : Blake3, CH : Chrono, TM : Toml, UM : Umask, TF : Tempfile}.

(** Staging never touches the active trust: on every fault script, whether
    they return, fail or die half way, [stage], [mark_commit_pending], [discard]
    and [discard_all] leave bonds.toml and every active key exactly as they were. *)
Theorem staging_keeps_active_trust d q w tx id addr b key :
  active_trust d q ->
  files (stage d tx id addr b key w).2 !! q = files w !! q /\
  files (mark_commit_pending d w).2 !! q = files w !! q /\
  files (discard d id w).2 !! q = files w !! q /\
  files (discard_all d w).2 !! q = files w !! q.
Proof.
  intros Hq % trust_not_staging.
  split_and!; [apply touches_stage | apply touches_mark_commit_pending | apply touches_discard
    | apply touches_discard_all]; done.
Qed.

(** C4: [promote] is safe on every fault script: at whatever call it fails or
    dies, either the bonds file, the journal, the staged bond and the staged key
    are all as before, so that it can be run again, or the bonds file is
    completely the old store with the staged bond put in and the peer's active
    key is in place; it returns [Ok] only in the second case. *)
Theorem promote_crash_safe d id w :
  plain id ->
  let w' := (promote d id w).2 in
  (intact d id (files w) (files w') \/ promoted d id (files w) (files w')) /\
  ((promote d id w).1 = Ret (Ok tt) -> promoted d id (files w) (files w')).
Proof.
  intros Hid. pose proof (promote_triple d id Hid (files w) w eq_refl) as Ht. cbv zeta.
  destruct (promote d id w) as [[[[]|e]| |] w']; cbn in *; [| | by split | by split];
    destruct Ht as [Ht Hp]; (split; [done |]); by auto.
Qed.

(** A pairing that meets no fault ends in active trust and leaves no trace
    of staging: [stage], [mark_commit_pending] and [promote] in turn succeed, the
    bonds file then reads as a store in which the peer is the staged bond and
    every other peer is as before, the peer's key file holds the staged key with
    mode 0600, and the journal and staged files are gone. *)
Theorem stage_promote_activates `{!TempfileLaws TF, !TomlLaws TM, !ChronoLaws CH}
    g d tx addr b key pbytes active new bytes :
  site g d -> plain (peer_id b) -> bond_wf b -> arr 16 tx -> printable (peer_id b) -> printable addr ->
  len key = BOND_KEY_DERIVED_BYTES -> serialize_to_toml (mkStore [b]) = Ok pbytes ->
  stored (g !! bonds_path d) active -> NoDup (ids active) ->
  activate active b = Ok new -> serialize_to_toml new = Ok bytes -> Forall bond_wf (bonds new) ->
  exists g',
    (let!? _ := stage d tx (peer_id b) addr b key in
     let!? _ := mark_commit_pending d in
     promote d (peer_id b)) (calm g) = (Ret (Ok tt), calm g') /\
    stored (g' !! bonds_path d) new /\ view new = <[peer_id b := b]> (view active) /\
    g' !! active_key_path d (peer_id b) = Some (File key 384) /\
    g' !! journal_path d = None /\ g' !! pending_bond_path d = None /\
    g' !! pending_key_path d (peer_id b) = None.
Proof.
  intros Hs Hid Hb Htx Hpi Hpa Hk Hpb Hact Hnd Hnew Hser Hwf.
  destruct (stage_calm g d tx (peer_id b) addr b key pbytes Hs Hpb)
    as (g1 & m1 & E1 & Hs1 & _ & Lp & Lk & Lj).
  destruct (mark_commit_pending_calm g1 d tx (peer_id b) addr JPreCommit m1 Hs1 Htx Hpi Hpa Lj) as [m2 E2].
  set (g2 := <[journal_path d := File (journal_text tx (peer_id b) addr JCommitPending) m2]> (<[d := Dir 448]> g1)) in *.
  assert (Hs2 : site g2 d).
  { destruct (dir_chmod_calm g1 d 448 Hs1) as [_ Hs2]. apply site_insert; [done |].
    by apply (site_files _ _ Hs2). }
  assert (La : g2 !! bonds_path d = g !! bonds_path d).
  { unfold g2, journal_path, bonds_path. fs_lookup.
    pose proof (touches_stage d tx (peer_id b) addr b key (calm g) (bonds_path d)) as Ht.
    rewrite E1 in Ht. apply Ht, trust_not_staging. by left. }
  destruct (promote_calm g2 d (peer_id b) (mkStore [b]) b key 384 active new bytes
    (journal_text tx (peer_id b) addr JCommitPending) m2) as (g' & E3 & R1 & R2 & R3 & R4 & R5); try done.
  - unfold g2, journal_path. by fs_lookup.
  - unfold g2, journal_path, pending_bond_path in *. fs_lookup. rewrite Lp. apply saved_stored; [by constructor | done].
  - apply find_bond_singleton.
  - unfold g2, journal_path, pending_key_path in *. fs_lookup. exact Lk.
  - by rewrite La.
  - unfold g2. by fs_lookup.
  - exists g'. split; [by rewrite (itry_ok _ _ _ _ _ E1), (itry_ok _ _ _ _ _ E2) |].
    rewrite R1. split; [by apply saved_stored |]. split; [| done].
    destruct (activate_view active b Hnd) as (new' & E & _ & Hv). congruence.
Qed.

(** The journal reads back: what [write_journal] records in a bond directory,
    transaction id, peer, address and decision, [read_journal] returns, without
    panicking, for identifiers and addresses of printable ASCII. *)
Theorem journal_roundtrip g d tx id addr st :
  site g d -> arr 16 tx -> printable id -> printable addr ->
  exists g', write_journal d tx id addr st (calm g) = (Ret (Ok tt), calm g') /\
    read_journal d (calm g') = (Ret (Ok (Some (mkJournal tx id addr st))), calm g').
Proof.
  intros Hs Htx Hid Ha. destruct (write_journal_calm g d tx id addr st Hs) as [m Hw].
  eexists. split; [exact Hw |]. apply (read_journal_text _ d tx id addr st m); try done.
  apply lookup_insert_eq.
Qed.

End properties.

(** ** The properties on a concrete directory *)

Import ToyCrypto ToyCrates ToyTempfile.

Definition sample_site : fs := <[keys_dir sample_dir := Dir 448]> sample_fs.
Definition sample_tx : list Z := [1;2;3;4;5;6;7;8;9;10;11;12;13;14;15;16].
Definition sample_addr : str := lit "AA:BB:CC:DD:EE:FF".
Definition sample_key : list Z := replicate 32 9.
Definition sample_pbytes : list Z := sample_bytes.

Lemma site_sample_site : site sample_site sample_dir.
Proof.
  split; [done | vm_compute; reflexivity | |].
  - intros n Hn. unfold sample_site, sample_fs.
    rewrite lookup_insert_ne by (intros E; apply join_inj in E as [_ E]; congruence).
    rewrite !lookup_insert_ne; [done | |]; intros E % (f_equal length); done.
  - intros n. unfold sample_site, sample_fs.
    rewrite !lookup_insert_ne; [done | | |]; intros E % (f_equal length); done.
Qed.

Lemma staging_keeps_active_trust_witness :
  let w := mkWorld sample_site [Fine; Fine; Fine; Fine; Fails StorageFull (Some 2%nat)] in
  files (stage sample_dir sample_tx (peer_id sample_bond) sample_addr sample_bond sample_key w).2
    !! bonds_path sample_dir = None.
Proof.
  apply (proj1 (staging_keeps_active_trust sample_dir (bonds_path sample_dir)
    (mkWorld sample_site [Fine; Fine; Fine; Fine; Fails StorageFull (Some 2%nat)])
    sample_tx (peer_id sample_bond) sample_addr sample_bond sample_key (or_introl eq_refl))).
Defined.

Lemma promote_crash_safe_witness :
  let w := mkWorld sample_site [Dies None] in
  let id := peer_id sample_bond in
  intact sample_dir id (files w) (files (promote sample_dir id w).2) \/
  promoted sample_dir id (files w) (files (promote sample_dir id w).2).
Proof. apply (promote_crash_safe sample_dir (peer_id sample_bond) (mkWorld sample_site [Dies None])). done. Defined.

Lemma stage_promote_activates_witness :
  exists g',
    (let!? _ := stage sample_dir sample_tx (peer_id sample_bond) sample_addr sample_bond sample_key in
     let!? _ := mark_commit_pending sample_dir in
     promote sample_dir (peer_id sample_bond)) (calm sample_site) = (Ret (Ok tt), calm g') /\
    g' !! active_key_path sample_dir (peer_id sample_bond) = Some (File sample_key 384).
Proof.
  assert (Hwf : bond_wf sample_bond) by (split; [decide_now | reflexivity]).
  assert (Hpl : plain (peer_id sample_bond)) by (vm_compute; exact I).
  assert (Htx : arr 16 sample_tx) by decide_now.
  assert (Hp1 : printable (peer_id sample_bond)) by decide_now.
  assert (Hp2 : printable sample_addr) by decide_now.
  assert (Hl : len sample_key = BOND_KEY_DERIVED_BYTES) by (vm_compute; reflexivity).
  assert (Hst : stored (sample_site !! bonds_path sample_dir) (mkStore [])) by (vm_compute; reflexivity).
  assert (Hnd : NoDup (ids (mkStore []))) by apply NoDup_nil_2.
  assert (Hac : activate (mkStore []) sample_bond = Ok sample_store) by (vm_compute; reflexivity).
  assert (Hws : Forall bond_wf (bonds sample_store)) by (constructor; [exact Hwf | constructor]).
  destruct (stage_promote_activates (TempfileLaws0 := toy_tempfile_laws) (TomlLaws0 := toy_toml_laws)
    (ChronoLaws0 := toy_chrono_laws) sample_site sample_dir sample_tx sample_addr sample_bond sample_key
    sample_bytes (mkStore []) sample_store sample_bytes site_sample_site Hpl Hwf Htx Hp1 Hp2 Hl
    sample_serializes Hst Hnd Hac sample_serializes Hws) as (g' & E & _ & _ & K & _).
  exists g'. split; [exact E | exact K].
Defined.

Lemma journal_roundtrip_witness :
  exists g', write_journal sample_dir sample_tx (peer_id sample_bond) sample_addr JCommitPending (calm sample_site)
      = (Ret (Ok tt), calm g') /\
    read_journal sample_dir (calm g')
      = (Ret (Ok (Some (mkJournal sample_tx (peer_id sample_bond) sample_addr JCommitPending))), calm g').
Proof. apply journal_roundtrip; [apply site_sample_site | decide_now | decide_now | decide_now]. Defined.

Definition staged_site : fs :=
  <[journal_path sample_dir := File (journal_text sample_tx (peer_id sample_bond) sample_addr JPreCommit) 420]> sample_site.

(** The journal is rewritten in place, not replaced atomically: a process
    that dies inside [mark_commit_pending] can leave a journal that no longer
    parses, so that a staged transaction has no readable decision any more. *)
Theorem mark_commit_pending_torn :
  let w := mkWorld staged_site [Fine; Fine; Fine; Fine; Dies (Some 0%nat)] in
  let '(o, w') := mark_commit_pending sample_dir w in
  o = Killed /\ (read_journal sample_dir (calm staged_site)).1 =
    Ret (Ok (Some (mkJournal sample_tx (peer_id sample_bond) sample_addr JPreCommit))) /\
  (read_journal sample_dir (calm (files w'))).1 = Ret (Err RMalformed).
Proof. vm_compute. split_and!; reflexivity. Qed.
