(* ===== verification/PairTransaction.v ===== *)
(** * The V2 pairing transaction

    Models crates/syauth-core/src/pair_transaction.rs: the wire messages
    ([Message], [StatusMessage]) with their strict codecs, and the transition
    validator [Transaction] ([local], [remote], [reconcile_status], [serialize],
    [restore], ...).  A [&mut self] method that returns a [Result] is a function
    from the old transaction to the new one and the result, so that "a failure
    leaves the state intact" is something to prove. *)

From stdpp Require Import prelude list gmap strings.
From Stdlib Require Import ZArith Lia.
From S2P Require Import Prelude.

(** ** Messages *)

Definition VERSION : Z := 2.
Definition MESSAGE_LEN : Z := 18.
Definition STATUS_MESSAGE_LEN : Z := 27.
Definition STATUS_QUERY_STATE : Z := 0.

Inductive Operation :=
| OpCapability | OpConfirm | OpReject | OpCancel | OpTimeout | OpPrepared | OpCommit
| OpCommitAck | OpCommitted | OpStatus | OpError | OpStatusQuery | OpStatusResponse | OpRevoke.

#[global] Instance Operation_eq_dec : EqDecision Operation.
Proof. solve_decision. Defined.

(** [operation as u8] *)
Definition Operation_code (o : Operation) : Z :=
  match o with
  | OpCapability => 1 | OpConfirm => 2 | OpReject => 3 | OpCancel => 4 | OpTimeout => 5
  | OpPrepared => 6 | OpCommit => 7 | OpCommitAck => 8 | OpCommitted => 9 | OpStatus => 10
  | OpError => 11 | OpStatusQuery => 12 | OpStatusResponse => 13 | OpRevoke => 14
  end.

Record Message := mkMessage { m_transaction : list Z; m_operation : Operation }.

#[global] Instance Message_eq_dec : EqDecision Message.
Proof. solve_decision. Defined.

Inductive TransactionError := Incompatible | WrongTransaction | InvalidTransition.

#[global] Instance TransactionError_eq_dec : EqDecision TransactionError.
Proof. solve_decision. Defined.

Definition Message_encode (self : Message) : list Z :=
  [VERSION] ++ m_transaction self ++ [Operation_code (m_operation self)].

(** The [match bytes[17]] of [decode]. *)
Definition Operation_of_code (code : Z) : result Operation TransactionError :=
  match code with
  | 1 => Ok OpCapability | 2 => Ok OpConfirm | 3 => Ok OpReject | 4 => Ok OpCancel
  | 5 => Ok OpTimeout | 6 => Ok OpPrepared | 7 => Ok OpCommit | 8 => Ok OpCommitAck
  | 9 => Ok OpCommitted | 10 => Ok OpStatus | 11 => Ok OpError | 12 => Ok OpStatusQuery
  | 13 => Ok OpStatusResponse | 14 => Ok OpRevoke
  | _ => Err Incompatible
  end.

Definition Message_decode (bytes : list Z) : result Message TransactionError :=
  if negb (len bytes =? MESSAGE_LEN) || negb (byte_at bytes 0 =? VERSION) then Err Incompatible
  else
    let? operation := Operation_of_code (byte_at bytes 17) in
    let transaction := slice 1 17 bytes in
    Ok (mkMessage transaction operation).

Inductive StatusState := SPreCommit | SCommitPending | SCommitted | SBonded | SAborted | SUnknown.

#[global] Instance StatusState_eq_dec : EqDecision StatusState.
Proof. solve_decision. Defined.

Definition StatusState_code (s : StatusState) : Z :=
  match s with
  | SPreCommit => 1 | SCommitPending => 2 | SCommitted => 3 | SBonded => 4 | SAborted => 5
  | SUnknown => 6
  end.

Definition StatusState_decode (value : Z) : result StatusState TransactionError :=
  match value with
  | 1 => Ok SPreCommit | 2 => Ok SCommitPending | 3 => Ok SCommitted | 4 => Ok SBonded
  | 5 => Ok SAborted | 6 => Ok SUnknown
  | _ => Err Incompatible
  end.

Record StatusMessage := mkStatusMessage {
  s_transaction : list Z;
  s_nonce : Z;
  s_state : option StatusState;
}.

#[global] Instance StatusMessage_eq_dec : EqDecision StatusMessage.
Proof. solve_decision. Defined.

Definition StatusMessage_query (transaction : list Z) (nonce : Z) : StatusMessage :=
  mkStatusMessage transaction nonce None.

Definition StatusMessage_response (transaction : list Z) (nonce : Z) (state : StatusState)
  : StatusMessage := mkStatusMessage transaction nonce (Some state).

Definition StatusMessage_encode (self : StatusMessage) : list Z :=
  [VERSION] ++ s_transaction self ++ to_be_bytes 8 (s_nonce self) ++
  [if s_state self then Operation_code OpStatusResponse else Operation_code OpStatusQuery] ++
  [from_option StatusState_code STATUS_QUERY_STATE (s_state self)].

Definition StatusMessage_decode (bytes : list Z) : result StatusMessage TransactionError :=
  if negb (len bytes =? STATUS_MESSAGE_LEN) || negb (byte_at bytes 0 =? VERSION) then Err Incompatible
  else
    let transaction := slice 1 17 bytes in
    let nonce := from_be_bytes (slice 17 25 bytes) in
    match byte_at bytes 25, byte_at bytes 26 with
    | 12, 0 => Ok (StatusMessage_query transaction nonce)
    | 12, _ | 13, 0 => Err Incompatible
    | 13, value =>
        let? state := StatusState_decode value in
        Ok (StatusMessage_response transaction nonce state)
    | _, _ => Err Incompatible
    end.

(** ** The transaction *)

Inductive Phase :=
| Negotiating | OobPending | Preparing | Prepared | CommitPending | Committed | Bonded
| Aborted (op : Operation) | Uncertain.

#[global] Instance Phase_eq_dec : EqDecision Phase.
Proof. solve_decision. Defined.

Inductive Role := Coordinator | Participant.

#[global] Instance Role_eq_dec : EqDecision Role.
Proof. solve_decision. Defined.

Inductive LocalEvent :=
| LVerifiedExchange | LCapability | LConfirm | LPrepared | LCommit | LCommitAck | LCommitted
| LDisconnected | LAbort (op : Operation).

(** A [[bool; 2]]: index 0 is the local side, index 1 the remote one. *)
Definition flags : Type := bool * bool.
Definition all_set : flags := (true, true).
Definition none_set : flags := (false, false).

Inductive side := Here | There.

Definition flag (s : side) (f : flags) : bool := match s with Here => f.1 | There => f.2 end.
Definition raise (s : side) (f : flags) : flags :=
  match s with Here => (true, f.2) | There => (f.1, true) end.

Record Transaction := mkTransaction {
  id : list Z;
  role : Role;
  phase : Phase;
  capabilities : flags;
  confirmed : flags;
  prepared : flags;
  committed : flags;
}.

#[global] Instance Transaction_eq_dec : EqDecision Transaction.
Proof. solve_decision. Defined.

(** Field updates, [self.phase = p] and the like. *)
Definition set_phase (p : Phase) (t : Transaction) : Transaction :=
  mkTransaction (id t) (role t) p (capabilities t) (confirmed t) (prepared t) (committed t).
Definition set_capabilities (f : flags) (t : Transaction) : Transaction :=
  mkTransaction (id t) (role t) (phase t) f (confirmed t) (prepared t) (committed t).
Definition set_confirmed (f : flags) (t : Transaction) : Transaction :=
  mkTransaction (id t) (role t) (phase t) (capabilities t) f (prepared t) (committed t).
Definition set_prepared (f : flags) (t : Transaction) : Transaction :=
  mkTransaction (id t) (role t) (phase t) (capabilities t) (confirmed t) f (committed t).
Definition set_committed (f : flags) (t : Transaction) : Transaction :=
  mkTransaction (id t) (role t) (phase t) (capabilities t) (confirmed t) (prepared t) f.

Definition Transaction_new (i : list Z) (r : Role) : Transaction :=
  mkTransaction i r Negotiating none_set none_set none_set none_set.

Definition Transaction_validate (self : Transaction) : result unit TransactionError :=
  let caps := bool_decide (capabilities self = all_set) in
  let conf := bool_decide (confirmed self = all_set) in
  let prep := bool_decide (prepared self = all_set) in
  let comm := bool_decide (committed self = all_set) in
  let fresh := bool_decide (committed self = none_set) in
  let valid :=
    match phase self with
    | Negotiating => negb (flag Here (capabilities self)) || flag There (capabilities self)
    | OobPending => caps && negb conf
    | Preparing => caps && conf && negb prep
    | Prepared => caps && conf && prep && fresh
    | CommitPending => caps && conf && prep && fresh
    | Committed => caps && conf && prep && negb comm
    | Bonded => caps && conf && prep && comm
    | Aborted _ | Uncertain => true
    end in
  if valid then Ok tt else Err InvalidTransition.

Definition phase_code (p : Phase) : Z :=
  match p with
  | Negotiating => 0 | OobPending => 1 | Preparing => 2 | Prepared => 3 | CommitPending => 4
  | Committed => 5 | Bonded => 6 | Aborted _ => 7 | Uncertain => 8
  end.

Definition decode_phase (code : Z) : result Phase TransactionError :=
  match code with
  | 0 => Ok Negotiating | 1 => Ok OobPending | 2 => Ok Preparing | 3 => Ok Prepared
  | 4 => Ok CommitPending | 5 => Ok Committed | 6 => Ok Bonded | 8 => Ok Uncertain
  | _ => Err Incompatible
  end.

Definition flags_bytes (f : flags) : list Z := [Z.b2z f.1; Z.b2z f.2].

Definition Transaction_serialize (self : Transaction) : list Z :=
  [VERSION; match role self with Coordinator => 0 | Participant => 1 end; phase_code (phase self)] ++
  id self ++
  flags_bytes (capabilities self) ++ flags_bytes (confirmed self) ++
  flags_bytes (prepared self) ++ flags_bytes (committed self).

(** The closure [flags] of [restore]. *)
Definition restore_flags (bytes : list Z) (offset : Z) : result flags TransactionError :=
  let a := byte_at bytes offset in
  let b := byte_at bytes (offset + 1) in
  if (0 <=? a) && (a <=? 1) && (0 <=? b) && (b <=? 1)
  then Ok (negb (a =? 0), negb (b =? 0))
  else Err Incompatible.

Definition Transaction_restore (bytes : list Z) : result Transaction TransactionError :=
  if negb (len bytes =? 27) || negb (byte_at bytes 0 =? VERSION) then Err Incompatible
  else
    let? r :=
      match byte_at bytes 1 with
      | 0 => Ok Coordinator | 1 => Ok Participant | _ => Err Incompatible
      end in
    let? p := decode_phase (byte_at bytes 2) in
    let i := slice 3 19 bytes in
    let? caps := restore_flags bytes 19 in
    let? conf := restore_flags bytes 21 in
    let? prep := restore_flags bytes 23 in
    let? comm := restore_flags bytes 25 in
    let transaction := mkTransaction i r p caps conf prep comm in
    let? _ := Transaction_validate transaction in
    Ok transaction.

Definition Transaction_from_recovery_status (i : list Z) (r : Role) (status : StatusState)
  : result Transaction TransactionError :=
  let p :=
    match status with
    | SPreCommit => Prepared
    | SCommitPending => CommitPending
    | SCommitted => Committed
    | SBonded => Bonded
    | SAborted => Aborted OpError
    | SUnknown => Uncertain
    end in
  let comm :=
    match p with
    | Bonded => all_set
    | Committed => (true, false)
    | _ => none_set
    end in
  let tx := mkTransaction i r p all_set all_set all_set comm in
  let? _ := Transaction_validate tx in
  Ok tx.

Definition Transaction_status (self : Transaction) : StatusState :=
  match phase self with
  | Negotiating | OobPending | Preparing | Prepared => SPreCommit
  | CommitPending => SCommitPending
  | Uncertain => SUnknown
  | Committed => SCommitted
  | Bonded => SBonded
  | Aborted _ => SAborted
  end.

Definition Transaction_reconcile_status (self : Transaction) (remote : StatusState)
  : Transaction * result Phase TransactionError :=
  let t' :=
    match Transaction_status self, remote with
    | SUnknown, _ | _, SUnknown => set_phase Uncertain self
    | SPreCommit, SAborted => set_phase (Aborted OpError) self
    | SPreCommit, SPreCommit => self
    | SCommitPending, SCommitted => set_phase Committed self
    | SCommitPending, SBonded => set_phase Bonded (set_committed all_set self)
    | SCommitted, SCommitPending => self
    | SCommitted, SCommitted | SCommitted, SBonded | SBonded, SCommitted | SBonded, SBonded =>
        set_phase Bonded (set_committed all_set self)
    | SAborted, SAborted => self
    | SAborted, SPreCommit => self
    | _, _ => set_phase Uncertain self
    end in
  (t', Ok (phase t')).

Definition Transaction_apply_status_response (self : Transaction) (response : StatusMessage) (nonce : Z)
  : Transaction * result Phase TransactionError :=
  if negb (bool_decide (s_transaction response = id self)) || negb (s_nonce response =? nonce)
     || bool_decide (s_state response = None)
  then (self, Err WrongTransaction)
  else
    match s_state response with
    | None => (self, Err Incompatible)
    | Some state => Transaction_reconcile_status self state
    end.

Definition Transaction_confirm (s : side) (self : Transaction)
  : Transaction * result unit TransactionError :=
  if negb (bool_decide (phase self = OobPending)) || flag s (confirmed self)
  then (self, Err InvalidTransition)
  else
    let t := set_confirmed (raise s (confirmed self)) self in
    let t := if bool_decide (confirmed t = all_set) then set_phase Preparing t else t in
    (t, Ok tt).

Definition Transaction_prepare (s : side) (self : Transaction)
  : Transaction * result unit TransactionError :=
  if negb (bool_decide (phase self = Preparing)) || flag s (prepared self)
  then (self, Err InvalidTransition)
  else
    let t := set_prepared (raise s (prepared self)) self in
    let t := if bool_decide (prepared t = all_set) then set_phase Prepared t else t in
    (t, Ok tt).

Definition Transaction_record_committed (s : side) (self : Transaction)
  : Transaction * result unit TransactionError :=
  if negb (bool_decide (phase self = Committed)) || flag s (committed self)
  then (self, Err InvalidTransition)
  else
    let t := set_committed (raise s (committed self)) self in
    let t := if bool_decide (committed t = all_set) then set_phase Bonded t else t in
    (t, Ok tt).

Definition Transaction_disconnect (self : Transaction) : Transaction :=
  set_phase
    match phase self with
    | CommitPending | Committed | Uncertain => Uncertain
    | Bonded | Aborted _ => phase self
    | _ => Aborted OpCancel
    end self.

(** [matches!(op, Reject | Cancel | Timeout | Error)] *)
Definition is_abort_op (op : Operation) : bool :=
  match op with OpReject | OpCancel | OpTimeout | OpError => true | _ => false end.

Definition Transaction_abort (op : Operation) (self : Transaction)
  : Transaction * result unit TransactionError :=
  if negb (is_abort_op op) || match phase self with Bonded | Aborted _ => true | _ => false end
  then (self, Err InvalidTransition)
  else
    (set_phase
      match phase self with
      | CommitPending | Committed | Uncertain => Uncertain
      | _ => Aborted op
      end self, Ok tt).

Definition Transaction_local (self : Transaction) (event : LocalEvent)
  : Transaction * result unit TransactionError :=
  match event with
  | LCapability =>
      if bool_decide (phase self = Negotiating) && negb (flag Here (capabilities self))
      then (set_capabilities (raise Here (capabilities self)) self, Ok tt)
      else (self, Err InvalidTransition)
  | LVerifiedExchange =>
      if bool_decide (phase self = Negotiating) && bool_decide (capabilities self = all_set)
      then (set_phase OobPending self, Ok tt)
      else (self, Err InvalidTransition)
  | LConfirm => Transaction_confirm Here self
  | LPrepared => Transaction_prepare Here self
  | LCommit =>
      if bool_decide (role self = Coordinator) && bool_decide (phase self = Prepared)
      then (set_phase CommitPending self, Ok tt)
      else (self, Err InvalidTransition)
  | LCommitAck =>
      if bool_decide (role self = Participant) && bool_decide (phase self = CommitPending)
      then (set_phase Committed self, Ok tt)
      else (self, Err InvalidTransition)
  | LCommitted => Transaction_record_committed Here self
  | LDisconnected => (Transaction_disconnect self, Ok tt)
  | LAbort op => Transaction_abort op self
  end.

Definition Transaction_remote (self : Transaction) (message : Message)
  : Transaction * result unit TransactionError :=
  if negb (bool_decide (m_transaction message = id self)) then (self, Err WrongTransaction)
  else
    match m_operation message with
    | OpCapability =>
        if bool_decide (phase self = Negotiating) && negb (flag There (capabilities self))
        then (set_capabilities (raise There (capabilities self)) self, Ok tt)
        else (self, Err InvalidTransition)
    | OpConfirm => Transaction_confirm There self
    | OpPrepared => Transaction_prepare There self
    | OpCommit =>
        if bool_decide (role self = Participant) && bool_decide (phase self = Prepared)
        then (set_phase CommitPending self, Ok tt)
        else (self, Err InvalidTransition)
    | OpCommitAck =>
        if bool_decide (role self = Coordinator) && bool_decide (phase self = CommitPending)
        then (set_phase Committed self, Ok tt)
        else (self, Err InvalidTransition)
    | OpCommitted => Transaction_record_committed There self
    | OpStatus | OpStatusQuery | OpStatusResponse => (self, Ok tt)
    | OpReject | OpCancel | OpTimeout | OpError => Transaction_abort (m_operation message) self
    | OpRevoke => (self, Err InvalidTransition)
    end.

(** ** Codec lemmas *)

(** Split a byte matched against literals, closing the impossible cases. *)
Ltac split_code z :=
  destruct z as [|?p|?p];
  repeat match goal with
  | q : positive |- _ => destruct q; try done
  end.

Lemma Operation_of_code_iff z o : Operation_of_code z = Ok o <-> z = Operation_code o.
Proof.
  split; [| intros ->; by destruct o].
  unfold Operation_of_code. split_code z; by intros [= <-].
Qed.

Lemma StatusState_decode_iff z s : StatusState_decode z = Ok s <-> z = StatusState_code s.
Proof.
  split; [| intros ->; by destruct s].
  unfold StatusState_decode. split_code z; by intros [= <-].
Qed.

Definition Message_typed (m : Message) : Prop := arr 16 (m_transaction m).
Definition StatusMessage_typed (m : StatusMessage) : Prop :=
  arr 16 (s_transaction m) /\ is_u64 (s_nonce m).

#[global] Instance Message_typed_dec m : Decision (Message_typed m).
Proof. unfold Message_typed. apply _. Defined.
#[global] Instance StatusMessage_typed_dec m : Decision (StatusMessage_typed m).
Proof. unfold StatusMessage_typed, is_u64. apply _. Defined.

Lemma len_Message_encode m : Message_typed m -> len (Message_encode m) = MESSAGE_LEN.
Proof. unfold Message_typed, Message_encode, MESSAGE_LEN. intros. len_solve. Qed.

Lemma len_StatusMessage_encode m :
  StatusMessage_typed m -> len (StatusMessage_encode m) = STATUS_MESSAGE_LEN.
Proof. intros [? _]. unfold StatusMessage_encode, STATUS_MESSAGE_LEN. len_solve. Qed.

Lemma Message_decode_encode m : Message_typed m -> Message_decode (Message_encode m) = Ok m.
Proof.
  intros H. unfold Message_decode. rewrite len_Message_encode by done.
  replace (byte_at (Message_encode m) 0) with VERSION by done. rewrite !Z.eqb_refl. cbn [negb orb].
  apply arr_len in H. unfold Message_encode.
  rewrite !byte_at_app_r by (len_simp; lia).
  replace (17 - len [VERSION] - len (m_transaction m)) with 0 by (len_simp; lia).
  replace (byte_at [Operation_code (m_operation m)] 0) with (Operation_code (m_operation m)) by done.
  rewrite (proj2 (Operation_of_code_iff _ (m_operation m)) eq_refl). cbn [rbind].
  rewrite slice_skip by (len_simp; lia). replace (len [VERSION]) with 1 by done.
  rewrite slice_prefix by lia. by destruct m.
Qed.

Lemma Message_decode_inv b m :
  Message_decode b = Ok m -> Message_encode m = b /\ len (m_transaction m) = 16.
Proof.
  unfold Message_decode.
  destruct (Z.eqb_spec (len b) MESSAGE_LEN) as [Hl|]; [| done].
  destruct (Z.eqb_spec (byte_at b 0) VERSION) as [Hv|]; [| done]. cbn [negb orb].
  unfold MESSAGE_LEN in Hl. rewrite rbind_ok. intros (o & Ho & [= <-]).
  apply Operation_of_code_iff in Ho. unfold Message_encode. cbn [m_transaction m_operation].
  rewrite <- Hv, <- Ho, len_slice by lia. split; [| lia].
  rewrite <- (slice_byte 0 b), <- (slice_byte 17 b) by lia.
  rewrite !slice_cat by lia. apply slice_all. lia.
Qed.

Lemma StatusMessage_encode_tail m :
  len (s_transaction m) = 16 ->
  byte_at (StatusMessage_encode m) 25 = (if s_state m then 13 else 12) /\
  byte_at (StatusMessage_encode m) 26 = from_option StatusState_code 0 (s_state m) /\
  slice 1 17 (StatusMessage_encode m) = s_transaction m /\
  slice 17 25 (StatusMessage_encode m) = to_be_bytes 8 (s_nonce m).
Proof.
  intros Ht. unfold StatusMessage_encode. split; [| split; [| split]].
  - rewrite !byte_at_app_r by (len_simp; lia). len_simp. rewrite Ht. by destruct (s_state m).
  - rewrite !byte_at_app_r by (len_simp; lia). len_simp. by rewrite Ht.
  - rewrite slice_skip by (len_simp; lia). apply slice_prefix. done.
  - rewrite !slice_skip by (len_simp; lia). len_simp. rewrite Ht. by apply slice_prefix.
Qed.

Lemma StatusMessage_decode_encode m :
  StatusMessage_typed m -> StatusMessage_decode (StatusMessage_encode m) = Ok m.
Proof.
  intros H. unfold StatusMessage_decode. rewrite len_StatusMessage_encode by done.
  destruct H as [Ht Hn]. apply arr_len in Ht.
  replace (byte_at (StatusMessage_encode m) 0) with VERSION by done.
  rewrite !Z.eqb_refl. cbn [negb orb].
  destruct (StatusMessage_encode_tail m Ht) as (-> & -> & -> & ->).
  rewrite from_to_be_bytes by (unfold is_u64 in Hn; lia).
  by destruct m as [t n [[]|]].
Qed.

Lemma StatusMessage_decode_inv b m :
  bytes_ok b -> StatusMessage_decode b = Ok m -> StatusMessage_encode m = b /\ StatusMessage_typed m.
Proof.
  intros Hb. unfold StatusMessage_decode.
  destruct (Z.eqb_spec (len b) STATUS_MESSAGE_LEN) as [Hl|]; [| done].
  destruct (Z.eqb_spec (byte_at b 0) VERSION) as [Hv|]; [| done]. cbn [negb orb].
  unfold STATUS_MESSAGE_LEN in Hl.
  set (t := slice 1 17 b). set (n := from_be_bytes (slice 17 25 b)).
  intros H.
  assert (Hm : exists st, m = mkStatusMessage t n st /\
    byte_at b 25 = (if st then 13 else 12) /\ byte_at b 26 = from_option StatusState_code 0 st).
  { destruct (Z.eqb_spec (byte_at b 25) 12) as [E|N12].
    { rewrite E in H |- *. destruct (byte_at b 26) eqn:E26; try done.
      injection H as <-. by exists None. }
    destruct (Z.eqb_spec (byte_at b 25) 13) as [E|N13].
    { rewrite E in H |- *. destruct (byte_at b 26) as [|p|p] eqn:E26; [done | |];
        apply rbind_ok in H as (s & Hs & [= <-]); apply StatusState_decode_iff in Hs;
        exists (Some s); cbn; repeat split; done. }
    exfalso. revert H N12 N13. clear. destruct (byte_at b 25) as [|p|p]; try done.
    repeat (destruct p as [p|p|]; try done). }
  destruct Hm as (st & -> & E25 & E26).
  assert (Ha : bytes_ok (slice 17 25 b)) by auto with rust.
  assert (Hln : length (slice 17 25 b) = 8%nat).
  { apply Nat2Z.inj. fold (len (slice 17 25 b)). rewrite len_slice; lia. }
  split.
  - unfold StatusMessage_encode. cbn [s_transaction s_nonce s_state].
    unfold n. rewrite <- Hln, to_from_be_bytes by done.
    transitivity ([byte_at b 0] ++ t ++ slice 17 25 b ++ [byte_at b 25] ++ [byte_at b 26]).
    { rewrite Hv, E25, E26. by destruct st. }
    rewrite <- (slice_byte 0 b), <- (slice_byte 25 b), <- (slice_byte 26 b) by lia.
    unfold t. rewrite !slice_cat by lia. apply slice_all. lia.
  - split; cbn; [by apply (arr_slice 1 17); lia || done |].
    pose proof (from_be_bytes_bound _ Ha) as Hbd. unfold len in Hbd. rewrite Hln in Hbd.
    unfold is_u64, n. lia.
Qed.

(** ** Runs *)

(** Everything that can happen to a transaction: a local fact, a message of the
    peer, a status response with the nonce it must echo. *)
Inductive Event :=
| EvLocal (e : LocalEvent)
| EvRemote (m : Message)
| EvStatus (response : StatusMessage) (nonce : Z).

Definition step (t : Transaction) (ev : Event) : Transaction * bool :=
  match ev with
  | EvLocal e => let '(t', r) := Transaction_local t e in (t', is_ok r)
  | EvRemote m => let '(t', r) := Transaction_remote t m in (t', is_ok r)
  | EvStatus s n => let '(t', r) := Transaction_apply_status_response t s n in (t', is_ok r)
  end.

Fixpoint run (t : Transaction) (evs : list Event) : Transaction :=
  match evs with [] => t | ev :: evs => run (step t ev).1 evs end.

(** The events of a run the transaction accepted, in order. *)
Fixpoint accepted (t : Transaction) (evs : list Event) : list Event :=
  match evs with
  | [] => []
  | ev :: evs =>
      let '(t', ok) := step t ev in
      (if ok then [ev] else []) ++ accepted t' evs
  end.

(** Unfold one transition down to its guards and split on them. *)
Ltac tx_unfold :=
  unfold step, Transaction_local, Transaction_remote, Transaction_apply_status_response,
    Transaction_reconcile_status, Transaction_status, Transaction_confirm, Transaction_prepare,
    Transaction_record_committed, Transaction_disconnect, Transaction_abort in *.

Ltac tx_split :=
  repeat first
    [ progress simplify_eq/=
    | match goal with
      | |- context [bool_decide ?P] => destruct (bool_decide_reflect P)
      | H : context [bool_decide ?P] |- _ => destruct (bool_decide_reflect P)
      | |- context [match ?x with _ => _ end] => is_var x; destruct x
      | H : context [match ?x with _ => _ end] |- _ => is_var x; destruct x
      | |- context [match ?x with _ => _ end] => destruct x eqn:?
      | H : context [match ?x with _ => _ end] |- _ => destruct x eqn:?
      end ].

Lemma local_err_intact t e t' err : Transaction_local t e = (t', Err err) -> t' = t.
Proof. destruct e; tx_unfold; tx_split; congruence. Qed.

Lemma remote_err_intact t m t' err : Transaction_remote t m = (t', Err err) -> t' = t.
Proof. destruct m as [mt []]; tx_unfold; cbn; tx_split; congruence. Qed.

Lemma status_err_intact t s n t' err :
  Transaction_apply_status_response t s n = (t', Err err) -> t' = t.
Proof.
  unfold Transaction_apply_status_response, Transaction_reconcile_status. tx_split; congruence.
Qed.

Lemma step_rejected t ev t' : step t ev = (t', false) -> t' = t.
Proof.
  destruct ev as [e|m|s n]; unfold step; [destruct (Transaction_local t e) as [t1 []] eqn:E |
    destruct (Transaction_remote t m) as [t1 []] eqn:E |
    destruct (Transaction_apply_status_response t s n) as [t1 []] eqn:E];
    intros [= ->]; eauto using local_err_intact, remote_err_intact, status_err_intact.
Qed.

(** No transition changes the identifier or the role. *)
Lemma step_id_role t ev : id (step t ev).1 = id t /\ role (step t ev).1 = role t.
Proof.
  destruct ev as [[]|[mt []]|[st sn [[]|]] n]; tx_unfold; cbn; tx_split; done.
Qed.

(** ** The state invariant *)

Definition inv (t : Transaction) : Prop :=
  match phase t with
  | Negotiating => confirmed t = none_set /\ prepared t = none_set /\ committed t = none_set
  | OobPending =>
      capabilities t = all_set /\ confirmed t <> all_set /\ prepared t = none_set /\ committed t = none_set
  | Preparing =>
      capabilities t = all_set /\ confirmed t = all_set /\ prepared t <> all_set /\ committed t = none_set
  | Prepared | CommitPending =>
      capabilities t = all_set /\ confirmed t = all_set /\ prepared t = all_set /\ committed t = none_set
  | Committed =>
      capabilities t = all_set /\ confirmed t = all_set /\ prepared t = all_set /\ committed t <> all_set
  | Bonded =>
      capabilities t = all_set /\ confirmed t = all_set /\ prepared t = all_set /\ committed t = all_set
  | Aborted _ => committed t = none_set
  | Uncertain => True
  end.

#[global] Instance inv_dec t : Decision (inv t).
Proof. unfold inv. destruct (phase t); apply _. Defined.

Lemma inv_new i r : inv (Transaction_new i r).
Proof. done. Qed.

(** Case on the phase, use the invariant, then split the guards that remain. *)
Ltac inv_tac t :=
  let p := fresh "p" in
  destruct t as [?i ?r p ?ca ?cf ?pr ?co]; intros H; destruct p; cbn in H; destruct_and?; subst;
  tx_unfold; cbn; repeat case_bool_decide; cbn; try done;
  repeat match goal with f : flags |- _ => destruct f as [[] []] end; cbn; try done;
  repeat case_bool_decide; cbn; try done; naive_solver.

Lemma inv_confirm s t : inv t -> inv (Transaction_confirm s t).1.
Proof. destruct s; inv_tac t. Qed.

Lemma inv_prepare s t : inv t -> inv (Transaction_prepare s t).1.
Proof. destruct s; inv_tac t. Qed.

Lemma inv_record_committed s t : inv t -> inv (Transaction_record_committed s t).1.
Proof. destruct s; inv_tac t. Qed.

Lemma inv_abort op t : inv t -> inv (Transaction_abort op t).1.
Proof. destruct op; inv_tac t. Qed.

Lemma inv_local t e : inv t -> inv (Transaction_local t e).1.
Proof.
  destruct e; cbn [Transaction_local];
    auto using inv_confirm, inv_prepare, inv_record_committed, inv_abort; inv_tac t.
Qed.

Lemma inv_remote t m : inv t -> inv (Transaction_remote t m).1.
Proof.
  unfold Transaction_remote. destruct (bool_decide_reflect (m_transaction m = id t)); [| done].
  cbn [negb]. destruct m as [mt []]; cbn [m_operation];
    auto using inv_confirm, inv_prepare, inv_record_committed, inv_abort; inv_tac t.
Qed.

Lemma inv_reconcile t s : inv t -> inv (Transaction_reconcile_status t s).1.
Proof. destruct s; inv_tac t. Qed.

Lemma inv_step t ev : inv t -> inv (step t ev).1.
Proof.
  intros H. destruct ev as [e|m|s n]; cbn [step].
  - pose proof (inv_local t e H). by destruct (Transaction_local t e).
  - pose proof (inv_remote t m H). by destruct (Transaction_remote t m).
  - unfold Transaction_apply_status_response. destruct (_ || _); [done |].
    destruct (s_state s) as [st|]; [| done].
    pose proof (inv_reconcile t st H). by destruct (Transaction_reconcile_status t st).
Qed.

Lemma inv_run t evs : inv t -> inv (run t evs).
Proof.
  revert t. induction evs as [|ev evs IH]; intros t H; [done |]. by apply IH, inv_step.
Qed.

(** The one reachable shape [validate] refuses: the local capability offered
    before the peer's. *)
Definition offered_first (t : Transaction) : Prop :=
  phase t = Negotiating /\ capabilities t = (true, false).

#[global] Instance offered_first_dec t : Decision (offered_first t).
Proof. unfold offered_first. apply _. Defined.

Lemma inv_validate t :
  inv t ->
  Transaction_validate t = if decide (offered_first t) then Err InvalidTransition else Ok tt.
Proof.
  destruct t as [i r p [[] []] cf pr co]; intros H; destruct p; cbn in H; destruct_and?; subst;
    unfold Transaction_validate, offered_first; cbn; repeat case_bool_decide; cbn; try done;
    case_decide; naive_solver.
Qed.

(** ** Serialisation *)

Definition is_aborted (p : Phase) : bool := match p with Aborted _ => true | _ => false end.

Lemma decode_phase_code p :
  decode_phase (phase_code p) = if is_aborted p then Err Incompatible else Ok p.
Proof. by destruct p. Qed.

Lemma Transaction_restore_serialize t :
  len (id t) = 16 ->
  Transaction_restore (Transaction_serialize t) =
    if is_aborted (phase t) then Err Incompatible
    else let? _ := Transaction_validate t in Ok t.
Proof.
  intros Hi. destruct t as [i r p [c0 c1] [f0 f1] [p0 p1] [m0 m1]]. cbn [id] in Hi.
  unfold len in Hi. assert (Hl : length i = 16%nat) by lia. clear Hi.
  do 16 (destruct i as [|? i]; [done |]). destruct i; [| done]. clear Hl.
  destruct r, p, c0, c1, f0, f1, p0, p1, m0, m1; reflexivity.
Qed.

(** ** Phases that carry a commit decision *)

Definition post_commit (p : Phase) : bool :=
  match p with CommitPending | Committed | Bonded | Uncertain => true | _ => false end.

(** Past CommitPending: the decision has been acknowledged. *)
Definition acked (p : Phase) : bool :=
  match p with Committed | Bonded | Uncertain => true | _ => false end.

(** Phases with no way to a bond any more. *)
Definition dead (p : Phase) : bool :=
  match p with Aborted _ | Uncertain => true | _ => false end.

(** Reduce a fact about the phase after a transition to the guards. *)
Ltac phase_tac t :=
  let p := fresh "p" in
  destruct t as [?i ?r p ?ca ?cf ?pr ?co]; intros H; destruct p; try discriminate H;
  tx_unfold; cbn; repeat case_bool_decide; cbn; repeat case_bool; cbn; try done;
  repeat match goal with f : flags |- _ => destruct f as [[] []]; cbn; try done end.

Lemma post_commit_step t ev : post_commit (phase t) = true -> post_commit (phase (step t ev).1) = true.
Proof. destruct ev as [[| | | | | | | |[]]|[mt []]|[st sn [[]|]] n]; phase_tac t. Qed.

Lemma dead_step t ev : dead (phase t) = true -> dead (phase (step t ev).1) = true.
Proof. destruct ev as [[| | | | | | | |[]]|[mt []]|[st sn [[]|]] n]; phase_tac t. Qed.

Lemma uncertain_step t ev :
  bool_decide (phase t = Uncertain) = true -> phase (step t ev).1 = Uncertain.
Proof. destruct ev as [[| | | | | | | |[]]|[mt []]|[st sn [[]|]] n]; phase_tac t. Qed.

(** An acknowledged decision stays acknowledged. *)
Lemma acked_step t ev : acked (phase t) = true -> acked (phase (step t ev).1) = true.
Proof. destruct ev as [[| | | | | | | |[]]|[mt []]|[st sn [[]|]] n]; phase_tac t. Qed.

Lemma run_ind (P : Transaction -> Prop) t evs :
  (forall t ev, P t -> P (step t ev).1) -> P t -> P (run t evs).
Proof.
  intros Hs. revert t. induction evs as [|ev evs IH]; intros t H; [done |]. by apply IH, Hs.
Qed.

(** ** Milestones

    [progress t] lists, in protocol order, the milestones a live transaction
    has passed: 0 capability, 1 verified exchange, 2 confirm, 3 prepared,
    4 commit decision, 5 acknowledgement, 6 committed. *)
Definition count (f : flags) : nat := (Nat.b2n f.1 + Nat.b2n f.2)%nat.

Definition passed (p q : Phase) : bool := phase_code q <=? phase_code p.

Definition progress (t : Transaction) : list nat :=
  replicate (count (capabilities t)) 0%nat ++
  (if passed (phase t) OobPending then [1%nat] else []) ++
  replicate (count (confirmed t)) 2%nat ++
  replicate (count (prepared t)) 3%nat ++
  (if passed (phase t) CommitPending then [4%nat] else []) ++
  (if passed (phase t) Committed then [5%nat] else []) ++
  replicate (count (committed t)) 6%nat.

(** The milestone an event stands for, and the side that reports it. *)
Definition local_milestone (e : LocalEvent) : list nat :=
  match e with
  | LCapability => [0%nat] | LVerifiedExchange => [1%nat] | LConfirm => [2%nat]
  | LPrepared => [3%nat] | LCommit => [4%nat] | LCommitAck => [5%nat] | LCommitted => [6%nat]
  | LDisconnected | LAbort _ => []
  end.

Definition remote_milestone (o : Operation) : list nat :=
  match o with
  | OpCapability => [0%nat] | OpConfirm => [2%nat] | OpPrepared => [3%nat] | OpCommit => [4%nat]
  | OpCommitAck => [5%nat] | OpCommitted => [6%nat]
  | _ => []
  end.

Definition milestone (ev : Event) : list nat :=
  match ev with
  | EvLocal e => local_milestone e
  | EvRemote m => remote_milestone (m_operation m)
  | EvStatus _ _ => []
  end.

Definition protocol_event (ev : Event) : bool :=
  match ev with EvStatus _ _ => false | _ => true end.

(** The transition either kills the transaction or adds [ms] to its milestones. *)
Definition advances (t t' : Transaction) (ms : list nat) : Prop :=
  dead (phase t') = true \/ progress t' = progress t ++ ms.

Ltac progress_tac t :=
  let p := fresh "p" in
  destruct t as [?i ?r p ?ca ?cf ?pr ?co]; intros H; destruct p; cbn in H; destruct_and?; subst;
  tx_unfold; unfold advances; cbn; repeat case_bool_decide; cbn; try (by left); try (by right);
  repeat match goal with f : flags |- _ => destruct f as [[] []]; try done end; cbn;
  repeat case_bool_decide; cbn; first [by left | by right | done].

Lemma progress_confirm s t :
  inv t ->
  advances t (Transaction_confirm s t).1 (if is_ok (Transaction_confirm s t).2 then [2%nat] else []).
Proof. destruct s; progress_tac t. Qed.

Lemma progress_prepare s t :
  inv t ->
  advances t (Transaction_prepare s t).1 (if is_ok (Transaction_prepare s t).2 then [3%nat] else []).
Proof. destruct s; progress_tac t. Qed.

Lemma progress_record_committed s t :
  inv t ->
  advances t (Transaction_record_committed s t).1
    (if is_ok (Transaction_record_committed s t).2 then [6%nat] else []).
Proof. destruct s; progress_tac t. Qed.

Lemma progress_abort op t : inv t -> advances t (Transaction_abort op t).1 [].
Proof. destruct op; progress_tac t. Qed.

Lemma progress_local t e :
  inv t ->
  advances t (Transaction_local t e).1
    (if is_ok (Transaction_local t e).2 then local_milestone e else []).
Proof.
  intros H. destruct e; cbn [Transaction_local local_milestone];
    eauto using progress_confirm, progress_prepare, progress_record_committed;
    try (case_match; by apply progress_abort); revert H; progress_tac t.
Qed.

Lemma progress_remote t m :
  inv t ->
  advances t (Transaction_remote t m).1
    (if is_ok (Transaction_remote t m).2 then remote_milestone (m_operation m) else []).
Proof.
  intros H. unfold Transaction_remote.
  destruct (bool_decide_reflect (m_transaction m = id t)); [| by right; rewrite app_nil_r].
  cbn [negb]. destruct m as [mt []]; cbn [m_operation remote_milestone];
    eauto using progress_confirm, progress_prepare, progress_record_committed;
    try (case_match; by apply progress_abort); revert H; progress_tac t.
Qed.

Lemma progress_step t ev :
  inv t -> protocol_event ev = true ->
  advances t (step t ev).1 (if (step t ev).2 then milestone ev else []).
Proof.
  intros H Hp. destruct ev as [e|m|]; [| | done]; cbn [step].
  - pose proof (progress_local t e H). by destruct (Transaction_local t e).
  - pose proof (progress_remote t m H). by destruct (Transaction_remote t m).
Qed.

Lemma accepted_cons t ev evs :
  accepted t (ev :: evs) =
    (if (step t ev).2 then [ev] else []) ++ accepted (step t ev).1 evs.
Proof. cbn [accepted]. by destruct (step t ev). Qed.

Lemma progress_run t evs :
  inv t -> forallb protocol_event evs = true -> dead (phase (run t evs)) = false ->
  progress (run t evs) = progress t ++ concat (map milestone (accepted t evs)).
Proof.
  revert t. induction evs as [|ev evs IH]; intros t H Hp Hd; [by rewrite app_nil_r |].
  cbn [forallb] in Hp. apply andb_true_iff in Hp as [Hp Hps]. cbn [run] in *.
  destruct (progress_step t ev H Hp) as [Hdead | Hprog].
  { exfalso. apply (run_ind (fun t => dead (phase t) = true) _ evs) in Hdead;
      [congruence | intros; by apply dead_step]. }
  rewrite IH, Hprog, accepted_cons by eauto using inv_step.
  rewrite map_app, concat_app, app_assoc. do 2 f_equal. destruct (step t ev).2; [| done].
  cbn. by rewrite app_nil_r.
Qed.

(** Which side of a flag pair an accepted event raises. *)
Definition raises (s : side) (k : nat) (i : list Z) (ev : Event) : Prop :=
  match s, k with
  | Here, 2%nat => ev = EvLocal LConfirm
  | Here, 3%nat => ev = EvLocal LPrepared
  | Here, 6%nat => ev = EvLocal LCommitted
  | There, 2%nat => ev = EvRemote (mkMessage i OpConfirm)
  | There, 3%nat => ev = EvRemote (mkMessage i OpPrepared)
  | There, 6%nat => ev = EvRemote (mkMessage i OpCommitted)
  | _, _ => False
  end.

Definition flags_of (k : nat) (t : Transaction) : flags :=
  match k with 2%nat => confirmed t | 3%nat => prepared t | _ => committed t end.

Lemma flag_raise s s' f : flag s' (raise s f) = true -> flag s' f = true \/ s' = s.
Proof. destruct s, s'; cbn; auto. Qed.

(** The three two-party rounds raise one flag of one round. *)
Lemma flags_confirm k s' s t :
  flag s' (flags_of k (Transaction_confirm s t).1) = true ->
  flag s' (flags_of k t) = true \/
  (is_ok (Transaction_confirm s t).2 = true /\ k = 2%nat /\ s' = s).
Proof.
  unfold Transaction_confirm. destruct (_ || _); [by left |].
  destruct (bool_decide (confirmed _ = all_set)); destruct k as [|[|[|[|k]]]]; cbn; auto;
    intros [] % flag_raise; auto.
Qed.

Lemma flags_prepare k s' s t :
  flag s' (flags_of k (Transaction_prepare s t).1) = true ->
  flag s' (flags_of k t) = true \/
  (is_ok (Transaction_prepare s t).2 = true /\ k = 3%nat /\ s' = s).
Proof.
  unfold Transaction_prepare. destruct (_ || _); [by left |].
  destruct (bool_decide (prepared _ = all_set)); destruct k as [|[|[|[|k]]]]; cbn; auto;
    intros [] % flag_raise; auto.
Qed.

Lemma flags_record_committed k s' s t :
  flag s' (flags_of k (Transaction_record_committed s t).1) = true ->
  flag s' (flags_of k t) = true \/
  (is_ok (Transaction_record_committed s t).2 = true /\ k <> 2%nat /\ k <> 3%nat /\ s' = s).
Proof.
  unfold Transaction_record_committed. destruct (_ || _); [by left |].
  destruct (bool_decide (committed _ = all_set)); destruct k as [|[|[|[|k]]]]; cbn; auto;
    intros [] % flag_raise; auto.
Qed.

Lemma flags_abort k op t : flags_of k (Transaction_abort op t).1 = flags_of k t.
Proof. unfold Transaction_abort. destruct (_ || _); [done |]. by destruct k as [|[|[|[|k]]]]. Qed.

(** A flag that a step sets was reported by the event of that step. *)
Lemma flag_origin s k t ev :
  protocol_event ev = true -> k = 2%nat \/ k = 3%nat \/ k = 6%nat ->
  flag s (flags_of k (step t ev).1) = true ->
  flag s (flags_of k t) = true \/ ((step t ev).2 = true /\ raises s k (id t) ev).
Proof.
  intros Hp Hk. destruct ev as [e|m|]; [| | done]; cbn [step].
  - destruct (Transaction_local t e) as [t' r] eqn:E. destruct e; cbn [Transaction_local] in E;
      try (pose proof (flags_confirm k s Here t) as F; rewrite E in F; cbn in *; naive_solver);
      try (pose proof (flags_prepare k s Here t) as F; rewrite E in F; cbn in *; naive_solver);
      try (pose proof (flags_record_committed k s Here t) as F; rewrite E in F; cbn in *; naive_solver);
      try (pose proof (flags_abort k op t) as F; rewrite E in F; cbn in *; rewrite F; by left);
      try destruct (_ && _); injection E as <- <-; destruct Hk as [-> | [-> | ->]]; by left.
  - destruct (Transaction_remote t m) as [t' r] eqn:E. unfold Transaction_remote in E.
    destruct (bool_decide_reflect (m_transaction m = id t)) as [Hm|]; [| injection E as <- <-; by left].
    destruct m as [mt o]. cbn in Hm. subst mt. cbn [negb m_operation] in E.
    destruct o;
      try (pose proof (flags_confirm k s There t) as F; rewrite E in F; cbn in *; naive_solver);
      try (pose proof (flags_prepare k s There t) as F; rewrite E in F; cbn in *; naive_solver);
      try (pose proof (flags_record_committed k s There t) as F; rewrite E in F; cbn in *; naive_solver);
      try (match type of E with Transaction_abort ?op _ = _ =>
             pose proof (flags_abort k op t) as F; rewrite E in F; cbn in *; rewrite F; by left end);
      try destruct (_ && _); injection E as <- <-; destruct Hk as [-> | [-> | ->]]; by left.
Qed.

Lemma run_id t evs : id (run t evs) = id t.
Proof.
  apply (run_ind (fun t' => id t' = id t)); [| done].
  intros t' ev. by rewrite (proj1 (step_id_role t' ev)).
Qed.

Lemma run_role t evs : role (run t evs) = role t.
Proof.
  apply (run_ind (fun t' => role t' = role t)); [| done].
  intros t' ev. by rewrite (proj2 (step_id_role t' ev)).
Qed.

Lemma flag_run_origin s k t evs :
  forallb protocol_event evs = true -> k = 2%nat \/ k = 3%nat \/ k = 6%nat ->
  flag s (flags_of k (run t evs)) = true ->
  flag s (flags_of k t) = true \/ exists ev, raises s k (id t) ev /\ In ev (accepted t evs).
Proof.
  intros Hp Hk. revert t Hp. induction evs as [|ev evs IH]; intros t Hp Hf; [by left |].
  cbn [forallb] in Hp. apply andb_true_iff in Hp as [Hp Hps]. rewrite accepted_cons.
  destruct (IH _ Hps Hf) as [H1 | (ev' & Hr & Hin)].
  - destruct (flag_origin s k t ev Hp Hk H1) as [H | [Hok Hr]]; [by left |].
    right. exists ev. rewrite Hok. split; [done |]. by left.
  - right. exists ev'. rewrite (proj1 (step_id_role t ev)) in Hr. split; [done |].
    apply in_or_app. by right.
Qed.

(** Reaching [Bonded] passes every milestone. *)
Lemma bonded_progress t : inv t -> phase t = Bonded -> progress t = [0;0;1;2;2;3;3;4;5;6;6]%nat.
Proof.
  destruct t as [i r p ca cf pr co]. unfold inv, progress. cbn. intros H ->.
  destruct H as (-> & -> & -> & ->). done.
Qed.

(** ** Properties *)

Definition sample_id : list Z := [1;2;3;4;5;6;7;8;9;10;11;12;13;14;15;16].
Definition sample_message : Message := mkMessage sample_id OpPrepared.

(** On any byte string, [Message::decode] accepts exactly the 18-byte
    encodings of messages, and returns the message it is the encoding of:
    decode and encode are inverse bijections, with no second encoding. *)
Theorem message_codec_exact b m :
  bytes_ok b -> Message_decode b = Ok m <-> Message_typed m /\ Message_encode m = b.
Proof.
  intros Hb. split.
  - intros Hd. pose proof (Message_decode_inv b m Hd) as [<- Hl]. split; [| done].
    unfold Message_encode in Hb. rewrite !bytes_ok_app in Hb. split; [done | apply Hb].
  - intros [Ht <-]. by apply Message_decode_encode.
Qed.

Lemma message_codec_exact_witness :
  Message_decode (Message_encode sample_message) = Ok sample_message.
Proof.
  apply (message_codec_exact (Message_encode sample_message) sample_message);
    [decide_now |]. split; [decide_now | done].
Defined.

(** [StatusMessage::decode] accepts exactly the 27-byte encodings of status
    queries and responses, including the rule that a query carries state 0 and
    a response one of the six states, and recovers nonce and transaction. *)
Theorem status_codec_exact b m :
  bytes_ok b -> StatusMessage_decode b = Ok m <-> StatusMessage_typed m /\ StatusMessage_encode m = b.
Proof.
  intros Hb. split.
  - intros Hd. pose proof (StatusMessage_decode_inv b m Hb Hd) as [? ?]. done.
  - intros [Ht <-]. by apply StatusMessage_decode_encode.
Qed.

Definition sample_status : StatusMessage := StatusMessage_response sample_id 258 SBonded.

Lemma status_codec_exact_witness :
  StatusMessage_decode (StatusMessage_encode sample_status) = Ok sample_status.
Proof.
  apply (status_codec_exact (StatusMessage_encode sample_status) sample_status);
    [decide_now |]. split; [decide_now | done].
Defined.

(** Whatever local facts, peer messages and status responses a transaction
    sees, [validate] holds of it afterwards, with one exception: a local
    capability recorded before the peer's, which [local] allows and [validate]
    refuses. *)
Theorem run_validates i r evs :
  Transaction_validate (run (Transaction_new i r) evs) =
    if decide (offered_first (run (Transaction_new i r) evs)) then Err InvalidTransition else Ok tt.
Proof. apply inv_validate, inv_run, inv_new. Qed.

(** A reachable transaction survives [serialize] and [restore] unchanged,
    unless it is aborted or in the shape [validate] refuses; in those two cases
    restoring its own serialisation is an error. *)
Theorem restore_serialize_run i r evs :
  arr 16 i ->
  let t := run (Transaction_new i r) evs in
  Transaction_restore (Transaction_serialize t) =
    if is_aborted (phase t) then Err Incompatible
    else if decide (offered_first t) then Err InvalidTransition
    else Ok t.
Proof.
  intros Hi t. rewrite Transaction_restore_serialize.
  - rewrite inv_validate by apply inv_run, inv_new. fold t. by destruct (is_aborted (phase t)), (decide (offered_first t)).
  - unfold t. rewrite run_id. by apply arr_len.
Qed.

Definition negotiated (i : list Z) : list Event :=
  [EvRemote (mkMessage i OpCapability); EvLocal LCapability; EvLocal LVerifiedExchange].

Lemma restore_serialize_run_witness :
  let t := run (Transaction_new sample_id Coordinator) (negotiated sample_id) in
  phase t = OobPending /\ Transaction_restore (Transaction_serialize t) = Ok t.
Proof.
  split; [done |].
  rewrite (restore_serialize_run sample_id Coordinator (negotiated sample_id)) by decide_now. done.
Defined.

(** A transaction that reaches [Bonded] through the protocol (no status
    reconciliation) accepted the milestones of the two-phase commit exactly
    once each and in order: two capabilities, the verified exchange, two
    confirmations, two preparations, the commit decision, its
    acknowledgement, two commit reports. *)
Theorem bonded_trace i r evs :
  let t := Transaction_new i r in
  forallb protocol_event evs = true -> phase (run t evs) = Bonded ->
  concat (map milestone (accepted t evs)) = [0;0;1;2;2;3;3;4;5;6;6]%nat.
Proof.
  intros t Hp Hb.
  rewrite <- (bonded_progress (run t evs)) by (done || apply inv_run, inv_new).
  rewrite progress_run by (done || apply inv_new || by rewrite Hb). done.
Qed.

Definition coordinator_schedule (i : list Z) : list Event :=
  negotiated i ++
  [EvRemote (mkMessage i OpConfirm); EvLocal LConfirm; EvLocal LPrepared;
   EvRemote (mkMessage i OpPrepared); EvLocal LCommit; EvRemote (mkMessage i OpCommitAck);
   EvLocal LCommitted; EvRemote (mkMessage i OpCommitted)].

Lemma bonded_trace_witness :
  concat (map milestone (accepted (Transaction_new sample_id Coordinator) (coordinator_schedule sample_id)))
  = [0;0;1;2;2;3;3;4;5;6;6]%nat.
Proof. apply (bonded_trace sample_id Coordinator); vm_compute; reflexivity. Defined.

(** No bond without both users: a transaction that reaches [Bonded] through
    the protocol accepted the local confirmation, preparation and commit report
    and, for its own transaction id, the peer's three. *)
Theorem bonded_needs_both_sides i r evs s k :
  let t := Transaction_new i r in
  forallb protocol_event evs = true -> phase (run t evs) = Bonded -> k = 2%nat \/ k = 3%nat \/ k = 6%nat ->
  exists ev, raises s k i ev /\ In ev (accepted t evs).
Proof.
  intros t Hp Hb Hk.
  destruct (flag_run_origin s k t evs Hp Hk) as [H | H]; [| | done].
  - pose proof (inv_run t evs (inv_new i r)) as Hi. unfold inv in Hi. rewrite Hb in Hi.
    destruct Hi as (_ & E2 & E3 & E6). destruct Hk as [-> | [-> | ->]]; cbn;
      rewrite ?E2, ?E3, ?E6; by destruct s.
  - by destruct Hk as [-> | [-> | ->]], s.
Qed.

Lemma bonded_needs_both_sides_witness :
  exists ev, raises There 2 sample_id ev /\
    In ev (accepted (Transaction_new sample_id Coordinator) (coordinator_schedule sample_id)).
Proof. apply bonded_needs_both_sides; [reflexivity | vm_compute; reflexivity | auto]. Defined.

(** Once the commit decision is recorded nothing rolls it back: no sequence
    of events, disconnects, aborts and status responses included, leads from a
    phase at or past [CommitPending] to a phase before it or to [Aborted]. *)
Theorem commit_never_rolls_back t evs :
  post_commit (phase t) = true -> post_commit (phase (run t evs)) = true.
Proof. intros H. apply (run_ind (fun t => post_commit (phase t) = true)); auto using post_commit_step. Qed.

Definition prepared_tx : Transaction :=
  mkTransaction sample_id Coordinator CommitPending all_set all_set all_set none_set.

Lemma commit_never_rolls_back_witness :
  post_commit (phase (run prepared_tx [EvLocal LDisconnected; EvLocal (LAbort OpCancel)])) = true.
Proof. apply commit_never_rolls_back. reflexivity. Defined.

(** [Aborted] and [Uncertain] are final for the bond: from either, no
    sequence of events ever reaches [Bonded]. *)
Theorem dead_never_bonds t evs :
  dead (phase t) = true -> phase (run t evs) <> Bonded.
Proof.
  intros H Hb. assert (dead (phase (run t evs)) = true) as Hd.
  { apply (run_ind (fun t => dead (phase t) = true)); auto using dead_step. }
  by rewrite Hb in Hd.
Qed.

Lemma dead_never_bonds_witness :
  phase (run (set_phase Uncertain prepared_tx)
    [EvStatus (StatusMessage_response sample_id 7 SBonded) 7]) <> Bonded.
Proof. apply dead_never_bonds. reflexivity. Defined.

(** When the two sides exchange their statuses and each reconciles with the
    status the other reported, they agree on whether the commit was decided;
    so none of them is aborted while the other holds a commit decision. *)
Theorem status_exchange_agrees t1 t2 :
  post_commit (phase (Transaction_reconcile_status t1 (Transaction_status t2)).1) =
  post_commit (phase (Transaction_reconcile_status t2 (Transaction_status t1)).1).
Proof.
  destruct t1 as [i1 r1 p1 ca1 cf1 pr1 co1], t2 as [i2 r2 p2 ca2 cf2 pr2 co2].
  by destruct p1, p2.
Qed.

(** Recovery: the transaction rebuilt from a recovery status is valid,
    reports that same status, and satisfies the state invariant, so every
    property of runs applies to it. *)
Theorem recovery_status_roundtrip i r s :
  exists t, Transaction_from_recovery_status i r s = Ok t /\
    Transaction_status t = s /\ inv t /\ id t = i /\ role t = r.
Proof. destruct s; eexists; (split; [reflexivity | done]). Qed.

(** A refused event changes nothing: when [local], [remote] or
    [apply_status_response] returns an error the transaction is as before. *)
Theorem refused_event_intact t ev :
  (step t ev).2 = false -> (step t ev).1 = t.
Proof. destruct (step t ev) as [t' b] eqn:E. cbn. intros ->. by apply (step_rejected t ev). Qed.

Lemma refused_event_intact_witness :
  (step prepared_tx (EvRemote (mkMessage sample_id OpCommit))).1 = prepared_tx.
Proof. apply refused_event_intact. reflexivity. Defined.
