(* ===== verification/PairProtocol.v ===== *)
(** * Two transactions on a lossy link

    The desktop ([Coordinator]) and the phone ([Participant]) each hold a
    [Transaction] of PairTransaction.v and talk over a link that may lose,
    delay, duplicate and reorder messages.  A side publishes the message of a
    local event once the event is accepted, which is the order of
    [drive_pair_transaction] in crates/syauth-transport/src/pair_engine.rs
    ([tx.local(..)?] first, [publish_paced(..)] next).  The file proves that the two ends
    cannot disagree on a bond. *)

From stdpp Require Import prelude list gmap strings.
From Stdlib Require Import ZArith Lia.
From S2P Require Import Prelude PairTransaction.

(** The operation a side publishes for an accepted local event. *)
Definition announce (e : LocalEvent) : list Operation :=
  match e with
  | LCapability => [OpCapability]
  | LConfirm => [OpConfirm]
  | LPrepared => [OpPrepared]
  | LCommit => [OpCommit]
  | LCommitAck => [OpCommitAck]
  | LCommitted => [OpCommitted]
  | LAbort op => [op]
  | LVerifiedExchange | LDisconnected => []
  end.

(** Both ends and every message ever published to each of them. *)
Record net := mkNet {
  coord : Transaction;
  part : Transaction;
  to_part : list Operation;
  to_coord : list Operation;
}.

Definition net_init (i : list Z) : net :=
  mkNet (Transaction_new i Coordinator) (Transaction_new i Participant) [] [].

Inductive net_step : net -> net -> Prop :=
| coord_local n e t' :
    Transaction_local (coord n) e = (t', Ok tt) ->
    net_step n (mkNet t' (part n) (announce e ++ to_part n) (to_coord n))
| part_local n e t' :
    Transaction_local (part n) e = (t', Ok tt) ->
    net_step n (mkNet (coord n) t' (to_part n) (announce e ++ to_coord n))
| coord_receives n o :
    In o (to_coord n) ->
    net_step n (mkNet (Transaction_remote (coord n) (mkMessage (id (part n)) o)).1 (part n)
                      (to_part n) (to_coord n))
| part_receives n o :
    In o (to_part n) ->
    net_step n (mkNet (coord n) (Transaction_remote (part n) (mkMessage (id (coord n)) o)).1
                      (to_part n) (to_coord n)).

Definition reachable (i : list Z) (n : net) : Prop := rtc net_step (net_init i) n.

(** ** How a transaction enters the phases of the decision *)

(** [Committed] or [Bonded]: the decision is acknowledged on this side. *)
Definition sealed (p : Phase) : bool :=
  match p with Committed | Bonded => true | _ => false end.

Lemma local_enters_commit t e :
  post_commit (phase t) = false -> post_commit (phase (Transaction_local t e).1) = true ->
  e = LCommit /\ role t = Coordinator.
Proof. revert e. intros [| | | | | | | |[]]; phase_tac t; naive_solver. Qed.

Lemma remote_enters_commit t m :
  post_commit (phase t) = false -> post_commit (phase (Transaction_remote t m).1) = true ->
  m_operation m = OpCommit /\ role t = Participant.
Proof. destruct m as [mt []]; phase_tac t; naive_solver. Qed.

Lemma local_enters_sealed t e :
  sealed (phase t) = false -> sealed (phase (Transaction_local t e).1) = true ->
  e = LCommitAck /\ role t = Participant.
Proof. revert e. intros [| | | | | | | |[]]; phase_tac t; naive_solver. Qed.

Lemma remote_enters_sealed t m :
  sealed (phase t) = false -> sealed (phase (Transaction_remote t m).1) = true ->
  m_operation m = OpCommitAck /\ role t = Coordinator.
Proof. destruct m as [mt []]; phase_tac t; naive_solver. Qed.

Lemma commit_accepted t t' : Transaction_local t LCommit = (t', Ok tt) -> post_commit (phase t') = true.
Proof. cbn. destruct (_ && _); [| done]. by intros [= <-]. Qed.

Lemma commit_ack_accepted t t' : Transaction_local t LCommitAck = (t', Ok tt) -> acked (phase t') = true.
Proof. cbn. destruct (_ && _); [| done]. by intros [= <-]. Qed.

(** ** The agreement invariant *)

Record agreement (i : list Z) (n : net) : Prop := mkAgreement {
  ag_coord : id (coord n) = i /\ role (coord n) = Coordinator;
  ag_part : id (part n) = i /\ role (part n) = Participant;
  ag_commit_sent : In OpCommit (to_part n) -> post_commit (phase (coord n)) = true;
  ag_ack_sent : In OpCommitAck (to_coord n) -> acked (phase (part n)) = true;
  ag_part_commit : post_commit (phase (part n)) = true -> post_commit (phase (coord n)) = true;
  ag_coord_sealed : sealed (phase (coord n)) = true -> acked (phase (part n)) = true;
}.

Lemma local_post t e : post_commit (phase t) = true -> post_commit (phase (Transaction_local t e).1) = true.
Proof. intros H. pose proof (post_commit_step t (EvLocal e) H) as P. cbn in P. by destruct (Transaction_local t e). Qed.

Lemma remote_post t m : post_commit (phase t) = true -> post_commit (phase (Transaction_remote t m).1) = true.
Proof. intros H. pose proof (post_commit_step t (EvRemote m) H) as P. cbn in P. by destruct (Transaction_remote t m). Qed.

Lemma local_acked t e : acked (phase t) = true -> acked (phase (Transaction_local t e).1) = true.
Proof. intros H. pose proof (acked_step t (EvLocal e) H) as P. cbn in P. by destruct (Transaction_local t e). Qed.

Lemma remote_acked t m : acked (phase t) = true -> acked (phase (Transaction_remote t m).1) = true.
Proof. intros H. pose proof (acked_step t (EvRemote m) H) as P. cbn in P. by destruct (Transaction_remote t m). Qed.

Lemma local_id_role t e : id (Transaction_local t e).1 = id t /\ role (Transaction_local t e).1 = role t.
Proof. pose proof (step_id_role t (EvLocal e)) as P. cbn in P. by destruct (Transaction_local t e). Qed.

Lemma remote_id_role t m : id (Transaction_remote t m).1 = id t /\ role (Transaction_remote t m).1 = role t.
Proof. pose proof (step_id_role t (EvRemote m)) as P. cbn in P. by destruct (Transaction_remote t m). Qed.

(** An accepted event announces [Commit] or [CommitAck] only when it is the
    decision or its acknowledgement. *)
Lemma announce_commit t e t' :
  Transaction_local t e = (t', Ok tt) -> In OpCommit (announce e) -> e = LCommit.
Proof. destruct e; cbn; naive_solver. Qed.

Lemma announce_commit_ack t e t' :
  Transaction_local t e = (t', Ok tt) -> In OpCommitAck (announce e) -> e = LCommitAck.
Proof. destruct e; cbn; naive_solver. Qed.

Lemma agreement_coord_local i n e t' :
  Transaction_local (coord n) e = (t', Ok tt) -> agreement i n ->
  agreement i (mkNet t' (part n) (announce e ++ to_part n) (to_coord n)).
Proof.
  intros E [[Hi Hr] Hp Hcs Has Hpc Hse].
  pose proof (local_post (coord n) e) as Lp. pose proof (local_id_role (coord n) e) as Li.
  pose proof (local_enters_sealed (coord n) e) as Ls. rewrite E in Lp, Li, Ls. cbn [fst] in *.
  split; cbn; auto.
  - by rewrite (proj1 Li), (proj2 Li).
  - intros [H | H] % in_app_or; [| auto].
    pose proof (announce_commit _ _ _ E H) as ->. by apply (commit_accepted (coord n)).
  - intros H. destruct (sealed (phase (coord n))) eqn:E2; [auto |].
    destruct (Ls eq_refl H) as [_ R]. congruence.
Qed.

Lemma agreement_part_local i n e t' :
  Transaction_local (part n) e = (t', Ok tt) -> agreement i n ->
  agreement i (mkNet (coord n) t' (to_part n) (announce e ++ to_coord n)).
Proof.
  intros E [Hc [Hi Hr] Hcs Has Hpc Hse].
  pose proof (local_acked (part n) e) as La. pose proof (local_id_role (part n) e) as Li.
  pose proof (local_enters_commit (part n) e) as Lc. rewrite E in La, Li, Lc. cbn [fst] in *.
  split; cbn; auto.
  - by rewrite (proj1 Li), (proj2 Li).
  - intros [H | H] % in_app_or; [| auto].
    pose proof (announce_commit_ack _ _ _ E H) as ->. by apply (commit_ack_accepted (part n)).
  - intros H. destruct (post_commit (phase (part n))) eqn:E2; [auto |].
    destruct (Lc eq_refl H) as [_ R]. congruence.
Qed.

Lemma agreement_step i n n' : net_step n n' -> agreement i n -> agreement i n'.
Proof.
  intros [? ? ? E | ? ? ? E | n0 o Ho | n0 o Ho];
    [by apply agreement_coord_local | by apply agreement_part_local | |];
    intros [Hc Hp Hcs Has Hpc Hse]; split; cbn; auto.
  - destruct (remote_id_role (coord n0) (mkMessage (id (part n0)) o)) as [-> ->]. done.
  - intros H. by apply remote_post, Hcs.
  - intros H. by apply remote_post, Hpc.
  - intros H. destruct (sealed (phase (coord n0))) eqn:E2; [auto |].
    destruct (remote_enters_sealed _ _ E2 H) as [R _]. cbn in R. subst. auto.
  - destruct (remote_id_role (part n0) (mkMessage (id (coord n0)) o)) as [-> ->]. done.
  - intros H. by apply remote_acked, Has.
  - intros H. destruct (post_commit (phase (part n0))) eqn:E2; [auto |].
    destruct (remote_enters_commit _ _ E2 H) as [R _]. cbn in R. subst. auto.
  - intros H. by apply remote_acked, Hse.
Qed.

Lemma agreement_reachable i n : reachable i n -> agreement i n.
Proof.
  unfold reachable. intros H.
  assert (agreement i (net_init i)) as H0 by (split; cbn; done).
  revert H0. induction H as [|x y z Hs _ IH]; [done |]. intros Ha. by apply IH, (agreement_step i x).
Qed.

(** ** An executable schedule *)

(** A schedule names what happens next; [sched] carries it out. *)
Inductive action := ACoord (e : LocalEvent) | APart (e : LocalEvent) | AToCoord (o : Operation) | AToPart (o : Operation).

Definition act (n : net) (a : action) : net :=
  match a with
  | ACoord e =>
      match Transaction_local (coord n) e with
      | (t', Ok _) => mkNet t' (part n) (announce e ++ to_part n) (to_coord n)
      | _ => n
      end
  | APart e =>
      match Transaction_local (part n) e with
      | (t', Ok _) => mkNet (coord n) t' (to_part n) (announce e ++ to_coord n)
      | _ => n
      end
  | AToCoord o =>
      if bool_decide (o ∈ to_coord n)
      then mkNet (Transaction_remote (coord n) (mkMessage (id (part n)) o)).1 (part n) (to_part n) (to_coord n)
      else n
  | AToPart o =>
      if bool_decide (o ∈ to_part n)
      then mkNet (coord n) (Transaction_remote (part n) (mkMessage (id (coord n)) o)).1 (to_part n) (to_coord n)
      else n
  end.

Definition sched (n : net) (l : list action) : net := foldl act n l.

Lemma act_step n a : act n a = n \/ net_step n (act n a).
Proof.
  destruct a; cbn; try (destruct (Transaction_local _ _) as [t' [[]|]] eqn:E); auto using net_step;
    case_bool_decide as H; auto; right; constructor; by apply list_elem_of_In.
Qed.

Lemma sched_reachable i l : reachable i (sched (net_init i) l).
Proof.
  unfold reachable. generalize (net_init i). induction l as [|a l IH]; intros n; [done |].
  cbn. destruct (act_step n a) as [-> | H]; [apply IH |]. by eapply rtc_l.
Qed.

(** The pairing as the two users see it when nothing goes wrong. *)
Definition pairing_schedule : list action :=
  [APart LCapability; AToCoord OpCapability; ACoord LCapability; AToPart OpCapability;
   ACoord LVerifiedExchange; APart LVerifiedExchange;
   APart LConfirm; AToCoord OpConfirm; ACoord LConfirm; AToPart OpConfirm;
   ACoord LPrepared; AToPart OpPrepared; APart LPrepared; AToCoord OpPrepared;
   ACoord LCommit; AToPart OpCommit; APart LCommitAck; AToCoord OpCommitAck;
   ACoord LCommitted; AToPart OpCommitted; APart LCommitted; AToCoord OpCommitted].

Lemma sched_cons n a l : sched n (a :: l) = sched (act n a) l.
Proof. done. Qed.

(** Carry out the next action of a schedule. *)
Ltac sched_step :=
  rewrite ?sched_cons;
  match goal with
  | |- context [act (mkNet ?c ?p ?tp ?tc) ?a] =>
      let H := fresh "Hact" in
      eassert (act (mkNet c p tp tc) a = _) as H;
      [unfold act, Transaction_remote; cbn [coord part id m_transaction];
       rewrite ?(bool_decide_eq_true_2 (_ = _)) by reflexivity; cbv; reflexivity |];
      rewrite H; clear H
  end.

Lemma pairing_result i :
  let n := sched (net_init i) pairing_schedule in
  phase (coord n) = Bonded /\ phase (part n) = Bonded.
Proof.
  cbv zeta. unfold pairing_schedule, net_init, Transaction_new.
  repeat sched_step. done.
Qed.

(** ** Properties *)

(** C3: The two ends never disagree on a bond, whatever the link loses, repeats
    or reorders and whenever a side disconnects or aborts: when the desktop is
    bonded the phone has acknowledged the commit (it is committed, bonded or
    uncertain, never aborted or still deciding), and when the phone is bonded
    the desktop holds the commit decision (it is not aborted). *)
Theorem bond_agreement i n :
  reachable i n ->
  (phase (coord n) = Bonded -> acked (phase (part n)) = true) /\
  (phase (part n) = Bonded -> post_commit (phase (coord n)) = true) /\
  (is_aborted (phase (coord n)) = true -> post_commit (phase (part n)) = false).
Proof.
  intros H % agreement_reachable. destruct H as [_ _ _ _ Hpc Hse]. repeat split.
  - intros E. apply Hse. by rewrite E.
  - intros E. apply Hpc. by rewrite E.
  - intros E. destruct (post_commit (phase (part n))); [| done].
    specialize (Hpc eq_refl). by destruct (phase (coord n)).
Qed.

Lemma bond_agreement_witness :
  let n := sched (net_init sample_id) (pairing_schedule ++ [ACoord LDisconnected]) in
  phase (coord n) = Bonded /\ acked (phase (part n)) = true.
Proof.
  split; [vm_compute; reflexivity |].
  apply (proj1 (bond_agreement sample_id _ (sched_reachable sample_id _))). vm_compute. reflexivity.
Defined.

(** The protocol can succeed: for every transaction id the pairing schedule
    brings both ends from [Negotiating] to [Bonded]. *)
Theorem pairing_completes i :
  let n := sched (net_init i) pairing_schedule in
  reachable i n /\ phase (coord n) = Bonded /\ phase (part n) = Bonded.
Proof.
  split; [apply sched_reachable |]. by destruct (pairing_result i) as [-> ->].
Qed.
