(* ===== verification/PairEngine.v ===== *)
(** * The daemon's pair engine

    Models crates/syauth-transport/src/pair_engine.rs: the pair-service state
    behind the GATT characteristics, the framing of control writes, and the
    driver of one V2 attempt.

    Time and the radio are an explicit script.  A [tick] is what one await of the
    engine sees: how long it took and the GATT accesses served meanwhile (control
    writes, status reads); the engine's loops consume ticks, and when the script
    ends nothing more happens and deadlines pass.  The commit boundary is an
    interface ([CommitHandler]): the engine asks for a durable action and gets a
    yes or a no.  The mutexes of the state are held for one access each, so an
    access is one atomic step; they are never poisoned. *)

From stdpp Require Import prelude list gmap strings.
From Stdlib Require Import ZArith Lia.
From S2P Require Import Prelude Fs PairTransaction.

(** Milliseconds. *)
Definition PAIR_MESSAGE_TIMEOUT : Z := 30000.
Definition PAIR_CAPABILITY_TIMEOUT : Z := 180000.
Definition PAIR_MESSAGE_POLL : Z := 50.
Definition PAIR_STATUS_READ_TIMEOUT : Z := 10000.
Definition PAIR_CONTROL_MAX_BYTES : Z := 256.
Definition PAIR_PUBKEY_LEN : Z := 32.

(** ** Framing *)

(** One turn of the loop of [frame_control_payload]: the frame at the head of
    [rest], if any. *)
Definition head_frame (rest : list Z) : option (list Z) :=
  if (STATUS_MESSAGE_LEN <=? len rest) && is_ok (StatusMessage_decode (slice 0 STATUS_MESSAGE_LEN rest))
  then Some (slice 0 STATUS_MESSAGE_LEN rest)
  else if (MESSAGE_LEN <=? len rest) && is_ok (Message_decode (slice 0 MESSAGE_LEN rest))
  then Some (slice 0 MESSAGE_LEN rest)
  else None.

(** The frames of a payload, in the order [accept] is called. The loop moves at
    least one byte per turn, so the length of the payload is enough fuel. *)
Fixpoint frames_from (fuel : nat) (rest : list Z) : list (list Z) :=
  match fuel with
  | O => []
  | S fuel =>
      match rest with
      | [] => []
      | _ :: tail =>
          match head_frame rest with
          | Some f => f :: frames_from fuel (drop (length f) rest)
          | None => frames_from fuel tail
          end
      end
  end.

Definition frame_control_payload (payload : list Z) : list (list Z) :=
  frames_from (length payload) payload.

(** What one [timeout(window, reader.read(..))] gives. *)
Inductive read_result := ReadBytes (bytes : list Z) | ReadEnd | ReadError | ReadTimeout.

(** A read never returns more than the room it was given. *)
Fixpoint read_bounded_from (out : list Z) (max : Z) (reads : list read_result) : list Z :=
  match reads with
  | [] => out
  | ReadBytes bytes :: reads =>
      let room := Z.min (max - len out) 64 in
      let chunk := slice 0 room bytes in
      match chunk with
      | [] => out
      | _ =>
          let out := out ++ chunk in
          if len out >=? max then out else read_bounded_from out max reads
      end
  | _ :: _ => out
  end.

Definition read_bounded (max : Z) (reads : list read_result) : option (list Z) :=
  match read_bounded_from [] max reads with
  | [] => None
  | out => Some out
  end.

(** ** The pair-service state *)

Record PairServiceState := mkService {
  host_pubkey : list Z;
  host_name : list Z;
  sv_status : list Z;
  sv_unread : bool;
  sv_inbox : list (list Z);
  sv_session : option (list Z * StatusState);
}.

Definition PairServiceState_new (hpk hname : list Z) : PairServiceState :=
  mkService hpk hname [] false [] None.

Definition set_register (bytes : list Z) (unread : bool) (s : PairServiceState) : PairServiceState :=
  mkService (host_pubkey s) (host_name s) bytes unread (sv_inbox s) (sv_session s).
Definition set_inbox (inbox : list (list Z)) (s : PairServiceState) : PairServiceState :=
  mkService (host_pubkey s) (host_name s) (sv_status s) (sv_unread s) inbox (sv_session s).
Definition set_session (x : option (list Z * StatusState)) (s : PairServiceState) : PairServiceState :=
  mkService (host_pubkey s) (host_name s) (sv_status s) (sv_unread s) (sv_inbox s) x.

Definition sv_publish (message : Message) (s : PairServiceState) : PairServiceState :=
  set_register (Message_encode message) true s.

Definition publish_status (response : StatusMessage) (s : PairServiceState) : PairServiceState :=
  set_register (StatusMessage_encode response) true s.

Definition status_snapshot (offset : Z) (s : PairServiceState) : PairServiceState * list Z :=
  (set_register (sv_status s) false s, drop (Z.to_nat offset) (sv_status s)).

Definition begin_session (s : PairServiceState) : PairServiceState :=
  set_session None (set_inbox [] (set_register [] false s)).

Definition remember_session (i : list Z) (status : StatusState) (s : PairServiceState) : PairServiceState :=
  set_session (Some (i, status)) s.

Definition accept_control (bytes : list Z) (s : PairServiceState) : PairServiceState :=
  match StatusMessage_decode bytes with
  | Ok query =>
      match s_state query, sv_session s with
      | None, Some (i, status) =>
          if bool_decide (i = s_transaction query)
          then publish_status (StatusMessage_response i (s_nonce query) status) s
          else s
      | _, _ => s
      end
  | Err _ => set_inbox (sv_inbox s ++ [bytes]) s
  end.

(** Split the inbox at the first frame of the transaction. *)
Fixpoint take_from (i : list Z) (inbox : list (list Z)) : option (Operation * list (list Z)) :=
  match inbox with
  | [] => None
  | bytes :: rest =>
      match Message_decode bytes with
      | Ok message =>
          if bool_decide (m_transaction message = i) then Some (m_operation message, rest)
          else (fun '(op, l) => (op, bytes :: l)) <$> take_from i rest
      | Err _ => (fun '(op, l) => (op, bytes :: l)) <$> take_from i rest
      end
  end.

Definition take_message (i : list Z) (s : PairServiceState) : option Operation * PairServiceState :=
  match take_from i (sv_inbox s) with
  | Some (op, rest) => (Some op, set_inbox rest s)
  | None => (None, s)
  end.

(** ** The host name *)

(** A [char]'s UTF-8 bytes. *)
Definition utf8_char (c : Z) : list Z :=
  if c <? 128 then [c]
  else if c <? 2048 then [192 + c / 64; 128 + c mod 64]
  else if c <? 65536 then [224 + c / 4096; 128 + (c / 64) mod 64; 128 + c mod 64]
  else [240 + c / 262144; 128 + (c / 4096) mod 64; 128 + (c / 64) mod 64; 128 + c mod 64].

Definition utf8_bytes (l : list Z) : list Z := concat (map utf8_char l).

(** [char::is_whitespace], [char::is_control] *)
Definition is_whitespace (c : Z) : bool :=
  ((9 <=? c) && (c <=? 13)) || (c =? 32) || (c =? 133) || (c =? 160) || (c =? 5760) ||
  ((8192 <=? c) && (c <=? 8202)) || (c =? 8232) || (c =? 8233) || (c =? 8239) || (c =? 8287) || (c =? 12288).
Definition is_control (c : Z) : bool := (c <=? 31) || ((127 <=? c) && (c <=? 159)).

Fixpoint trim_start (l : list Z) : list Z :=
  match l with
  | c :: l' => if is_whitespace c then trim_start l' else l
  | [] => []
  end.

Definition str_trim (l : list Z) : list Z := rev (trim_start (rev (trim_start l))).

(** [while display.len() > 128 { display.pop(); }]; each turn drops a char. *)
Fixpoint pop_to (max : Z) (fuel : nat) (l : list Z) : list Z :=
  match fuel with
  | O => l
  | S fuel => if len (utf8_bytes l) >? max then pop_to max fuel (removelast l) else l
  end.

Definition host_name_payload (name : list Z) : list Z :=
  let display := List.filter (fun c => negb (is_control c)) (str_trim name) in
  let display := pop_to 128 (length display) display in
  let display := match display with [] => lit "Computer DeskUnlock" | _ => display end in
  [1] ++ utf8_bytes display.

(** ** The commit boundary *)

Inductive PairCommitPhase := Stage | MarkCommit | Promote | Discard | Revoke.

#[global] Instance PairCommitPhase_eq_dec : EqDecision PairCommitPhase.
Proof. solve_decision. Defined.

Record PairCommitRequest := mkRequest {
  rq_phase : PairCommitPhase;
  rq_transaction : list Z;
  rq_phone_pubkey : list Z;
  rq_host_pubkey : list Z;
  rq_peer : str;
}.

(** The daemon's side: a state and what it does with a request. The answer is
    the [reply]; a closed channel answers [false]. *)
Class CommitHandler := {
  HState : Type;
  handle : PairCommitRequest -> HState -> bool * HState;
}.

Inductive PairEngineError := Rejected | EAborted | EUncertain | Persistence.

#[global] Instance PairEngineError_eq_dec : EqDecision PairEngineError.
Proof. solve_decision. Defined.

(** ** The environment *)

(** What the phone does between two polls: a write to the control
    characteristic, with, for each of its frames, whether the commit channel has
    room for a revocation at that moment, or a read of the status. *)
Inductive gatt_access :=
| ControlWrite (payload : list Z) (room : nat -> bool)
| StatusRead (offset : Z).

Record tick := mkTick { elapsed : Z; accesses : list gatt_access }.

Section engine.
Context `{CH : CommitHandler}.

(** The engine in the middle of an attempt, with the history of what it
    published, took from the inbox and asked for. *)
Record Engine := mkEngine {
  svc : PairServiceState;
  tx : Transaction;
  now : Z;
  ticks : list tick;
  handler : HState;
  published : list Operation;
  received : list Operation;
  requests : list (PairCommitPhase * bool);
  notified : bool;
}.

Definition set_svc (s : PairServiceState) (e : Engine) : Engine :=
  mkEngine s (tx e) (now e) (ticks e) (handler e) (published e) (received e) (requests e) (notified e).
Definition set_tx (t : Transaction) (e : Engine) : Engine :=
  mkEngine (svc e) t (now e) (ticks e) (handler e) (published e) (received e) (requests e) (notified e).
Definition set_clock (n : Z) (l : list tick) (e : Engine) : Engine :=
  mkEngine (svc e) (tx e) n l (handler e) (published e) (received e) (requests e) (notified e).
Definition set_handler (h : HState) (e : Engine) : Engine :=
  mkEngine (svc e) (tx e) (now e) (ticks e) h (published e) (received e) (requests e) (notified e).
Definition add_published (op : Operation) (e : Engine) : Engine :=
  mkEngine (svc e) (tx e) (now e) (ticks e) (handler e) (published e ++ [op]) (received e) (requests e) (notified e).
Definition add_received (op : Operation) (e : Engine) : Engine :=
  mkEngine (svc e) (tx e) (now e) (ticks e) (handler e) (published e) (received e ++ [op]) (requests e) (notified e).
Definition add_request (ph : PairCommitPhase) (ok : bool) (e : Engine) : Engine :=
  mkEngine (svc e) (tx e) (now e) (ticks e) (handler e) (published e) (received e) (requests e ++ [(ph, ok)]) (notified e).
Definition set_notified (e : Engine) : Engine :=
  mkEngine (svc e) (tx e) (now e) (ticks e) (handler e) (published e) (received e) (requests e) true.

(** The frame callback of the control reader: a day-2 revocation goes to the
    daemon (its answer is dropped; [try_send] drops the request itself when
    the channel has no [room]), every other frame to [accept_control]. *)
Definition control_frame (room : bool) (frame : list Z) (e : Engine) : Engine :=
  match Message_decode frame with
  | Ok message =>
      if bool_decide (m_operation message = OpRevoke) then
        let request := mkRequest Revoke (m_transaction message) (replicate 32 0) (replicate 32 0) [] in
        if room then set_handler (handle request (handler e)).2 e else e
      else set_svc (accept_control frame (svc e)) e
  | Err _ => set_svc (accept_control frame (svc e)) e
  end.

Definition serve (a : gatt_access) (e : Engine) : Engine :=
  match a with
  | ControlWrite payload room =>
      foldl (fun e f => control_frame (room f.1) f.2 e) e (imap pair (frame_control_payload payload))
  | StatusRead offset => set_svc (status_snapshot offset (svc e)).1 e
  end.

(** One await. *)
Definition pause (t : tick) (l : list tick) (e : Engine) : Engine :=
  foldl (fun e a => serve a e) (set_clock (now e + elapsed t) l e) (accesses t).

Definition await (e : Engine) : Engine :=
  match ticks e with
  | [] => e
  | t :: l => pause t l e
  end.

Definition e_publish (i : list Z) (op : Operation) (e : Engine) : Engine :=
  add_published op (set_svc (sv_publish (mkMessage i op) (svc e)) e).

(** The wait of [publish_paced], over the ticks that are left. *)
Fixpoint pace (deadline : Z) (l : list tick) (e : Engine) : Engine :=
  if negb (sv_unread (svc e)) then e
  else if deadline <=? now e then e
  else
    match l with
    | [] => e
    | t :: l => pace deadline l (pause t l e)
    end.

Definition publish_paced (i : list Z) (op : Operation) (e : Engine) : Engine :=
  e_publish i op (pace (now e + PAIR_STATUS_READ_TIMEOUT) (ticks e) e).

Fixpoint wait_from (i : list Z) (deadline : Z) (l : list tick) (e : Engine)
  : result Operation PairEngineError * Engine :=
  match take_message i (svc e) with
  | (Some op, s) =>
      let e := add_received op (set_svc s e) in
      if is_abort_op op then (Err EAborted, e) else (Ok op, e)
  | (None, _) =>
      if deadline <=? now e then (Err EAborted, e)
      else
        match l with
        | [] => (Err EAborted, e)
        | t :: l => wait_from i deadline l (pause t l e)
        end
  end.

Definition wait_for_operation_within (i : list Z) (budget : Z) (e : Engine)
  : result Operation PairEngineError * Engine :=
  wait_from i (now e + budget) (ticks e) e.

Definition wait_for_operation (i : list Z) (e : Engine) : result Operation PairEngineError * Engine :=
  wait_for_operation_within i PAIR_MESSAGE_TIMEOUT e.

Definition apply_remote (i : list Z) (op : Operation) (e : Engine) : result unit PairEngineError * Engine :=
  let '(t, r) := Transaction_remote (tx e) (mkMessage i op) in
  (map_err (fun _ => EAborted) r, set_tx t e).

(** [transaction.local(event).map_err(|_| err)] *)
Definition apply_local (ev : LocalEvent) (err : PairEngineError) (e : Engine) : result unit PairEngineError * Engine :=
  let '(t, r) := Transaction_local (tx e) ev in
  (map_err (fun _ => err) r, set_tx t e).

(** [let _ = transaction.local(event)] and the snapshot that follows it. *)
Definition remember (i : list Z) (e : Engine) : Engine :=
  set_svc (remember_session i (Transaction_status (tx e)) (svc e)) e.

Definition abort_local (i : list Z) (ev : LocalEvent) (e : Engine) : Engine :=
  remember i (apply_local ev EAborted e).2.

Record PairCommitContext := mkContext {
  cx_transaction_id : list Z;
  cx_host_pubkey : list Z;
  cx_phone_pubkey : list Z;
  cx_peer : str;
}.

Definition commit_request (cx : PairCommitContext) (ph : PairCommitPhase) (e : Engine) : bool * Engine :=
  let request := mkRequest ph (cx_transaction_id cx) (cx_phone_pubkey cx) (cx_host_pubkey cx) (cx_peer cx) in
  let '(ok, h) := handle request (handler e) in
  (ok, add_request ph ok (await (set_handler h e))).

Definition abort_with_discard (cx : PairCommitContext) (error : PairEngineError) (e : Engine)
  : result unit PairEngineError * Engine :=
  let i := cx_transaction_id cx in
  let e := e_publish i OpError e in
  let e := abort_local i (LAbort OpError) e in
  let '(_, e) := commit_request cx Discard e in
  (Err error, e).

Notation "'let&' e ':=' m 'in' k" :=
  (match m with (Ok _, e) => k | (Err err, e') => (Err err, e') end)
  (at level 200, e name, m at level 100, k at level 200).

(** From the COMMIT_ACK wait on: the commit decision is published. *)
Definition drive_commit (cx : PairCommitContext) (e : Engine) : result unit PairEngineError * Engine :=
  let i := cx_transaction_id cx in
  match wait_for_operation i e with
  | (Err err, e) => abort_with_discard cx err e
  | (Ok op, e) =>
      if negb (bool_decide (op = OpCommitAck)) then abort_with_discard cx EAborted e
      else
        let& e := apply_remote i op e in
        let e := remember i e in
        let e := publish_paced i OpCommitted e in
        match wait_for_operation i e with
        | (Ok OpCommitted, e) =>
            let& e := apply_remote i OpCommitted e in
            match commit_request cx Promote e with
            | (false, e) => (Err Persistence, abort_local i LDisconnected e)
            | (true, e) =>
                let& e := apply_local LCommitted EUncertain e in
                let e := remember i e in
                (Ok tt, set_notified (await e))
            end
        | (_, e) => (Err EUncertain, abort_local i LDisconnected e)
        end
  end.

(** From the durable staging to the published commit decision. *)
Definition drive_prepare (cx : PairCommitContext) (e : Engine) : result unit PairEngineError * Engine :=
  let i := cx_transaction_id cx in
  match commit_request cx Stage e with
  | (false, e) => (Err Persistence, abort_local i (LAbort OpError) (e_publish i OpError e))
  | (true, e) =>
      let& e := apply_local LPrepared EAborted e in
      match wait_for_operation i e with
      | (Err err, e) => abort_with_discard cx err e
      | (Ok op, e) =>
          if negb (bool_decide (op = OpPrepared)) then abort_with_discard cx EAborted e
          else
            let& e := apply_remote i op e in
            let e := publish_paced i OpPrepared e in
            match commit_request cx MarkCommit e with
            | (false, e) => (Err Persistence, abort_local i (LAbort OpError) (e_publish i OpError e))
            | (true, e) =>
                let& e := apply_local LCommit EAborted e in
                drive_commit cx (publish_paced i OpCommit e)
            end
      end
  end.

(** [oob] is the operator's answer, [None] that the random source failed. *)
Definition drive_pair_transaction (i : option (list Z)) (phone_pubkey : list Z) (peer : str) (oob : bool) (e : Engine)
  : result unit PairEngineError * Engine :=
  match i with
  | None => (Err EAborted, e)
  | Some i =>
      let e := set_tx (Transaction_new i Coordinator) e in
      let cx := mkContext i (host_pubkey (svc e)) phone_pubkey peer in
      let e := publish_paced i OpCapability e in
      match wait_for_operation_within i PAIR_CAPABILITY_TIMEOUT e with
      | (Err err, e) => (Err err, e)
      | (Ok op, e) =>
          if negb (bool_decide (op = OpCapability)) then (Err EAborted, e)
          else
            let& e := apply_remote i op e in
            let& e := apply_local LCapability EAborted e in
            let& e := apply_local LVerifiedExchange EAborted e in
            let e := remember i e in
            let e := await e in
            if negb oob then (Err Rejected, abort_local i (LAbort OpReject) (e_publish i OpReject e))
            else
              let& e := apply_local LConfirm EAborted e in
              let e := publish_paced i OpConfirm e in
              match wait_for_operation i e with
              | (Err err, e) => (Err err, e)
              | (Ok op, e) =>
                  if negb (bool_decide (op = OpConfirm)) then (Err EAborted, e)
                  else
                    let& e := apply_remote i op e in
                    drive_prepare cx e
              end
      end
  end.

Definition run_pair_attempt (i : option (list Z)) (phone_pubkey : list Z) (peer : str) (oob : bool) (e : Engine)
  : result unit PairEngineError * Engine :=
  drive_pair_transaction i phone_pubkey peer oob (set_svc (begin_session (svc e)) e).


(** Forget the history of the previous attempt. *)
Definition new_history (e : Engine) : Engine :=
  mkEngine (svc e) (tx e) (now e) (ticks e) (handler e) [] [] [] false.

(** [to_ascii_uppercase] *)
Definition peer_label (address : str) : str :=
  map (fun c => if (97 <=? c) && (c <=? 122) then c - 32 else c) address.

(** An event of the phone-pubkey characteristic: a write with its sender,
    whether BlueZ let it be accepted and what its reader yields, or a notify. *)
Inductive phone_event :=
| PhoneWrite (address : str) (accepted : bool) (reads : list read_result)
| PhoneNotify.

Fixpoint wait_for_phone_pubkey (evs : list phone_event) : option (list Z * str * list phone_event) :=
  match evs with
  | [] => None
  | PhoneNotify :: evs => wait_for_phone_pubkey evs
  | PhoneWrite address accepted reads :: evs =>
      if negb accepted then wait_for_phone_pubkey evs
      else
        match read_bounded PAIR_PUBKEY_LEN reads with
        | None => wait_for_phone_pubkey evs
        | Some bytes =>
            if negb (len bytes =? PAIR_PUBKEY_LEN) then wait_for_phone_pubkey evs
            else Some (bytes, address, evs)
        end
  end.

(** The attempts of a session, one per accepted phone-pubkey write; [choices]
    holds the transaction id and the operator's answer of each. *)
Fixpoint run_pair_session (choices : list (option (list Z) * bool)) (evs : list phone_event) (e : Engine)
  : list (result unit PairEngineError) * Engine :=
  match choices with
  | [] => ([], e)
  | (i, oob) :: choices =>
      match wait_for_phone_pubkey evs with
      | None => ([], e)
      | Some (phone_pubkey, address, evs) =>
          let '(r, e) := run_pair_attempt i phone_pubkey (peer_label address) oob (new_history e) in
          let '(rs, e) := run_pair_session choices evs e in
          (r :: rs, e)
      end
  end.

(** ** What an attempt leaves in its history *)

Definition hist (e : Engine) : Transaction * list Operation * list Operation * list (PairCommitPhase * bool) * bool :=
  (tx e, published e, received e, requests e, notified e).

Lemma hist_control_frame b f e : hist (control_frame b f e) = hist e.
Proof. unfold control_frame. destruct (Message_decode f); [case_bool_decide; [destruct b |] |]; done. Qed.

Lemma hist_frames (room : nat -> bool) l e : hist (foldl (fun e f => control_frame (room f.1) f.2 e) e l) = hist e.
Proof. revert e. induction l as [|f l IH]; intros e; [done |]. cbn. by rewrite IH, hist_control_frame. Qed.

Lemma hist_accesses l e : hist (foldl (fun e a => serve a e) e l) = hist e.
Proof.
  revert e. induction l as [|[payload room|o] l IH]; intros e; [done | |]; cbn; rewrite IH; [apply hist_frames | done].
Qed.

Lemma hist_pause t l e : hist (pause t l e) = hist e.
Proof. unfold pause. by rewrite hist_accesses. Qed.

Lemma hist_await e : hist (await e) = hist e.
Proof. unfold await. destruct (ticks e); [done | apply hist_pause]. Qed.

Lemma hist_pace dl l e : hist (pace dl l e) = hist e.
Proof.
  revert e. induction l as [|t l IH]; intros e; cbn; destruct (negb _); try done; destruct (_ <=? _); try done.
  by rewrite IH, hist_pause.
Qed.

Lemma hist_publish i op e t p c q n :
  hist e = (t, p, c, q, n) -> hist (publish_paced i op e) = (t, p ++ [op], c, q, n).
Proof.
  intros H. pose proof (hist_pace (now e + PAIR_STATUS_READ_TIMEOUT) (ticks e) e) as Hp. rewrite H in Hp.
  unfold publish_paced. destruct (pace _ _ _). unfold hist in *. cbn in *. by simplify_eq.
Qed.

(** A wait gives one operation of the transaction that is not an abort, or
    aborts, after at most one abort operation. *)
Inductive waited (e : Engine) : result Operation PairEngineError * Engine -> Prop :=
| waited_ok op e' :
    is_abort_op op = false -> hist e' = (tx e, published e, received e ++ [op], requests e, notified e) ->
    waited e (Ok op, e')
| waited_abort op e' :
    is_abort_op op = true -> hist e' = (tx e, published e, received e ++ [op], requests e, notified e) ->
    waited e (Err EAborted, e')
| waited_timeout e' : hist e' = hist e -> waited e (Err EAborted, e').

Lemma waited_hist e e1 r : hist e1 = hist e -> waited e1 r -> waited e r.
Proof.
  unfold hist. intros H Hw. destruct Hw as [op e' Ha E|op e' Ha E|e' E];
    unfold hist in E; simplify_eq; [eapply waited_ok | eapply waited_abort | eapply waited_timeout];
    try done; unfold hist; congruence.
Qed.

Lemma wait_from_waited i dl l e : waited e (wait_from i dl l e).
Proof.
  revert e. induction l as [|t l IH]; intros e; cbn [wait_from]; unfold take_message;
    destruct (take_from i (sv_inbox (svc e))) as [[op rest]|];
    try (destruct (is_abort_op op) eqn:Ha; by econstructor);
    destruct (dl <=? now e); try by constructor.
  apply (waited_hist e (pause t l e)); [apply hist_pause | apply IH].
Qed.

(** ** The endings of an attempt *)

(** What the last wait of a failed attempt took from the inbox: nothing, or one
    operation. *)
Definition short (l : list Operation) : Prop := (length l <= 1)%nat.

(** The ten ways an attempt ends: result, phase, published operations,
    operations taken from the inbox, requests with their answers, notification. *)
Inductive ending :
  result unit PairEngineError -> Phase -> list Operation -> list Operation ->
  list (PairCommitPhase * bool) -> bool -> Prop :=
| end_no_capability x :
    short x -> ending (Err EAborted) Negotiating [OpCapability] x [] false
| end_rejected :
    ending (Err Rejected) (Aborted OpReject) [OpCapability; OpReject] [OpCapability] [] false
| end_no_confirm x :
    short x -> ending (Err EAborted) OobPending [OpCapability; OpConfirm] (OpCapability :: x) [] false
| end_stage_failed :
    ending (Err Persistence) (Aborted OpError) [OpCapability; OpConfirm; OpError]
      [OpCapability; OpConfirm] [(Stage, false)] false
| end_no_prepared x ok :
    short x ->
    ending (Err EAborted) (Aborted OpError) [OpCapability; OpConfirm; OpError]
      (OpCapability :: OpConfirm :: x) [(Stage, true); (Discard, ok)] false
| end_mark_failed :
    ending (Err Persistence) (Aborted OpError) [OpCapability; OpConfirm; OpPrepared; OpError]
      [OpCapability; OpConfirm; OpPrepared] [(Stage, true); (MarkCommit, false)] false
| end_no_ack x ok :
    short x ->
    ending (Err EAborted) Uncertain [OpCapability; OpConfirm; OpPrepared; OpCommit; OpError]
      (OpCapability :: OpConfirm :: OpPrepared :: x)
      [(Stage, true); (MarkCommit, true); (Discard, ok)] false
| end_no_committed x :
    short x ->
    ending (Err EUncertain) Uncertain [OpCapability; OpConfirm; OpPrepared; OpCommit; OpCommitted]
      (OpCapability :: OpConfirm :: OpPrepared :: OpCommitAck :: x)
      [(Stage, true); (MarkCommit, true)] false
| end_promote_failed :
    ending (Err Persistence) Uncertain [OpCapability; OpConfirm; OpPrepared; OpCommit; OpCommitted]
      [OpCapability; OpConfirm; OpPrepared; OpCommitAck; OpCommitted]
      [(Stage, true); (MarkCommit, true); (Promote, false)] false
| end_bonded :
    ending (Ok tt) Bonded [OpCapability; OpConfirm; OpPrepared; OpCommit; OpCommitted]
      [OpCapability; OpConfirm; OpPrepared; OpCommitAck; OpCommitted]
      [(Stage, true); (MarkCommit, true); (Promote, true)] true.

Definition ends (x : result unit PairEngineError * Engine) : Prop :=
  ending x.1 (phase (tx x.2)) (published x.2) (received x.2) (requests x.2) (notified x.2).

Lemma ends_hist r e t p c q n : hist e = (t, p, c, q, n) -> ending r (phase t) p c q n -> ends (r, e).
Proof. unfold hist. intros H. by simplify_eq. Qed.

(** The transaction after the milestones of an attempt. *)
Definition coord_tx (i : list Z) (p : Phase) (ca cf pr co : flags) : Transaction :=
  mkTransaction i Coordinator p ca cf pr co.

Lemma remote_eq i op e t p c q n t' :
  hist e = (t, p, c, q, n) -> Transaction_remote t (mkMessage i op) = (t', Ok tt) ->
  exists e', apply_remote i op e = (Ok tt, e') /\ hist e' = (t', p, c, q, n).
Proof.
  unfold hist, apply_remote. intros H Hr. injection H as -> ? ? ? ?. rewrite Hr. eexists. split; [done |].
  cbn. congruence.
Qed.

Lemma local_eq ev err e t p c q n t' :
  hist e = (t, p, c, q, n) -> Transaction_local t ev = (t', Ok tt) ->
  exists e', apply_local ev err e = (Ok tt, e') /\ hist e' = (t', p, c, q, n).
Proof.
  unfold hist, apply_local. intros H Hr. injection H as -> ? ? ? ?. rewrite Hr. eexists. split; [done |].
  cbn. congruence.
Qed.

Lemma abort_local_eq i ev e t p c q n :
  hist e = (t, p, c, q, n) -> hist (abort_local i ev e) = ((Transaction_local t ev).1, p, c, q, n).
Proof.
  unfold hist, abort_local, apply_local. intros H. injection H as -> ? ? ? ?.
  destruct (Transaction_local t ev). cbn. congruence.
Qed.

Lemma e_publish_eq i op e t p c q n :
  hist e = (t, p, c, q, n) -> hist (e_publish i op e) = (t, p ++ [op], c, q, n).
Proof. unfold hist. cbn. intros H. by simplify_eq. Qed.

Lemma remember_eq i e : hist (remember i e) = hist e.
Proof. done. Qed.

Lemma set_notified_eq e t p c q n : hist e = (t, p, c, q, n) -> hist (set_notified e) = (t, p, c, q, true).
Proof. unfold hist. cbn. intros H. by simplify_eq. Qed.

Lemma request_eq cx ph e t p c q n :
  hist e = (t, p, c, q, n) ->
  exists ok e', commit_request cx ph e = (ok, e') /\ hist e' = (t, p, c, q ++ [(ph, ok)], n).
Proof.
  intros H. unfold commit_request. destruct (handle _ (handler e)) as [ok h]. eexists ok, _. split; [done |].
  pose proof (hist_await (set_handler h e)) as Ha. unfold hist in *. cbn in *. congruence.
Qed.

Lemma discard_eq cx err e t p c q n :
  hist e = (t, p, c, q, n) ->
  exists ok e', abort_with_discard cx err e = (Err err, e') /\
    hist e' = ((Transaction_local t (LAbort OpError)).1, p ++ [OpError], c, q ++ [(Discard, ok)], n).
Proof.
  intros H. unfold abort_with_discard. cbv zeta.
  apply (e_publish_eq (cx_transaction_id cx) OpError), (abort_local_eq (cx_transaction_id cx) (LAbort OpError)) in H.
  destruct (request_eq cx Discard _ _ _ _ _ _ H) as (ok & e' & -> & He). by exists ok, e'.
Qed.

(** The wait, in the form the driver uses it. *)
Lemma wait_cases i budget e t p c q n :
  hist e = (t, p, c, q, n) ->
  (exists op e', wait_for_operation_within i budget e = (Ok op, e') /\ hist e' = (t, p, c ++ [op], q, n)) \/
  (exists x e', wait_for_operation_within i budget e = (Err EAborted, e') /\ hist e' = (t, p, c ++ x, q, n) /\ short x).
Proof.
  intros H. pose proof (wait_from_waited i (now e + budget) (ticks e) e) as Hw.
  unfold wait_for_operation_within. unfold hist in H. injection H as <- <- <- <- <-.
  inversion Hw as [op e' Ha He Eq|op e' Ha He Eq|e' He Eq].
  - left. by exists op, e'.
  - right. exists [op], e'. split_and!; [done | done | unfold short; cbn; lia].
  - right. exists [], e'. rewrite app_nil_r. split_and!; [done | done | unfold short; cbn; lia].
Qed.

(** Evaluate a transition of a transaction whose fields are known. *)
Ltac tx_eval :=
  tx_unfold; unfold coord_tx; cbn; rewrite ?bool_decide_eq_true_2 by done; cbn;
  rewrite ?bool_decide_eq_true_2 by done; reflexivity.

Lemma drive_commit_ends cx e :
  let i := cx_transaction_id cx in
  hist e = (coord_tx i CommitPending all_set all_set all_set none_set,
            [OpCapability; OpConfirm; OpPrepared; OpCommit], [OpCapability; OpConfirm; OpPrepared],
            [(Stage, true); (MarkCommit, true)], false) ->
  ends (drive_commit cx e).
Proof.
  intros i H. unfold drive_commit, wait_for_operation. fold i.
  destruct (wait_cases i PAIR_MESSAGE_TIMEOUT e _ _ _ _ _ H) as [(op & e1 & -> & H1) | (x & e1 & -> & H1 & Hx)].
  2: { destruct (discard_eq cx EAborted e1 _ _ _ _ _ H1) as (ok & e2 & -> & H2).
       eapply ends_hist; [exact H2 |]. by apply end_no_ack. }
  destruct (bool_decide_reflect (op = OpCommitAck)) as [-> | Hop]; cbn [negb].
  2: { destruct (discard_eq cx EAborted e1 _ _ _ _ _ H1) as (ok & e2 & -> & H2).
       eapply ends_hist; [exact H2 |]. apply (end_no_ack [op]). unfold short. cbn. lia. }
  edestruct (remote_eq i OpCommitAck e1) as (e2 & -> & H2); [exact H1 | tx_eval |].
  rewrite <- (remember_eq i) in H2. apply (hist_publish i OpCommitted) in H2.
  destruct (wait_cases i PAIR_MESSAGE_TIMEOUT _ _ _ _ _ _ H2) as [(op & e3 & -> & H3) | (x & e3 & -> & H3 & Hx)].
  2: { eapply ends_hist; [eapply abort_local_eq, H3 |]. by apply end_no_committed. }
  destruct (decide (op = OpCommitted)) as [-> | Hop].
  2: { assert (Hend : ends (Err EUncertain, abort_local i LDisconnected e3)).
       { eapply ends_hist; [eapply abort_local_eq, H3 |]. apply (end_no_committed [op]). unfold short. cbn. lia. }
       by destruct op. }
  edestruct (remote_eq i OpCommitted e3) as (e4 & -> & H4); [exact H3 | tx_eval |].
  destruct (request_eq cx Promote e4 _ _ _ _ _ H4) as ([] & e5 & -> & H5).
  2: { eapply ends_hist; [eapply abort_local_eq, H5 |]. apply end_promote_failed. }
  edestruct (local_eq LCommitted EUncertain e5) as (e6 & -> & H6); [exact H5 | tx_eval |].
  rewrite <- (remember_eq i), <- hist_await in H6. apply set_notified_eq in H6.
  eapply ends_hist; [exact H6 |]. apply end_bonded.
Qed.

Lemma drive_prepare_ends cx e :
  let i := cx_transaction_id cx in
  hist e = (coord_tx i Preparing all_set all_set none_set none_set,
            [OpCapability; OpConfirm], [OpCapability; OpConfirm], [], false) ->
  ends (drive_prepare cx e).
Proof.
  intros i H. unfold drive_prepare, wait_for_operation. fold i.
  destruct (request_eq cx Stage e _ _ _ _ _ H) as ([] & e1 & -> & H1).
  2: { eapply ends_hist; [eapply abort_local_eq, e_publish_eq, H1 |]. apply end_stage_failed. }
  edestruct (local_eq LPrepared EAborted e1) as (e2 & -> & H2); [exact H1 | tx_eval |].
  destruct (wait_cases i PAIR_MESSAGE_TIMEOUT e2 _ _ _ _ _ H2) as [(op & e3 & -> & H3) | (x & e3 & -> & H3 & Hx)].
  2: { destruct (discard_eq cx EAborted e3 _ _ _ _ _ H3) as (ok & e4 & -> & H4).
       eapply ends_hist; [exact H4 |]. by apply end_no_prepared. }
  destruct (bool_decide_reflect (op = OpPrepared)) as [-> | Hop]; cbn [negb].
  2: { destruct (discard_eq cx EAborted e3 _ _ _ _ _ H3) as (ok & e4 & -> & H4).
       eapply ends_hist; [exact H4 |]. apply (end_no_prepared [op]). unfold short. cbn. lia. }
  edestruct (remote_eq i OpPrepared e3) as (e4 & -> & H4); [exact H3 | tx_eval |].
  apply (hist_publish i OpPrepared) in H4.
  destruct (request_eq cx MarkCommit _ _ _ _ _ _ H4) as ([] & e5 & -> & H5).
  2: { eapply ends_hist; [eapply abort_local_eq, e_publish_eq, H5 |]. apply end_mark_failed. }
  edestruct (local_eq LCommit EAborted e5) as (e6 & -> & H6); [exact H5 | tx_eval |].
  apply (hist_publish i OpCommit) in H6. apply drive_commit_ends. rewrite H6. done.
Qed.

Lemma drive_ends i phone peer oob e t :
  hist e = (t, [], [], [], false) -> ends (drive_pair_transaction (Some i) phone peer oob e).
Proof.
  intros H. unfold drive_pair_transaction, wait_for_operation.
  assert (H0 : hist (set_tx (Transaction_new i Coordinator) e) = (Transaction_new i Coordinator, [], [], [], false)).
  { unfold hist in *. cbn. congruence. }
  set (cx := mkContext i _ phone peer). apply (hist_publish i OpCapability) in H0.
  destruct (wait_cases i PAIR_CAPABILITY_TIMEOUT _ _ _ _ _ _ H0) as [(op & e1 & -> & H1) | (x & e1 & -> & H1 & Hx)].
  2: { eapply ends_hist; [exact H1 |]. by apply end_no_capability. }
  destruct (bool_decide_reflect (op = OpCapability)) as [-> | Hop]; cbn [negb].
  2: { eapply ends_hist; [exact H1 |]. apply (end_no_capability [op]). unfold short. cbn. lia. }
  edestruct (remote_eq i OpCapability e1) as (e2 & -> & H2); [exact H1 | tx_eval |].
  edestruct (local_eq LCapability EAborted e2) as (e3 & -> & H3); [exact H2 | tx_eval |].
  edestruct (local_eq LVerifiedExchange EAborted e3) as (e4 & -> & H4); [exact H3 | tx_eval |].
  rewrite <- (remember_eq i), <- hist_await in H4. destruct oob; cbn [negb].
  2: { eapply ends_hist; [eapply abort_local_eq, e_publish_eq, H4 |]. apply end_rejected. }
  edestruct (local_eq LConfirm EAborted (await (remember i e4))) as (e5 & -> & H5); [exact H4 | tx_eval |].
  apply (hist_publish i OpConfirm) in H5.
  destruct (wait_cases i PAIR_MESSAGE_TIMEOUT _ _ _ _ _ _ H5) as [(op & e6 & -> & H6) | (x & e6 & -> & H6 & Hx)].
  2: { eapply ends_hist; [exact H6 |]. by apply end_no_confirm. }
  destruct (bool_decide_reflect (op = OpConfirm)) as [-> | Hop]; cbn [negb].
  2: { eapply ends_hist; [exact H6 |]. apply (end_no_confirm [op]). unfold short. cbn. lia. }
  edestruct (remote_eq i OpConfirm e6) as (e7 & -> & H7); [exact H6 | tx_eval |].
  apply drive_prepare_ends. rewrite H7. done.
Qed.

(** ** What an attempt does to the daemon *)

Section invariant.
(** A property of the daemon that is kept by every request of the attempt of
    [phone], and by revocations, but for the phases that are [exempt]. *)
Context (I : HState -> Prop) (exempt : PairCommitPhase -> Prop) (phone : list Z).
Hypothesis I_kept : forall rq h,
  ~ exempt (rq_phase rq) -> rq_phase rq = Revoke \/ rq_phone_pubkey rq = phone -> I h -> I (handle rq h).2.
Hypothesis revoke_kept : ~ exempt Revoke.
Context (exempt_dec : forall ph, Decision (exempt ph)).

Definition safe (e : Engine) : Prop :=
  (exists ph ok, exempt ph /\ In (ph, ok) (requests e)) \/ I (handler e).

Lemma safe_same e e' : requests e' = requests e -> handler e' = handler e -> safe e -> safe e'.
Proof. unfold safe. by intros -> ->. Qed.

Lemma safe_control_frame b f e : safe e -> safe (control_frame b f e).
Proof.
  unfold control_frame, safe. destruct (Message_decode f); [case_bool_decide; [destruct b |] |]; cbn; try done.
  intros [Hs | Hs]; [by left | right]. apply I_kept; auto.
Qed.

Lemma safe_accesses l e : safe e -> safe (foldl (fun e a => serve a e) e l).
Proof.
  revert e. induction l as [|[payload room|o] l IH]; intros e He; [done | |]; cbn; apply IH.
  - generalize (imap pair (frame_control_payload payload)). intros fs. revert e He.
    induction fs as [|f fs IHf]; intros e He; [done |]. cbn. by apply IHf, safe_control_frame.
  - by apply (safe_same e).
Qed.

Lemma safe_pause t l e : safe e -> safe (pause t l e).
Proof. intros He. unfold pause. apply safe_accesses. by apply (safe_same e). Qed.

Lemma safe_await e : safe e -> safe (await e).
Proof. unfold await. destruct (ticks e); [done |]. apply safe_pause. Qed.

Lemma safe_publish i op e : safe e -> safe (e_publish i op e).
Proof. by apply safe_same. Qed.

Lemma safe_publish_paced i op e : safe e -> safe (publish_paced i op e).
Proof.
  intros He. unfold publish_paced. apply safe_publish. generalize (now e + PAIR_STATUS_READ_TIMEOUT). intros dl.
  generalize (ticks e). intros l. revert e He. induction l as [|t l IH]; intros e He; cbn;
    destruct (negb _); try done; destruct (_ <=? _); try done. by apply IH, safe_pause.
Qed.

Lemma safe_wait i dl l e : safe e -> safe (wait_from i dl l e).2.
Proof.
  revert e. induction l as [|t l IH]; intros e He; cbn [wait_from]; unfold take_message;
    destruct (take_from i (sv_inbox (svc e))) as [[op rest]|];
    try (destruct (is_abort_op op); by apply (safe_same e));
    destruct (dl <=? now e); try done. by apply IH, safe_pause.
Qed.

Lemma safe_remote i op e : safe e -> safe (apply_remote i op e).2.
Proof. unfold apply_remote. destruct (Transaction_remote _ _). by apply safe_same. Qed.

Lemma safe_local ev err e : safe e -> safe (apply_local ev err e).2.
Proof. unfold apply_local. destruct (Transaction_local _ _). by apply safe_same. Qed.

Lemma safe_abort_local i ev e : safe e -> safe (abort_local i ev e).
Proof. intros He. apply (safe_same (apply_local ev EAborted e).2); [done | done |]. by apply safe_local. Qed.

Lemma safe_request cx ph e : cx_phone_pubkey cx = phone -> safe e -> safe (commit_request cx ph e).2.
Proof.
  intros Hcx. unfold commit_request. destruct (handle _ (handler e)) as [ok h] eqn:Eh. cbn. intros He.
  destruct (decide (exempt ph)) as [Hex | Hne].
  { left. exists ph, ok. split; [done |]. cbn. apply in_or_app. right. by left. }
  assert (Hs : safe (set_handler h e)).
  { destruct He as [He | He]; [by left | right]. cbn. replace h with (handle (mkRequest ph
      (cx_transaction_id cx) (cx_phone_pubkey cx) (cx_host_pubkey cx) (cx_peer cx)) (handler e)).2 by (by rewrite Eh).
    apply I_kept; auto. }
  apply safe_await in Hs. destruct Hs as [(ph' & ok' & Hex & Hin) | Hi]; [left | by right].
  exists ph', ok'. split; [done |]. cbn. apply in_or_app. by left.
Qed.

Lemma safe_remember i e : safe e -> safe (remember i e).
Proof. by apply safe_same. Qed.

Lemma safe_discard cx err e : cx_phone_pubkey cx = phone -> safe e -> safe (abort_with_discard cx err e).2.
Proof.
  intros Hcx He. unfold abort_with_discard. cbv zeta.
  pose proof (safe_request cx Discard (abort_local (cx_transaction_id cx) (LAbort OpError)
    (e_publish (cx_transaction_id cx) OpError e))) as H.
  destruct (commit_request _ _ _). apply H; [done |]. by apply safe_abort_local, safe_publish.
Qed.

(** A step of the driver from a safe state ends in one. *)
Lemma safe_split {A} (m : A * Engine) : safe m.2 -> exists r e', m = (r, e') /\ safe e'.
Proof. destruct m as [r e']. eauto. Qed.

Lemma safe_within i b e : safe e -> safe (wait_for_operation_within i b e).2.
Proof. apply safe_wait. Qed.

Lemma safe_drive_commit cx e : cx_phone_pubkey cx = phone -> safe e -> safe (drive_commit cx e).2.
Proof.
  intros Hcx He. unfold drive_commit, wait_for_operation. set (i := cx_transaction_id cx).
  destruct (safe_split _ (safe_within i PAIR_MESSAGE_TIMEOUT e He)) as (r1 & e1 & -> & S1).
  destruct r1 as [op|err]; [| by apply safe_discard].
  destruct (negb _); [by apply safe_discard |].
  destruct (safe_split _ (safe_remote i op e1 S1)) as ([u|err] & e2 & -> & S2); [| done].
  destruct (safe_split _ (safe_within i PAIR_MESSAGE_TIMEOUT _ (safe_publish_paced i OpCommitted _ (safe_remember i _ S2))))
    as (r3 & e3 & -> & S3).
  assert (Hd : safe (abort_local i LDisconnected e3)) by (by apply safe_abort_local).
  destruct r3 as [[]|]; try exact Hd.
  destruct (safe_split _ (safe_remote i OpCommitted e3 S3)) as ([u'|err] & e4 & -> & S4); [| done].
  destruct (safe_split _ (safe_request cx Promote e4 Hcx S4)) as ([] & e5 & -> & S5); [| by apply safe_abort_local].
  destruct (safe_split _ (safe_local LCommitted EUncertain e5 S5)) as ([u''|err] & e6 & -> & S6); [| done].
  apply (safe_same (await (remember i e6))); [done | done |]. by apply safe_await, safe_remember.
Qed.

Lemma safe_drive_prepare cx e : cx_phone_pubkey cx = phone -> safe e -> safe (drive_prepare cx e).2.
Proof.
  intros Hcx He. unfold drive_prepare, wait_for_operation. set (i := cx_transaction_id cx).
  destruct (safe_split _ (safe_request cx Stage e Hcx He)) as ([] & e1 & -> & S1);
    [| by apply safe_abort_local, safe_publish].
  destruct (safe_split _ (safe_local LPrepared EAborted e1 S1)) as ([u|err] & e2 & -> & S2); [| done].
  destruct (safe_split _ (safe_within i PAIR_MESSAGE_TIMEOUT e2 S2)) as (r3 & e3 & -> & S3).
  destruct r3 as [op|err]; [| by apply safe_discard].
  destruct (negb _); [by apply safe_discard |].
  destruct (safe_split _ (safe_remote i op e3 S3)) as ([u'|err] & e4 & -> & S4); [| done].
  destruct (safe_split _ (safe_request cx MarkCommit _ Hcx (safe_publish_paced i OpPrepared e4 S4)))
    as ([] & e5 & -> & S5); [| by apply safe_abort_local, safe_publish].
  destruct (safe_split _ (safe_local LCommit EAborted e5 S5)) as ([u''|err] & e6 & -> & S6); [| done].
  apply safe_drive_commit; [done |]. by apply safe_publish_paced.
Qed.

Lemma safe_drive i peer oob e : safe e -> safe (drive_pair_transaction i phone peer oob e).2.
Proof.
  intros He. unfold drive_pair_transaction, wait_for_operation.
  destruct i as [i|]; [| done]. set (e0 := set_tx _ e). set (cx := mkContext i _ phone peer).
  assert (S0 : safe e0) by (by apply (safe_same e)). apply (safe_publish_paced i OpCapability) in S0.
  destruct (safe_split _ (safe_within i PAIR_CAPABILITY_TIMEOUT _ S0))
    as ([op|err] & e1 & -> & S1); [| done].
  destruct (negb _); [done |].
  destruct (safe_split _ (safe_remote i op e1 S1)) as ([u|err] & e2 & -> & S2); [| done].
  destruct (safe_split _ (safe_local LCapability EAborted e2 S2)) as ([u1|err] & e3 & -> & S3); [| done].
  destruct (safe_split _ (safe_local LVerifiedExchange EAborted e3 S3)) as ([u2|err] & e4 & -> & S4); [| done].
  apply (safe_remember i), safe_await in S4. destruct (negb oob); [by apply safe_abort_local, safe_publish |].
  destruct (safe_split _ (safe_local LConfirm EAborted _ S4)) as ([u3|err] & e5 & -> & S5); [| done].
  apply (safe_publish_paced i OpConfirm) in S5.
  destruct (safe_split _ (safe_within i PAIR_MESSAGE_TIMEOUT _ S5))
    as ([op'|err] & e6 & -> & S6); [| done].
  destruct (negb _); [done |].
  destruct (safe_split _ (safe_remote i op' e6 S6)) as ([u4|err] & e7 & -> & S7); [| done].
  by apply safe_drive_prepare.
Qed.
End invariant.

End engine.

(** ** The inbox *)

(** [take_message] removes the oldest frame of the transaction and keeps the
    others in order. *)
Lemma take_from_spec i inbox :
  match take_from i inbox with
  | Some (op, rest) =>
      exists before bytes after,
        inbox = before ++ bytes :: after /\ rest = before ++ after /\
        Message_decode bytes = Ok (mkMessage i op) /\
        forall b m, In b before -> Message_decode b = Ok m -> m_transaction m <> i
  | None => forall b m, In b inbox -> Message_decode b = Ok m -> m_transaction m <> i
  end.
Proof.
  induction inbox as [|b inbox IH]; [by intros ? ? [] |]. cbn [take_from].
  destruct (Message_decode b) as [m|] eqn:Eb; [case_bool_decide as Hm |].
  - exists [], b, inbox. subst i. split_and!; [done | done | by destruct m | by intros ? ? []].
  - destruct (take_from i inbox) as [[op rest]|]; cbn.
    + destruct IH as (be & by' & af & -> & -> & Hd & Hb). exists (b :: be), by', af. split_and!; try done.
      intros b' m' [<- | Hin]; [congruence | by apply Hb].
    + intros b' m' [<- | Hin]; [congruence | by apply IH].
  - destruct (take_from i inbox) as [[op rest]|]; cbn.
    + destruct IH as (be & by' & af & -> & -> & Hd & Hb). exists (b :: be), by', af. split_and!; try done.
      intros b' m' [<- | Hin]; [congruence | by apply Hb].
    + intros b' m' [<- | Hin]; [congruence | by apply IH].
Qed.

(** Bytes that decode as a status frame never enter the inbox. *)
Lemma accept_status_inbox f s :
  is_ok (StatusMessage_decode f) = true -> sv_inbox (accept_control f s) = sv_inbox s.
Proof.
  unfold accept_control. destruct (StatusMessage_decode f) as [q|]; [| done].
  destruct (s_state q), (sv_session s) as [[i st]|]; cbn; try done. by case_bool_decide.
Qed.

(** ** Framing of control writes *)

(** What the phone writes: messages and status frames. *)
Inductive wire_frame := WMessage (m : Message) | WStatus (m : StatusMessage).

Definition wire (f : wire_frame) : list Z :=
  match f with WMessage m => Message_encode m | WStatus m => StatusMessage_encode m end.

Definition frame_transaction (f : wire_frame) : list Z :=
  match f with WMessage m => m_transaction m | WStatus m => s_transaction m end.

Definition frame_typed (f : wire_frame) : Prop :=
  match f with WMessage m => Message_typed m | WStatus m => StatusMessage_typed m end.

(** Bytes 6 and 7 of the id look like the end of a status frame. *)
Definition status_lookalike (i : list Z) : bool :=
  ((byte_at i 6 =? 12) && (byte_at i 7 =? 0)) ||
  ((byte_at i 6 =? 13) && (1 <=? byte_at i 7) && (byte_at i 7 <=? 6)).

Lemma len_drop_wire f rest : drop (length (wire f)) (wire f ++ rest) = rest.
Proof. by rewrite drop_app_length. Qed.

Lemma StatusMessage_decode_tail b :
  is_ok (StatusMessage_decode b) = true ->
  (byte_at b 25 = 12 /\ byte_at b 26 = 0) \/ (byte_at b 25 = 13 /\ 1 <= byte_at b 26 <= 6).
Proof.
  unfold StatusMessage_decode. destruct (_ || _); [done |].
  destruct (Z.eqb_spec (byte_at b 25) 12) as [E|N12].
  { rewrite E. destruct (byte_at b 26); try done. by left. }
  destruct (Z.eqb_spec (byte_at b 25) 13) as [E|N13].
  { rewrite E. destruct (StatusState_decode (byte_at b 26)) as [s|] eqn:Es.
    - apply StatusState_decode_iff in Es. rewrite Es. right. split; [done |]. destruct s; cbn; lia.
    - revert Es. destruct (byte_at b 26); intros Es; [done | ..]; by rewrite Es. }
  intros H. exfalso. revert H N12 N13. destruct (byte_at b 25) as [|p|p]; try done.
  repeat (destruct p as [p|p|]; try done).
Qed.

Lemma wire_head f : frame_typed f -> exists tl, wire f = VERSION :: frame_transaction f ++ tl.
Proof. destruct f as [m|m]; intros _; cbn; eexists; [by unfold Message_encode | by unfold StatusMessage_encode]. Qed.

(** A message followed by a frame of a safe id is not taken for a status frame. *)
Lemma head_frame_message m rest :
  Message_typed m ->
  (rest = [] \/ exists f tl, frame_typed f /\ rest = wire f ++ tl /\ status_lookalike (frame_transaction f) = false) ->
  head_frame (Message_encode m ++ rest) = Some (Message_encode m).
Proof.
  intros Hm Hr. pose proof (len_Message_encode m Hm) as Hl. unfold MESSAGE_LEN in Hl. unfold head_frame.
  assert (Hs : (STATUS_MESSAGE_LEN <=? len (Message_encode m ++ rest)) &&
    is_ok (StatusMessage_decode (slice 0 STATUS_MESSAGE_LEN (Message_encode m ++ rest))) = false).
  { destruct Hr as [-> | (f & tl & Hf & -> & Hsafe)].
    { rewrite app_nil_r, Hl. done. }
    destruct (is_ok (StatusMessage_decode _)) eqn:E; [| apply andb_false_r]. exfalso.
    apply StatusMessage_decode_tail in E.
    destruct (wire_head f Hf) as [tl' Hw]. rewrite Hw in E.
    assert (Ht : len (frame_transaction f) = 16) by (destruct f; [apply Hf | apply Hf]).
    set (l := Message_encode m ++ (VERSION :: frame_transaction f ++ tl') ++ tl) in E.
    assert (Hb : forall k, 0 <= k < 8 -> byte_at (slice 0 STATUS_MESSAGE_LEN l) (19 + k) = byte_at (frame_transaction f) k).
    { intros k Hk. unfold byte_at, slice. cbn [Z.to_nat]. rewrite drop_0, lookup_take_lt by (unfold STATUS_MESSAGE_LEN; lia).
      unfold l. unfold len in *. rewrite lookup_app_r by lia.
      replace (Z.to_nat (19 + k) - length (Message_encode m))%nat with (S (Z.to_nat k)) by lia.
      cbn [app]. rewrite <- app_assoc. change ((?x :: ?y) !! S ?n) with (y !! n).
      by rewrite lookup_app_l by lia. }
    pose proof (Hb 6 ltac:(lia)) as H6. pose proof (Hb 7 ltac:(lia)) as H7.
    change (19 + 6) with 25 in H6. change (19 + 7) with 26 in H7. rewrite H6, H7 in E.
    unfold status_lookalike in Hsafe. destruct E as [[E1 E2] | [E1 E2]]; rewrite E1 in Hsafe; cbn in Hsafe;
      repeat case_bool; done || lia. }
  rewrite Hs, slice_prefix by done. rewrite len_app, Hl, Message_decode_encode by done.
  pose proof (len_nonneg rest). destruct (Z.leb_spec MESSAGE_LEN (18 + len rest)); [done |].
  unfold MESSAGE_LEN in *. lia.
Qed.

Lemma head_frame_status m rest :
  StatusMessage_typed m -> head_frame (StatusMessage_encode m ++ rest) = Some (StatusMessage_encode m).
Proof.
  intros Hm. pose proof (len_StatusMessage_encode m Hm) as Hl. unfold head_frame.
  rewrite slice_prefix by done. rewrite StatusMessage_decode_encode, len_app, Hl by done.
  pose proof (len_nonneg rest). destruct (Z.leb_spec STATUS_MESSAGE_LEN (STATUS_MESSAGE_LEN + len rest)); [done | lia].
Qed.

Lemma frames_exact fs :
  Forall frame_typed fs -> Forall (fun f => status_lookalike (frame_transaction f) = false) fs ->
  forall fuel, (length (concat (map wire fs)) <= fuel)%nat ->
  frames_from fuel (concat (map wire fs)) = map wire fs.
Proof.
  intros Ht Hs. induction fs as [|f fs IH]; intros fuel Hfuel; [by destruct fuel |].
  apply Forall_cons in Ht as [Hf Ht], Hs as [Hsf Hs]. cbn [map concat] in *.
  assert (Hh : head_frame (wire f ++ concat (map wire fs)) = Some (wire f)).
  { destruct f as [m|m]; [| by apply head_frame_status]. apply head_frame_message; [done |].
    destruct fs as [|g fs]; [by left | right]. exists g, (concat (map wire fs)).
    apply Forall_cons in Ht as [Hg _], Hs as [Hsg _]. done. }
  destruct (wire_head f Hf) as [tl Hw]. rewrite length_app in Hfuel.
  destruct fuel as [|fuel]; [rewrite Hw in Hfuel; cbn in Hfuel; lia |]. cbn [frames_from].
  destruct (wire f ++ concat (map wire fs)) as [|x l] eqn:E; [by rewrite Hw in E |].
  rewrite Hh, <- E, len_drop_wire. f_equal. apply IH; [done | done |].
  rewrite Hw in Hfuel. cbn in Hfuel. lia.
Qed.

(** ** Properties *)

Section properties.
Context `{CH : CommitHandler}.

(** An engine at the start of an attempt, in any environment. *)
Definition engine_at (s : PairServiceState) (n : Z) (l : list tick) (h : HState) : Engine :=
  mkEngine s (Transaction_new [] Coordinator) n l h [] [] [] false.

(** Every attempt ends in one of ten ways, whatever the peer writes and
    reads, whenever deadlines pass and whatever the daemon answers; each way
    fixes the result, the phase, the messages published, the messages taken from
    the inbox and the durable actions requested with their answers (relation
    [ending]).  In particular the driver never leaves through a refused
    transition. *)
Theorem attempt_endings i phone peer oob s n l h :
  ends (run_pair_attempt (Some i) phone peer oob (engine_at s n l h)).
Proof. unfold run_pair_attempt. by apply (drive_ends i phone peer oob _ (Transaction_new [] Coordinator)). Qed.

(** Trust is only ever promoted at the end of a complete exchange: if an
    attempt asks the daemon to promote, then before that staging and the commit
    mark were requested once each and both answered yes, and the phone's
    capability, confirmation, preparation, acknowledgement and commit report for
    this transaction had all been received, in this order. *)
Theorem promote_needs_full_exchange i phone peer oob s n l h ok :
  let e := (run_pair_attempt (Some i) phone peer oob (engine_at s n l h)).2 in
  In (Promote, ok) (requests e) ->
  requests e = [(Stage, true); (MarkCommit, true); (Promote, ok)] /\
  received e = [OpCapability; OpConfirm; OpPrepared; OpCommitAck; OpCommitted].
Proof.
  intros e. unfold e. pose proof (drive_ends i phone peer oob (set_svc (begin_session s) (engine_at s n l h)) _ eq_refl) as He.
  unfold run_pair_attempt. cbn [svc engine_at]. destruct (drive_pair_transaction _ _ _ _ _) as [r e'].
  unfold ends in He. cbn [fst snd] in *. intros Hin. revert Hin.
  inversion He; cbn; intros Hin; repeat (destruct Hin as [Hin | Hin]; [try discriminate Hin |]); try done; by injection Hin as <-.
Qed.

(** An attempt that asked for no promotion cannot have created trust: any
    property of the daemon's state that every other request keeps still holds
    after the attempt, on every environment. *)
Theorem no_trust_without_promote (I : HState -> Prop) i phone peer oob s n l h :
  (forall rq h, rq_phase rq <> Promote -> I h -> I (handle rq h).2) -> I h ->
  let e := (run_pair_attempt i phone peer oob (engine_at s n l h)).2 in
  (forall ok, ~ In (Promote, ok) (requests e)) -> I (handler e).
Proof.
  intros HI Hh e Hno. unfold e in *.
  destruct (safe_drive I (eq Promote) phone (fun rq h Hp _ => HI rq h (not_eq_sym Hp)) ltac:(done) _
    i peer oob (set_svc (begin_session s) (engine_at s n l h))) as [(ph & ok & <- & Hin) | H];
    [by right | by apply Hno in Hin | exact H].
Qed.

(** When the phone does not acknowledge a published COMMIT in time, the
    engine asks the daemon to discard the staged bond and reports an abort,
    although its transaction is [Uncertain] and the phone may have committed. *)
Theorem unacknowledged_commit_discards i phone peer oob s n l h :
  let x := run_pair_attempt (Some i) phone peer oob (engine_at s n l h) in
  In OpCommit (published x.2) -> ~ In OpCommitAck (received x.2) ->
  x.1 = Err EAborted /\ phase (tx x.2) = Uncertain /\
  exists ok, requests x.2 = [(Stage, true); (MarkCommit, true); (Discard, ok)].
Proof.
  cbv zeta. pose proof (drive_ends i phone peer oob (set_svc (begin_session s) (engine_at s n l h)) _ eq_refl) as He.
  unfold run_pair_attempt. cbn [svc engine_at]. destruct (drive_pair_transaction _ _ _ _ _) as [r e].
  unfold ends in He. cbn [fst snd] in *.
  inversion He as [x| |x| |x ok| |x ok|x| |]; cbn; intros Hc Ha;
    try (exfalso; repeat (destruct Hc as [Hc | Hc]; [discriminate Hc |]); exact Hc);
    try (exfalso; apply Ha; tauto). split_and!; [done | done | by exists ok].
Qed.

(** The inbox is first-in first-out per transaction: [take_message] returns
    the oldest decodable frame of its own transaction and leaves every other
    frame in place and in order; frames of other transactions and undecodable
    bytes are never returned. *)
Theorem take_message_fifo i s :
  match take_message i s with
  | (Some op, s') =>
      exists before bytes after,
        sv_inbox s = before ++ bytes :: after /\ sv_inbox s' = before ++ after /\
        Message_decode bytes = Ok (mkMessage i op) /\
        forall b m, In b before -> Message_decode b = Ok m -> m_transaction m <> i
  | (None, s') =>
      s' = s /\ forall b m, In b (sv_inbox s) -> Message_decode b = Ok m -> m_transaction m <> i
  end.
Proof.
  unfold take_message. pose proof (take_from_spec i (sv_inbox s)) as Ht.
  destruct (take_from i (sv_inbox s)) as [[op rest]|]; [exact Ht | by split].
Qed.

(** Coalesced writes are split exactly: a payload that concatenates any
    number of messages and status frames is framed as those frames, in order,
    provided no transaction id carries the bytes of a status trailer at
    positions 6 and 7. *)
Theorem framing_exact fs :
  Forall frame_typed fs -> Forall (fun f => status_lookalike (frame_transaction f) = false) fs ->
  frame_control_payload (concat (map wire fs)) = map wire fs.
Proof. intros Ht Hs. unfold frame_control_payload. by apply frames_exact. Qed.

Definition lookalike_id : list Z := [1;2;3;4;5;6;12;0;9;10;11;12;13;14;15;16].

(** The proviso is needed: for a transaction id with 12, 0 at positions 6
    and 7, any two coalesced messages are framed as one status frame, so that
    neither of them reaches the inbox. *)
Theorem framing_lookalike_loses o1 o2 s :
  let payload := Message_encode (mkMessage lookalike_id o1) ++ Message_encode (mkMessage lookalike_id o2) in
  exists f, frame_control_payload payload = [f] /\ sv_inbox (accept_control f s) = sv_inbox s.
Proof.
  exists (slice 0 27 (Message_encode (mkMessage lookalike_id o1) ++ Message_encode (mkMessage lookalike_id o2))).
  split; [destruct o1, o2; vm_compute; reflexivity |]. apply accept_status_inbox.
  destruct o1, o2; vm_compute; reflexivity.
Qed.

(** A published message is not overwritten before the phone read it, unless
    the phone had ten seconds to read it: when [publish_paced] stops waiting, the
    register has been read, or the deadline has passed, or the environment has
    nothing more to offer. *)
Theorem publish_paced_waits e :
  let e' := pace (now e + PAIR_STATUS_READ_TIMEOUT) (ticks e) e in
  sv_unread (svc e') = false \/ now e + PAIR_STATUS_READ_TIMEOUT <= now e' \/ ticks e' = [].
Proof.
  cbv zeta. generalize (now e + PAIR_STATUS_READ_TIMEOUT). intros dl.
  assert (Hp : forall t l e, ticks (pause t l e) = l).
  { intros t l e0. unfold pause. change l with (ticks (set_clock (now e0 + elapsed t) l e0)) at 2.
    generalize (set_clock (now e0 + elapsed t) l e0). clear. induction (accesses t) as [|a l IH]; intros e; [done |].
    cbn. rewrite IH. destruct a as [payload room|o]; [| done]. cbn. generalize (imap pair (frame_control_payload payload)).
    intros fs. revert e. induction fs as [|f fs IHf]; intros e; [done |]. cbn. rewrite IHf.
    unfold control_frame. destruct (Message_decode f.2); [case_bool_decide; [destruct (room f.1) |] |]; done. }
  assert (Hg : forall l e, ticks e = l -> let e' := pace dl l e in
    sv_unread (svc e') = false \/ dl <= now e' \/ ticks e' = []); [| by apply Hg].
  induction l as [|t l IH]; intros e0 Hl; cbn; destruct (sv_unread (svc e0)) eqn:Eu; cbn; auto;
    destruct (Z.leb_spec dl (now e0)); auto.
Qed.

(** The host name the phone reads is bounded and never empty: one version
    byte and at most 128 bytes of display name, whatever the configured name. *)
Theorem host_name_payload_bounds name :
  exists display, host_name_payload name = 1 :: display /\ 0 < len display <= 128.
Proof.
  unfold host_name_payload. set (l := List.filter _ _).
  assert (Hpop : forall fuel x, (length x <= fuel)%nat -> len (utf8_bytes (pop_to 128 fuel x)) <= 128).
  { induction fuel as [|fuel IH]; intros x Hx; cbn [pop_to];
      [destruct x; cbn in *; [unfold len; cbn; lia | lia] |].
    destruct (Z.gtb_spec (len (utf8_bytes x)) 128); [| lia].
    apply IH. destruct x as [|c x]; [cbn; lia |]. rewrite (removelast_firstn_len (c :: x)), length_take. cbn in *. lia. }
  specialize (Hpop (length l) l (le_n _)). destruct (pop_to 128 (length l) l) as [|c x] eqn:E.
  - eexists. split; [reflexivity |]. vm_compute. split; [reflexivity | discriminate].
  - eexists. split; [reflexivity |]. split; [| exact Hpop]. unfold utf8_bytes. cbn [map concat].
    rewrite len_app. pose proof (len_nonneg (concat (map utf8_char x))).
    assert (0 < len (utf8_char c)); [| lia]. unfold utf8_char. repeat case_bool; unfold len; cbn; lia.
Qed.

End properties.

(** ** The properties on concrete sessions *)

Module ToyDaemon.

(** A daemon that remembers what it was asked and always answers yes. *)
#[export] Instance toy_handler : CommitHandler := {|
  HState := list PairCommitPhase;
  handle rq h := (true, h ++ [rq_phase rq]);
|}.

End ToyDaemon.

Import ToyDaemon.

Definition burst (ops : list Operation) : tick :=
  mkTick 50 [ControlWrite (concat (map (fun o => Message_encode (mkMessage sample_id o)) ops)) (fun _ => true)].

Definition session_ticks (ops : list Operation) : list tick :=
  burst ops :: replicate 12 (mkTick 50 [StatusRead 0]).

Definition sample_service : PairServiceState := PairServiceState_new (replicate 32 5) [1; 80].

Notation sample_attempt ops :=
  (run_pair_attempt (CH := toy_handler) (Some sample_id) (replicate 32 7) [] true
    (engine_at (CH := toy_handler) sample_service 0 (session_ticks ops) [])).

Definition phone_ops : list Operation := [OpCapability; OpConfirm; OpPrepared; OpCommitAck; OpCommitted].

Lemma promote_needs_full_exchange_witness :
  received (sample_attempt phone_ops).2 = phone_ops.
Proof.
  refine (proj2 (promote_needs_full_exchange sample_id (replicate 32 7) [] true sample_service 0
    (session_ticks phone_ops) [] true _)).
  vm_compute. auto.
Defined.

Lemma no_trust_without_promote_witness :
  ~ In Promote (handler (sample_attempt [OpCapability; OpConfirm]).2 : list PairCommitPhase).
Proof.
  apply (no_trust_without_promote (CH := toy_handler) (fun h : list PairCommitPhase => ~ In Promote h) (Some sample_id) (replicate 32 7) [] true
    sample_service 0 (session_ticks [OpCapability; OpConfirm]) []).
  - intros rq h Hp Hh Hin. cbn in Hin. apply in_app_or in Hin as [Hin | [Hin | []]]; [by apply Hh | congruence].
  - by intros [].
  - intros ok Hin. vm_compute in Hin. repeat (destruct Hin as [Hin | Hin]; [discriminate Hin |]). exact Hin.
Defined.

Lemma unacknowledged_commit_discards_witness :
  (sample_attempt [OpCapability; OpConfirm; OpPrepared]).1 = Err EAborted /\
  phase (tx (sample_attempt [OpCapability; OpConfirm; OpPrepared]).2) = Uncertain.
Proof.
  assert (Hc : In OpCommit (published (sample_attempt [OpCapability; OpConfirm; OpPrepared]).2)).
  { replace (published _) with [OpCapability; OpConfirm; OpPrepared; OpCommit; OpError] by (vm_compute; reflexivity).
    cbn. tauto. }
  assert (Ha : ~ In OpCommitAck (received (sample_attempt [OpCapability; OpConfirm; OpPrepared]).2)).
  { replace (received _) with [OpCapability; OpConfirm; OpPrepared] by (vm_compute; reflexivity).
    intros Hin. cbn in Hin. repeat (destruct Hin as [Hin | Hin]; [discriminate Hin |]). exact Hin. }
  destruct (unacknowledged_commit_discards (CH := toy_handler) sample_id (replicate 32 7) [] true sample_service 0
    (session_ticks [OpCapability; OpConfirm; OpPrepared]) [] Hc Ha) as (Hr & Hp & _).
  exact (conj Hr Hp).
Defined.

Lemma framing_exact_witness :
  frame_control_payload (concat (map wire [WMessage (mkMessage sample_id OpConfirm);
    WStatus sample_status; WMessage (mkMessage sample_id OpPrepared)])) =
  map wire [WMessage (mkMessage sample_id OpConfirm); WStatus sample_status; WMessage (mkMessage sample_id OpPrepared)].
Proof.
  apply framing_exact; repeat constructor; cbn; try decide_now; try (unfold is_u64; lia).
Defined.
