(* ===== verification/PairCommit.v ===== *)
(** * The daemon's side of the commit boundary

    Models the commit consumer of crates/syauth-presenced/src/runtime.rs
    ([pair_commit_consumer], [stage_pair_trust], [revoke_bond_by_peer_id],
    [bond_dir_has_a_bonded_peer]) on the file system of Fs.v, and makes it the
    [CommitHandler] of the pair engine.  The theorems follow one attempt from the
    radio to the disk: which peers can be trusted after it. *)

From stdpp Require Import prelude list gmap strings.
From Stdlib Require Import ZArith Lia.
From S2P Require Import Prelude WireFrame Fs Bond PairRecovery PairTransaction PairEngine.

(** What the consumer gets from outside: BlueZ's name of a device, the clock,
    [hex::encode]. *)
Class DaemonEnv `{Chrono} := {
  peer_display_name : str -> option str;
  now_utc : OffsetDateTime;
  hex_encode : list Z -> str;
}.

Section consumer.
Context `{B3 : Blake3, HK : Hkdf, CH : Chrono, TM : Toml, UM : Umask, TF : Tempfile, !DaemonEnv}.
Context (bond_dir : path).

(** The daemon process: its disk, whether it is still running, the reloads it
    sent to the orchestrator, whether it raised SIGTERM. *)
Record Daemon := mkDaemon {
  d_world : world;
  d_alive : bool;
  d_reloads : nat;
  d_sigterm : bool;
}.

(** [Err(String)]: the text of an error is not modelled. *)
Definition stage_pair_trust (rq : PairCommitRequest) (id : str) : io (result unit unit) :=
  let bond_key := bond_key_from_pubkeys (rq_host_pubkey rq) (rq_phone_pubkey rq) in
  let n := default (rq_peer rq) (peer_display_name (rq_peer rq)) in
  let bond := mkBond id (rq_phone_pubkey rq) n now_utc StBonded in
  imap_err (fun _ => tt) (stage bond_dir (rq_transaction rq) id (rq_peer rq) bond bond_key).

Definition dissociated : str := lit "phone: device dissociated".

Definition revoke_bond_by_peer_id (id : str) : io (result unit unit) :=
  let p := bonds_path bond_dir in
  let!? store := imap_err (fun _ => tt) (BondStore_load p) in
  if negb (existsb (fun b => bool_decide (peer_id b = id)) (BondStore_list store)) then iret (Err tt)
  else
    let '(store, r) := BondStore_mark_revoked store id dissociated in
    let!? _ := imap_err (fun _ => tt) (iret r) in
    let!? _ := imap_err (fun _ => tt) (BondStore_save store p) in
    let! _ := fs_remove_file (active_key_path bond_dir id) in
    iret (Ok tt).

Definition bond_dir_has_a_bonded_peer : io bool :=
  let! r := BondStore_load (bonds_path bond_dir) in
  iret match r with
       | Ok store => existsb (fun b => bool_decide (status b = StBonded)) (BondStore_list store)
       | Err _ => false
       end.

(** The durable action of a request; the flag tells that SIGTERM is raised. *)
Definition commit_action (rq : PairCommitRequest) : io (result unit unit * bool) :=
  let id := peer_id_from_pubkey (rq_phone_pubkey rq) in
  match rq_phase rq with
  | Stage => let! r := stage_pair_trust rq id in iret (r, false)
  | MarkCommit => let! r := imap_err (fun _ => tt) (mark_commit_pending bond_dir) in iret (r, false)
  | Promote => let! r := imap_err (fun _ => tt) (promote bond_dir id) in iret (r, false)
  | Discard => let! _ := discard bond_dir id in iret (Ok tt, false)
  | Revoke =>
      let! r := revoke_bond_by_peer_id (hex_encode (rq_transaction rq)) in
      match r with
      | Ok _ => let! some := bond_dir_has_a_bonded_peer in iret (Ok tt, negb some)
      | Err _ => iret (Err tt, false)
      end
  end.

(** One turn of [pair_commit_consumer]. A process that died answers no more. *)
Definition pair_commit_consumer (rq : PairCommitRequest) (d : Daemon) : bool * Daemon :=
  if negb (d_alive d) then (false, d)
  else
    match commit_action rq (d_world d) with
    | (Ret (Ok _, term), w) =>
        let reloads := if bool_decide (rq_phase rq = Promote) then S (d_reloads d) else d_reloads d in
        (true, mkDaemon w true reloads (d_sigterm d || term))
    | (Ret (Err _, term), w) => (false, mkDaemon w true (d_reloads d) (d_sigterm d || term))
    | (Killed, w) | (Panicked, w) => (false, mkDaemon w false (d_reloads d) (d_sigterm d))
    end.

#[local] Instance daemon_handler : CommitHandler := {|
  HState := Daemon;
  handle := pair_commit_consumer;
|}.

(** ** Trust *)

(** The bonds file lists the peer as bonded. *)
Definition trusted (g : fs) (id : str) : Prop :=
  exists st b, stored (g !! bonds_path bond_dir) st /\ In b (bonds st) /\
    peer_id b = id /\ status b = StBonded.

Definition trusts_at_most (P : str -> Prop) (g : fs) : Prop := forall id, trusted g id -> P id.

Lemma trusted_same (g g' : fs) id :
  g' !! bonds_path bond_dir = g !! bonds_path bond_dir -> trusted g' id -> trusted g id.
Proof. unfold trusted. by intros ->. Qed.

(** What [load] accepts is well formed. *)
Lemma digits_bound s acc b : 0 <= acc <= 255 -> digits_to_u8 acc s = Some b -> is_u8 b.
Proof.
  revert acc. induction s as [|c s IH]; intros acc Hacc; cbn; [intros [= <-]; unfold is_u8; lia |].
  destruct (hex_digit c) as [x|] eqn:E; [| done]. destruct (Z.leb_spec (acc * 16 + x) 255); [| done].
  apply IH. split; [| lia]. unfold hex_digit in E. revert E. repeat case_bool; cbn; try done; intros [= <-]; lia.
Qed.

Lemma radix_bound s b : u8_from_str_radix_16 s = Some b -> is_u8 b.
Proof.
  unfold u8_from_str_radix_16. destruct s as [|c [|c' s]]; [done | |].
  - destruct (_ || _); [done |]. apply digits_bound. lia.
  - destruct (c =? 43); apply digits_bound; lia.
Qed.

Lemma hex_bytes_arr raw k i w l w' :
  hex_bytes raw k i w = (Ret (Ok l), w') -> length l = k /\ bytes_ok l.
Proof.
  revert i w l. induction k as [|k IH]; intros i w l; cbn;
    [intros [= <- <-]; split; [done | constructor] |].
  destruct (str_slice _ _ raw) as [two|]; [| done]. destruct (u8_from_str_radix_16 two) as [b|] eqn:Eb; [| done].
  unfold itry, ibind. destruct (hex_bytes raw k (i + 1) w) as [[[rest|]| |] w1] eqn:E; try done.
  intros [= <- <-]. apply IH in E as [Hl Hb]. cbn. split; [by rewrite Hl |].
  constructor; [by apply radix_bound in Eb | done].
Qed.

Lemma bonds_of_raw_wf l w bs w' :
  bonds_of_raw l w = (Ret (Ok bs), w') -> Forall (fun b => arr PUBKEY_LEN (pubkey b)) bs.
Proof.
  revert w bs w'. induction l as [|r l IH]; intros w bs w'; cbn; [by intros [= <- _]; constructor |].
  unfold bond_of_raw, itry, ibind, hex_pubkey_deserialize.
  destruct (negb _); [done |].
  destruct (hex_bytes (raw_pubkey r) 32 0 w) as [[[k|]| |] w1] eqn:Ek; try done.
  destruct (rfc3339_parse _); [| done]. cbn.
  destruct (bonds_of_raw l w1) as [[[bs'|]| |] w2] eqn:El; try done. intros [= <- _].
  apply hex_bytes_arr in Ek as [Hl Hb]. constructor; [| by eapply IH].
  cbn [pubkey]. split; [unfold PUBKEY_LEN; lia | done].
Qed.

Lemma document_wf raw st : document raw = Ret (Ok st) -> Forall bond_wf (bonds st).
Proof.
  unfold document, load_document, bondfile_from_str, itry, imap_err, ibind.
  destruct (toml_from_str raw) as [f|]; [| done].
  destruct (bonds_of_raw (raw_bonds f) (calm ∅)) as [[[bs|]| |] w] eqn:Eb; cbn; try done.
  destruct (_ >? _); [done |]. destruct (check_peer_ids bs) as [[]|] eqn:Ec; cbn; [| done].
  intros [= <-]. cbn. apply bonds_of_raw_wf in Eb. apply check_peer_ids_ok in Ec.
  apply Forall_forall. intros b Hb. split; [by apply (proj1 (Forall_forall _ _) Eb) |].
  by apply (proj1 (Forall_forall _ _) Ec).
Qed.

Lemma stored_wf n st : stored n st -> Forall bond_wf (bonds st).
Proof.
  unfold stored. destruct n as [[c m|]|]; [| done | intros ->; constructor]. intros [_ Hd]. by apply (document_wf c).
Qed.

Lemma stored_inj n st st' : stored n st -> stored n st' -> st = st'.
Proof. unfold stored. destruct n as [[c m|]|]; [| done | congruence]. intros [_ H1] [_ H2]. congruence. Qed.

(** Replacing the bonds file by the print of a store changes trust to that of
    the store. *)
Lemma trusted_saved `{!TomlLaws TM, !ChronoLaws CH} (g : fs) new bytes m id :
  Forall bond_wf (bonds new) -> serialize_to_toml new = Ok bytes ->
  g !! bonds_path bond_dir = Some (File bytes m) -> trusted g id ->
  exists b, In b (bonds new) /\ peer_id b = id /\ status b = StBonded.
Proof.
  intros Hw Hs Hf (st & b & Hst & Hb). exists b. rewrite Hf in Hst.
  pose proof (saved_stored new bytes m Hw Hs) as Hn. by rewrite (stored_inj _ _ _ Hst Hn) in Hb.
Qed.

(** ** What each request does to trust *)

Lemma touches_commit_action rq :
  rq_phase rq = Stage \/ rq_phase rq = MarkCommit \/ rq_phase rq = Discard ->
  touches (staging bond_dir) (commit_action rq).
Proof.
  unfold commit_action, stage_pair_trust. intros [-> | [-> | ->]];
    (apply touches_bind; [| intros; apply touches_ret]).
  - apply touches_map_err, touches_stage.
  - apply touches_map_err, touches_mark_commit_pending.
  - apply touches_discard.
Qed.

Lemma peer_id_plain `{!Blake3Laws B3} pk : plain (peer_id_from_pubkey pk).
Proof.
  unfold peer_id_from_pubkey. pose proof (blake3_hash_arr pk) as [_ Hb].
  apply (bytes_ok_slice 0 PEER_ID_BLAKE3_BYTES), hex_lowercase_ascii in Hb.
  destruct (hex_lowercase _) as [|c l]; [done |]. apply Forall_cons in Hb as [Hc _].
  destruct c as [|p|p]; try done. repeat (destruct p as [p|p|]; try done). lia.
Qed.

Lemma activate_in active b new x :
  activate active b = Ok new -> In x (bonds new) -> In x (bonds active) \/ x = b.
Proof.
  unfold activate. intros Hact.
  assert (exists a, (forall y, In y (bonds a) -> In y (bonds active)) /\
    (let '(a', r) := BondStore_add a b in let? _ := map_err RBond r in Ok a') = Ok new) as (a & Ha & Hn).
  { destruct (existsb _ _); [| by exists active]. unfold BondStore_remove in Hact.
    destruct (find_index active (peer_id b)) as [i|]; [| done]. eexists. split; [| exact Hact].
    intros y Hy. cbn in Hy. apply list_elem_of_In in Hy. apply list_elem_of_In.
    by apply list_elem_of_delete_inv in Hy. }
  unfold BondStore_add in Hn. destruct (find_index a (peer_id b)); [done |]. injection Hn as <-. cbn.
  intros [Hx | [<- | []]] % in_app_or; auto.
Qed.

Lemma mark_revoked_in st id reason x :
  In x (bonds (BondStore_mark_revoked st id reason).1) ->
  In x (bonds st) \/ Bond_is_revoked x = true.
Proof.
  unfold BondStore_mark_revoked. destruct (find_index st id) as [i|]; [| auto].
  destruct (bonds st !! i) as [b|] eqn:Eb; [| auto]. destruct (Bond_is_revoked b); [auto |]. cbn.
  intros Hx. apply list_elem_of_In, list_elem_of_lookup in Hx as [j Hj].
  destruct (decide (i = j)) as [<- | Hne].
  - rewrite list_lookup_insert_eq in Hj by (by apply lookup_lt_Some in Eb). injection Hj as <-. by right.
  - rewrite list_lookup_insert_ne in Hj by done. left. apply list_elem_of_In. by eapply list_elem_of_lookup_2.
Qed.

Section trust.
Context `{!Blake3Laws B3, !TomlLaws TM, !ChronoLaws CH}.

(** A store [new] only trusts peers the store on disk trusts, or those of [P]. *)
Definition narrows (P : str -> Prop) (g0 : fs) (new : BondStore) : Prop :=
  Forall bond_wf (bonds new) /\
  forall b, In b (bonds new) -> status b = StBonded -> trusted g0 (peer_id b) \/ P (peer_id b).

(** After the bonds file is kept, or replaced by such a store, trust grows by
    [P] at most. *)
Definition bounded (P : str -> Prop) (g0 g : fs) : Prop :=
  g !! bonds_path bond_dir = g0 !! bonds_path bond_dir \/
  exists new bytes, narrows P g0 new /\ serialize_to_toml new = Ok bytes /\
    g !! bonds_path bond_dir = Some (File bytes BOND_FILE_MODE).

Lemma bounded_trusted P g0 g id : bounded P g0 g -> trusted g id -> trusted g0 id \/ P id.
Proof.
  intros [E | (new & bytes & [Hw Hn] & Hs & Hf)] Ht; [left; by eapply trusted_same |].
  destruct (trusted_saved g new bytes BOND_FILE_MODE id Hw Hs Hf Ht) as (b & Hb & <- & Hst). by apply Hn.
Qed.

Lemma promoted_bounded id g0 g : promoted bond_dir id g0 g -> bounded (eq id) g0 g.
Proof.
  intros [_ (staged & b & active & new & bytes & Hst & Hfb & Hact & Hnew & Hser & Hf)].
  right. exists new, bytes. split; [| done]. apply find_bond_in in Hfb as [Hin Hid].
  pose proof (stored_wf _ _ Hst) as Hws. pose proof (stored_wf _ _ Hact) as Hwa. split.
  - apply Forall_forall. intros x Hx. apply list_elem_of_In, (activate_in active b new) in Hx as [Hx | ->]; [| | done].
    + by apply (proj1 (Forall_forall _ _) Hwa), list_elem_of_In.
    + by apply (proj1 (Forall_forall _ _) Hws), list_elem_of_In.
  - intros x Hx Hstat. apply (activate_in active b new) in Hx as [Hx | ->]; [left | by right | done].
    by exists active, x.
Qed.

Lemma revoked_narrows st id new r g0 :
  stored (g0 !! bonds_path bond_dir) st -> BondStore_mark_revoked st id dissociated = (new, r) ->
  narrows (fun _ => False) g0 new.
Proof.
  intros Hst Em. pose proof (stored_wf _ _ Hst) as Hw.
  assert (Hin : forall x, In x (bonds new) -> In x (bonds st) \/ Bond_is_revoked x = true).
  { intros x Hx. apply (mark_revoked_in st id dissociated). by rewrite Em. }
  split.
  - unfold BondStore_mark_revoked in Em. destruct (find_index st id) as [i|]; [| by injection Em as <- _].
    destruct (bonds st !! i) as [b|] eqn:Eb; [| by injection Em as <- _].
    destruct (Bond_is_revoked b); injection Em as <- _; [done |]. cbn. apply Forall_insert; [done |].
    by apply (proj1 (Forall_lookup _ _) Hw i b).
  - intros b Hb Hs. left. destruct (Hin b Hb) as [Hb' | Hr]; [by exists st, b |].
    unfold Bond_is_revoked in Hr. by rewrite Hs in Hr.
Qed.

Lemma revoke_triple id g0 :
  ctriple (eq g0) (revoke_bond_by_peer_id id) (fun _ => bounded (fun _ => False) g0) (bounded (fun _ => False) g0).
Proof.
  assert (H0 : forall g, g0 = g -> bounded (fun _ => False) g0 g) by (intros g <-; by left).
  unfold revoke_bond_by_peer_id.
  eapply (ctriple_try _ _ _ (fun st g => stored (g0 !! bonds_path bond_dir) st /\ g0 = g)).
  { apply ctriple_map_err. eapply ctriple_conseq; [apply (load_triple (eq g0)) | done | | exact H0].
    intros [st|e] g [<- Hst]; cbn; [by auto | by apply H0]. }
  intros st. apply ctriple_pure. intros Hst. unfold BondStore_list.
  destruct (negb _); [by apply ctriple_ret |].
  destruct (BondStore_mark_revoked st id dissociated) as [new r] eqn:Em.
  eapply (ctriple_try _ _ _ (fun _ => eq g0)).
  { apply ctriple_map_err, ctriple_ret. intros g Hg. destruct r; cbn; auto. }
  intros _. eapply (ctriple_try _ _ _ (fun _ => bounded (fun _ => False) g0)).
  { apply ctriple_map_err. eapply ctriple_conseq;
      [apply (save_triple_any new bond_dir BONDS_FILE_NAME (g0 !! bonds_path bond_dir)), bonds_not_tmp_name | by intros g <- | |].
    - intros [u|e] g Hg; cbn; [| by left]. right. destruct Hg as (bytes & Hs & Hf). exists new, bytes.
      split; [| done]. apply (revoked_narrows st id new r); done.
    - intros g [Hg | (bytes & Hs & Hf)]; [by left | right]. exists new, bytes.
      split; [| done]. apply (revoked_narrows st id new r); done. }
  intros _. eapply ctriple_bind; [| intros r'; apply ctriple_ret; intros g Hg; exact Hg].
  apply (ctriple_stable (eq (active_key_path bond_dir id))); [apply touches_remove_file |].
  intros g g' Hg. unfold bounded. rewrite Hg; [done |]. apply join_join_ne.
Qed.


Lemma bounded_weaken (P Q : str -> Prop) g0 g : (forall id, P id -> Q id) -> bounded P g0 g -> bounded Q g0 g.
Proof.
  intros HPQ [E | (new & bytes & [Hw Hn] & Hs)]; [by left | right]. exists new, bytes.
  split; [| done]. split; [done |]. intros b Hb Hst. destruct (Hn b Hb Hst); auto.
Qed.

(** What a request may add to the trusted peers. *)
Definition may_add (rq : PairCommitRequest) (id : str) : Prop :=
  rq_phase rq = Promote /\ peer_id_from_pubkey (rq_phone_pubkey rq) = id.

Lemma action_bounded rq w : bounded (may_add rq) (files w) (files (commit_action rq w).2).
Proof.
  destruct (rq_phase rq) eqn:Ep.
  1, 2, 4: left; apply touches_commit_action; [tauto | apply trust_not_staging; by left].
  - unfold commit_action. rewrite Ep. unfold ibind, imap_err, ibind.
    pose proof (promote_triple bond_dir _ (peer_id_plain (rq_phone_pubkey rq)) (files w) w eq_refl) as Ht.
    assert (Hb : intact bond_dir (peer_id_from_pubkey (rq_phone_pubkey rq)) (files w)
        (files (promote bond_dir (peer_id_from_pubkey (rq_phone_pubkey rq)) w).2) \/
      promoted bond_dir (peer_id_from_pubkey (rq_phone_pubkey rq)) (files w)
        (files (promote bond_dir (peer_id_from_pubkey (rq_phone_pubkey rq)) w).2)).
    { destruct (promote _ _ w) as [[]]; cbn in *; tauto. }
    assert (Hd : bounded (may_add rq) (files w)
      (files (promote bond_dir (peer_id_from_pubkey (rq_phone_pubkey rq)) w).2)).
    { destruct Hb as [[Hb _] | Hb]; [by left |]. apply promoted_bounded in Hb.
      eapply bounded_weaken; [| exact Hb]. unfold may_add. auto. }
    destruct (promote _ _ w) as [[]]; exact Hd.
  - unfold commit_action. rewrite Ep. unfold ibind.
    pose proof (revoke_triple (hex_encode (rq_transaction rq)) (files w) w eq_refl) as Ht.
    assert (Hb : bounded (may_add rq) (files w) (files (revoke_bond_by_peer_id (hex_encode (rq_transaction rq)) w).2)).
    { eapply (bounded_weaken (fun _ => False)); [done |]. by destruct (revoke_bond_by_peer_id _ w) as [[]]. }
    destruct (revoke_bond_by_peer_id _ w) as [[[]| |] w1]; cbn in *; try exact Hb.
    unfold bond_dir_has_a_bonded_peer, ibind.
    pose proof (touches_load (bonds_path bond_dir) w1 (bonds_path bond_dir) ltac:(tauto)) as E.
    destruct (BondStore_load (bonds_path bond_dir) w1) as [[]]; cbn in *; unfold bounded; rewrite E; exact Hb.
Qed.

Lemma consumer_bounded rq d :
  bounded (may_add rq) (files (d_world d)) (files (d_world (pair_commit_consumer rq d).2)).
Proof.
  unfold pair_commit_consumer. destruct (negb (d_alive d)); [by left |].
  pose proof (action_bounded rq (d_world d)) as Hb.
  by destruct (commit_action rq (d_world d)) as [[[[]]| |] w].
Qed.
End trust.
End consumer.

(** ** Revocation *)

Section revocation.
Context `{B3 : Blake3, HK : Hkdf, CH : Chrono, TM : Toml, UM : Umask, TF : Tempfile, !DaemonEnv}.

Lemma view_in (st : BondStore) b : NoDup (ids st) -> In b (bonds st) -> view st !! peer_id b = Some b.
Proof.
  intros Hnd Hb. apply elem_of_list_to_map_1; [by rewrite keyed_fst |].
  unfold keyed. apply list_elem_of_fmap. exists b. split; [done |]. by apply list_elem_of_In.
Qed.

(** After [mark_revoked] the peer, if any, is revoked. *)
Lemma mark_revoked_status st id reason b :
  NoDup (ids st) -> In b (bonds (BondStore_mark_revoked st id reason).1) -> peer_id b = id ->
  Bond_is_revoked b = true.
Proof.
  intros Hnd Hb Hid. destruct (refines_revoke st id reason Hnd) as [Hnd' Hv]. cbn [apply_op spec_op] in *.
  apply (view_in _ _ Hnd') in Hb. rewrite Hid in Hb. destruct (view st !! id) as [c|] eqn:Ec.
  - injection Hv as Hv _. rewrite <- Hv in Hb. destruct (Bond_is_revoked c) eqn:Er; [congruence |].
    rewrite lookup_insert_eq in Hb. by injection Hb as <-.
  - injection Hv as Hv _. congruence.
Qed.

Lemma revoke_ok_triple dir id g0 :
  ctriple (eq g0) (revoke_bond_by_peer_id dir id)
    (fun r g => is_ok r = true -> exists st bytes,
       stored (g0 !! bonds_path dir) st /\
       serialize_to_toml (BondStore_mark_revoked st id dissociated).1 = Ok bytes /\
       g !! bonds_path dir = Some (File bytes BOND_FILE_MODE))
    (fun _ => True).
Proof.
  unfold revoke_bond_by_peer_id.
  eapply (ctriple_try _ _ _ (fun st g => stored (g0 !! bonds_path dir) st /\ g0 = g)).
  { apply ctriple_map_err. eapply ctriple_conseq; [apply (load_triple (eq g0)) | done | | done].
    intros [st|e] g [<- Hst]; cbn; [by auto | done]. }
  intros st. apply ctriple_pure. intros Hst. destruct (negb _); [by apply ctriple_ret |].
  destruct (BondStore_mark_revoked st id dissociated) as [new r] eqn:Em.
  eapply (ctriple_try _ _ _ (fun _ => eq g0)).
  { apply ctriple_map_err, ctriple_ret. intros g Hg. by destruct r. }
  intros _. set (F := fun g : fs => exists bytes, serialize_to_toml new = Ok bytes /\
    g !! bonds_path dir = Some (File bytes BOND_FILE_MODE)).
  eapply (ctriple_try _ _ _ (fun _ => F)).
  { apply ctriple_map_err. eapply ctriple_conseq;
      [apply (save_triple_any new dir BONDS_FILE_NAME (g0 !! bonds_path dir)), bonds_not_tmp_name | by intros g <- | | done].
    intros [u|e] g Hg; cbn; [exact Hg | done]. }
  intros _. eapply (ctriple_bind _ _ _ (fun _ => F)).
  - eapply ctriple_conseq; [apply (ctriple_stable (eq (active_key_path dir id)) F) | done | done | done];
      [apply touches_remove_file |].
    intros g g' Hg. unfold F. rewrite Hg; [done |]. apply join_join_ne.
  - intros r'. apply ctriple_ret. intros g (bytes & Hs & Hf) _. exists st, bytes. by rewrite Em.
Qed.
End revocation.

(** ** Properties *)

Section properties.
Context `{B3 : Blake3, HK : Hkdf, CH : Chrono, TM : Toml, UM : Umask, TF : Tempfile, !DaemonEnv}.
Context `{!Blake3Laws B3, !TomlLaws TM, !ChronoLaws CH}.

(** C5: From the radio to the disk, on every environment and every fault script:
    after a pairing attempt the bonds file trusts only peers it trusted before,
    and possibly the phone of this attempt, and that one only if the engine asked
    for its promotion.  No other phone, no message and no failure can add trust;
    revocations during the attempt can only remove it. *)
Theorem attempt_trusts_only_its_phone dir i phone peer oob s n l d id :
  let e := (run_pair_attempt (CH := daemon_handler dir) i phone peer oob
              (engine_at (CH := daemon_handler dir) s n l d)).2 in
  trusted dir (files (d_world (handler e))) id ->
  trusted dir (files (d_world d)) id \/
  (id = peer_id_from_pubkey phone /\ exists ok, In (Promote, ok) (requests e)).
Proof.
  intros e Ht. unfold e in *. clear e.
  set (start := set_svc (begin_session s) (engine_at (CH := daemon_handler dir) s n l d)).
  set (I1 := fun h : Daemon => forall id, trusted dir (files (d_world h)) id ->
    trusted dir (files (d_world d)) id \/ id = peer_id_from_pubkey phone).
  set (I2 := fun h : Daemon => forall id, trusted dir (files (d_world h)) id -> trusted dir (files (d_world d)) id).
  assert (S1 : safe (CH := daemon_handler dir) I1 (fun _ => False) (drive_pair_transaction i phone peer oob start).2).
  { apply (safe_drive (CH := daemon_handler dir) I1 (fun _ => False) phone); [| tauto | apply _ | right; intros x; by left].
    intros rq h _ Hrq Hh x Hx. destruct (bounded_trusted dir _ _ _ x (consumer_bounded dir rq h) Hx) as [Hy | [Hp <-]];
      [by apply Hh |]. destruct Hrq as [Hr | ->]; [congruence | by right]. }
  assert (S2 : safe (CH := daemon_handler dir) I2 (eq Promote) (drive_pair_transaction i phone peer oob start).2).
  { apply (safe_drive (CH := daemon_handler dir) I2 (eq Promote) phone); [| done | apply _ | right; by intros x].
    intros rq h Hp _ Hh x Hx. destruct (bounded_trusted dir _ _ _ x (consumer_bounded dir rq h) Hx) as [Hy | [Hp' _]];
      [by apply Hh | congruence]. }
  destruct S2 as [(ph & ok & <- & Hin) | H2]; [| left; by apply H2].
  destruct S1 as [(ph & ok' & [] & _) | H1]. destruct (H1 id Ht) as [H0 | ->]; [by left | right].
  split; [done |]. by exists ok.
Qed.

(** A revocation from the phone takes the peer out of trust in every state of
    the disk and on every fault script: if it reports success then the bonds file
    no longer lists that peer as bonded. *)
Theorem revocation_removes_trust dir id w w' :
  (forall st, stored (files w !! bonds_path dir) st -> NoDup (ids st)) ->
  revoke_bond_by_peer_id dir id w = (Ret (Ok tt), w') -> ~ trusted dir (files w') id.
Proof.
  intros Hnd Hr Ht. pose proof (revoke_ok_triple dir id (files w) w eq_refl) as Hok. rewrite Hr in Hok.
  destruct (Hok eq_refl) as (st & bytes & Hst & Hs & Hf).
  destruct (revoked_narrows dir st id _ _ (files w) Hst (surjective_pairing _)) as [Hw _].
  destruct (trusted_saved dir _ _ bytes BOND_FILE_MODE id Hw Hs Hf Ht) as (b & Hb & Hid & Hstat).
  apply (mark_revoked_status st id dissociated b (Hnd st Hst)) in Hb; [| done].
  unfold Bond_is_revoked in Hb. by rewrite Hstat in Hb.
Qed.

End properties.

(** ** The properties on a concrete daemon *)

Import ToyCrypto ToyCrates ToyTempfile.

#[local] Instance toy_env : DaemonEnv := {|
  peer_display_name a := None;
  now_utc := lit "2026-01-01T00:00:00Z";
  hex_encode := hex_lowercase;
|}.

Definition idle_daemon (g : fs) : Daemon := mkDaemon (calm g) true 0 false.

Notation daemon_attempt ops :=
  (run_pair_attempt (CH := daemon_handler sample_dir) (Some sample_id) sample_pubkey sample_addr true
    (engine_at (CH := daemon_handler sample_dir) sample_service 0 (session_ticks ops) (idle_daemon sample_site))).

Definition paired_store : BondStore :=
  mkStore [mkBond (peer_id_from_pubkey sample_pubkey) sample_pubkey sample_addr (lit "2026-01-01T00:00:00Z") StBonded].

Lemma paired_trusted :
  trusted sample_dir (files (d_world (handler (daemon_attempt phone_ops).2))) (peer_id_from_pubkey sample_pubkey).
Proof.
  eexists paired_store, _. split_and!; [| by left | reflexivity | reflexivity]. vm_compute. split; reflexivity.
Qed.

Lemma attempt_trusts_only_its_phone_witness :
  trusted sample_dir sample_site (peer_id_from_pubkey sample_pubkey) \/
  exists ok, In (Promote, ok) (requests (daemon_attempt phone_ops).2).
Proof.
  destruct (attempt_trusts_only_its_phone (Blake3Laws0 := toy_blake3_laws) (TomlLaws0 := toy_toml_laws)
    (ChronoLaws0 := toy_chrono_laws) sample_dir (Some sample_id) sample_pubkey sample_addr true sample_service 0
    (session_ticks phone_ops) (idle_daemon sample_site) (peer_id_from_pubkey sample_pubkey) paired_trusted)
    as [H | [_ H]]; [left; exact H | right; exact H].
Defined.

Definition bonded_site : fs := <[bonds_path sample_dir := File sample_bytes 384]> sample_site.

Lemma bonded_site_stored : stored (bonded_site !! bonds_path sample_dir) sample_store.
Proof. vm_compute. split; reflexivity. Qed.

Lemma revocation_removes_trust_witness :
  ~ trusted sample_dir (files (revoke_bond_by_peer_id sample_dir (peer_id sample_bond) (calm bonded_site)).2)
      (peer_id sample_bond).
Proof.
  apply (revocation_removes_trust (TomlLaws0 := toy_toml_laws) (ChronoLaws0 := toy_chrono_laws)
    sample_dir (peer_id sample_bond) (calm bonded_site)).
  - intros st Hst. rewrite (stored_inj _ _ _ Hst bonded_site_stored). decide_now.
  - vm_compute. reflexivity.
Defined.
