(* ===== verification/Peripheral.v ===== *)
(** * The BLE peripheral the daemon drives

    Models the daemon's view of crates/syauth-transport: the [Peripheral] trait
    and its default methods, [PeripheralError] and the radio-free
    [FakePeripheral] (peripheral.rs), the frames a bonded phone writes
    ([revoke_peer_id], [parse_rssi]), the rotating session UUID and the fragment
    reassembly (bluez.rs).

    The trait is the interface between the transport and the orchestrator: the
    class [Peripheral] with its documented contract [PeripheralLaws].
    [FakePeripheral] discharges the contract here; the production implementation
    over BlueZ, with the radio as a parameter, is in Persistent.v. *)

From stdpp Require Import prelude list gmap strings.
From Stdlib Require Import ZArith Lia.
From S2P Require Import Prelude WireFrame Fs Bond PairRecovery PairTransaction.

(** ** Rotating session UUIDs *)

Definition HKDF_INFO_SESSION_V1 : list Z := lit "syauth-session-v1".
Definition SESSION_UUID_BYTES : Z := 16.

(** [minute.to_be_bytes()] of an [i64] is its two's complement. *)
Definition session_uuid_for `{Hkdf} (bond_key : list Z) (minute : Z) : list Z :=
  let info := HKDF_INFO_SESSION_V1 ++ to_be_bytes 8 minute in
  match hkdf_sha256 None bond_key info SESSION_UUID_BYTES with
  | Some out => out
  | None => replicate (Z.to_nat SESSION_UUID_BYTES) 0
  end.

Definition peer_service_uuid `{Hkdf} (bond_key : list Z) : list Z := session_uuid_for bond_key 0.

Lemma session_uuid_arr `{HK : Hkdf, !HkdfLaws HK} key minute :
  arr SESSION_UUID_BYTES (session_uuid_for key minute).
Proof.
  unfold session_uuid_for.
  destruct (hkdf_expands None key (HKDF_INFO_SESSION_V1 ++ to_be_bytes 8 minute) SESSION_UUID_BYTES)
    as (okm & -> & Ha); [unfold SESSION_UUID_BYTES; lia | done].
Qed.

(** ** Fragment reassembly *)

Definition FRAGMENT_HEADER_LEN : Z := 1.
Definition FRAGMENT_MORE_BIT : Z := 128.

(** The loop of [reassemble]; [last] is [segments.len() - 1]. *)
Fixpoint reassemble_from (idx last : Z) (out : list Z) (segments : list (list Z))
  : result (list Z) unit :=
  match segments with
  | [] => Ok out
  | seg :: rest =>
      if len seg <? FRAGMENT_HEADER_LEN then Err tt
      else
        let more := negb (Z.land (byte_at seg 0) FRAGMENT_MORE_BIT =? 0) in
        let is_last := idx =? last in
        if is_last && more then Err tt
        else if negb is_last && negb more then Err tt
        else reassemble_from (idx + 1) last (out ++ drop 1 seg) rest
  end.

(** [Err tt] is [TransportError::IncompleteReassembly]. *)
Definition reassemble (segments : list (list Z)) : result (list Z) unit :=
  match segments with
  | [] => Err tt
  | _ => reassemble_from 0 (len segments - 1) [] segments
  end.

(** ** What a bonded phone writes *)

Definition revoke_peer_id (bytes : list Z) : option (list Z) :=
  match Message_decode bytes with
  | Ok message => if bool_decide (m_operation message = OpRevoke) then Some (m_transaction message) else None
  | Err _ => None
  end.

(** ** The trait *)

(** The text of [Backend] is not modelled. *)
Inductive PeripheralError :=
| AdapterMissing (name : str)
| PUnknownPeer (peer_id : str)
| PeerAlreadyAdded (peer_id : str)
| Backend
| Cancelled
| ResponseTimeout (peer_id : str) (deadline_ms : Z).

#[global] Instance PeripheralError_eq_dec : EqDecision PeripheralError.
Proof. unfold str. solve_decision. Defined.

(** The state holds what the radio will do, so the methods are functions. *)
Class Peripheral := {
  PState : Type;
  add_peer : str -> list Z -> PState -> result unit PeripheralError * PState;
  remove_peer : str -> PState -> result unit PeripheralError * PState;
  set_session_uuids : gset (list Z) -> PState -> result unit PeripheralError * PState;
  notify_challenge : str -> list Z -> PState -> result unit PeripheralError * PState;
  wait_for_response : str -> Z -> PState -> result (list Z) PeripheralError * PState;
  (** What the contract speaks of: the registered peers and their keys, and the
      UUIDs on the air. *)
  registered : PState -> gmap (list Z) (list Z);
  on_air : PState -> gset (list Z);
}.

(** The documentation of the trait, method by method. *)
Class PeripheralLaws (P : Peripheral) : Prop := {
  add_peer_dup : forall id key s, is_Some (registered s !! id) ->
    add_peer id key s = (Err (PeerAlreadyAdded id), s);
  add_peer_spec : forall id key s r s', add_peer id key s = (r, s') ->
    registered s' = (if is_ok r then <[id := key]> (registered s) else registered s);
  remove_peer_unknown : forall id s, registered s !! id = None ->
    remove_peer id s = (Err (PUnknownPeer id), s);
  remove_peer_spec : forall id s r s', remove_peer id s = (r, s') ->
    registered s' = (if is_ok r then delete id (registered s) else registered s);
  set_session_uuids_spec : forall uuids s r s', set_session_uuids uuids s = (r, s') ->
    registered s' = registered s /\ (is_ok r = true -> on_air s' = uuids);
  notify_challenge_spec : forall id frame s r s', notify_challenge id frame s = (r, s') ->
    registered s' = registered s /\ (registered s !! id = None -> r = Err (PUnknownPeer id));
  wait_for_response_spec : forall id deadline s r s', wait_for_response id deadline s = (r, s') ->
    registered s' = registered s /\ (registered s !! id = None -> r = Err (PUnknownPeer id));
}.

Section defaults.
Context `{Peripheral}.

(** The trait's default methods: [tokio::select!] between the cancellation and
    the call.  [cancelled] tells that the cancellation branch is taken; the
    other future is dropped before it is polled. *)
Definition notify_challenge_cancellable (id : str) (frame : list Z) (cancelled : bool) (s : PState)
  : result unit PeripheralError * PState :=
  if cancelled then (Err Cancelled, s) else notify_challenge id frame s.

Definition wait_for_response_cancellable (id : str) (deadline : Z) (cancelled : bool) (s : PState)
  : result (list Z) PeripheralError * PState :=
  if cancelled then (Err Cancelled, s) else wait_for_response id deadline s.

End defaults.

(** ** The radio-free peripheral *)

Module Fake.

Definition FAKE_RESPONSE_POLL_INTERVAL : Z := 10.

(** [arrivals] holds what other tasks inject during each poll interval of the
    waits to come. *)
Record FakeState := mkFake {
  peers_in_order : list str;
  peer_keys : gmap (list Z) (list Z);
  session_uuid_calls : list (gset (list Z));
  notify_calls : list (str * list Z);
  response_queue : gmap (list Z) (list (list Z));
  arrivals : list (list (str * list Z));
}.

Definition FakePeripheral_new (script : list (list (str * list Z))) : FakeState :=
  mkFake [] ∅ [] [] ∅ script.

Definition fake_add_peer (id : str) (key : list Z) (s : FakeState)
  : result unit PeripheralError * FakeState :=
  match peer_keys s !! id with
  | Some _ => (Err (PeerAlreadyAdded id), s)
  | None => (Ok tt, mkFake (peers_in_order s ++ [id]) (<[id := key]> (peer_keys s)) (session_uuid_calls s)
                      (notify_calls s) (response_queue s) (arrivals s))
  end.

Definition fake_remove_peer (id : str) (s : FakeState) : result unit PeripheralError * FakeState :=
  match peer_keys s !! id with
  | None => (Err (PUnknownPeer id), s)
  | Some _ => (Ok tt, mkFake (filter (fun p => p ≠ id) (peers_in_order s)) (delete id (peer_keys s))
                        (session_uuid_calls s) (notify_calls s) (response_queue s) (arrivals s))
  end.

Definition fake_set_session_uuids (uuids : gset (list Z)) (s : FakeState)
  : result unit PeripheralError * FakeState :=
  (Ok tt, mkFake (peers_in_order s) (peer_keys s) (session_uuid_calls s ++ [uuids])
            (notify_calls s) (response_queue s) (arrivals s)).

Definition fake_notify_challenge (id : str) (frame : list Z) (s : FakeState)
  : result unit PeripheralError * FakeState :=
  match peer_keys s !! id with
  | None => (Err (PUnknownPeer id), s)
  | Some _ => (Ok tt, mkFake (peers_in_order s) (peer_keys s) (session_uuid_calls s)
                        (notify_calls s ++ [(id, frame)]) (response_queue s) (arrivals s))
  end.

Definition set_queue (q : gmap (list Z) (list (list Z))) (s : FakeState) : FakeState :=
  mkFake (peers_in_order s) (peer_keys s) (session_uuid_calls s) (notify_calls s) q (arrivals s).

Definition inject_response (id : str) (bytes : list Z) (s : FakeState) : FakeState :=
  set_queue (<[id := default [] (response_queue s !! id) ++ [bytes]]> (response_queue s)) s.

(** One poll interval passes. *)
Definition elapse (s : FakeState) : FakeState :=
  match arrivals s with
  | [] => s
  | batch :: rest =>
      let s := mkFake (peers_in_order s) (peer_keys s) (session_uuid_calls s) (notify_calls s)
                 (response_queue s) rest in
      foldl (fun s x => inject_response x.1 x.2 s) s batch
  end.

(** The polling loop under [tokio::time::timeout]: one poll at once and one
    after every interval, [polls] in all. *)
Fixpoint fake_poll (polls : nat) (id : str) (s : FakeState) : option (list Z) * FakeState :=
  match polls with
  | O => (None, s)
  | S polls =>
      match response_queue s !! id with
      | Some (bytes :: q) => (Some bytes, set_queue (<[id := q]> (response_queue s)) s)
      | _ => fake_poll polls id (elapse s)
      end
  end.

Definition fake_wait_for_response (id : str) (deadline : Z) (s : FakeState)
  : result (list Z) PeripheralError * FakeState :=
  match peer_keys s !! id with
  | None => (Err (PUnknownPeer id), s)
  | Some _ =>
      match fake_poll (S (Z.to_nat (deadline / FAKE_RESPONSE_POLL_INTERVAL))) id s with
      | (Some bytes, s) => (Ok bytes, s)
      | (None, s) => (Err (ResponseTimeout id deadline), s)
      end
  end.

#[export] Instance FakePeripheral : Peripheral := {|
  PState := FakeState;
  add_peer := fake_add_peer;
  remove_peer := fake_remove_peer;
  set_session_uuids := fake_set_session_uuids;
  notify_challenge := fake_notify_challenge;
  wait_for_response := fake_wait_for_response;
  registered := peer_keys;
  on_air s := default ∅ (last (session_uuid_calls s));
|}.

Lemma inject_keys batch s : peer_keys (foldl (fun s x => inject_response x.1 x.2 s) s batch) = peer_keys s.
Proof. revert s. induction batch as [|x batch IH]; intros s; cbn [foldl]; [done | by rewrite IH]. Qed.

Lemma elapse_keys s : peer_keys (elapse s) = peer_keys s.
Proof. unfold elapse. destruct (arrivals s); [done | by rewrite inject_keys]. Qed.

Lemma poll_keys polls id s : peer_keys (fake_poll polls id s).2 = peer_keys s.
Proof.
  revert s. induction polls as [|polls IH]; intros s; cbn [fake_poll]; [done |].
  destruct (response_queue s !! id) as [[|bytes q]|]; [| done |]; by rewrite IH, elapse_keys.
Qed.

Lemma wait_keys id deadline s : peer_keys (fake_wait_for_response id deadline s).2 = peer_keys s.
Proof.
  unfold fake_wait_for_response. destruct (peer_keys s !! id); [| done].
  rewrite <- (poll_keys (S (Z.to_nat (deadline / FAKE_RESPONSE_POLL_INTERVAL))) id s).
  by destruct (fake_poll _ id s) as [[bytes|] s'].
Qed.

#[export] Instance FakePeripheral_laws : PeripheralLaws FakePeripheral.
Proof.
  split; cbn -[fake_poll].
  - intros id key s [k Hk]. unfold fake_add_peer. by rewrite Hk.
  - intros id key s r s'. unfold fake_add_peer. by destruct (peer_keys s !! id); intros [= <- <-].
  - intros id s Hs. unfold fake_remove_peer. by rewrite Hs.
  - intros id s r s'. unfold fake_remove_peer. by destruct (peer_keys s !! id); intros [= <- <-].
  - intros uuids s r s' [= <- <-]. cbn. by rewrite last_snoc.
  - intros id frame s r s'. unfold fake_notify_challenge.
    by destruct (peer_keys s !! id); intros [= <- <-].
  - intros id deadline s r s' Hw. split.
    + by rewrite <- (wait_keys id deadline s), Hw.
    + intros Hs. unfold fake_wait_for_response in Hw. rewrite Hs in Hw. by injection Hw as <- <-.
Qed.

End Fake.

(** ** Lemmas on reassembly *)

(** The segments of one frame: every header but the last has the more bit. *)
Definition fragment (more : bool) (body : list Z) : list Z :=
  (if more then FRAGMENT_MORE_BIT else 0) :: body.

Fixpoint fragments (bodies : list (list Z)) : list (list Z) :=
  match bodies with
  | [] => []
  | [b] => [fragment false b]
  | b :: rest => fragment true b :: fragments rest
  end.

Lemma fragments_len bodies : len (fragments bodies) = len bodies.
Proof.
  induction bodies as [|b [|b' rest] IH]; [done | done |]. cbn [fragments] in *.
  rewrite !len_cons in *. lia.
Qed.

Lemma fragment_long more b : (len (fragment more b) <? FRAGMENT_HEADER_LEN) = false.
Proof.
  apply Z.ltb_ge. unfold fragment, FRAGMENT_HEADER_LEN. rewrite len_cons. pose proof (len_nonneg b). lia.
Qed.

Lemma fragment_more more b :
  negb (Z.land (byte_at (fragment more b) 0) FRAGMENT_MORE_BIT =? 0) = more.
Proof. by destruct more. Qed.

Lemma reassemble_from_fragments bodies idx out :
  reassemble_from idx (idx + len bodies - 1) out (fragments bodies) = Ok (out ++ concat bodies).
Proof.
  revert idx out. induction bodies as [|b [|b' rest] IH]; intros idx out.
  - cbn. by rewrite app_nil_r.
  - cbn [fragments reassemble_from]. rewrite fragment_long, fragment_more, len_cons, len_nil.
    replace (idx + (1 + 0) - 1) with idx by lia. rewrite Z.eqb_refl. cbn. by rewrite app_nil_r.
  - change (fragments (b :: b' :: rest)) with (fragment true b :: fragments (b' :: rest)).
    cbn [reassemble_from]. rewrite fragment_long, fragment_more, (len_cons b).
    pose proof (len_nonneg rest).
    destruct (Z.eqb_spec idx (idx + (1 + len (b' :: rest)) - 1)) as [He|_];
      [rewrite len_cons in He; lia |].
    replace (idx + (1 + len (b' :: rest)) - 1) with (idx + 1 + len (b' :: rest) - 1) by lia.
    cbn [negb andb]. change (drop 1 (fragment true b)) with b.
    rewrite IH. cbn [concat]. by rewrite <- app_assoc.
Qed.

(** The bodies [reassemble] concatenates, whatever the other header bits. *)
Lemma reassemble_from_ok segs idx last out r :
  reassemble_from idx last out segs = Ok r -> r = out ++ concat (map (drop 1) segs).
Proof.
  revert idx out. induction segs as [|seg segs IH]; intros idx out; cbn [reassemble_from map concat].
  - intros [= ->]. by rewrite app_nil_r.
  - repeat case_bool; try done; cbn; try done; intros Hr; apply IH in Hr; by rewrite Hr, <- app_assoc.
Qed.

Lemma reassemble_fragments bodies :
  bodies <> [] -> reassemble (fragments bodies) = Ok (concat bodies).
Proof.
  intros Hb. destruct (fragments bodies) as [|s l] eqn:E.
  { destruct bodies as [|b bs]; [done |]. pose proof (fragments_len (b :: bs)) as Hl.
    rewrite E, len_cons, len_nil in Hl. pose proof (len_nonneg bs). lia. }
  unfold reassemble. rewrite <- E, fragments_len.
  exact (reassemble_from_fragments bodies 0 []).
Qed.
