(* ===== verification/AuditTrail.v ===== *)
(** * The audit log

    Models crates/syauth-presenced/src/audit.rs: the line of a challenge
    ([format_record]) and the appender that calls [sync_all] every 32 lines
    ([AuditLog]). *)

From stdpp Require Import prelude list gmap strings.
From Stdlib Require Import ZArith Lia.
From S2P Require Import Prelude Fs.

Definition AUDIT_LOG_FILE_MODE : Z := 384.
Definition AUDIT_FSYNC_EVERY : Z := 32.
Definition AUDIT_FIELD_SEPARATOR : str := lit ",".

Record AuditRecord := mkRecord {
  ar_peer_id : str;
  ar_nonce_hex : str;
  ar_t_start_ms : Z;
  ar_t_end_ms : Z;
  ar_outcome : str;
  ar_reason : str;
}.

(** [{}] of an unsigned integer: decimal digits, the most significant first.  A
    number has at most as many digits as bits. *)
Fixpoint digits (fuel : nat) (n : Z) (rest : str) : str :=
  match fuel with
  | O => rest
  | S fuel =>
      let rest := (48 + n mod 10) :: rest in
      if n / 10 =? 0 then rest else digits fuel (n / 10) rest
  end.

Definition decimal (n : Z) : str := digits (S (Z.to_nat (Z.log2 n))) n [].

Definition format_record (r : AuditRecord) : str :=
  let sep := AUDIT_FIELD_SEPARATOR in
  ar_peer_id r ++ sep ++ ar_nonce_hex r ++ sep ++ decimal (ar_t_start_ms r) ++ sep ++
  decimal (ar_t_end_ms r) ++ sep ++ ar_outcome r ++ sep ++ ar_reason r ++ [10].

(** An open [File] in append mode: what was written, how much of it is known to
    be on stable storage, and the faults of the calls to come: [None] for a call
    that succeeds, [Some n] for a [write_all] that fails after [n] bytes or a
    [sync_all] that fails. *)
Record LogFile := mkLogFile { written : list Z; durable : Z; io_faults : list (option nat) }.

Definition write_all (l : list Z) (f : LogFile) : result unit unit * LogFile :=
  match io_faults f with
  | Some n :: s => (Err tt, mkLogFile (written f ++ take n l) (durable f) s)
  | None :: s => (Ok tt, mkLogFile (written f ++ l) (durable f) s)
  | [] => (Ok tt, mkLogFile (written f ++ l) (durable f) [])
  end.

Definition sync_all (f : LogFile) : result unit unit * LogFile :=
  match io_faults f with
  | Some _ :: s => (Err tt, mkLogFile (written f) (durable f) s)
  | None :: s => (Ok tt, mkLogFile (written f) (len (written f)) s)
  | [] => (Ok tt, mkLogFile (written f) (len (written f)) [])
  end.

Record AuditLog := mkAuditLog { al_file : LogFile; appended_since_fsync : Z }.

(** [wrapping_add] on a [u64]. *)
Definition AuditLog_append (record : AuditRecord) (self : AuditLog) : result unit unit * AuditLog :=
  let line := format_record record in
  let '(r, f) := write_all line (al_file self) in
  match r with
  | Err e => (Err e, mkAuditLog f (appended_since_fsync self))
  | Ok _ =>
      let n := (appended_since_fsync self + 1) mod 2 ^ 64 in
      if n mod AUDIT_FSYNC_EVERY =? 0
      then let '(r, f) := sync_all f in (r, mkAuditLog f n)
      else (Ok tt, mkAuditLog f n)
  end.

(** ** Reading a log back *)

(** [str::split]: the pieces between the separators. *)
Fixpoint split_from (c : Z) (cur : str) (s : str) : list str :=
  match s with
  | [] => [cur]
  | x :: s => if x =? c then cur :: split_from c [] s else split_from c (cur ++ [x]) s
  end.

Definition split (c : Z) (s : str) : list str := split_from c [] s.

Definition clean (s : str) : Prop := Forall (fun c => c <> 44 /\ c <> 10) s.

Definition fields (r : AuditRecord) : list str :=
  [ar_peer_id r; ar_nonce_hex r; decimal (ar_t_start_ms r); decimal (ar_t_end_ms r);
   ar_outcome r; ar_reason r].

(** A record whose text fields hold neither a comma nor a newline. *)
Definition record_clean (r : AuditRecord) : Prop :=
  clean (ar_peer_id r) /\ clean (ar_nonce_hex r) /\ clean (ar_outcome r) /\ clean (ar_reason r).

#[global] Instance record_clean_dec r : Decision (record_clean r).
Proof. unfold record_clean, clean. apply _. Defined.

Lemma split_skip c cur a s :
  Forall (fun x => x <> c) a -> split_from c cur (a ++ s) = split_from c (cur ++ a) s.
Proof.
  revert cur. induction a as [|x a IH]; intros cur Ha; [by rewrite app_nil_r |].
  apply Forall_cons in Ha as [Hx Ha]. cbn [split_from app].
  destruct (Z.eqb_spec x c); [done |]. rewrite IH by done. by rewrite <- app_assoc.
Qed.

Lemma split_piece c a s :
  Forall (fun x => x <> c) a -> split c (a ++ c :: s) = a :: split c s.
Proof.
  intros Ha. unfold split. rewrite split_skip by done. cbn [split_from app]. by rewrite Z.eqb_refl.
Qed.

Lemma split_end c a : Forall (fun x => x <> c) a -> split c a = [a].
Proof. intros Ha. unfold split. rewrite <- (app_nil_r a) at 1. by rewrite split_skip. Qed.

Lemma clean_comma s : clean s -> Forall (fun x => x <> 44) s.
Proof. intros Hs. eapply Forall_impl; [exact Hs |]. by intros x []. Qed.
Lemma clean_newline s : clean s -> Forall (fun x => x <> 10) s.
Proof. intros Hs. eapply Forall_impl; [exact Hs |]. by intros x []. Qed.
#[export] Hint Resolve clean_comma clean_newline : rust.

Lemma digits_clean fuel n rest : clean rest -> clean (digits fuel n rest).
Proof.
  revert n rest. induction fuel as [|fuel IH]; intros n rest Hr; cbn [digits]; [done |].
  assert (Hd : clean ((48 + n mod 10) :: rest)).
  { constructor; [| done]. pose proof (Z.mod_pos_bound n 10). lia. }
  destruct (n / 10 =? 0); [done | by apply IH].
Qed.

Lemma decimal_clean n : clean (decimal n).
Proof. apply digits_clean. constructor. Qed.
#[export] Hint Resolve decimal_clean : rust.

(** The number a run of digits stands for. *)
Definition value (s : str) : Z := foldl (fun acc c => acc * 10 + (c - 48)) 0 s.

Lemma value_digits fuel n rest :
  0 <= n < 2 ^ Z.of_nat fuel ->
  foldl (fun acc c => acc * 10 + (c - 48)) 0 (digits fuel n rest) =
  foldl (fun acc c => acc * 10 + (c - 48)) n rest.
Proof.
  revert n rest. induction fuel as [|fuel IH]; intros n rest Hn.
  { cbn in Hn. replace n with 0 by lia. done. }
  cbn [digits]. pose proof (Z.div_mod n 10). pose proof (Z.mod_pos_bound n 10).
  destruct (Z.eqb_spec (n / 10) 0).
  - cbn [foldl]. f_equal. lia.
  - rewrite IH; [cbn [foldl]; f_equal; lia |].
    rewrite Nat2Z.inj_succ, Z.pow_succ_r in Hn by lia. lia.
Qed.

Lemma value_decimal n : 0 <= n -> value (decimal n) = n.
Proof.
  intros Hn. unfold value, decimal. rewrite value_digits; [done |].
  rewrite Nat2Z.inj_succ, Z2Nat.id by apply Z.log2_nonneg.
  destruct (Z.eq_dec n 0) as [->|]; [cbn; lia |]. split; [lia |]. apply Z.log2_spec. lia.
Qed.

Lemma format_record_fields r :
  record_clean r ->
  exists body, format_record r = body ++ [10] /\
    Forall (fun c => c <> 10) body /\ split 44 body = fields r.
Proof.
  intros (Hp & Hn & Ho & Hr). eexists (ar_peer_id r ++ [44] ++ ar_nonce_hex r ++ [44] ++
    decimal (ar_t_start_ms r) ++ [44] ++ decimal (ar_t_end_ms r) ++ [44] ++ ar_outcome r ++ [44] ++ ar_reason r).
  split; [unfold format_record; by rewrite <- !app_assoc |]. split.
  - rewrite !Forall_app. split_and!; auto with rust; by repeat constructor.
  - unfold fields. cbn [app]. rewrite !split_piece, split_end; auto with rust.
Qed.

(** ** Runs of the appender *)

Fixpoint append_all (rs : list AuditRecord) (log : AuditLog) : AuditLog :=
  match rs with
  | [] => log
  | r :: rs => append_all rs (AuditLog_append r log).2
  end.

(** [AuditLog::open] on a file that holds [content]; no call will fail. *)
Definition opened (content : list Z) : AuditLog := mkAuditLog (mkLogFile content (len content) []) 0.

Definition text (rs : list AuditRecord) : list Z := concat (map format_record rs).

(** What [rs] left behind: all their lines, the last [n mod 32] of them not yet
    synced. *)
Definition logged (content : list Z) (rs : list AuditRecord) (log : AuditLog) : Prop :=
  exists old new, rs = old ++ new /\ len new = len rs mod AUDIT_FSYNC_EVERY /\
    io_faults (al_file log) = [] /\ written (al_file log) = content ++ text rs /\
    durable (al_file log) = len (content ++ text old) /\
    appended_since_fsync log = len rs mod 2 ^ 64.

Lemma text_snoc rs r : text (rs ++ [r]) = text rs ++ format_record r.
Proof. unfold text. rewrite map_app, concat_app. cbn. by rewrite app_nil_r. Qed.

Lemma logged_append content rs r log :
  logged content rs log -> logged content (rs ++ [r]) (AuditLog_append r log).2.
Proof.
  destruct log as [[w d faults] n]. intros (old & new & -> & Hn & Hf & Hw & Hd & Hs). cbn in *. subst.
  unfold AuditLog_append, write_all. cbn [al_file io_faults written appended_since_fsync].
  set (rs := old ++ new) in *. rewrite Zplus_mod_idemp_l.
  assert (H32 : (len rs + 1) mod 2 ^ 64 mod AUDIT_FSYNC_EVERY = (len rs + 1) mod AUDIT_FSYNC_EVERY).
  { unfold AUDIT_FSYNC_EVERY. rewrite <- Znumtheory.Zmod_div_mod; [done | lia | lia |].
    by exists (2 ^ 59). }
  rewrite H32. unfold logged. rewrite len_app, len_cons, len_nil, text_snoc.
  pose proof (Z.mod_pos_bound (len rs + 1) AUDIT_FSYNC_EVERY).
  destruct (Z.eqb_spec ((len rs + 1) mod AUDIT_FSYNC_EVERY) 0) as [He|He]; cbn.
  - exists (rs ++ [r]), []. rewrite app_nil_r, text_snoc, <- app_assoc, len_nil, Z.add_0_r. split_and!; try done.
  - exists old, (new ++ [r]). rewrite len_app, len_cons, len_nil, Hn, <- app_assoc, Z.add_0_r.
    unfold rs at 1. rewrite <- app_assoc. split_and!; try done.
    unfold AUDIT_FSYNC_EVERY in *. pose proof (Z.div_mod (len rs) 32). pose proof (Z.div_mod (len rs + 1) 32).
    pose proof (Z.mod_pos_bound (len rs) 32). lia.
Qed.

Lemma logged_all content rs done log :
  logged content done log -> logged content (done ++ rs) (append_all rs log).
Proof.
  revert done log. induction rs as [|r rs IH]; intros done log Hl; [by rewrite app_nil_r |].
  cbn [append_all]. rewrite (app_assoc done [r] rs : done ++ r :: rs = _). apply IH. by apply logged_append.
Qed.

Lemma opened_logged content : logged content [] (opened content).
Proof. exists [], []. by rewrite !app_nil_r. Qed.

Lemma split_lines rs :
  Forall record_clean rs ->
  map (split 44) (split 10 (text rs)) = map fields rs ++ [[[]]].
Proof.
  induction 1 as [|r rs Hr _ IH]; [done |]. destruct (format_record_fields r Hr) as (body & Hb & Hn & Hs).
  change (text (r :: rs)) with (format_record r ++ text rs). rewrite Hb, <- app_assoc. cbn [app].
  rewrite split_piece by done. cbn [map app]. by rewrite IH, Hs.
Qed.

(** ** Properties *)

(** On a working disk the audit log of any run holds exactly the records
    appended, in order: splitting it into lines and the lines at the commas
    gives back every field and both timestamps; and at any time at most the last
    31 records are not yet on stable storage. *)
Theorem audit_log_faithful (rs : list AuditRecord)
  (Hclean : Forall record_clean rs) (Htimes : Forall (fun r => 0 <= ar_t_start_ms r /\ 0 <= ar_t_end_ms r) rs) :
  let file := al_file (append_all rs (opened [])) in
  map (split 44) (split 10 (written file)) = map fields rs ++ [[[]]] /\
  Forall (fun r => value (decimal (ar_t_start_ms r)) = ar_t_start_ms r /\
                   value (decimal (ar_t_end_ms r)) = ar_t_end_ms r) rs /\
  exists old new, rs = old ++ new /\ len new <= 31 /\ durable file = len (text old).
Proof.
  destruct (logged_all [] rs [] _ (opened_logged [])) as (old & new & Hrs & Hn & _ & Hw & Hd & _).
  cbn [app] in *. rewrite Hw. split; [by apply split_lines |]. split.
  - eapply Forall_impl; [exact Htimes |]. intros r [? ?]. by rewrite !value_decimal.
  - exists old, new. split; [done |]. split; [| done]. rewrite Hn. unfold AUDIT_FSYNC_EVERY.
    pose proof (Z.mod_pos_bound (len rs) 32). lia.
Qed.

Definition sample_record : AuditRecord :=
  mkRecord (lit "0011") (lit "ff00") 1700000000123 1700000001999 (lit "ok") (lit "ok").

Lemma audit_log_faithful_witness :
  let file := al_file (append_all [sample_record; sample_record] (opened [])) in
  map (split 44) (split 10 (written file)) = map fields [sample_record; sample_record] ++ [[[]]].
Proof.
  apply (audit_log_faithful [sample_record; sample_record]).
  - decide_now.
  - decide_now.
Defined.
