(* ===== verification/Orchestrator.v ===== *)
(** * The challenge orchestrator

    Models crates/syauth-presenced/src/orchestrator.rs: the per-peer nonce cache,
    the challenge transaction ([issue_challenge], [run_challenge]), the reload of
    the bonds ([run_reload], [compute_diff], [do_add_peer], [do_remove_peer]), the
    rotation of the advertised UUIDs and the status rows.

    The methods are asynchronous and run in several tasks that share the peer map
    and the [Arc]s of its entries.  They are written as programs over the
    operations they perform ([op]); a scheduler executes the operations of the
    running tasks one at a time, in any order, and may drop a task between two of
    them, which is what happens when its connection closes.  The [Arc]s of an entry are
    a location in a store of cells, so a task keeps the cell of the entry it
    looked up even after a reload replaced the entry. *)

From stdpp Require Import prelude list gmap sorting strings.
From Stdlib Require Import ZArith Lia.
From S2P Require Import Prelude WireFrame Fs Bond PairRecovery PairTransaction Peripheral AuditTrail.

Definition SECONDS_PER_MINUTE : Z := 60.
Definition RELOAD_CHANNEL_CAPACITY : Z := 16.
Definition DEFAULT_AUTH_TIMEOUT : Z := 20000.
Definition NONCE_BYTES : Z := NONCE_LEN.
Definition NONCE_LRU_CAP : Z := 64.
Definition BUSY_QUEUE_DEADLINE : Z := 1000.

Definition OUTCOME_REASON_OK : str := lit "ok".
Definition OUTCOME_REASON_DENIED : str := lit "denied".
Definition OUTCOME_REASON_REPLAY : str := lit "replay".
Definition OUTCOME_REASON_BAD_SIGNATURE : str := lit "bad-signature".
Definition OUTCOME_REASON_RESPONSE_TIMEOUT : str := lit "response-timeout".
Definition OUTCOME_REASON_UNKNOWN_PEER : str := lit "unknown-peer".
Definition OUTCOME_REASON_TRANSPORT_ERROR : str := lit "transport-error".
Definition OUTCOME_REASON_BUSY : str := lit "busy".
Definition ZERO_NONCE_HEX : str := lit "00000000000000000000000000000000".
Definition PAIR_MODE_ZERO_BOND_KEY : list Z := replicate (Z.to_nat BOND_KEY_BYTES) 0.
Definition BOND_KEY_FILE_EXT : str := lit ".bin".

(** ** The nonce cache

    A [VecDeque] of the nonces, the oldest first. *)
Record NonceCache := mkCache { nonces : list (list Z) }.

Definition NonceCache_new : NonceCache := mkCache [].

Definition NonceCache_contains (self : NonceCache) (n : list Z) : bool :=
  existsb (fun m => bool_decide (m = n)) (nonces self).

Definition NonceCache_insert (self : NonceCache) (n : list Z) : NonceCache :=
  let l := nonces self ++ [n] in
  if len l >? NONCE_LRU_CAP then mkCache (tail l) else mkCache l.

(** ** Time

    A [SystemTime] is a number of nanoseconds from the Unix epoch. *)
Definition SystemTime : Type := Z.

(** [t.duration_since(UNIX_EPOCH)], [as_secs], [as_millis] *)
Definition since_epoch (t : SystemTime) : option Z := if t <? 0 then None else Some t.
Definition as_secs (d : Z) : Z := d / 1000000000.
Definition as_millis (d : Z) : Z := d / 1000000.

Definition align_to_next_minute (now : SystemTime) : Z :=
  match since_epoch now with
  | None => SECONDS_PER_MINUTE
  | Some d =>
      let secs := as_secs d in
      let remainder := secs mod SECONDS_PER_MINUTE in
      SECONDS_PER_MINUTE - remainder
  end.

Definition minute_index (now : SystemTime) : Z :=
  match since_epoch now with
  | None => 0
  | Some d => Z.min (as_secs d / SECONDS_PER_MINUTE) (2 ^ 63 - 1)
  end.

Definition epoch_millis (t : SystemTime) : Z :=
  match since_epoch t with Some d => as_millis d | None => 0 end.

Definition ms_since (now : SystemTime) (thn : option SystemTime) : option Z :=
  match thn with
  | None => None
  | Some t => if now <? t then None else Some (Z.min (as_millis (now - t)) (2 ^ 64 - 1))
  end.

(** ** Entries *)

(** [hex::encode] and [hex::decode]; the iteration order of a [HashSet]. *)
Class Hex := { bytes_to_hex : list Z -> str; hex_to_bytes : str -> option (list Z) }.
Class HashOrder := { hash_order : list str -> list str }.
Class HashOrderLaws (O : HashOrder) : Prop := { hash_order_perm : forall l, hash_order l ≡ₚ l }.

Record PeerLiveness := mkLiveness {
  last_challenge_at : option SystemTime;
  last_connect_at : option SystemTime;
}.

(** The three [Arc]s of an entry are made and cloned together: one location.
    [permits] is the semaphore. *)
Definition loc : Type := nat.
Record Cell := mkCell { nonce_cache : NonceCache; permits : Z; liveness : PeerLiveness }.

Record PeerEntry := mkEntry {
  bond_key : list Z;
  phone_pubkey : option (list Z);
  cell : loc;
}.

Record PeerState := mkPeerState {
  ps_phone_pubkey : list Z;
  ps_bond_key : list Z;
  ps_cell : loc;
}.

Definition Cell_new : Cell := mkCell NonceCache_new 1 (mkLiveness None None).

(** The order of a [BTreeMap]'s keys. *)
Fixpoint str_leb (a b : str) : bool :=
  match a, b with
  | [], _ => true
  | _, [] => false
  | x :: a, y :: b => if x <? y then true else if y <? x then false else str_leb a b
  end.

Definition key_le {A} (x y : list Z * A) : Prop := str_leb x.1 y.1 = true.
#[global] Instance key_le_dec {A} : RelDecision (@key_le A).
Proof. intros x y. unfold key_le. apply _. Defined.

Definition btree_iter {A} (m : gmap (list Z) A) : list (list Z * A) := merge_sort key_le (map_to_list m).

Inductive ReloadTrigger := Sighup | Rpc | Inotify | Pair | Test.

Record PeerStatus := mkStatus {
  st_peer_id : str;
  last_challenge_ms_ago : option Z;
  last_connect_ms_ago : option Z;
  current_session_uuid : list Z;
  in_flight_challenges : Z;
}.

(** ** Operations and programs *)

(** What the asynchronous code does between two suspension points.  [AcquireSlot]
    is [timeout(BUSY_QUEUE_DEADLINE, slot.acquire_owned())]; [NotifyChallenge] and
    [WaitForResponse] are the cancellable methods of the trait. *)
Inductive op :=
| Now
| LookupPeer (id : str)
| AcquireSlot (c : loc)
| DropPermit
| StampLiveness (c : loc) (now : SystemTime)
| FillNonce
| NotifyChallenge (id : str) (frame : list Z)
| WaitForResponse (id : str) (deadline : Z)
| CheckNonce (c : loc) (n : list Z)
| AppendAudit (record : AuditRecord)
| LoadStore
| LoadKey (id : str)
| PeerKeys
| SendRevoke (id : str) (frame : list Z)
| PeripheralRemove (id : str)
| PeripheralAdd (id : str) (key : list Z)
| RemoveEntry (id : str)
| InsertEntry (id : str) (key pubkey : list Z)
| SnapshotPeers
| SetSessionUuids (uuids : gset (list Z))
| ExitWhenEmpty
| RaiseSigterm.

Section orchestrator.
Context `{B3 : Blake3, ED : Ed25519, HK : Hkdf, CH : Chrono, TM : Toml, HX : Hex, HO : HashOrder, PP : Peripheral}.
Context (bonds_file keys : path).

Definition ans (o : op) : Type :=
  match o with
  | Now => SystemTime
  | LookupPeer _ => option PeerState
  | AcquireSlot _ => bool
  | FillNonce => option (list Z)
  | NotifyChallenge _ _ | SendRevoke _ _ | PeripheralRemove _ | PeripheralAdd _ _ | SetSessionUuids _ =>
      result unit PeripheralError
  | WaitForResponse _ _ => result (list Z) PeripheralError
  | CheckNonce _ _ | ExitWhenEmpty => bool
  | LoadStore => result BondStore BondError
  | LoadKey _ => result (list Z) unit
  | PeerKeys => list str
  | SnapshotPeers => list (str * list Z)
  | DropPermit | StampLiveness _ _ | AppendAudit _ | RemoveEntry _ | InsertEntry _ _ _ | RaiseSigterm => unit
  end.

Inductive prog (A : Type) : Type :=
| Done (a : A)
| Do (o : op) (k : ans o -> prog A).
Arguments Done {A} a.
Arguments Do {A} o k.

Fixpoint pbind {A B} (p : prog A) (f : A -> prog B) : prog B :=
  match p with
  | Done a => f a
  | Do o k => Do o (fun x => pbind (k x) f)
  end.

Notation "'perform' x ':=' o 'in' p" := (Do o (fun x => p))
  (at level 200, x pattern, o at level 100, p at level 200, right associativity).
Notation "'let*' x ':=' e 'in' p" := (pbind e (fun x => p))
  (at level 200, x pattern, e at level 100, p at level 200, right associativity).

(** *** Challenges *)

Inductive ChallengeOutcome :=
| COk (signature : Signature)
| CDenied
| CReplay
| CBadSignature
| CTimedOut
| CUnknownPeer
| CBusy
| CTransportError (e : PeripheralError).

Definition reason_str (o : ChallengeOutcome) : str :=
  match o with
  | COk _ => OUTCOME_REASON_OK
  | CDenied => OUTCOME_REASON_DENIED
  | CReplay => OUTCOME_REASON_REPLAY
  | CBadSignature => OUTCOME_REASON_BAD_SIGNATURE
  | CTimedOut => OUTCOME_REASON_RESPONSE_TIMEOUT
  | CUnknownPeer => OUTCOME_REASON_UNKNOWN_PEER
  | CBusy => OUTCOME_REASON_BUSY
  | CTransportError _ => OUTCOME_REASON_TRANSPORT_ERROR
  end.

Definition signature_bytes (o : ChallengeOutcome) : option (list Z) :=
  match o with COk s => Some (Signature_to_bytes s) | _ => None end.

Definition challenge_outcome_for_transport (err : PeripheralError) : ChallengeOutcome :=
  match err with
  | PUnknownPeer _ => CUnknownPeer
  | ResponseTimeout _ _ => CTimedOut
  | _ => CTransportError Backend
  end.

Definition parse_signature (bytes : list Z) : option Signature :=
  if negb (len bytes =? SIGNATURE_LEN) then None
  else match Signature_from_slice bytes with Ok s => Some s | Err _ => None end.

Definition audit_at (id nonce_hex : str) (t_start t_end : Z) (reason : str) : prog unit :=
  Do (AppendAudit (mkRecord id nonce_hex t_start t_end reason reason)) Done.

Definition audit_outcome (id nonce_hex : str) (t_start : Z) (reason : str) : prog unit :=
  audit_at id nonce_hex t_start t_start reason.

(** [let t_end_ms = epoch_millis(now()); audit_at(..); return outcome] *)
Definition finish (id nonce_hex : str) (t_start : Z) (reason : str) (outcome : ChallengeOutcome)
  : prog ChallengeOutcome :=
  perform now := Now in
  let* _ := audit_at id nonce_hex t_start (epoch_millis now) reason in
  Done outcome.

(** The post-verify check, under the lock of the cache: [true] for a replay. *)
Definition check_nonce (n : list Z) (cache : NonceCache) : bool * NonceCache :=
  if NonceCache_contains cache n then (true, cache) else (false, NonceCache_insert cache n).

(** The challenge frame before its tag is set. *)
Definition bare_challenge (n : list Z) : Frame :=
  mkFrame SYAUTH_WIRE_VERSION_V1 n [] (replicate (Z.to_nat TAG_LEN) 0).

Definition with_tag (f : Frame) (t : list Z) : Frame := mkFrame (version f) (nonce f) (payload f) t.

(** What follows the phone's answer. *)
Definition judge_response (id : str) (challenge : Frame) (ps : PeerState) (t_start : Z)
  (response : list Z) : prog ChallengeOutcome :=
  let n := nonce challenge in
  let nonce_hex := bytes_to_hex n in
  match parse_signature response with
  | None => finish id nonce_hex t_start OUTCOME_REASON_BAD_SIGNATURE CBadSignature
  | Some signature =>
      match VerifyingKey_from_bytes (ps_phone_pubkey ps) with
      | Err _ => finish id nonce_hex t_start OUTCOME_REASON_BAD_SIGNATURE CBadSignature
      | Ok vk =>
          match verify_frame vk challenge signature with
          | Err _ => finish id nonce_hex t_start OUTCOME_REASON_BAD_SIGNATURE CBadSignature
          | Ok _ =>
              perform replay := CheckNonce (ps_cell ps) n in
              if (replay : bool) then finish id nonce_hex t_start OUTCOME_REASON_REPLAY CReplay
              else finish id nonce_hex t_start OUTCOME_REASON_OK (COk signature)
          end
      end
  end.

Definition run_challenge (id : str) (n : list Z) (deadline : Z) (ps : PeerState) (t_start : Z)
  : prog ChallengeOutcome :=
  let nonce_hex := bytes_to_hex n in
  let challenge := bare_challenge n in
  match Frame_body_bytes challenge with
  | Err _ => finish id nonce_hex t_start OUTCOME_REASON_TRANSPORT_ERROR (CTransportError Backend)
  | Ok body =>
      let challenge := with_tag challenge (compute_tag (ps_bond_key ps) body) in
      match Frame_encode challenge [] with
      | (_, Err _) => finish id nonce_hex t_start OUTCOME_REASON_TRANSPORT_ERROR (CTransportError Backend)
      | (encoded, Ok _) =>
          perform sent := NotifyChallenge id encoded in
          match sent : result unit PeripheralError with
          | Err err =>
              let outcome := challenge_outcome_for_transport err in
              finish id nonce_hex t_start (reason_str outcome) outcome
          | Ok _ =>
              perform answer := WaitForResponse id deadline in
              match answer : result (list Z) PeripheralError with
              | Err (ResponseTimeout _ _) =>
                  finish id nonce_hex t_start OUTCOME_REASON_RESPONSE_TIMEOUT CTimedOut
              | Err err =>
                  let outcome := challenge_outcome_for_transport err in
                  finish id nonce_hex t_start (reason_str outcome) outcome
              | Ok response => judge_response id challenge ps t_start response
              end
          end
      end
  end.

(** [lookup_peer], then [acquire_challenge_slot]; [body] runs with the permit. *)
Definition with_slot (id : str) (body : PeerState -> Z -> prog ChallengeOutcome) : prog ChallengeOutcome :=
  perform now := Now in
  let t_start := epoch_millis now in
  perform found := LookupPeer id in
  match found : option PeerState with
  | None =>
      let* _ := audit_outcome id ZERO_NONCE_HEX t_start OUTCOME_REASON_UNKNOWN_PEER in
      Done CUnknownPeer
  | Some ps =>
      perform admitted := AcquireSlot (ps_cell ps) in
      if negb admitted then finish id ZERO_NONCE_HEX t_start OUTCOME_REASON_BUSY CBusy
      else
        perform now := Now in
        perform _ := StampLiveness (ps_cell ps) now in
        body ps t_start
  end.

Definition issue_challenge_cancellable (id : str) (deadline : Z) : prog ChallengeOutcome :=
  with_slot id (fun ps t_start =>
    perform filled := FillNonce in
    match filled : option (list Z) with
    | None =>
        perform now := Now in
        let* _ := audit_at id ZERO_NONCE_HEX t_start (epoch_millis now) OUTCOME_REASON_TRANSPORT_ERROR in
        perform _ := DropPermit in
        Done (CTransportError Backend)
    | Some n =>
        let* outcome := run_challenge id n deadline ps t_start in
        perform _ := DropPermit in
        Done outcome
    end).

Definition issue_challenge_with_nonce_cancellable (id : str) (n : list Z) (deadline : Z)
  : prog ChallengeOutcome :=
  with_slot id (fun ps t_start =>
    let* outcome := run_challenge id n deadline ps t_start in
    perform _ := DropPermit in
    Done outcome).

(** *** Rotation and reload *)

Definition build_uuid_union (snapshot : list (str * list Z)) (minute : Z) : gset (list Z) :=
  let set : gset (list Z) := list_to_set (map (fun x => session_uuid_for x.2 minute) snapshot) in
  {[ session_uuid_for PAIR_MODE_ZERO_BOND_KEY minute ]} ∪ set.

(** The log lines of a rotation are not modelled. *)
Definition rotate_once (now : SystemTime) : prog unit :=
  let minute := minute_index now in
  perform snapshot := SnapshotPeers in
  perform _ := SetSessionUuids (build_uuid_union snapshot minute) in
  Done tt.

(** The loop of [compute_new_set]. *)
Fixpoint collect_keys (l : list Bond) (out : gmap (list Z) (list Z)) : prog (gmap (list Z) (list Z)) :=
  match l with
  | [] => Done out
  | bond :: l =>
      if Bond_is_revoked bond then collect_keys l out
      else
        perform key := LoadKey (peer_id bond) in
        match key : result (list Z) unit with
        | Ok key => collect_keys l (<[peer_id bond := key]> out)
        | Err _ => collect_keys l out
        end
  end.

Definition compute_new_set (store : BondStore) : prog (gmap (list Z) (list Z)) :=
  collect_keys (BondStore_list store) ∅.

Definition compute_diff (new_set : gmap (list Z) (list Z)) : prog (list str * list str) :=
  perform current := PeerKeys in
  let new_keys := (map_to_list new_set).*1 in
  Done (hash_order (filter (fun id => id ∉ current) new_keys),
        hash_order (filter (fun id => id ∉ new_keys) current)).

Definition do_remove_peer (id : str) : prog unit :=
  perform r := PeripheralRemove id in
  match r : result unit PeripheralError with
  | Ok _ => Do (RemoveEntry id) Done
  | Err _ => Done tt
  end.

Definition do_add_peer (store : BondStore) (id : str) (key : list Z) : prog unit :=
  match find_bond id (BondStore_list store) with
  | None => Done tt
  | Some b =>
      perform r := PeripheralAdd id key in
      match r : result unit PeripheralError with
      | Ok _ => Do (InsertEntry id key (pubkey b)) Done
      | Err _ => Done tt
      end
  end.

(** The notice to the phone, whose failure is only logged. *)
Definition send_revoke_notice (id : str) : prog unit :=
  match hex_to_bytes id with
  | Some peer_bytes =>
      if len peer_bytes =? 16
      then Do (SendRevoke id (Message_encode (mkMessage peer_bytes OpRevoke))) (fun _ => Done tt)
      else Done tt
  | None => Done tt
  end.

Fixpoint remove_all (l : list str) : prog unit :=
  match l with
  | [] => Done tt
  | id :: l =>
      let* _ := send_revoke_notice id in
      let* _ := do_remove_peer id in
      remove_all l
  end.

Fixpoint add_all (store : BondStore) (new_set : gmap (list Z) (list Z)) (l : list str) : prog unit :=
  match l with
  | [] => Done tt
  | id :: l =>
      let* _ := match new_set !! id with Some key => do_add_peer store id key | None => Done tt end in
      add_all store new_set l
  end.

Definition reload_bonds_with_trigger (store : BondStore) (trigger : ReloadTrigger) : prog unit :=
  let* new_set := compute_new_set store in
  let* diff := compute_diff new_set in
  let* _ := remove_all diff.2 in
  let* _ := add_all store new_set diff.1 in
  perform after := PeerKeys in
  perform exit := ExitWhenEmpty in
  let* _ := (if (length (after : list str) =? 0)%nat && (exit : bool)
             then Do RaiseSigterm Done else Done tt) in
  perform now := Now in
  rotate_once now.

Definition run_reload (trigger : ReloadTrigger) : prog unit :=
  perform loaded := LoadStore in
  match loaded : result BondStore BondError with
  | Ok store => reload_bonds_with_trigger store trigger
  | Err _ => Done tt
  end.

(** *** The shared state *)

Record St := mkSt {
  s_peripheral : PState;
  s_peers : gmap (list Z) PeerEntry;
  s_cells : gmap loc Cell;
  s_next : loc;
  s_world : world;
  s_audit : option AuditLog;
  s_exit_when_empty : bool;
  s_sigterm : bool;
  s_clock : SystemTime;
}.

Definition set_peripheral (x : PState) (s : St) : St :=
  mkSt x (s_peers s) (s_cells s) (s_next s) (s_world s) (s_audit s) (s_exit_when_empty s) (s_sigterm s) (s_clock s).
Definition set_peers (x : gmap (list Z) PeerEntry) (s : St) : St :=
  mkSt (s_peripheral s) x (s_cells s) (s_next s) (s_world s) (s_audit s) (s_exit_when_empty s) (s_sigterm s) (s_clock s).
Definition set_cells (x : gmap loc Cell) (s : St) : St :=
  mkSt (s_peripheral s) (s_peers s) x (s_next s) (s_world s) (s_audit s) (s_exit_when_empty s) (s_sigterm s) (s_clock s).
Definition set_next (x : loc) (s : St) : St :=
  mkSt (s_peripheral s) (s_peers s) (s_cells s) x (s_world s) (s_audit s) (s_exit_when_empty s) (s_sigterm s) (s_clock s).
Definition set_world (x : world) (s : St) : St :=
  mkSt (s_peripheral s) (s_peers s) (s_cells s) (s_next s) x (s_audit s) (s_exit_when_empty s) (s_sigterm s) (s_clock s).
Definition set_audit (x : option AuditLog) (s : St) : St :=
  mkSt (s_peripheral s) (s_peers s) (s_cells s) (s_next s) (s_world s) x (s_exit_when_empty s) (s_sigterm s) (s_clock s).
Definition set_sigterm (x : bool) (s : St) : St :=
  mkSt (s_peripheral s) (s_peers s) (s_cells s) (s_next s) (s_world s) (s_audit s) (s_exit_when_empty s) x (s_clock s).
Definition set_time (x : SystemTime) (s : St) : St :=
  mkSt (s_peripheral s) (s_peers s) (s_cells s) (s_next s) (s_world s) (s_audit s) (s_exit_when_empty s) (s_sigterm s) x.

Definition update_cell (c : loc) (f : Cell -> Cell) (s : St) : St := set_cells (alter f c (s_cells s)) s.

Definition lookup_peer (id : str) (s : St) : option PeerState :=
  match s_peers s !! id with
  | None => None
  | Some entry =>
      match phone_pubkey entry with
      | None => None
      | Some pk => Some (mkPeerState pk (bond_key entry) (cell entry))
      end
  end.

Definition stamp_liveness (now : SystemTime) (c : Cell) : Cell :=
  mkCell (nonce_cache c) (permits c) (mkLiveness (Some now) (Some now)).

Definition set_permits (n : Z) (c : Cell) : Cell := mkCell (nonce_cache c) n (liveness c).
Definition set_cache (x : NonceCache) (c : Cell) : Cell := mkCell x (permits c) (liveness c).

Definition snapshot_peers (s : St) : list (str * list Z) :=
  map (fun x => (x.1, bond_key x.2)) (btree_iter (s_peers s)).

Definition load_bond_key (id : str) : io (result (list Z) unit) :=
  let! r := fs_read (join keys (id ++ BOND_KEY_FILE_EXT)) in
  iret match r with
       | Ok bytes => if len bytes =? BOND_KEY_BYTES then Ok bytes else Err tt
       | Err _ => Err tt
       end.

(** [PeerEntry::new] and the insertion: the entry gets a cell of its own. *)
Definition insert_entry (id : str) (key pk : list Z) (s : St) : St :=
  let c := s_next s in
  set_next (S c) (set_cells (<[c := Cell_new]> (s_cells s))
    (set_peers (<[id := mkEntry key (Some pk) c]> (s_peers s)) s)).

Definition append_audit (record : AuditRecord) (s : St) : St :=
  match s_audit s with
  | Some log => set_audit (Some (AuditLog_append record log).2) s
  | None => s
  end.

(** [Orchestrator::with_peers_and_audit]. *)
Definition with_peers_and_audit (peripheral : PState) (peers : list (Bond * list Z)) (w : world)
  (audit : option AuditLog) (now : SystemTime) : St :=
  foldl (fun s x => insert_entry (peer_id x.1) x.2 (pubkey x.1) s)
    (mkSt peripheral ∅ ∅ O w audit false false now) peers.

Definition set_exit_when_empty (enabled : bool) (s : St) : St :=
  mkSt (s_peripheral s) (s_peers s) (s_cells s) (s_next s) (s_world s) (s_audit s) enabled (s_sigterm s) (s_clock s).

(** [Semaphore::available_permits]. *)
Definition challenge_slot_in_flight (available : Z) : Z := if available =? 0 then 1 else 0.

Definition peers_snapshot (s : St) : list PeerStatus :=
  let now := s_clock s in
  let minute := minute_index now in
  map (fun x =>
    let c := default Cell_new (s_cells s !! cell x.2) in
    mkStatus x.1 (ms_since now (last_challenge_at (liveness c))) (ms_since now (last_connect_at (liveness c)))
      (session_uuid_for (bond_key x.2) minute) (challenge_slot_in_flight (permits c)))
    (btree_iter (s_peers s)).

(** *** Executing an operation *)

(** What the outside decides: the bytes of the random generator, whether a wait
    for the slot has lasted [BUSY_QUEUE_DEADLINE], whether [select!] takes the
    branch of a requested cancellation. *)
Record choice := mkChoice { random : option (list Z); deadline_passed : bool; take_cancel : bool }.

(** What belongs to the task: its permit, and whether it was cancelled. *)
Record ctx := mkCtx { held : option loc; cancelled : bool }.

Inductive stepped (A : Type) : Type :=
| Stepped (a : A) (x : ctx) (s : St)
| Blocked
| Crashed (s : St).
Arguments Stepped {A} a x s.
Arguments Blocked {A}.
Arguments Crashed {A} s.

(** A call on the disk. *)
Definition on_disk {A} (m : io A) (x : ctx) (s : St) : stepped A :=
  match m (s_world s) with
  | (Ret a, w) => Stepped a x (set_world w s)
  | (Killed, w) | (Panicked, w) => Crashed (set_world w s)
  end.

(** A call of the peripheral. *)
Definition on_radio {A} (f : PState -> A * PState) (x : ctx) (s : St) : stepped A :=
  let '(r, p) := f (s_peripheral s) in Stepped r x (set_peripheral p s).

(** Dropping the permit, as [OwnedSemaphorePermit] does. *)
Definition drop_permit (x : ctx) (s : St) : St :=
  match held x with
  | Some c => update_cell c (fun cl => set_permits (permits cl + 1) cl) s
  | None => s
  end.

Definition exec (o : op) (ch : choice) (x : ctx) (s : St) : stepped (ans o) :=
  let cancel := cancelled x && take_cancel ch in
  match o return stepped (ans o) with
  | Now => Stepped (s_clock s) x s
  | LookupPeer id => Stepped (lookup_peer id s) x s
  | AcquireSlot c =>
      match s_cells s !! c with
      | Some cl =>
          if 0 <? permits cl
          then Stepped true (mkCtx (Some c) (cancelled x)) (update_cell c (set_permits (permits cl - 1)) s)
          else if deadline_passed ch then Stepped false x s else Blocked
      | None => Blocked
      end
  | DropPermit => Stepped tt (mkCtx None (cancelled x)) (drop_permit x s)
  | StampLiveness c now => Stepped tt x (update_cell c (stamp_liveness now) s)
  | FillNonce => Stepped (random ch) x s
  | NotifyChallenge id frame => on_radio (notify_challenge_cancellable id frame cancel) x s
  | WaitForResponse id deadline => on_radio (wait_for_response_cancellable id deadline cancel) x s
  | CheckNonce c n =>
      match s_cells s !! c with
      | Some cl =>
          let '(replay, cache) := check_nonce n (nonce_cache cl) in
          Stepped replay x (update_cell c (set_cache cache) s)
      | None => Blocked
      end
  | AppendAudit record => Stepped tt x (append_audit record s)
  | LoadStore => on_disk (BondStore_load bonds_file) x s
  | LoadKey id => on_disk (load_bond_key id) x s
  | PeerKeys => Stepped (btree_iter (s_peers s)).*1 x s
  | SendRevoke id frame => on_radio (notify_challenge id frame) x s
  | PeripheralRemove id => on_radio (remove_peer id) x s
  | PeripheralAdd id key => on_radio (add_peer id key) x s
  | RemoveEntry id => Stepped tt x (set_peers (delete id (s_peers s)) s)
  | InsertEntry id key pk => Stepped tt x (insert_entry id key pk s)
  | SnapshotPeers => Stepped (snapshot_peers s) x s
  | SetSessionUuids uuids => on_radio (set_session_uuids uuids) x s
  | ExitWhenEmpty => Stepped (s_exit_when_empty s) x s
  | RaiseSigterm => Stepped tt x (set_sigterm true s)
  end.

(** *** The daemon's tasks *)

(** What a task did: its operations with their answers. *)
Definition answered : Type := {o : op & ans o}.
Definition did (o : op) (a : ans o) : answered := existT o a.

Record challenge_task := mkTask {
  t_peer : str;
  t_prog : prog ChallengeOutcome;
  t_ctx : ctx;
  t_log : list answered;
}.

(** The challenge tasks by number, the orchestrator's own loop ([None] once it
    panicked), its reload queue, and the nonces accepted so far with their
    cells. *)
Record Sys := mkSys {
  y_st : St;
  y_tasks : gmap nat challenge_task;
  y_loop : option (prog unit);
  y_queue : list ReloadTrigger;
  y_accepted : list (loc * list Z);
}.

Inductive event :=
| Spawn (tid : nat) (id : str) (fixed_nonce : option (list Z))
| Step (tid : nat) (ch : choice)
| Cancel (tid : nat)
| DropTask (tid : nat)
| SendReload (trigger : ReloadTrigger)
| RecvReload
| Tick
| LoopStep (ch : choice)
| Clock (t : SystemTime).

Definition set_st (s : St) (y : Sys) : Sys := mkSys s (y_tasks y) (y_loop y) (y_queue y) (y_accepted y).
Definition set_tasks (m : gmap nat challenge_task) (y : Sys) : Sys :=
  mkSys (y_st y) m (y_loop y) (y_queue y) (y_accepted y).
Definition set_loop (l : option (prog unit)) (y : Sys) : Sys :=
  mkSys (y_st y) (y_tasks y) l (y_queue y) (y_accepted y).
Definition set_reloads (q : list ReloadTrigger) (y : Sys) : Sys :=
  mkSys (y_st y) (y_tasks y) (y_loop y) q (y_accepted y).

(** The dispatcher calls [issue_challenge_with_nonce_cancellable] when a nonce
    is fixed. *)
Definition start_challenge (id : str) (fixed_nonce : option (list Z)) : prog ChallengeOutcome :=
  match fixed_nonce with
  | Some n => issue_challenge_with_nonce_cancellable id n DEFAULT_AUTH_TIMEOUT
  | None => issue_challenge_cancellable id DEFAULT_AUTH_TIMEOUT
  end.

Definition accepts (o : op) : ans o -> list (loc * list Z) :=
  match o return ans o -> list (loc * list Z) with
  | CheckNonce c n => fun replay => if replay then [] else [(c, n)]
  | _ => fun _ => []
  end.

Definition step_task (tid : nat) (ch : choice) (y : Sys) : Sys :=
  match y_tasks y !! tid with
  | Some (mkTask id (Do o k) x log) =>
      match exec o ch x (y_st y) with
      | Stepped a x s =>
          mkSys s (<[tid := mkTask id (k a) x (log ++ [did o a])]> (y_tasks y)) (y_loop y) (y_queue y)
            (y_accepted y ++ accepts o a)
      | Blocked => y
      | Crashed s => mkSys (drop_permit x s) (delete tid (y_tasks y)) (y_loop y) (y_queue y) (y_accepted y)
      end
  | _ => y
  end.

Definition loop_ctx : ctx := mkCtx None false.

Definition step_loop (ch : choice) (y : Sys) : Sys :=
  match y_loop y with
  | Some (Do o k) =>
      match exec o ch loop_ctx (y_st y) with
      | Stepped a _ s => set_loop (Some (k a)) (set_st s y)
      | Blocked => y
      | Crashed s => set_loop None (set_st s y)
      end
  | _ => y
  end.

Definition sys_step (y : Sys) (e : event) : Sys :=
  match e with
  | Spawn tid id fixed =>
      match y_tasks y !! tid with
      | Some _ => y
      | None => set_tasks (<[tid := mkTask id (start_challenge id fixed) (mkCtx None false) []]> (y_tasks y)) y
      end
  | Step tid ch => step_task tid ch y
  | Cancel tid =>
      set_tasks (alter (fun t => mkTask (t_peer t) (t_prog t) (mkCtx (held (t_ctx t)) true) (t_log t)) tid (y_tasks y)) y
  | DropTask tid =>
      match y_tasks y !! tid with
      | Some t => set_tasks (delete tid (y_tasks y)) (set_st (drop_permit (t_ctx t) (y_st y)) y)
      | None => y
      end
  | SendReload trigger =>
      if len (y_queue y) <? RELOAD_CHANNEL_CAPACITY then set_reloads (y_queue y ++ [trigger]) y else y
  | RecvReload =>
      match y_loop y, y_queue y with
      | Some (Done _), trigger :: q => set_loop (Some (run_reload trigger)) (set_reloads q y)
      | _, _ => y
      end
  | Tick =>
      match y_loop y with
      | Some (Done _) => set_loop (Some (perform now := Now in rotate_once now)) y
      | _ => y
      end
  | LoopStep ch => step_loop ch y
  | Clock t => set_st (set_time t (y_st y)) y
  end.

Definition sys_run (y : Sys) (es : list event) : Sys := foldl sys_step y es.

(** [Orchestrator::run] publishes the UUIDs before it loops. *)
Definition sys_start (s : St) : Sys := mkSys s ∅ (Some (perform now := Now in rotate_once now)) [] [].

End orchestrator.

#[global] Arguments Done {CH A} a.
#[global] Arguments Do {CH A} o k.
#[global] Arguments Stepped {PP A} a x s.
#[global] Arguments Blocked {PP A}.
#[global] Arguments Crashed {PP A} s.

(** ** The nonce cache is the tail of what was inserted *)

(** The last [n] elements. *)
Definition last_n {A} (n : nat) (l : list A) : list A := drop (length l - n) l.

Lemma last_n_snoc {A} n (l : list A) x :
  (length l < n)%nat -> last_n n (l ++ [x]) = last_n n l ++ [x].
Proof.
  unfold last_n. intros Hl. rewrite length_app. cbn.
  replace (length l + 1 - n)%nat with 0%nat by lia. by replace (length l - n)%nat with 0%nat by lia.
Qed.

Lemma last_n_full {A} n (l : list A) x :
  (0 < n <= length l)%nat -> last_n n (l ++ [x]) = tail (last_n n l ++ [x]).
Proof.
  unfold last_n. intros Hl. rewrite length_app. cbn [length].
  replace (length l + 1 - n)%nat with (1 + (length l - n))%nat by lia.
  rewrite drop_app_le by lia. rewrite Nat.add_comm, <- drop_drop.
  destruct (drop (length l - n) l) as [|y k] eqn:E; [| done].
  apply (f_equal length) in E. rewrite length_drop in E. cbn in E. lia.
Qed.

Lemma length_last_n {A} n (l : list A) : length (last_n n l) = Nat.min n (length l).
Proof. unfold last_n. rewrite length_drop. lia. Qed.

(** The cache after the insertions of [l], one by one. *)
Definition cache_of (l : list (list Z)) : NonceCache := foldl NonceCache_insert NonceCache_new l.

Lemma cache_insert_last l n :
  NonceCache_insert (mkCache (last_n 64 l)) n = mkCache (last_n 64 (l ++ [n])).
Proof.
  unfold NonceCache_insert, NONCE_LRU_CAP. cbn [nonces].
  rewrite len_app, len_cons, len_nil. unfold len. rewrite length_last_n.
  destruct (Z.gtb_spec (Z.of_nat (Nat.min 64 (length l)) + (1 + 0)) 64).
  - by rewrite last_n_full by lia.
  - by rewrite last_n_snoc by lia.
Qed.

Lemma cache_of_last l : cache_of l = mkCache (last_n 64 l).
Proof.
  unfold cache_of. induction l as [|n l IH] using rev_ind; [done |].
  rewrite foldl_app. cbn [foldl]. by rewrite IH, cache_insert_last.
Qed.

Lemma cache_contains_spec c n : NonceCache_contains c n = true <-> n ∈ nonces c.
Proof.
  unfold NonceCache_contains. rewrite existsb_exists. setoid_rewrite bool_decide_eq_true.
  split; [intros (m & Hm & ->) | intros Hn; exists n]; by rewrite ?list_elem_of_In in *.
Qed.

(** ** Iterating a [BTreeMap] *)

Lemma btree_iter_perm {A} (m : gmap (list Z) A) : btree_iter m ≡ₚ map_to_list m.
Proof. apply merge_sort_Permutation. Qed.

Lemma elem_of_btree_keys {A} (m : gmap (list Z) A) id : id ∈ (btree_iter m).*1 <-> is_Some (m !! id).
Proof.
  rewrite btree_iter_perm, list_elem_of_fmap. split.
  - intros ([k v] & -> & Hk). apply elem_of_map_to_list in Hk. by eexists.
  - intros [v Hv]. exists (id, v). by rewrite elem_of_map_to_list.
Qed.
