(* ===== verification/Challenge.v ===== *)
(** * Safety of the challenge transactions

    Theorems about the tasks of Orchestrator.v, for every schedule: what a
    successful challenge has done, the line it leaves in the audit log, at most
    one exchange in flight for an entry, no nonce accepted twice within the
    window of the cache. *)

From stdpp Require Import prelude list gmap sorting strings.
From Stdlib Require Import ZArith Lia.
From S2P Require Import Prelude WireFrame Fs Bond PairRecovery PairTransaction Peripheral AuditTrail Orchestrator.

Section challenge.
Context `{B3 : Blake3, ED : Ed25519, HK : Hkdf, CH : Chrono, TM : Toml, HX : Hex, HO : HashOrder, PP : Peripheral}.
Context (bonds_file keys : path).

Notation exec := (exec bonds_file keys).
Notation step_task := (step_task bonds_file keys).
Notation step_loop := (step_loop bonds_file keys).
Notation sys_step := (sys_step bonds_file keys).
Notation sys_run := (sys_run bonds_file keys).

(** ** Traces

    The program [p] can perform [tr] and return [a], whatever the answers. *)
Fixpoint produces {A} (p : prog A) (tr : list answered) (a : A) : Prop :=
  match p with
  | Done b => tr = [] /\ a = b
  | Do o k =>
      match tr with
      | [] => False
      | e :: tr => exists x : ans o, e = did o x /\ produces (k x) tr a
      end
  end.

Lemma produces_bind {A B} (p : prog A) (f : A -> prog B) tr b :
  produces (pbind p f) tr b ->
  exists tr1 tr2 a, tr = tr1 ++ tr2 /\ produces p tr1 a /\ produces (f a) tr2 b.
Proof.
  revert tr. induction p as [a|o k IH]; cbn; intros tr Hp.
  - exists [], tr, a. done.
  - destruct tr as [|e tr]; [done |]. destruct Hp as (x & -> & Hp).
    destruct (IH x tr Hp) as (tr1 & tr2 & a & -> & H1 & H2).
    exists (did o x :: tr1), tr2, a. cbn. eauto.
Qed.

Lemma produces_finish id hex t0 reason out tr a :
  produces (finish id hex t0 reason out) tr a ->
  a = out /\ exists t1, tr = [did Now t1; did (AppendAudit (mkRecord id hex t0 (epoch_millis t1) reason reason)) tt].
Proof.
  cbn. destruct tr as [|e1 tr]; [done |]. intros (t1 & -> & Hp).
  destruct tr as [|e2 tr]; [done |]. destruct Hp as ([] & -> & -> & ->). eauto.
Qed.

(** The challenge of nonce [n] for a peer: version 1, no payload, tagged with
    the bond key. *)
Definition challenge_frame (ps : PeerState) (n : list Z) : Frame :=
  with_tag (bare_challenge n)
    (compute_tag (ps_bond_key ps) ([SYAUTH_WIRE_VERSION_V1] ++ n)).

(** The phone behind [ps] signed the challenge with [sig]. *)
Definition signed_by_phone (ps : PeerState) (n response : list Z) (sig : Signature) : Prop :=
  len response = SIGNATURE_LEN /\ Signature_from_slice response = Ok sig /\
  exists vk, VerifyingKey_from_bytes (ps_phone_pubkey ps) = Ok vk /\
    verify_frame vk (challenge_frame ps n) sig = Ok tt.

Definition audit_line (id hex : str) (t0 t1 : Z) (reason : str) : answered :=
  did (AppendAudit (mkRecord id hex t0 t1 reason reason)) tt.

(** The whole of [run_challenge], branch by branch. *)
Inductive challenge_run (id : str) (n : list Z) (deadline : Z) (ps : PeerState) (t0 : Z)
  : list answered -> ChallengeOutcome -> Prop :=
| RunNotSent err t1 :
    challenge_run id n deadline ps t0
      [did (NotifyChallenge id (frame_wire (challenge_frame ps n))) (Err err); did Now t1;
       audit_line id (bytes_to_hex n) t0 (epoch_millis t1) (reason_str (challenge_outcome_for_transport err))]
      (challenge_outcome_for_transport err)
| RunNoAnswer err t1 :
    challenge_run id n deadline ps t0
      [did (NotifyChallenge id (frame_wire (challenge_frame ps n))) (Ok tt);
       did (WaitForResponse id deadline) (Err err); did Now t1;
       audit_line id (bytes_to_hex n) t0 (epoch_millis t1) (reason_str (challenge_outcome_for_transport err))]
      (challenge_outcome_for_transport err)
| RunBad response t1 :
    (forall sig, ~ signed_by_phone ps n response sig) ->
    challenge_run id n deadline ps t0
      [did (NotifyChallenge id (frame_wire (challenge_frame ps n))) (Ok tt);
       did (WaitForResponse id deadline) (Ok response); did Now t1;
       audit_line id (bytes_to_hex n) t0 (epoch_millis t1) OUTCOME_REASON_BAD_SIGNATURE]
      CBadSignature
| RunReplay response sig t1 :
    signed_by_phone ps n response sig ->
    challenge_run id n deadline ps t0
      [did (NotifyChallenge id (frame_wire (challenge_frame ps n))) (Ok tt);
       did (WaitForResponse id deadline) (Ok response); did (CheckNonce (ps_cell ps) n) true; did Now t1;
       audit_line id (bytes_to_hex n) t0 (epoch_millis t1) OUTCOME_REASON_REPLAY]
      CReplay
| RunOk response sig t1 :
    signed_by_phone ps n response sig ->
    challenge_run id n deadline ps t0
      [did (NotifyChallenge id (frame_wire (challenge_frame ps n))) (Ok tt);
       did (WaitForResponse id deadline) (Ok response); did (CheckNonce (ps_cell ps) n) false; did Now t1;
       audit_line id (bytes_to_hex n) t0 (epoch_millis t1) OUTCOME_REASON_OK]
      (COk sig).

Lemma judge_response_cases id n ps t0 response tr out :
  produces (judge_response id (challenge_frame ps n) ps t0 response) tr out ->
  (exists t1, out = CBadSignature /\ (forall sig, ~ signed_by_phone ps n response sig) /\
     tr = [did Now t1; audit_line id (bytes_to_hex n) t0 (epoch_millis t1) OUTCOME_REASON_BAD_SIGNATURE]) \/
  (exists t1 sig replay, signed_by_phone ps n response sig /\ out = (if replay : bool then CReplay else COk sig) /\
     tr = [did (CheckNonce (ps_cell ps) n) replay; did Now t1;
           audit_line id (bytes_to_hex n) t0 (epoch_millis t1) (reason_str out)]).
Proof.
  unfold judge_response, parse_signature. change (nonce (challenge_frame ps n)) with n.
  assert (Hbad : forall tr, produces (finish id (bytes_to_hex n) t0 OUTCOME_REASON_BAD_SIGNATURE CBadSignature) tr out ->
    (forall sig, ~ signed_by_phone ps n response sig) ->
    exists t1, out = CBadSignature /\ (forall sig, ~ signed_by_phone ps n response sig) /\
      tr = [did Now t1; audit_line id (bytes_to_hex n) t0 (epoch_millis t1) OUTCOME_REASON_BAD_SIGNATURE]).
  { intros tr' Hp Hs. apply produces_finish in Hp as [-> [t1 ->]]. by exists t1. }
  destruct (Z.eqb_spec (len response) SIGNATURE_LEN) as [Hl|Hl]; cbn [negb];
    [| intros Hp; left; apply Hbad; [done | by intros sig (? & _)]].
  destruct (Signature_from_slice response) as [sig|e] eqn:Es;
    [| intros Hp; left; apply Hbad; [done | intros sig (_ & ? & _); congruence]].
  destruct (VerifyingKey_from_bytes (ps_phone_pubkey ps)) as [vk|e] eqn:Ev;
    [| intros Hp; left; apply Hbad; [done | intros sig' (_ & _ & vk & ? & _); congruence]].
  destruct (verify_frame vk (challenge_frame ps n) sig) as [[]|e] eqn:Ef;
    [| intros Hp; left; apply Hbad; [done | intros sig' (_ & ? & vk' & ? & ?); congruence]].
  intros Hp. right. destruct tr as [|e tr]; [done |]. destruct Hp as (replay & -> & Hp).
  assert (Hs : signed_by_phone ps n response sig) by (split_and!; eauto).
  destruct replay; apply produces_finish in Hp as [-> [t1 ->]];
    [exists t1, sig, true | exists t1, sig, false]; done.
Qed.

Lemma challenge_body n : Frame_body_bytes (bare_challenge n) = Ok ([SYAUTH_WIRE_VERSION_V1] ++ n).
Proof. rewrite Frame_body_ok by by vm_compute. cbn. by rewrite app_nil_r. Qed.

Lemma challenge_encoded ps n : Frame_encode (challenge_frame ps n) [] = (frame_wire (challenge_frame ps n), Ok tt).
Proof. by rewrite Frame_encode_ok by by vm_compute. Qed.

Lemma run_challenge_cases id n deadline ps t0 tr out :
  produces (run_challenge id n deadline ps t0) tr out -> challenge_run id n deadline ps t0 tr out.
Proof.
  unfold run_challenge. rewrite challenge_body. fold (challenge_frame ps n). rewrite challenge_encoded.
  destruct tr as [|e tr]; [done |]. intros ([[]|err] & -> & Hp);
    [| apply produces_finish in Hp as [-> [t1 ->]]; apply RunNotSent].
  destruct tr as [|e tr]; [done |]. destruct Hp as ([response|err] & -> & Hp).
  - apply judge_response_cases in Hp as [(t1 & -> & Hs & ->)|(t1 & sig & [] & Hs & -> & ->)].
    + by apply RunBad.
    + by eapply RunReplay.
    + by eapply RunOk.
  - assert (Hr : exists t1, out = challenge_outcome_for_transport err /\
      tr = [did Now t1; audit_line id (bytes_to_hex n) t0 (epoch_millis t1)
                          (reason_str (challenge_outcome_for_transport err))]);
      [| destruct Hr as (t1 & -> & ->); apply RunNoAnswer].
    destruct err; apply produces_finish in Hp as [-> [t1 ->]]; by exists t1.
Qed.

(** The whole of a challenge, from the lookup to the release of the slot. *)
Inductive challenge_trace (id : str) (fixed : option (list Z)) : list answered -> ChallengeOutcome -> Prop :=
| TraceUnknown t0 :
    challenge_trace id fixed
      [did Now t0; did (LookupPeer id) None;
       audit_line id ZERO_NONCE_HEX (epoch_millis t0) (epoch_millis t0) OUTCOME_REASON_UNKNOWN_PEER]
      CUnknownPeer
| TraceBusy t0 ps t1 :
    challenge_trace id fixed
      [did Now t0; did (LookupPeer id) (Some ps); did (AcquireSlot (ps_cell ps)) false; did Now t1;
       audit_line id ZERO_NONCE_HEX (epoch_millis t0) (epoch_millis t1) OUTCOME_REASON_BUSY]
      CBusy
| TraceNoNonce t0 ps t1 t2 :
    fixed = None ->
    challenge_trace id fixed
      [did Now t0; did (LookupPeer id) (Some ps); did (AcquireSlot (ps_cell ps)) true; did Now t1;
       did (StampLiveness (ps_cell ps) t1) tt; did FillNonce None; did Now t2;
       audit_line id ZERO_NONCE_HEX (epoch_millis t0) (epoch_millis t2) OUTCOME_REASON_TRANSPORT_ERROR;
       did DropPermit tt]
      (CTransportError Backend)
| TraceRan t0 ps t1 n tr out :
    (forall m, fixed = Some m -> n = m) ->
    challenge_run id n DEFAULT_AUTH_TIMEOUT ps (epoch_millis t0) tr out ->
    challenge_trace id fixed
      ([did Now t0; did (LookupPeer id) (Some ps); did (AcquireSlot (ps_cell ps)) true; did Now t1;
        did (StampLiveness (ps_cell ps) t1) tt] ++
       match fixed with Some _ => [] | None => [did FillNonce (Some n)] end ++
       tr ++ [did DropPermit tt])
      out.

Lemma produces_drop (p : prog ChallengeOutcome) tr out :
  produces (pbind p (fun o => Do DropPermit (fun _ => Done o))) tr out ->
  exists tr', tr = tr' ++ [did DropPermit tt] /\ produces p tr' out.
Proof.
  intros Hp. apply produces_bind in Hp as (tr1 & tr2 & a & -> & Hp & Hd).
  destruct tr2 as [|e tr2]; [done |]. destruct Hd as ([] & -> & -> & ->). eauto.
Qed.

Lemma with_slot_cases id fixed body tr out :
  produces (with_slot id body) tr out ->
  challenge_trace id fixed tr out \/
  exists t0 ps t1 tr1, produces (body ps (epoch_millis t0)) tr1 out /\
    tr = [did Now t0; did (LookupPeer id) (Some ps); did (AcquireSlot (ps_cell ps)) true; did Now t1;
          did (StampLiveness (ps_cell ps) t1) tt] ++ tr1.
Proof.
  unfold with_slot. intros Hp.
  destruct tr as [|e tr]; [done |]. destruct Hp as (t0 & -> & Hp).
  destruct tr as [|e tr]; [done |]. destruct Hp as ([ps|] & -> & Hp).
  - destruct tr as [|e tr]; [done |]. destruct Hp as ([] & -> & Hp); cbn [negb] in Hp.
    + destruct tr as [|e tr]; [done |]. destruct Hp as (t1 & -> & Hp).
      destruct tr as [|e tr]; [done |]. destruct Hp as ([] & -> & Hp).
      right. by exists t0, ps, t1, tr.
    + left. apply produces_finish in Hp as [-> [t1 ->]]. by apply TraceBusy.
  - left. destruct tr as [|e tr]; [done |]. destruct Hp as ([] & -> & -> & ->). by apply TraceUnknown.
Qed.

Lemma no_nonce_cases id t0 tr out :
  produces (pbind (finish id ZERO_NONCE_HEX t0 OUTCOME_REASON_TRANSPORT_ERROR (CTransportError Backend))
              (fun o => Do DropPermit (fun _ => Done o))) tr out ->
  out = CTransportError Backend /\
  exists t1, tr = [did Now t1; audit_line id ZERO_NONCE_HEX t0 (epoch_millis t1) OUTCOME_REASON_TRANSPORT_ERROR;
                   did DropPermit tt].
Proof.
  intros Hp. apply produces_drop in Hp as (tr' & -> & Hp). apply produces_finish in Hp as [-> [t1 ->]].
  split; [done | by exists t1].
Qed.

Lemma start_challenge_cases id fixed tr out :
  produces (start_challenge id fixed) tr out -> challenge_trace id fixed tr out.
Proof.
  unfold start_challenge. intros Hp.
  destruct fixed as [m|];
    [apply (with_slot_cases id (Some m)) in Hp as [Hp|(t0 & ps & t1 & tr1 & Hp & ->)]
    |apply (with_slot_cases id None) in Hp as [Hp|(t0 & ps & t1 & tr1 & Hp & ->)]]; try exact Hp.
  - apply produces_drop in Hp as (tr' & -> & Hp). apply run_challenge_cases in Hp.
    refine (TraceRan id (Some m) t0 ps t1 m tr' out _ Hp). by intros m' [= ->].
  - destruct tr1 as [|e tr1]; [done |]. destruct Hp as ([n|] & -> & Hp).
    + apply produces_drop in Hp as (tr' & -> & Hp). apply run_challenge_cases in Hp.
      by refine (TraceRan id None t0 ps t1 n tr' out _ Hp).
    + apply (no_nonce_cases id _ tr1 out) in Hp as [-> [t2 ->]]. by apply TraceNoNonce.
Qed.

(** ** Steps of the daemon *)

(** Where a task of the next state comes from. *)
Inductive task_origin (y y' : Sys) (tid : nat) : challenge_task -> Prop :=
| OriginSame t t' :
    y_tasks y !! tid = Some t -> t_peer t' = t_peer t -> t_prog t' = t_prog t -> t_log t' = t_log t ->
    held (t_ctx t') = held (t_ctx t) -> task_origin y y' tid t'
| OriginNew id fixed :
    task_origin y y' tid (mkTask id (start_challenge id fixed) (mkCtx None false) [])
| OriginStep id o k x log ch a x' :
    y_tasks y !! tid = Some (mkTask id (Do o k) x log) -> exec o ch x (y_st y) = Stepped a x' (y_st y') ->
    task_origin y y' tid (mkTask id (k a) x' (log ++ [did o a])).

Lemma sys_step_origin y e tid t' :
  y_tasks (sys_step y e) !! tid = Some t' -> task_origin y (sys_step y e) tid t'.
Proof.
  destruct e as [n id fixed|n ch|n|n|tr| | |ch|c]; cbn [Orchestrator.sys_step].
  - destruct (y_tasks y !! n) eqn:E; [intros ?; by eapply OriginSame |]. cbn.
    destruct (decide (n = tid)) as [->|Hn].
    + rewrite lookup_insert_eq. intros [= <-]. apply OriginNew.
    + rewrite lookup_insert_ne by done. intros ?. by eapply OriginSame.
  - unfold Orchestrator.step_task. destruct (y_tasks y !! n) as [[id [out|o k] x log]|] eqn:E;
      [intros ?; by eapply OriginSame | | intros ?; by eapply OriginSame].
    destruct (exec o ch x (y_st y)) as [a x' s'| |s'] eqn:Ex; cbn.
    + destruct (decide (n = tid)) as [->|Hn].
      * rewrite lookup_insert_eq. intros [= <-]. by eapply OriginStep.
      * rewrite lookup_insert_ne by done. intros ?. by eapply OriginSame.
    + intros ?. by eapply OriginSame.
    + intros [_ Ht]%lookup_delete_Some. by eapply OriginSame.
  - cbn. destruct (decide (n = tid)) as [->|Hn].
    + rewrite lookup_alter_eq. destruct (y_tasks y !! tid) as [t|] eqn:E; [| done].
      intros [= <-]. by eapply OriginSame.
    + rewrite lookup_alter_ne by done. intros ?. by eapply OriginSame.
  - destruct (y_tasks y !! n) eqn:E; cbn; [| intros ?; by eapply OriginSame].
    intros [_ Ht]%lookup_delete_Some. by eapply OriginSame.
  - destruct (_ <? _); intros ?; by eapply OriginSame.
  - destruct (y_loop y) as [[?|? ?]|]; try (intros ?; by eapply OriginSame).
    destruct (y_queue y); intros ?; by eapply OriginSame.
  - destruct (y_loop y) as [[?|? ?]|]; intros ?; by eapply OriginSame.
  - unfold Orchestrator.step_loop. destruct (y_loop y) as [[?|o k]|]; try (intros ?; by eapply OriginSame).
    destruct (exec o ch loop_ctx (y_st y)); intros ?; by eapply OriginSame.
  - intros ?. by eapply OriginSame.
Qed.

(** A task has done what its log says, and its program is what is left. *)
Definition task_follows (t : challenge_task) : Prop :=
  exists fixed, forall tr out, produces (t_prog t) tr out ->
    produces (start_challenge (t_peer t) fixed) (t_log t ++ tr) out.

Definition tasks_follow (y : Sys) : Prop :=
  forall tid t, y_tasks y !! tid = Some t -> task_follows t.

Lemma sys_step_follow y e : tasks_follow y -> tasks_follow (sys_step y e).
Proof.
  intros Hy tid t' Ht. apply sys_step_origin in Ht. destruct Ht as [t t' Ht Hi Hp Hl _|id fixed|id o k x log ch a x' Ht _].
  - destruct (Hy tid t Ht) as [fixed Hf]. exists fixed. by rewrite Hi, Hp, Hl.
  - exists fixed. cbn. done.
  - destruct (Hy tid _ Ht) as [fixed Hf]. cbn in Hf. exists fixed. cbn. intros tr out Hp.
    rewrite <- app_assoc. apply Hf. cbn. eauto.
Qed.

(** ** Typestate of the permit

    [typed h p Q]: started with the permit [h], the program touches the phone
    and the nonce cache only with the permit of the peer, takes no second
    permit, leaves the registrations and the disk alone, and ends with a permit and a result as [Q] says. *)
Fixpoint typed {A} (h : option loc) (p : prog A) (Q : option loc -> A -> Prop) : Prop :=
  match p with
  | Done a => Q h a
  | Do o k =>
      match o return (ans o -> prog A) -> Prop with
      | AcquireSlot c => fun k => h = None /\ typed (Some c) (k true) Q /\ typed None (k false) Q
      | DropPermit => fun k => typed None (k tt) Q
      | NotifyChallenge _ _ => fun k => is_Some h /\ forall a, typed h (k a) Q
      | WaitForResponse _ _ => fun k => is_Some h /\ forall a, typed h (k a) Q
      | CheckNonce c _ => fun k => h = Some c /\ forall a, typed h (k a) Q
      | Now | LookupPeer _ | StampLiveness _ _ | FillNonce | AppendAudit _ => fun k => forall a, typed h (k a) Q
      | _ => fun _ => False
      end k
  end.

Lemma typed_bind {A B} (p : prog A) (f : A -> prog B) h Q :
  typed h p (fun h' a => typed h' (f a) Q) -> typed h (pbind p f) Q.
Proof.
  revert h. induction p as [a|o k IH]; intros h; [done |].
  destruct o; cbn in *; intros Hp; try done; try (intros a; by apply IH); try (destruct Hp as [? Hp]; split; [done |]; intros a; by apply IH).
  - destruct Hp as (? & ? & ?). split_and!; auto.
  - by apply IH.
Qed.

Definition released (h : option loc) (_ : ChallengeOutcome) : Prop := h = None.

Lemma typed_finish id hex t0 reason out h (Q : option loc -> ChallengeOutcome -> Prop) :
  Q h out -> typed h (finish id hex t0 reason out) Q.
Proof. by cbn. Qed.

Lemma typed_run id n deadline ps t0 (Q : option loc -> ChallengeOutcome -> Prop) :
  (forall out, Q (Some (ps_cell ps)) out) ->
  typed (Some (ps_cell ps)) (run_challenge id n deadline ps t0) Q.
Proof.
  intros HQ. unfold run_challenge. rewrite challenge_body. fold (challenge_frame ps n). rewrite challenge_encoded.
  split; [by eexists |]. intros [[]|err]; [| by apply typed_finish].
  split; [by eexists |]. intros [response|[]]; [| by apply typed_finish ..].
  unfold judge_response. repeat case_match; try by apply typed_finish.
  split; [done |]. intros []; by apply typed_finish.
Qed.

Lemma typed_with_slot id body :
  (forall ps t0, typed (Some (ps_cell ps)) (body ps t0) released) -> typed None (with_slot id body) released.
Proof.
  intros Hb t0 [ps|]; [| by intros []].
  split; [done |]. split; [| done]. intros t1 []. apply Hb.
Qed.

Lemma typed_start id fixed : typed None (start_challenge id fixed) released.
Proof.
  destruct fixed as [m|]; apply typed_with_slot; intros ps t0.
  - by apply typed_bind, typed_run.
  - intros [n|]; [by apply typed_bind, typed_run | done].
Qed.

Definition tasks_typed (y : Sys) : Prop :=
  forall tid t, y_tasks y !! tid = Some t -> typed (held (t_ctx t)) (t_prog t) released.

Lemma exec_typed {A} o ch x s a x' s' (k : ans o -> prog A) Q :
  exec o ch x s = Stepped a x' s' -> typed (held x) (Do o k) Q -> typed (held x') (k a) Q.
Proof.
  destruct o; cbn; unfold on_radio, on_disk; intros Hx Ht;
    repeat case_match; simplify_eq; cbn; try done; try exact (Ht _); try exact Ht;
    destruct Ht as [Hh Ht]; try exact (Ht _).
  - apply Ht.
  - rewrite Hh. apply Ht.
Qed.

Lemma sys_step_typed y e : tasks_typed y -> tasks_typed (sys_step y e).
Proof.
  intros Hy tid t' Ht. apply sys_step_origin in Ht.
  destruct Ht as [t t' Ht Hi Hp Hl Hh|id fixed|id o k x log ch a x' Ht Hx].
  - rewrite Hp, Hh. by apply (Hy tid).
  - apply typed_start.
  - cbn. refine (exec_typed o ch x _ a x' _ k released Hx _). exact (Hy tid _ Ht).
Qed.

(** ** Permits *)

(** What an operation may do to the cells and to the permit of its task. *)
Inductive cell_effect (x : ctx) (s : St) : ctx -> St -> Prop :=
| EffNone x' s' :
    held x' = held x -> s_cells s' = s_cells s -> s_next s' = s_next s -> cell_effect x s x' s'
| EffTouch x' s' c f :
    held x' = held x -> (forall cl, permits (f cl) = permits cl) -> s_cells s' = alter f c (s_cells s) ->
    s_next s' = s_next s -> cell_effect x s x' s'
| EffAcquire x' s' c cl :
    s_cells s !! c = Some cl -> 0 < permits cl -> held x' = Some c ->
    s_cells s' = alter (set_permits (permits cl - 1)) c (s_cells s) -> s_next s' = s_next s ->
    cell_effect x s x' s'
| EffDrop x' :
    held x' = None -> cell_effect x s x' (drop_permit x s)
| EffAlloc x' s' :
    held x' = held x -> s_cells s' = <[s_next s := Cell_new]> (s_cells s) -> s_next s' = S (s_next s) ->
    cell_effect x s x' s'.

Lemma append_audit_cells r s : s_cells (append_audit r s) = s_cells s /\ s_next (append_audit r s) = s_next s.
Proof. unfold append_audit. by destruct (s_audit s). Qed.

Lemma exec_effect o ch x s a x' s' : exec o ch x s = Stepped a x' s' -> cell_effect x s x' s'.
Proof.
  destruct o as [|id|c| |c t| |id fr|id dl|c n|r| |id| |id fr|id|id key|id|id key pk| |uu| | ];
    cbn; unfold on_radio, on_disk.
  3: { destruct (s_cells s !! c) as [cl|] eqn:E; [| done]. destruct (Z.ltb_spec 0 (permits cl)).
       - intros [= <- <- <-]. by eapply EffAcquire.
       - destruct (deadline_passed ch); [| done]. intros [= <- <- <-]. by apply EffNone. }
  3: { intros [= <- <- <-]. by apply EffDrop. }
  3: { intros [= <- <- <-]. by apply (EffTouch x s x _ c (stamp_liveness t)). }
  6: { destruct (s_cells s !! c) as [cl|] eqn:E; [| done].
       destruct (check_nonce n (nonce_cache cl)) as [replay cache]. intros [= <- <- <-].
       by apply (EffTouch x s x _ c (set_cache cache)). }
  6: { intros [= <- <- <-]. destruct (append_audit_cells r s). by apply EffNone. }
  13: { intros [= <- <- <-]. by apply EffAlloc. }
  all: intros Hx; repeat case_match; simplify_eq; by apply EffNone.
Qed.

Definition holds (y : Sys) (tid : nat) (c : loc) : Prop :=
  exists t, y_tasks y !! tid = Some t /\ held (t_ctx t) = Some c.

(** The permit of a cell is available, or exactly one task holds it. *)
Definition slot_ok (y : Sys) (c : loc) (cl : Cell) : Prop :=
  (permits cl = 1 /\ forall tid, ~ holds y tid c) \/
  (permits cl = 0 /\ exists tid, holds y tid c /\ forall tid', holds y tid' c -> tid' = tid).

Record slots_ok (y : Sys) : Prop := mkSlotsOk {
  slots_cells : forall c cl, s_cells (y_st y) !! c = Some cl -> slot_ok y c cl;
  slots_held : forall tid c, holds y tid c -> is_Some (s_cells (y_st y) !! c);
  slots_fresh : forall c cl, s_cells (y_st y) !! c = Some cl -> (c < s_next (y_st y))%nat;
}.

(** The task [tid] goes from the permit [h] to [h'], the others keep theirs. *)
Definition moves (y y' : Sys) (tid : nat) (h' : option loc) : Prop :=
  (forall c, holds y' tid c <-> h' = Some c) /\
  (forall n c, n <> tid -> holds y' n c <-> holds y n c).

Lemma slots_same y y' :
  slots_ok y -> (forall n c, holds y' n c <-> holds y n c) ->
  s_next (y_st y') = s_next (y_st y) ->
  (forall c cl', s_cells (y_st y') !! c = Some cl' ->
     exists cl, s_cells (y_st y) !! c = Some cl /\ permits cl' = permits cl) ->
  (forall c, is_Some (s_cells (y_st y) !! c) -> is_Some (s_cells (y_st y') !! c)) -> slots_ok y'.
Proof.
  intros [Hc Hh Hf] Hn Hx Hb Ha. split.
  - intros c cl' Hl. destruct (Hb c cl' Hl) as (cl & Hl' & Hp). unfold slot_ok. rewrite Hp.
    setoid_rewrite Hn. by apply Hc.
  - intros tid c Ht. apply Ha, (Hh tid), Hn, Ht.
  - intros c cl' Hl. rewrite Hx. destruct (Hb c cl' Hl) as (cl & Hl' & _). by apply (Hf c cl).
Qed.

Lemma lookup_alter_permits (m : gmap loc Cell) c f c' cl' :
  (forall cl, permits (f cl) = permits cl) -> alter f c m !! c' = Some cl' ->
  exists cl, m !! c' = Some cl /\ permits cl' = permits cl.
Proof.
  intros Hf. destruct (decide (c = c')) as [->|Hn].
  - rewrite lookup_alter_eq. destruct (m !! c') as [cl|]; [| done]. intros [= <-]. eauto.
  - rewrite lookup_alter_ne by done. eauto.
Qed.

Section effect.
Context (y y' : Sys) (tid : nat) (x x' : ctx).
Context (Hy : slots_ok y) (Hx : forall c, holds y tid c <-> held x = Some c) (Hm : moves y y' tid (held x')).

Lemma moves_same n c : held x' = held x -> holds y' n c <-> holds y n c.
Proof.
  intros He. destruct Hm as [Ht Ho]. destruct (decide (n = tid)) as [->|Hn]; [| by apply Ho].
  by rewrite Ht, Hx, He.
Qed.

Lemma acquire_slots c cl :
  s_cells (y_st y) !! c = Some cl -> 0 < permits cl -> held x' = Some c -> held x = None ->
  s_cells (y_st y') = alter (set_permits (permits cl - 1)) c (s_cells (y_st y)) ->
  s_next (y_st y') = s_next (y_st y) -> slots_ok y'.
Proof.
  intros Hc Hp Hh' Hh Hs Hn. destruct Hy as [Hcs Hhs Hf], Hm as [Ht Ho]. rewrite Hh' in Ht.
  assert (Hother : forall n c', c' <> c -> holds y' n c' <-> holds y n c').
  { intros n c' Hc'. destruct (decide (n = tid)) as [->|Hn']; [| by apply Ho]. rewrite Ht, Hx, Hh. naive_solver. }
  destruct (Hcs c cl Hc) as [[H1 Hnone]|[H0 _]]; [| lia]. split; rewrite Hs; [| |rewrite Hn].
  - intros c' cl' Hl. destruct (decide (c' = c)) as [->|Hc'].
    + rewrite lookup_alter_eq, Hc in Hl. injection Hl as <-. right. split; [cbn; lia |]. exists tid.
      split; [by apply Ht |]. intros n Hn'. destruct (decide (n = tid)); [done |].
      exfalso. apply (Hnone n). by apply Ho.
    + rewrite lookup_alter_ne in Hl by done. unfold slot_ok. setoid_rewrite Hother; [| done..]. by apply Hcs.
  - intros n c' Hh''. destruct (decide (c' = c)) as [->|Hc']; [rewrite lookup_alter_eq, Hc; by eexists |].
    rewrite lookup_alter_ne by done. by apply (Hhs n), Hother.
  - intros c' cl' Hl. apply lookup_alter_Some in Hl. naive_solver.
Qed.

Lemma release_slots :
  held x' = None -> s_cells (y_st y') = s_cells (drop_permit x (y_st y)) ->
  s_next (y_st y') = s_next (y_st y) -> slots_ok y'.
Proof.
  unfold drop_permit. intros Hh' Hs Hnx.
  assert (Hcase : held x = None \/ exists c, held x = Some c) by (destruct (held x); eauto).
  destruct Hcase as [Hh|[c Hh]]; rewrite Hh in Hs.
  { eapply slots_same; [exact Hy | | done | rewrite Hs; eauto | by rewrite Hs].
    intros n c. by apply moves_same; rewrite Hh'. }
  destruct Hy as [Hcs Hhs Hf], Hm as [Ht Ho]. rewrite Hh' in Ht.
  assert (Hc : holds y tid c) by by apply Hx.
  assert (Hother : forall n c', c' <> c -> holds y' n c' <-> holds y n c').
  { intros n c' Hc'. destruct (decide (n = tid)) as [->|Hn']; [| by apply Ho]. rewrite Ht, Hx, Hh. naive_solver. }
  split; rewrite Hs; cbn; [| | rewrite Hnx].
  - intros c' cl' Hl. destruct (decide (c' = c)) as [->|Hc'].
    + rewrite lookup_alter_eq in Hl. destruct (s_cells (y_st y) !! c) as [cl|] eqn:E; [| done].
      injection Hl as <-. left. destruct (Hcs c cl E) as [[_ Hno]|(H0 & t0 & Ht0 & Hu)]; [by destruct (Hno tid) |].
      split; [cbn; lia |]. intros n Hn. destruct (decide (n = tid)) as [->|Hn']; [by apply Ht in Hn |].
      apply Ho in Hn; [| done]. apply Hn'. by rewrite (Hu n Hn), (Hu tid Hc).
    + rewrite lookup_alter_ne in Hl by done. unfold slot_ok. setoid_rewrite Hother; [| done..]. by apply Hcs.
  - intros n c' Hh''. destruct (decide (c' = c)) as [->|Hc'].
    + destruct (Hhs tid c Hc) as [cl Hl]. rewrite lookup_alter_eq, Hl. by eexists.
    + rewrite lookup_alter_ne by done. by apply (Hhs n), Hother.
  - intros c' cl' Hl. apply lookup_alter_Some in Hl. naive_solver.
Qed.

Lemma alloc_slots :
  held x' = held x -> s_cells (y_st y') = <[s_next (y_st y) := Cell_new]> (s_cells (y_st y)) ->
  s_next (y_st y') = S (s_next (y_st y)) -> slots_ok y'.
Proof.
  intros Hh Hs Hn. assert (Hsame : forall n c, holds y' n c <-> holds y n c) by (intros; by apply moves_same).
  destruct Hy as [Hcs Hhs Hf]. split; rewrite Hs; [| |rewrite Hn].
  - intros c cl. destruct (decide (c = s_next (y_st y))) as [->|Hc].
    + rewrite lookup_insert_eq. intros [= <-]. left. split; [done |]. intros n Ht%Hsame.
      destruct (Hhs _ _ Ht) as [cl Hl]. apply Hf in Hl. lia.
    + rewrite lookup_insert_ne by done. intros Hl. unfold slot_ok. setoid_rewrite Hsame. by apply Hcs.
  - intros n c Ht%Hsame. apply lookup_insert_is_Some. right. split; [| by apply (Hhs n)].
    destruct (Hhs _ _ Ht) as [cl Hl]. apply Hf in Hl. lia.
  - intros c cl. rewrite lookup_insert_Some. intros [[<- _]|[_ Hl]]; [lia |]. apply Hf in Hl. lia.
Qed.

Lemma effect_slots :
  cell_effect x (y_st y) x' (y_st y') -> (held x = None \/ held x' = held x \/ held x' = None) -> slots_ok y'.
Proof.
  intros He Hk. inversion He as [x1 s1 Hh Hs Hn|x1 s1 c f Hh Hf Hs Hn|x1 s1 c cl Hc Hp Hh Hs Hn|x1 Hh Hx1 Hs|x1 s1 Hh Hs Hn];
    subst x1; try subst s1.
  - apply (slots_same y); [done | intros; by apply moves_same | done | rewrite Hs; eauto | by rewrite Hs].
  - apply (slots_same y); [done | intros; by apply moves_same | done | |]; rewrite Hs.
    + intros c' cl'. by apply lookup_alter_permits.
    + intros c'. by rewrite lookup_alter_is_Some.
  - destruct Hk as [Hk|[Hk|Hk]]; [by eapply acquire_slots | | congruence].
    destruct Hy as [Hcs _ _]. destruct (Hcs c cl Hc) as [[_ Hno]|[H0 _]]; [| lia].
    destruct (Hno tid). apply Hx. congruence.
  - apply release_slots; [done | by rewrite <- Hs |]. rewrite <- Hs. unfold drop_permit. by destruct (held x).
  - by apply alloc_slots.
Qed.
End effect.

(** ** The orchestrator's loop *)

(** The loop never takes a slot or talks for a challenge; it registers only the
    pairs of an identifier and a key that satisfy [P], given stores that do. *)
Fixpoint loop_ok (P : str -> list Z -> Prop) {A} (p : prog A) (Q : A -> Prop) : Prop :=
  match p with
  | Done a => Q a
  | Do o k =>
      match o return (ans o -> prog A) -> Prop with
      | LookupPeer _ | AcquireSlot _ | DropPermit | StampLiveness _ _ | FillNonce | NotifyChallenge _ _
      | WaitForResponse _ _ | CheckNonce _ _ | AppendAudit _ => fun _ => False
      | InsertEntry id _ pk => fun k => P id pk /\ forall a, loop_ok P (k a) Q
      | LoadStore => fun k => forall r,
          (forall store, r = Ok store -> Forall (fun b => P (peer_id b) (pubkey b)) (bonds store)) ->
          loop_ok P (k r) Q
      | _ => fun k => forall a, loop_ok P (k a) Q
      end k
  end.

Section loop.
Context (P : str -> list Z -> Prop).

Lemma loop_ok_bind {A B} (p : prog A) (f : A -> prog B) Q :
  loop_ok P p (fun a => loop_ok P (f a) Q) -> loop_ok P (pbind p f) Q.
Proof.
  induction p as [a|o k IH]; [done |].
  destruct o; cbn in *; intros Hp; try done; try (intros a; by apply IH).
  - intros r Hr. by apply IH, Hp.
  - destruct Hp as [? Hp]. split; [done |]. intros a. by apply IH.
Qed.

Lemma loop_ok_rotate now (Q : unit -> Prop) : Q tt -> loop_ok P (rotate_once now) Q.
Proof. by cbn. Qed.

Lemma loop_ok_collect l out Q :
  (forall m, Q m) -> loop_ok P (collect_keys l out) Q.
Proof.
  intros HQ. revert out. induction l as [|b l IH]; intros out; cbn [collect_keys]; [apply HQ |].
  destruct (Bond_is_revoked b); [apply IH |]. intros [key|]; apply IH.
Qed.

Lemma loop_ok_remove_all l (Q : unit -> Prop) : Q tt -> loop_ok P (remove_all l) Q.
Proof.
  intros HQ. induction l as [|id l IH]; [done |]. cbn [remove_all]. apply loop_ok_bind.
  assert (Hd : loop_ok P (pbind (do_remove_peer id) (fun _ => remove_all l)) Q)
    by (intros [[]|e]; [intros [] |]; exact IH).
  unfold send_revoke_notice. repeat case_match; [intros ? | |]; exact Hd.
Qed.

Lemma loop_ok_add_all store new_set l (Q : unit -> Prop) :
  Forall (fun b => P (peer_id b) (pubkey b)) (bonds store) -> Q tt -> loop_ok P (add_all store new_set l) Q.
Proof.
  intros Hs HQ. induction l as [|id l IH]; [done |]. cbn [add_all]. apply loop_ok_bind.
  destruct (new_set !! id) as [key|]; [| exact IH]. unfold do_add_peer.
  destruct (find_bond id (BondStore_list store)) as [b|] eqn:E; [| exact IH].
  apply find_bond_in in E as [Hb <-]. rewrite List.Forall_forall in Hs.
  intros [[]|e]; [| exact IH]. split; [by apply Hs |]. by intros [].
Qed.

Lemma loop_ok_reload trigger : loop_ok P (run_reload trigger) (fun _ => True).
Proof.
  intros [store|e] Hs; [| done]. specialize (Hs store eq_refl).
  unfold reload_bonds_with_trigger. apply loop_ok_bind, loop_ok_collect. intros new_set.
  intros current. cbn [pbind]. apply loop_ok_bind, loop_ok_remove_all, loop_ok_bind, loop_ok_add_all; [done |].
  intros after exit. apply loop_ok_bind. repeat case_match; by intros.
Qed.
End loop.

(** ** Accepted nonces *)

Definition accepted_on (c : loc) (l : list (loc * list Z)) : list (list Z) :=
  (filter (fun x => x.1 = c) l).*2.

(** Equal elements are more than 64 places apart. *)
Definition spaced (l : list (list Z)) : Prop :=
  forall i j n, l !! i = Some n -> l !! j = Some n -> (i < j)%nat -> (64 < j - i)%nat.

Lemma spaced_snoc l n : spaced l -> n ∉ last_n 64 l -> spaced (l ++ [n]).
Proof.
  intros Hl Hn i j m Hi Hj Hij. rewrite lookup_app in Hi, Hj.
  destruct (l !! i) as [a|] eqn:Ei; [| apply lookup_ge_None in Ei; destruct (l !! j) as [b|] eqn:Ej;
    [apply lookup_lt_Some in Ej; lia |
     apply lookup_ge_None in Ej; apply list_lookup_singleton_Some in Hi, Hj; lia]].
  injection Hi as ->. destruct (l !! j) as [b|] eqn:Ej; [injection Hj as ->; by eapply Hl |].
  apply list_lookup_singleton_Some in Hj as [Hj <-]. apply lookup_ge_None in Ej.
  destruct (decide (64 < j - i)%nat) as [|Hlt]; [done |]. exfalso. apply Hn. unfold last_n.
  pose proof (lookup_lt_Some _ _ _ Ei). apply list_elem_of_lookup. exists (i - (length l - 64))%nat.
  rewrite lookup_drop. rewrite <- Ei. f_equal. lia.
Qed.

Lemma accepted_on_app c l k : accepted_on c (l ++ k) = accepted_on c l ++ accepted_on c k.
Proof. unfold accepted_on. by rewrite filter_app, fmap_app. Qed.

(** What a step does to the caches, with the nonces it accepts. *)
Inductive cache_effect (s s' : St) : list (loc * list Z) -> Prop :=
| CacheKeep :
    (forall c cl', s_cells s' !! c = Some cl' ->
       (exists cl, s_cells s !! c = Some cl /\ nonce_cache cl' = nonce_cache cl) \/
       (c = s_next s /\ nonce_cache cl' = NonceCache_new)) ->
    (forall c, is_Some (s_cells s !! c) -> is_Some (s_cells s' !! c)) -> cache_effect s s' []
| CacheAccept c n cl :
    s_cells s !! c = Some cl -> n ∉ nonces (nonce_cache cl) ->
    s_cells s' = alter (set_cache (NonceCache_insert (nonce_cache cl) n)) c (s_cells s) ->
    cache_effect s s' [(c, n)].

Lemma cache_keep_alter (s s' : St) c f :
  (forall cl, nonce_cache (f cl) = nonce_cache cl) -> s_cells s' = alter f c (s_cells s) -> cache_effect s s' [].
Proof.
  intros Hf Hs. apply CacheKeep; rewrite Hs.
  - intros c' cl' Hl. left. apply lookup_alter_Some in Hl as [(<- & cl & Hc & ->)|[_ Hc]]; eauto.
  - intros c' Hc. by apply lookup_alter_is_Some.
Qed.

Lemma cache_keep_same (s s' : St) : s_cells s' = s_cells s -> cache_effect s s' [].
Proof. intros Hs. apply CacheKeep; rewrite Hs; eauto. Qed.

Lemma drop_permit_caches x s : cache_effect s (drop_permit x s) [].
Proof. unfold drop_permit. destruct (held x); [by eapply cache_keep_alter; [| reflexivity] | by apply cache_keep_same]. Qed.

Lemma check_nonce_caches s c cl n :
  s_cells s !! c = Some cl -> let '(replay, cache) := check_nonce n (nonce_cache cl) in
  cache_effect s (update_cell c (set_cache cache) s) (if replay then [] else [(c, n)]).
Proof.
  intros Hc. unfold check_nonce. destruct (NonceCache_contains (nonce_cache cl) n) eqn:E.
  - apply CacheKeep; cbn.
    + intros c' cl' Hl. left. apply lookup_alter_Some in Hl as [(<- & cl0 & Hc0 & ->)|[_ Hc0]]; [| by eauto].
      exists cl0. split; [done |]. cbn. congruence.
    + intros c' Hc'. by apply lookup_alter_is_Some.
  - apply (CacheAccept _ _ c n cl); [done | | done]. rewrite <- cache_contains_spec. by rewrite E.
Qed.

Lemma exec_caches o ch x s a x' s' :
  exec o ch x s = Stepped a x' s' -> cache_effect s s' (accepts o a).
Proof.
  destruct o as [|id|c| |c t| |id fr|id dl|c n|r| |id| |id fr|id|id key|id|id key pk| |uu| | ];
    cbn; unfold on_radio, on_disk.
  3: { destruct (s_cells s !! c) as [cl|] eqn:E; [| done]. destruct (Z.ltb_spec 0 (permits cl)).
       - intros [= <- <- <-]. by eapply cache_keep_alter; [| reflexivity].
       - destruct (deadline_passed ch); [| done]. intros [= <- <- <-]. by apply cache_keep_same. }
  3: { intros [= <- <- <-]. apply drop_permit_caches. }
  3: { intros [= <- <- <-]. by eapply cache_keep_alter; [| reflexivity]. }
  6: { destruct (s_cells s !! c) as [cl|] eqn:E; [| done]. pose proof (check_nonce_caches s c cl n E) as Hc.
       destruct (check_nonce n (nonce_cache cl)) as [replay cache]. intros [= <- <- <-]. exact Hc. }
  6: { intros [= <- <- <-]. apply cache_keep_same, append_audit_cells. }
  13: { intros [= <- <- <-]. apply CacheKeep; cbn.
        - intros c cl. rewrite lookup_insert_Some. intros [[<- <-]|[_ Hc]]; [by right | left; eauto].
        - intros c Hc. apply lookup_insert_is_Some'. by right. }
  all: intros Hx; repeat case_match; simplify_eq; by apply cache_keep_same.
Qed.

Record caches_ok (y : Sys) : Prop := mkCachesOk {
  caches_tail : forall c cl, s_cells (y_st y) !! c = Some cl ->
    nonce_cache cl = mkCache (last_n 64 (accepted_on c (y_accepted y)));
  caches_spaced : forall c : loc, spaced (accepted_on c (y_accepted y));
  caches_known : forall c : loc, (s_next (y_st y) <= c)%nat -> accepted_on c (y_accepted y) = [];
}.

Lemma effect_next x s x' s' : cell_effect x s x' s' -> (s_next s <= s_next s')%nat.
Proof. intros He. inversion He; subst; try lia. unfold drop_permit. by destruct (held x). Qed.

Lemma caches_step y y' new :
  caches_ok y -> slots_ok y -> cache_effect (y_st y) (y_st y') new ->
  y_accepted y' = y_accepted y ++ new -> (s_next (y_st y) <= s_next (y_st y'))%nat -> caches_ok y'.
Proof.
  intros [Ht Hs Hk] Hsl He Ha Hn. destruct He as [Hold Hdom|c n cl Hc Hnew Hs'].
  - rewrite app_nil_r in Ha. split; rewrite Ha; [| done | intros c Hc; apply Hk; lia].
    intros c cl' Hl. destruct (Hold c cl' Hl) as [(cl & Hc & ->)|[-> ->]]; [by apply Ht |].
    by rewrite Hk by lia.
  - rewrite (Ht c cl Hc) in Hnew, Hs'. cbn in Hnew. rewrite cache_insert_last in Hs'.
    assert (Hone : forall c', accepted_on c' (y_accepted y') =
      if decide (c' = c) then accepted_on c (y_accepted y) ++ [n] else accepted_on c' (y_accepted y)).
    { intros c'. rewrite Ha, accepted_on_app. unfold accepted_on at 2. rewrite filter_cons, filter_nil. cbn.
      destruct (decide (c' = c)) as [->|Hne]; [by rewrite decide_True | rewrite decide_False by done; apply app_nil_r]. }
    split.
    + intros c' cl' Hl. rewrite Hone. rewrite Hs' in Hl. destruct (decide (c' = c)) as [->|Hne].
      * rewrite lookup_alter_eq, Hc in Hl. by injection Hl as <-.
      * rewrite lookup_alter_ne in Hl by done. by apply Ht.
    + intros c'. rewrite Hone. destruct (decide (c' = c)) as [->|Hne]; [by apply spaced_snoc | done].
    + intros c' Hc'. rewrite Hone. destruct (decide (c' = c)) as [->|Hne]; [| apply Hk; lia].
      destruct Hsl as [_ _ Hf]. apply Hf in Hc. lia.
Qed.

(** ** Registered keys *)

Definition looked_up (e : answered) : list (str * list Z) :=
  match projT1 e as o return ans o -> list (str * list Z) with
  | LookupPeer id => fun found => match found with Some ps => [(id, ps_phone_pubkey ps)] | None => [] end
  | _ => fun _ => []
  end (projT2 e).

Definition entries_ok (P : str -> list Z -> Prop) (s : St) : Prop :=
  forall id e pk, s_peers s !! id = Some e -> phone_pubkey e = Some pk -> P id pk.

Lemma exec_looked_up P o ch x s a x' s' :
  exec o ch x s = Stepped a x' s' -> entries_ok P s -> Forall (fun x => P x.1 x.2) (looked_up (did o a)).
Proof.
  destruct o as [|id|c| |c t| |id fr|id dl|c n|r| |id| |id fr|id|id key|id|id key pk| |uu| | ];
    try (intros; by constructor).
  cbn. intros [= <- <- <-] He. unfold lookup_peer. destruct (s_peers s !! id) as [e|] eqn:E; [| constructor].
  destruct (phone_pubkey e) as [pk|] eqn:Ep; constructor; [| constructor]. by apply (He id e).
Qed.

Lemma exec_entries P o ch x s a x' s' :
  exec o ch x s = Stepped a x' s' -> (forall id key pk, o = InsertEntry id key pk -> P id pk) ->
  entries_ok P s -> entries_ok P s'.
Proof.
  intros Hx Hp He. unfold entries_ok.
  assert (Hs : s_peers s' = s_peers s \/ (exists id, s_peers s' = delete id (s_peers s)) \/
    (exists id key pk, o = InsertEntry id key pk /\ s_peers s' = <[id := mkEntry key (Some pk) (s_next s)]> (s_peers s))).
  { revert Hx. destruct o as [|id|c| |c t| |id fr|id dl|c n|r| |id| |id fr|id|id key|id|id key pk| |uu| | ];
      cbn; unfold on_radio, on_disk; intros Hx; repeat case_match; simplify_eq; try (left; done).
    - left. unfold drop_permit. by destruct (held x).
    - left. unfold append_audit. by destruct (s_audit s).
    - right. left. by exists id.
    - right. right. by exists id, key, pk. }
  destruct Hs as [->|[[id ->]|(id & key & pk & Ho & ->)]].
  - exact He.
  - intros i e q Hl. apply lookup_delete_Some in Hl as [_ Hl]. by apply He.
  - intros i e q. rewrite lookup_insert_Some. intros [[<- <-]|[_ Hl]]; [cbn; intros [= <-]; by eapply Hp | by apply He].
Qed.

(** ** The invariant of the daemon *)

(** The identifier of a peer is derived from its key. *)
Definition own_id (id : str) (pk : list Z) : Prop := id = peer_id_from_pubkey pk.

Record sys_inv (y : Sys) : Prop := mkInv {
  inv_follow : tasks_follow y;
  inv_typed : tasks_typed y;
  inv_slots : slots_ok y;
  inv_caches : caches_ok y;
  inv_loop : forall p, y_loop y = Some p -> loop_ok own_id p (fun _ => True);
  inv_entries : entries_ok own_id (y_st y);
  inv_lookups : forall tid t, y_tasks y !! tid = Some t ->
    Forall (fun e => Forall (fun x => own_id x.1 x.2) (looked_up e)) (t_log t);
}.

(** A step that leaves the cells, the entries and the permits alone. *)
Definition quiet (y y' : Sys) : Prop :=
  s_cells (y_st y') = s_cells (y_st y) /\ s_next (y_st y') = s_next (y_st y) /\
  s_peers (y_st y') = s_peers (y_st y) /\ y_accepted y' = y_accepted y /\
  forall n c, holds y' n c <-> holds y n c.

Lemma quiet_inv y y' :
  sys_inv y -> quiet y y' -> slots_ok y' /\ caches_ok y' /\ entries_ok own_id (y_st y').
Proof.
  intros [_ _ Hs Hc _ He _] (H1 & H2 & H3 & H4 & H5). split_and!.
  - apply (slots_same y); [done | done | done | rewrite H1; eauto | by rewrite H1].
  - apply (caches_step y y' []); [done | done | by apply cache_keep_same | by rewrite app_nil_r | lia].
  - unfold entries_ok. by rewrite H3.
Qed.

(** The permits the tasks hold, as a map. *)
Definition permits_of (y : Sys) (n : nat) : option loc :=
  match y_tasks y !! n with Some t => held (t_ctx t) | None => None end.

Lemma holds_permits y n c : holds y n c <-> permits_of y n = Some c.
Proof.
  unfold holds, permits_of. split; [by intros (t & -> & ?) |].
  destruct (y_tasks y !! n) as [t|]; [by exists t | done].
Qed.

Lemma quiet_permits y y' :
  (forall n, permits_of y' n = permits_of y n) -> forall n c, holds y' n c <-> holds y n c.
Proof. intros Hp n c. by rewrite !holds_permits, Hp. Qed.

Lemma permits_insert y n t m :
  permits_of (set_tasks (<[n := t]> (y_tasks y)) y) m =
  if decide (m = n) then held (t_ctx t) else permits_of y m.
Proof.
  unfold permits_of. cbn. destruct (decide (m = n)) as [->|Hm];
    [by rewrite lookup_insert_eq | by rewrite lookup_insert_ne].
Qed.

Lemma exec_held {A} o ch x s a x' s' (k : ans o -> prog A) Q :
  exec o ch x s = Stepped a x' s' -> typed (held x) (Do o k) Q ->
  held x = None \/ held x' = held x \/ held x' = None.
Proof.
  destruct o; cbn; unfold on_radio, on_disk; intros Hx Ht; repeat case_match; simplify_eq; cbn; auto.
  left. apply Ht.
Qed.

Lemma exec_crash {A} o ch x s s' (k : ans o -> prog A) Q :
  exec o ch x s = Crashed s' -> ~ typed (held x) (Do o k) Q.
Proof. destruct o; cbn; unfold on_radio; intros Hx; repeat case_match; simplify_eq; by intros []. Qed.

Lemma step_task_inv tid ch y :
  sys_inv y -> slots_ok (step_task tid ch y) /\ caches_ok (step_task tid ch y) /\
    entries_ok own_id (y_st (step_task tid ch y)).
Proof.
  intros [Hfo Hty Hs Hc _ He _]. unfold Orchestrator.step_task.
  destruct (y_tasks y !! tid) as [[id [out|o k] x log]|] eqn:E; [done | | done].
  assert (Hx : forall c, holds y tid c <-> held x = Some c)
    by (intros c; rewrite holds_permits; unfold permits_of; by rewrite E).
  pose proof (Hty tid _ E) as Ht. cbn [t_ctx t_prog] in Ht.
  destruct (exec o ch x (y_st y)) as [a x' s'| |s'] eqn:Ex; [| done |].
  2: { by destruct (exec_crash o ch x _ s' k released Ex). }
  set (y' := mkSys s' _ _ _ _).
  assert (Hm : moves y y' tid (held x')).
  { split; intros; rewrite ?holds_permits; unfold permits_of, y'; cbn.
    - by rewrite lookup_insert_eq.
    - by rewrite lookup_insert_ne by done. }
  pose proof (exec_effect _ _ _ _ _ _ _ Ex) as Heff. split_and!.
  - apply (effect_slots y y' tid x x' Hs Hx Hm Heff).
    by apply (exec_held o ch x (y_st y) a x' s' k released Ex).
  - apply (caches_step y y' (accepts o a)); [done | done | by apply (exec_caches o ch x _ a x') | done |].
    by apply (effect_next x _ x').
  - apply (exec_entries own_id o ch x (y_st y) a x' s' Ex); [| done]. by intros id' key pk ->.
Qed.

Lemma loop_next {A} o ch s a x' s' (k : ans o -> prog A) Q :
  exec o ch loop_ctx s = Stepped a x' s' -> loop_ok own_id (Do o k) Q ->
  loop_ok own_id (k a) Q /\ (forall id key pk, o = InsertEntry id key pk -> own_id id pk) /\
  accepts o a = [] /\ held x' = None.
Proof.
  destruct o as [|id|c| |c t| |id fr|id dl|c n|r| |id| |id fr|id|id key|id|id key pk| |uu| | ];
    cbn; unfold on_radio, on_disk; intros Hx Hp; try done.
  2: { destruct (BondStore_load bonds_file (s_world s)) as [[r| |] w] eqn:El; simplify_eq.
       split_and!; [| done..]. apply Hp. intros store ->. apply (load_ids bonds_file (s_world s)). by rewrite El. }
  8: { simplify_eq. destruct Hp as [Hp Hk]. split_and!; [apply Hk | | done | done]. by intros ? ? ? [= -> -> ->]. }
  all: repeat case_match; simplify_eq; by split_and!; [apply Hp | | |].
Qed.

Lemma exec_crash_quiet o ch x s s' :
  exec o ch x s = Crashed s' -> s_cells s' = s_cells s /\ s_next s' = s_next s /\ s_peers s' = s_peers s.
Proof. destruct o; cbn; unfold on_radio, on_disk; intros Hx; repeat case_match; by simplify_eq. Qed.

Lemma step_loop_inv ch y :
  sys_inv y -> slots_ok (step_loop ch y) /\ caches_ok (step_loop ch y) /\
    entries_ok own_id (y_st (step_loop ch y)) /\
    forall p, y_loop (step_loop ch y) = Some p -> loop_ok own_id p (fun _ => True).
Proof.
  intros Hy. pose proof Hy as [Hfo Hty Hs Hc Hl He _]. unfold Orchestrator.step_loop.
  destruct (y_loop y) as [[[]|o k]|] eqn:E; [by rewrite E | | by rewrite E].
  specialize (Hl _ eq_refl).
  destruct (exec o ch loop_ctx (y_st y)) as [a x' s'| |s'] eqn:Ex.
  - destruct (loop_next o ch _ a x' s' k _ Ex Hl) as (Hk & Hp & Ha & Hh).
    set (y' := set_loop (Some (k a)) (set_st s' y)). pose proof (exec_effect _ _ _ _ _ _ _ Ex) as Heff.
    set (tid := fresh (dom (y_tasks y))).
    assert (Hfr : y_tasks y !! tid = None) by (apply not_elem_of_dom, is_fresh).
    assert (Hno : forall z c, y_tasks z = y_tasks y -> holds z tid c <-> None = Some c).
    { intros z c Hz. rewrite holds_permits. unfold permits_of. by rewrite Hz, Hfr. }
    split_and!.
    + apply (effect_slots y y' tid loop_ctx x' Hs); [intros c; by apply Hno | | exact Heff | by left].
      rewrite Hh. split; [intros c; by apply Hno | done].
    + apply (caches_step y y' (accepts o a)); [done | done | by apply (exec_caches o ch loop_ctx _ a x') | |].
      * by rewrite Ha, app_nil_r.
      * by apply (effect_next loop_ctx _ x').
    + by apply (exec_entries own_id o ch loop_ctx (y_st y) a x' s' Ex).
    + by intros p [= <-].
  - rewrite E. split_and!; try done. by intros p [= <-].
  - apply exec_crash_quiet in Ex as (H1 & H2 & H3).
    destruct (quiet_inv y (set_loop None (set_st s' y)) Hy) as (? & ? & ?); [by split_and! |]. by split_and!.
Qed.

Lemma drop_task_inv tid t y :
  sys_inv y -> y_tasks y !! tid = Some t ->
  let y' := set_tasks (delete tid (y_tasks y)) (set_st (drop_permit (t_ctx t) (y_st y)) y) in
  slots_ok y' /\ caches_ok y' /\ entries_ok own_id (y_st y').
Proof.
  intros [Hfo Hty Hs Hc Hl He _] E y'.
  assert (Hd : forall x s, s_next (drop_permit x s) = s_next s /\ s_peers (drop_permit x s) = s_peers s)
    by (intros x s; unfold drop_permit; by destruct (held x)).
  destruct (Hd (t_ctx t) (y_st y)) as [Hn Hp]. split_and!.
  - apply (release_slots y y' tid (t_ctx t) (mkCtx None false) Hs); [| | done | done | done].
    + intros c. rewrite holds_permits. unfold permits_of. by rewrite E.
    + split; intros; rewrite !holds_permits; unfold permits_of, y'; cbn.
      * by rewrite lookup_delete_eq.
      * by rewrite lookup_delete_ne by done.
  - apply (caches_step y y' []); [done | done | apply drop_permit_caches | by rewrite app_nil_r |]. cbn. lia.
  - unfold entries_ok. cbn. by rewrite Hp.
Qed.

(** Every step keeps the permits, the caches and the registrations in order. *)
Lemma sys_step_shared y e :
  sys_inv y -> slots_ok (sys_step y e) /\ caches_ok (sys_step y e) /\ entries_ok own_id (y_st (sys_step y e)) /\
    forall p, y_loop (sys_step y e) = Some p -> loop_ok own_id p (fun _ => True).
Proof.
  intros Hy. pose proof Hy as [_ _ Hs Hc Hl He _].
  destruct e as [n id fixed|n ch|n|n|tr| | |ch|c]; cbn [Orchestrator.sys_step].
  - destruct (y_tasks y !! n) eqn:E; [done |].
    destruct (quiet_inv y (set_tasks (<[n := mkTask id (start_challenge id fixed) (mkCtx None false) []]> (y_tasks y)) y) Hy)
      as (? & ? & ?); [| by split_and!]. split_and!; try done. apply quiet_permits. intros m.
    rewrite permits_insert. destruct (decide (m = n)) as [->|]; [| done]. unfold permits_of. by rewrite E.
  - destruct (step_task_inv n ch y Hy) as (? & ? & ?). split_and!; try done.
    unfold Orchestrator.step_task. repeat case_match; done.
  - match goal with |- slots_ok ?z /\ _ => destruct (quiet_inv y z Hy) as (? & ? & ?); [| by split_and!] end.
    split_and!; try done. apply quiet_permits. intros m. unfold permits_of. cbn.
    destruct (decide (m = n)) as [->|Hm]; [| by rewrite lookup_alter_ne].
    rewrite lookup_alter_eq. by destruct (y_tasks y !! n).
  - destruct (y_tasks y !! n) as [t|] eqn:E; [| done].
    destruct (drop_task_inv n t y Hy E) as (? & ? & ?). by split_and!.
  - destruct (_ <? _); [| done]. destruct (quiet_inv y (set_reloads (y_queue y ++ [tr]) y) Hy) as (? & ? & ?);
      by split_and!.
  - destruct (y_loop y) as [[[]|o k]|] eqn:E; [| by rewrite E..].
    destruct (y_queue y) as [|tr q]; [by rewrite E |].
    destruct (quiet_inv y (set_loop (Some (run_reload tr)) (set_reloads q y)) Hy) as (? & ? & ?); [by split_and! |].
    split_and!; try done. intros p [= <-]. apply loop_ok_reload.
  - destruct (y_loop y) as [[[]|o k]|] eqn:E; [| by rewrite E..].
    destruct (quiet_inv y (set_loop (Some (Do Now (fun now => rotate_once now))) y) Hy) as (? & ? & ?); [by split_and! |].
    split_and!; try done. by intros p [= <-].
  - by apply step_loop_inv.
  - destruct (quiet_inv y (set_st (set_time c (y_st y)) y) Hy) as (? & ? & ?); by split_and!.
Qed.

Lemma sys_step_inv y e : sys_inv y -> sys_inv (sys_step y e).
Proof.
  intros Hy. destruct (sys_step_shared y e Hy) as (Hs & Hc & He & Hl). pose proof Hy as [Hf Ht _ _ _ Hen Hlk].
  split; [by apply sys_step_follow | by apply sys_step_typed | done | done | done | done |].
  intros tid t' Ht'. apply sys_step_origin in Ht'.
  destruct Ht' as [t t' Ht' _ _ Hlog _|id fixed|id o k x log ch a x' Ht' Ex].
  - rewrite Hlog. by apply (Hlk tid).
  - constructor.
  - cbn. apply Forall_app. split; [exact (Hlk tid _ Ht') |]. constructor; [| constructor].
    by apply (exec_looked_up own_id o ch x (y_st y) a x' _ Ex).
Qed.

Lemma sys_run_inv y es : sys_inv y -> sys_inv (sys_run y es).
Proof. revert y. induction es as [|e es IH]; intros y Hy; [done |]. apply IH, sys_step_inv, Hy. Qed.

(** The state the daemon starts from: entries with cells of their own, permits
    available, no nonce seen. *)
Record fresh_state (s : St) : Prop := mkFresh {
  fresh_cells : forall c cl, s_cells s !! c = Some cl -> cl = Cell_new /\ (c < s_next s)%nat;
  fresh_ids : entries_ok own_id s;
}.

Lemma start_inv s : fresh_state s -> sys_inv (sys_start s).
Proof.
  intros [Hc He]. split; try done.
  - split; cbn; [| by intros ? ? (? & ? & _) | naive_solver].
    intros c cl [-> _]%Hc. left. split; [done |]. by intros ? (? & ? & _).
  - split; cbn; [| by intros c i j n | done]. by intros c cl [-> _]%Hc.
  - by intros p [= <-].
Qed.

Lemma with_peers_fresh p peers w audit now :
  Forall (fun x => peer_id x.1 = peer_id_from_pubkey (pubkey x.1)) peers ->
  fresh_state (with_peers_and_audit p peers w audit now).
Proof.
  unfold with_peers_and_audit. set (s0 := mkSt p ∅ ∅ O w audit false false now).
  assert (Hf : fresh_state s0) by by split. clearbody s0. revert s0 Hf.
  induction peers as [|[b key] peers IH]; intros s0 Hf Hp; [done |].
  apply Forall_cons in Hp as [Hb Hp]. cbn [foldl]. apply IH; [| done]. destruct Hf as [Hc He]. split; cbn.
  - intros c cl. rewrite lookup_insert_Some. intros [[<- <-]|[_ Hl]]; [split; [done | lia] |].
    apply Hc in Hl as [-> ?]. split; [done | lia].
  - intros id e pk. cbn. rewrite lookup_insert_Some. intros [[<- <-]|[_ Hl]]; [intros [= <-]; exact Hb | by apply He].
Qed.

(** ** Properties *)

Lemma reachable_inv p peers w audit now es :
  Forall (fun x => peer_id x.1 = peer_id_from_pubkey (pubkey x.1)) peers ->
  sys_inv (sys_run (sys_start (with_peers_and_audit p peers w audit now)) es).
Proof. intros Hp. by apply sys_run_inv, start_inv, with_peers_fresh. Qed.

Lemma finished_trace y tid t out :
  sys_inv y -> y_tasks y !! tid = Some t -> t_prog t = Done out ->
  exists fixed, challenge_trace (t_peer t) fixed (t_log t) out.
Proof.
  intros [Hf _ _ _ _ _ _] Ht Hd. destruct (Hf tid t Ht) as [fixed Hp]. exists fixed.
  apply start_challenge_cases. rewrite <- (app_nil_r (t_log t)). apply Hp. by rewrite Hd.
Qed.

(** What stands behind a challenge that returned [COk sig]: its whole log. *)
Definition authentic (t : challenge_task) (sig : Signature) : Prop :=
  exists ps n response t0 t1 t2 fill,
    t_log t =
      [did Now t0; did (LookupPeer (t_peer t)) (Some ps); did (AcquireSlot (ps_cell ps)) true; did Now t1;
       did (StampLiveness (ps_cell ps) t1) tt] ++ fill ++
      [did (NotifyChallenge (t_peer t) (frame_wire (challenge_frame ps n))) (Ok tt);
       did (WaitForResponse (t_peer t) DEFAULT_AUTH_TIMEOUT) (Ok response);
       did (CheckNonce (ps_cell ps) n) false; did Now t2;
       audit_line (t_peer t) (bytes_to_hex n) (epoch_millis t0) (epoch_millis t2) OUTCOME_REASON_OK;
       did DropPermit tt] /\
    (fill = [did FillNonce (Some n)] \/ fill = []) /\
    signed_by_phone ps n response sig /\
    t_peer t = peer_id_from_pubkey (ps_phone_pubkey ps).

Lemma ok_authentic y tid t sig :
  sys_inv y -> y_tasks y !! tid = Some t -> t_prog t = Done (COk sig) -> authentic t sig.
Proof.
  intros Hy Htask Hdone.
  destruct (finished_trace _ tid t _ Hy Htask Hdone) as [fixed Htr]. pose proof (inv_lookups _ Hy tid t Htask) as Hlk.
  inversion Htr as [| |t0 ps t1 t2 Hf Hl Ho|t0 ps t1 n tr out Hf Hr Hl Ho]; subst.
  inversion Hr as [err u Hl' Ho'|err u Hl' Ho'| | |response sig' t2 Hs]; subst; [by destruct err | by destruct err |].
  exists ps, n, response, t0, t1, t2, (match fixed with Some _ => [] | None => [did FillNonce (Some n)] end).
  split_and!; [done | destruct fixed; auto | done |].
  rewrite <- Hl in Hlk. apply Forall_cons in Hlk as [_ Hlk].
  apply Forall_cons in Hlk as [Hlk _]. by apply Forall_cons in Hlk as [Hlk _].
Qed.

(** C2: whatever the schedule of the daemon's tasks, reloads, disconnections and
    radio events, a challenge that succeeds has looked up the entry of its peer,
    taken the peer's slot, sent the peer a frame with the nonce and the tag of
    the bond key, received 64 bytes that decode to the returned signature, which
    verifies on that very frame under the registered public key, found the nonce
    unused, written the audit line "ok" and released the slot, in this order; and
    the key is the one the peer's identifier is derived from. *)
Theorem challenge_ok_authentic p peers w audit now es tid t sig
  (Hpeers : Forall (fun x => peer_id x.1 = peer_id_from_pubkey (pubkey x.1)) peers)
  (Htask : y_tasks (sys_run (sys_start (with_peers_and_audit p peers w audit now)) es) !! tid = Some t)
  (Hdone : t_prog t = Done (COk sig)) :
  exists ps n response t0 t1 t2 fill,
    t_log t =
      [did Now t0; did (LookupPeer (t_peer t)) (Some ps); did (AcquireSlot (ps_cell ps)) true; did Now t1;
       did (StampLiveness (ps_cell ps) t1) tt] ++ fill ++
      [did (NotifyChallenge (t_peer t) (frame_wire (challenge_frame ps n))) (Ok tt);
       did (WaitForResponse (t_peer t) DEFAULT_AUTH_TIMEOUT) (Ok response);
       did (CheckNonce (ps_cell ps) n) false; did Now t2;
       audit_line (t_peer t) (bytes_to_hex n) (epoch_millis t0) (epoch_millis t2) OUTCOME_REASON_OK;
       did DropPermit tt] /\
    (fill = [did FillNonce (Some n)] \/ fill = []) /\
    signed_by_phone ps n response sig /\
    t_peer t = peer_id_from_pubkey (ps_phone_pubkey ps).
Proof. exact (ok_authentic _ tid t sig (reachable_inv p peers w audit now es Hpeers) Htask Hdone). Qed.

(** The records a task appended. *)
Definition audited (e : answered) : list AuditRecord :=
  match projT1 e with AppendAudit r => [r] | _ => [] end.

(** Every challenge that returns, whatever its outcome, has asked for exactly
    one audit line, which names its peer and the reason string of the outcome. *)
Theorem challenge_audited_once p peers w audit now es tid t out
  (Hpeers : Forall (fun x => peer_id x.1 = peer_id_from_pubkey (pubkey x.1)) peers)
  (Htask : y_tasks (sys_run (sys_start (with_peers_and_audit p peers w audit now)) es) !! tid = Some t)
  (Hdone : t_prog t = Done out) :
  exists nonce_hex t_start t_end,
    concat (map audited (t_log t)) =
      [mkRecord (t_peer t) nonce_hex t_start t_end (reason_str out) (reason_str out)].
Proof.
  destruct (finished_trace _ tid t _ (reachable_inv p peers w audit now es Hpeers) Htask Hdone) as [fixed Htr].
  inversion Htr as [t0|t0 ps t1|t0 ps t1 t2 Hf|t0 ps t1 n tr o Hf Hr Hl]; subst; [by eauto.. |].
  clear Hl. destruct Hr; destruct fixed; cbn; eauto.
Qed.

(** The next operation is part of the exchange with the phone. *)
Definition in_exchange (q : prog ChallengeOutcome) : bool :=
  match q with
  | Do (NotifyChallenge _ _) _ | Do (WaitForResponse _ _) _ | Do (CheckNonce _ _) _ => true
  | _ => false
  end.

Lemma in_exchange_held h q : typed h q released -> in_exchange q = true -> is_Some h.
Proof. destruct q as [|[]]; cbn; try done; [by intros [? _] .. | intros [-> _]; by eexists]. Qed.

(** C9: at most one challenge is in flight for an entry of the peer map: on any
    schedule, a task that is talking to a phone or consulting the nonce cache
    holds a permit, no two tasks hold the permit of the same entry, a task that
    has returned holds none, and the status row of the entry counts 1 exactly
    when some task holds its permit. *)
Theorem single_flight p peers w audit now es
  (Hpeers : Forall (fun x => peer_id x.1 = peer_id_from_pubkey (pubkey x.1)) peers) :
  let y := sys_run (sys_start (with_peers_and_audit p peers w audit now)) es in
  (forall tid t, y_tasks y !! tid = Some t -> in_exchange (t_prog t) = true -> exists c, holds y tid c) /\
  (forall tid tid' c, holds y tid c -> holds y tid' c -> tid = tid') /\
  (forall tid t out, y_tasks y !! tid = Some t -> t_prog t = Done out -> held (t_ctx t) = None) /\
  (forall c cl, s_cells (y_st y) !! c = Some cl ->
     challenge_slot_in_flight (permits cl) = 1 <-> exists tid, holds y tid c).
Proof.
  intros y. destruct (reachable_inv p peers w audit now es Hpeers) as [_ Ht [Hc Hh _] _ _ _ _]. fold y in Ht, Hc, Hh.
  split_and!.
  - intros tid t Hl He. destruct (in_exchange_held _ _ (Ht tid t Hl) He) as [c Hx]. exists c, t. by split.
  - intros tid tid' c H1 H2. destruct (Hh tid c H1) as [cl Hcl].
    destruct (Hc c cl Hcl) as [[_ Hno]|(_ & u & _ & Hu)]; [by destruct (Hno tid) |].
    by rewrite (Hu tid H1), (Hu tid' H2).
  - intros tid t out Hl Hd. specialize (Ht tid t Hl). by rewrite Hd in Ht.
  - intros c cl Hcl. unfold challenge_slot_in_flight.
    destruct (Hc c cl Hcl) as [[-> Hno]|(-> & u & Hu & _)]; cbn; split; try done; eauto.
    intros [tid Htid]. by destruct (Hno tid).
Qed.

(** C10: no nonce is accepted twice within the window of the cache: on any
    schedule, equal nonces accepted for one entry are more than 64 acceptances
    apart, and the cache of the entry holds exactly the last 64 it accepted. *)
Theorem no_nonce_reuse p peers w audit now es
  (Hpeers : Forall (fun x => peer_id x.1 = peer_id_from_pubkey (pubkey x.1)) peers) :
  let y := sys_run (sys_start (with_peers_and_audit p peers w audit now)) es in
  (forall c, spaced (accepted_on c (y_accepted y))) /\
  (forall c cl, s_cells (y_st y) !! c = Some cl ->
     nonces (nonce_cache cl) = last_n 64 (accepted_on c (y_accepted y))).
Proof.
  intros y. destruct (reachable_inv p peers w audit now es Hpeers) as [_ _ _ [Ht Hs _] _ _ _]. fold y in Ht, Hs.
  split; [done |]. intros c cl Hc. by rewrite (Ht c cl Hc).
Qed.

(** ** An honest phone *)

(** The task [tid] is at [q] with the context [x] in the state [s]. *)
Definition at_task (y : Sys) (tid : nat) (id : str) (q : prog ChallengeOutcome) (x : ctx) (s : St) : Prop :=
  (exists log, y_tasks y !! tid = Some (mkTask id q x log)) /\ y_st y = s.

Lemma at_step ch y tid id o k x s a x' s' :
  exec o ch x s = Stepped a x' s' -> at_task y tid id (Do o k) x s ->
  at_task (step_task tid ch y) tid id (k a) x' s'.
Proof.
  intros Hx [[log Ht] <-]. unfold Orchestrator.step_task. rewrite Ht, Hx. split; [| done].
  eexists. cbn. by rewrite lookup_insert_eq.
Qed.

(** [k] operations of a task that runs alone. *)
Inductive alone (ch : choice) : prog ChallengeOutcome -> ctx -> St -> nat ->
  prog ChallengeOutcome -> ctx -> St -> Prop :=
| AloneNone q x s : alone ch q x s 0 q x s
| AloneStep o k x s a x1 s1 n q' x' s' :
    exec o ch x s = Stepped a x1 s1 -> alone ch (k a) x1 s1 n q' x' s' -> alone ch (Do o k) x s (S n) q' x' s'.

Lemma alone_run ch y tid id q x s n q' x' s' :
  alone ch q x s n q' x' s' -> at_task y tid id q x s ->
  at_task (sys_run y (replicate n (Step tid ch))) tid id q' x' s'.
Proof.
  intros Ha. revert y. induction Ha as [q x s|o k x s a x1 s1 n q' x' s' Hx Ha IH]; intros y Hy; [done |].
  apply (IH (step_task tid ch y)). by apply (at_step ch y tid id o k x s).
Qed.

Lemma alone_trans ch q x s n q1 x1 s1 m q' x' s' :
  alone ch q x s n q1 x1 s1 -> alone ch q1 x1 s1 m q' x' s' -> alone ch q x s (n + m) q' x' s'.
Proof. induction 1; intros Hm; [exact Hm |]. cbn. eapply AloneStep; [eassumption | auto]. Qed.

(** The operations before the challenge is sent. *)
Lemma alone_admitted ch id body x s ps cl :
  lookup_peer id s = Some ps -> s_cells s !! ps_cell ps = Some cl -> permits cl = 1 ->
  alone ch (with_slot id body) x s 5 (body ps (epoch_millis (s_clock s))) (mkCtx (Some (ps_cell ps)) (cancelled x))
    (update_cell (ps_cell ps) (stamp_liveness (s_clock s)) (update_cell (ps_cell ps) (set_permits 0) s)).
Proof.
  intros Hp Hc Hf. unfold with_slot.
  eapply AloneStep; [reflexivity |]. eapply AloneStep; [cbn; by rewrite Hp |].
  eapply AloneStep; [cbn; by rewrite Hc, Hf |]. eapply AloneStep; [reflexivity |].
  eapply AloneStep; [reflexivity |]. apply AloneNone.
Qed.

Lemma alone_finish ch id hex t0 reason out x s :
  alone ch (pbind (finish id hex t0 reason out) (fun o => Do DropPermit (fun _ => Done o))) x s 3 (Done out)
    (mkCtx None (cancelled x))
    (drop_permit x (append_audit (mkRecord id hex t0 (epoch_millis (s_clock s)) reason reason) s)).
Proof. do 3 (eapply AloneStep; [reflexivity |]). apply AloneNone. Qed.

Lemma judge_honest `{!Ed25519Laws ED} id ps n sk t0 :
  ps_phone_pubkey ps = VerifyingKey_to_bytes (verifying_key sk) ->
  judge_response id (challenge_frame ps n) ps t0 (Signature_to_bytes (ed_sign sk ([SYAUTH_WIRE_VERSION_V1] ++ n))) =
  Do (CheckNonce (ps_cell ps) n) (fun replay : bool =>
    if replay then finish id (bytes_to_hex n) t0 OUTCOME_REASON_REPLAY CReplay
    else finish id (bytes_to_hex n) t0 OUTCOME_REASON_OK (COk (ed_sign sk ([SYAUTH_WIRE_VERSION_V1] ++ n)))).
Proof.
  intros Hk. unfold judge_response, parse_signature.
  set (sig := ed_sign sk ([SYAUTH_WIRE_VERSION_V1] ++ n)).
  rewrite (arr_len _ _ (signature_arr sig)), Z.eqb_refl, signature_roundtrip, Hk, verifying_key_roundtrip. cbn [negb].
  unfold verify_frame. rewrite Frame_body_ok by by vm_compute.
  change ([version (challenge_frame ps n)] ++ nonce (challenge_frame ps n) ++ payload (challenge_frame ps n))
    with ([SYAUTH_WIRE_VERSION_V1] ++ n ++ []). rewrite app_nil_r. cbn [map_err rbind].
  unfold sig. by rewrite verify_sign.
Qed.

Lemma cache_insert_elem c n : n ∈ nonces (NonceCache_insert c n).
Proof.
  unfold NonceCache_insert. destruct (Z.gtb_spec (len (nonces c ++ [n])) NONCE_LRU_CAP) as [Hl|]; cbn; [| set_solver].
  destruct (nonces c) as [|m l]; [| cbn; set_solver]. by vm_compute in Hl.
Qed.

(** C23: a registered phone that answers unlocks the machine: if the peer is
    registered with the key of [sk], its slot is free, the random generator gives
    a nonce not in the cache, the radio delivers the challenge and the answer is
    the signature of the challenge under [sk], then the challenge returns that
    signature after its twelve operations, with the slot free again and the
    nonce in the cache. *)
Theorem honest_phone_unlocks `{!Ed25519Laws ED} y tid id ps cl n sk p1 p2
  (Htask : at_task y tid id (start_challenge id None) (mkCtx None false) (y_st y))
  (Hpeer : lookup_peer id (y_st y) = Some ps)
  (Hkey : ps_phone_pubkey ps = VerifyingKey_to_bytes (verifying_key sk))
  (Hcell : s_cells (y_st y) !! ps_cell ps = Some cl)
  (Hfree : permits cl = 1)
  (Hnew : n ∉ nonces (nonce_cache cl))
  (Hsent : notify_challenge id (frame_wire (challenge_frame ps n)) (s_peripheral (y_st y)) = (Ok tt, p1))
  (Hans : wait_for_response id DEFAULT_AUTH_TIMEOUT p1 =
     (Ok (Signature_to_bytes (ed_sign sk ([SYAUTH_WIRE_VERSION_V1] ++ n))), p2)) :
  exists x s, at_task (sys_run y (replicate 12 (Step tid (mkChoice (Some n) false false)))) tid id
      (Done (COk (ed_sign sk ([SYAUTH_WIRE_VERSION_V1] ++ n)))) x s /\
    held x = None /\
    (exists cl', s_cells s !! ps_cell ps = Some cl' /\ permits cl' = 1 /\ n ∈ nonces (nonce_cache cl')).
Proof.
  set (ch := mkChoice (Some n) false false).
  set (s1 := update_cell (ps_cell ps) (stamp_liveness (s_clock (y_st y))) (update_cell (ps_cell ps) (set_permits 0) (y_st y))).
  assert (H1 : s_cells s1 !! ps_cell ps = Some (stamp_liveness (s_clock (y_st y)) (set_permits 0 cl)))
    by (cbn; by rewrite !lookup_alter_eq, Hcell).
  assert (Hck : check_nonce n (nonce_cache cl) = (false, NonceCache_insert (nonce_cache cl) n)).
  { unfold check_nonce. rewrite <- cache_contains_spec in Hnew. by destruct (NonceCache_contains _ n). }
  eexists _, _. split; [eapply alone_run; [| exact Htask] |].
  - eapply (alone_trans ch _ _ _ 5 _ _ _ 7); [by eapply alone_admitted |]. fold s1.
    eapply AloneStep; [reflexivity |]. cbn [random ch].
    unfold run_challenge. rewrite challenge_body. fold (challenge_frame ps n). rewrite challenge_encoded.
    eapply AloneStep; [cbn -[challenge_frame frame_wire s1]; unfold on_radio; cbn -[challenge_frame frame_wire];
                       by rewrite Hsent |].
    eapply AloneStep; [cbn; unfold on_radio; cbn; by rewrite Hans |].
    cbn [pbind]. rewrite (judge_honest id ps n sk _ Hkey).
    eapply AloneStep; [cbn -[s1]; change (s_cells (set_peripheral p2 (set_peripheral p1 s1))) with (s_cells s1);
                       rewrite H1; cbn -[s1]; by rewrite Hck |].
    apply alone_finish.
  - split; [done |]. unfold append_audit, drop_permit. eexists.
    split; [| split]; [destruct (s_audit _); cbn; rewrite !lookup_alter_eq, Hcell; reflexivity | done |].
    cbn. apply cache_insert_elem.
Qed.
End challenge.

(** ** Sample runs *)

Module ToyDaemon.

Fixpoint unhex (s : str) : option (list Z) :=
  match s with
  | [] => Some []
  | a :: b :: s =>
      match hex_digit a, hex_digit b, unhex s with
      | Some x, Some y, Some l => Some (x * 16 + y :: l)
      | _, _, _ => None
      end
  | _ => None
  end.

#[export] Instance toy_hex : Hex := {| bytes_to_hex := hex_lowercase; hex_to_bytes := unhex |}.
#[export] Instance toy_order : HashOrder := {| hash_order l := l |}.
#[export] Instance toy_order_laws : HashOrderLaws toy_order.
Proof. by split. Qed.

End ToyDaemon.

Section samples.
Import ToyCrypto ToyCrates ToyDaemon Fake.

Definition phone_bond : Bond :=
  mkBond (peer_id_from_pubkey (VerifyingKey_to_bytes true)) (VerifyingKey_to_bytes true) (lit "Pixel")
    (created_at sample_bond) StBonded.
Definition phone_key : list Z := replicate 32 9.
Definition phone_nonce : list Z := replicate 16 5.
Definition phone_signature := @ed_sign toy_ed25519 true ([SYAUTH_WIRE_VERSION_V1] ++ phone_nonce).
Definition phone_answer : list Z := Signature_to_bytes phone_signature.

(** The phone is registered and will answer during the first poll. *)
Definition phone_radio : FakeState :=
  (fake_add_peer (peer_id phone_bond) phone_key
     (FakePeripheral_new [[(peer_id phone_bond, phone_answer)]])).2.

Definition phone_state : St :=
  with_peers_and_audit phone_radio [(phone_bond, phone_key)] (calm ∅) (Some (opened [])) 1700000000000000000.

Notation asked := (sys_run [] [] (sys_start phone_state) [Spawn 0 (peer_id phone_bond) None]).
Notation unlock_events :=
  (Spawn 0 (peer_id phone_bond) None :: replicate 12 (Step 0 (mkChoice (Some phone_nonce) false false))).
Notation unlocked := (sys_run [] [] (sys_start phone_state) unlock_events).

Notation unlocked_task :=
  (default (mkTask [] (Done CBusy) loop_ctx []) (y_tasks unlocked !! 0%nat)).

Lemma phone_ids :
  Forall (fun x : Bond * list Z => peer_id x.1 = peer_id_from_pubkey (pubkey x.1)) [(phone_bond, phone_key)].
Proof. by repeat constructor. Qed.

Lemma challenge_ok_authentic_witness :
  exists ps n response,
    t_prog unlocked_task = Done (COk phone_signature) /\
    signed_by_phone ps n response phone_signature.
Proof.
  destruct (challenge_ok_authentic (ED := toy_ed25519) (PP := FakePeripheral) [] [] phone_radio [(phone_bond, phone_key)] (calm ∅) (Some (opened []))
    1700000000000000000 unlock_events 0 unlocked_task phone_signature)
    as (ps & n & response & _ & _ & _ & _ & _ & _ & Hs & _);
    [exact phone_ids | vm_compute; reflexivity | vm_compute; reflexivity |].
  exists ps, n, response. split; [vm_compute; reflexivity | exact Hs].
Defined.

Lemma challenge_audited_once_witness :
  exists nonce_hex t_start t_end,
    concat (map audited (t_log unlocked_task)) =
      [mkRecord (t_peer unlocked_task) nonce_hex t_start t_end (reason_str (COk phone_signature))
         (reason_str (COk phone_signature))].
Proof.
  apply (challenge_audited_once (ED := toy_ed25519) (PP := FakePeripheral) [] [] phone_radio [(phone_bond, phone_key)] (calm ∅)
    (Some (opened [])) 1700000000000000000 unlock_events 0 unlocked_task
    (COk phone_signature));
    [exact phone_ids | vm_compute; reflexivity | vm_compute; reflexivity].
Defined.

(** Two requests for the same phone: the second waits for the slot. *)
Notation two_events :=
  ([Spawn 0 (peer_id phone_bond) None; Spawn 1 (peer_id phone_bond) None] ++
   replicate 6 (Step 0 (mkChoice (Some phone_nonce) false false)) ++
   replicate 6 (Step 1 (mkChoice (Some phone_nonce) false false))).
Notation two_tasks := (sys_run [] [] (sys_start phone_state) two_events).

Lemma single_flight_witness :
  (forall tid, holds two_tasks tid 0%nat -> tid = 0%nat) /\
  permits (default Cell_new (s_cells (y_st two_tasks) !! 0%nat)) = 0.
Proof.
  destruct (single_flight (ED := toy_ed25519) (PP := FakePeripheral) [] [] phone_radio [(phone_bond, phone_key)] (calm ∅)
    (Some (opened [])) 1700000000000000000 two_events phone_ids) as (_ & Hu & _).
  split; [| vm_compute; reflexivity]. intros tid Ht. apply (Hu tid 0%nat 0%nat Ht).
  apply holds_permits. vm_compute. reflexivity.
Defined.

Lemma no_nonce_reuse_witness :
  accepted_on 0%nat (y_accepted unlocked) = [phone_nonce] /\
  spaced (accepted_on 0%nat (y_accepted unlocked)).
Proof.
  split; [vm_compute; reflexivity |].
  apply (no_nonce_reuse (ED := toy_ed25519) (PP := FakePeripheral) [] [] phone_radio [(phone_bond, phone_key)] (calm ∅)
    (Some (opened [])) 1700000000000000000 unlock_events phone_ids).
Defined.

Notation phone_ps := (mkPeerState (pubkey phone_bond) phone_key 0%nat).
Notation radio_sent :=
  (fake_notify_challenge (peer_id phone_bond) (frame_wire (challenge_frame phone_ps phone_nonce)) phone_radio).2.
Notation radio_answered := (fake_wait_for_response (peer_id phone_bond) DEFAULT_AUTH_TIMEOUT radio_sent).2.

Lemma honest_phone_unlocks_witness :
  exists x s, at_task (sys_run [] [] asked (replicate 12 (Step 0 (mkChoice (Some phone_nonce) false false)))) 0
    (peer_id phone_bond) (Done (COk phone_signature)) x s.
Proof.
  destruct (honest_phone_unlocks (ED := toy_ed25519) (PP := FakePeripheral) (Ed25519Laws0 := toy_ed25519_laws) [] [] asked 0
    (peer_id phone_bond) phone_ps Cell_new phone_nonce true radio_sent radio_answered) as (x & s & Ht & _).
  - split; [| reflexivity]. exists []. reflexivity.
  - vm_compute. reflexivity.
  - reflexivity.
  - vm_compute. reflexivity.
  - reflexivity.
  - vm_compute. inversion 1.
  - vm_compute. reflexivity.
  - vm_compute. reflexivity.
  - exact (ex_intro _ x (ex_intro _ s Ht)).
Defined.

End samples.
