(* ===== verification/Reload.v ===== *)
(** * Reloading the bonds

    The reload of Orchestrator.v against its specification: the peer map after a
    reload is the set of the bonded phones whose key can be read, the entries that
    stay are untouched, and the peripheral serves exactly the peers of the map. *)

From stdpp Require Import prelude list gmap sorting strings.
From Stdlib Require Import ZArith Lia.
From S2P Require Import Prelude WireFrame Fs Bond PairRecovery PairTransaction Peripheral AuditTrail Orchestrator Challenge.

(** A radio that does not fail: it refuses a call only where the contract says
    so. *)
Class WillingPeripheral (P : Peripheral) : Prop := {
  add_willing : forall id key s, registered s !! id = None -> (add_peer id key s).1 = Ok tt;
  remove_willing : forall id s, is_Some (registered s !! id) -> (remove_peer id s).1 = Ok tt;
  set_willing : forall uuids s, (set_session_uuids uuids s).1 = Ok tt;
}.

#[export] Instance FakePeripheral_willing : WillingPeripheral Fake.FakePeripheral.
Proof.
  split; cbn.
  - intros id key s Hs. unfold Fake.fake_add_peer. by rewrite Hs.
  - intros id s [k Hk]. unfold Fake.fake_remove_peer. by rewrite Hk.
  - done.
Qed.

Section reload.
Context `{B3 : Blake3, ED : Ed25519, HK : Hkdf, CH : Chrono, TM : Toml, HX : Hex, HO : HashOrder, PP : Peripheral}.
Context `{!PeripheralLaws PP, !HashOrderLaws HO}.
Context (bonds_file keys : path).

Notation exec := (exec bonds_file keys).

(** The program of the loop, run to its end; [None] if it panics or blocks. *)
Definition any_choice : choice := mkChoice None false false.

Fixpoint eval {A} (p : prog A) (s : St) : option (A * St) :=
  match p with
  | Done a => Some (a, s)
  | Do o k =>
      match exec o any_choice loop_ctx s with
      | Stepped a _ s => eval (k a) s
      | _ => None
      end
  end.

Lemma eval_bind {A B} (p : prog A) (f : A -> prog B) s :
  eval (pbind p f) s = match eval p s with Some (a, s') => eval (f a) s' | None => None end.
Proof.
  revert s. induction p as [a|o k IH]; intros s; [done |]. cbn [pbind eval].
  destruct (exec o any_choice loop_ctx s); [apply IH | done | done].
Qed.

(** Everything but the peripheral and the peers. *)
Definition same_rest (s s' : St) : Prop :=
  s_world s' = s_world s /\ s_audit s' = s_audit s /\ s_exit_when_empty s' = s_exit_when_empty s /\
  s_sigterm s' = s_sigterm s /\ s_clock s' = s_clock s.

#[global] Instance same_rest_preorder : PreOrder same_rest.
Proof. split; [by intros s | intros s1 s2 s3 (?&?&?&?&?) (?&?&?&?&?); unfold same_rest; split_and!; congruence]. Qed.

(** The peripheral serves the peers of the map. *)
Definition in_sync (s : St) : Prop :=
  forall id : str, is_Some (registered (s_peripheral s) !! id) <-> is_Some (s_peers s !! id).

(** ** Removing *)

Definition quiet_radio (s s' : St) : Prop :=
  registered (s_peripheral s') = registered (s_peripheral s) /\ s_peers s' = s_peers s /\
  s_cells s' = s_cells s /\ s_next s' = s_next s /\ same_rest s s'.

Lemma eval_revoke_notice id s : exists s', eval (send_revoke_notice id) s = Some (tt, s') /\ quiet_radio s s'.
Proof.
  unfold send_revoke_notice. destruct (hex_to_bytes id) as [b|]; [| by exists s].
  destruct (len b =? 16); [| by exists s]. cbn. unfold on_radio.
  destruct (notify_challenge id _ (s_peripheral s)) as [r p'] eqn:E.
  eexists. split; [done |]. by destruct (notify_challenge_spec _ _ _ _ _ E).
Qed.

Lemma eval_do_remove id s :
  in_sync s -> is_Some (s_peers s !! id) ->
  exists s', eval (do_remove_peer id) s = Some (tt, s') /\ in_sync s' /\ same_rest s s' /\
    s_cells s' = s_cells s /\ s_next s' = s_next s /\
    (s_peers s' = s_peers s \/ s_peers s' = delete id (s_peers s)) /\
    (WillingPeripheral PP -> s_peers s' = delete id (s_peers s)).
Proof.
  intros Hs Hid. cbn. unfold on_radio. destruct (remove_peer id (s_peripheral s)) as [r p'] eqn:E.
  pose proof (remove_peer_spec _ _ _ _ E) as Hr. destruct r as [[]|e]; cbn in Hr.
  - eexists. split; [done |]. split_and!; try done; [| by right]. intros i. cbn. rewrite Hr.
    destruct (decide (i = id)) as [->|Hi]; [by rewrite !lookup_delete_eq | by rewrite !lookup_delete_ne].
  - eexists. split; [done |]. split_and!; try done; [| by left |].
    + intros i. cbn. by rewrite Hr.
    + intros Hw. pose proof (remove_willing id (s_peripheral s)) as Hok. rewrite E in Hok. cbn in Hok.
      by discriminate Hok; apply Hs.
Qed.

Lemma eval_remove_all l s :
  in_sync s -> NoDup l -> (forall id, id ∈ l -> is_Some (s_peers s !! id)) ->
  exists s', eval (remove_all l) s = Some (tt, s') /\ in_sync s' /\ same_rest s s' /\
    s_cells s' = s_cells s /\ s_next s' = s_next s /\
    (forall id, id ∉ l -> s_peers s' !! id = s_peers s !! id) /\
    (WillingPeripheral PP -> forall id, id ∈ l -> s_peers s' !! id = None).
Proof.
  revert s. induction l as [|id l IH]; intros s Hs Hnd Hl.
  - exists s. split_and!; try done. by intros _ id ?%elem_of_nil.
  - apply NoDup_cons in Hnd as [Hid Hnd]. cbn [remove_all]. rewrite eval_bind.
    destruct (eval_revoke_notice id s) as (s1 & -> & Hr1 & Hp1 & Hc1 & Hn1 & He1). rewrite eval_bind.
    assert (Hs1 : in_sync s1) by (intros i; by rewrite Hr1, Hp1).
    destruct (eval_do_remove id s1) as (s2 & -> & Hs2 & He2 & Hc2 & Hn2 & Hp2 & Hw2);
      [done | rewrite Hp1; apply Hl; set_solver |].
    assert (Hne : forall i, i ∈ l -> s_peers s2 !! i = s_peers s !! i).
    { intros i Hi. destruct Hp2 as [->| ->]; rewrite Hp1; [done |]. rewrite lookup_delete_ne; [done |]. set_solver. }
    destruct (IH s2 Hs2 Hnd) as (s3 & -> & Hs3 & He3 & Hc3 & Hn3 & Hk3 & Hw3).
    { intros i Hi. rewrite Hne by done. apply Hl. set_solver. }
    exists s3. split; [done |]. split; [done |]. split; [by rewrite He1, He2 |].
    split; [congruence |]. split; [congruence |]. split.
    + intros i Hi. rewrite Hk3 by set_solver. destruct Hp2 as [->| ->]; rewrite Hp1; [done |].
      rewrite lookup_delete_ne; [done |]. set_solver.
    + intros Hw i Hi. destruct (decide (i ∈ l)) as [|Hil]; [by apply Hw3 |].
      assert (i = id) as -> by set_solver. rewrite Hk3, (Hw2 Hw), Hp1 by done. by rewrite lookup_delete_eq.
Qed.

(** ** Adding *)

(** The entry of a new peer: the key of the set, the public key of the bond, a
    cell of its own. *)
Definition new_entry (store : BondStore) (new_set : gmap (list Z) (list Z)) (n : loc) (id : str) (e : PeerEntry) : Prop :=
  exists key b, new_set !! id = Some key /\ find_bond id (bonds store) = Some b /\
    bond_key e = key /\ phone_pubkey e = Some (pubkey b) /\ (n <= cell e)%nat.

Lemma eval_do_add store new_set id key b s :
  in_sync s -> s_peers s !! id = None -> new_set !! id = Some key -> find_bond id (bonds store) = Some b ->
  exists s', eval (do_add_peer store id key) s = Some (tt, s') /\ in_sync s' /\ same_rest s s' /\
    (s_next s <= s_next s')%nat /\
    (s_peers s' = s_peers s \/ exists e, new_entry store new_set (s_next s) id e /\ s_peers s' = <[id := e]> (s_peers s)) /\
    (WillingPeripheral PP -> is_Some (s_peers s' !! id)).
Proof.
  intros Hs Hid Hkey Hb. unfold do_add_peer, BondStore_list. rewrite Hb. cbn. unfold on_radio.
  destruct (add_peer id key (s_peripheral s)) as [r p'] eqn:E.
  pose proof (add_peer_spec _ _ _ _ _ E) as Hr. destruct r as [[]|e]; cbn in Hr.
  - eexists. split; [done |]. split; [| split; [done |]; split; [cbn; lia |]; split].
    + intros i. cbn. rewrite Hr. destruct (decide (i = id)) as [->|Hi];
        [rewrite !lookup_insert_eq; split; by eexists | by rewrite !lookup_insert_ne].
    + right. eexists. split; [| reflexivity]. exists key, b. by split_and!.
    + intros _. cbn. rewrite lookup_insert_eq. by eexists.
  - eexists. split; [done |]. split; [| split; [done |]; split; [cbn; lia |]; split].
    + intros i. cbn. by rewrite Hr.
    + by left.
    + intros Hw. pose proof (add_willing id key (s_peripheral s)) as Hok. rewrite E in Hok. cbn in Hok.
      discriminate Hok. apply eq_None_not_Some. intros Hin%Hs. rewrite Hid in Hin. by destruct Hin.
Qed.

Lemma eval_add_all store new_set l s :
  in_sync s -> NoDup l ->
  (forall id, id ∈ l -> s_peers s !! id = None /\ is_Some (new_set !! id) /\ is_Some (find_bond id (bonds store))) ->
  exists s', eval (add_all store new_set l) s = Some (tt, s') /\ in_sync s' /\ same_rest s s' /\
    (s_next s <= s_next s')%nat /\
    (forall id, id ∉ l -> s_peers s' !! id = s_peers s !! id) /\
    (forall id e, id ∈ l -> s_peers s' !! id = Some e -> new_entry store new_set (s_next s) id e) /\
    (WillingPeripheral PP -> forall id, id ∈ l -> is_Some (s_peers s' !! id)).
Proof.
  revert s. induction l as [|id l IH]; intros s Hs Hnd Hl.
  - exists s. split; [done |]. split; [done |]. split; [done |]. split; [done |].
    split; [done |]. split; [by intros id e ?%elem_of_nil | by intros _ id ?%elem_of_nil].
  - apply NoDup_cons in Hnd as [Hid Hnd]. destruct (Hl id) as (Hp & [key Hkey] & [b Hb]); [set_solver |].
    cbn [add_all]. rewrite eval_bind, Hkey.
    destruct (eval_do_add store new_set id key b s) as (s1 & -> & Hs1 & He1 & Hn1 & Hp1 & Hw1); try done.
    assert (Hne : forall i, i <> id -> s_peers s1 !! i = s_peers s !! i).
    { intros i Hi. destruct Hp1 as [->|(e & _ & ->)]; [done |]. by rewrite lookup_insert_ne. }
    destruct (IH s1 Hs1 Hnd) as (s2 & -> & Hs2 & He2 & Hn2 & Hk2 & Hnew2 & Hw2).
    { intros i Hi. rewrite Hne by set_solver. apply Hl. set_solver. }
    exists s2. split; [done |]. split; [done |]. split; [by rewrite He1 |]. split; [lia |]. split_and!.
    + intros i Hi. rewrite Hk2, Hne by set_solver. done.
    + intros i e Hi He. destruct (decide (i ∈ l)) as [Hil|Hil].
      * destruct (Hnew2 i e Hil He) as (k' & b' & ? & ? & ? & ? & ?). exists k', b'. split_and!; try done. lia.
      * assert (i = id) as -> by set_solver. rewrite Hk2 in He by done.
        destruct Hp1 as [Hp1|(e' & Hnew & Hp1)]; rewrite Hp1 in He; [congruence |].
        rewrite lookup_insert_eq in He. by injection He as <-.
    + intros Hw i Hi. destruct (decide (i ∈ l)) as [|Hil]; [by apply Hw2 |].
      assert (i = id) as -> by set_solver. rewrite Hk2 by done. by apply Hw1.
Qed.

(** ** The new set *)

(** The key the disk holds for a peer. *)
Definition key_of (g : fs) (id : str) : option (list Z) :=
  match read_op (join keys (id ++ BOND_KEY_FILE_EXT)) g with
  | Ok bytes => if len bytes =? BOND_KEY_BYTES then Some bytes else None
  | Err _ => None
  end.

(** Bonded records of a peer. *)
Definition bonded_in (l : list Bond) (id : str) : Prop :=
  exists b, In b l /\ peer_id b = id /\ status b = StBonded.

Lemma bonded_cons b l id :
  bonded_in (b :: l) id <-> (peer_id b = id /\ status b = StBonded) \/ bonded_in l id.
Proof.
  split.
  - intros (b' & [->|Hb] & Hid & Hs); [by left | right; by exists b'].
  - intros [[Hid Hs]|(b' & Hb & Hid & Hs)]; [exists b; split; [by left | done] | exists b'; split; [by right | done]].
Qed.

(** A phone that is to be served: bonded, with a readable key. *)
Definition wanted (g : fs) (store : BondStore) (id : str) (key : list Z) : Prop :=
  key_of g id = Some key /\ bonded_in (bonds store) id.

Lemma eval_load_key id s g :
  s_world s = calm g ->
  exec (LoadKey id) any_choice loop_ctx s =
  Stepped (match key_of g id with Some k => Ok k | None => Err tt end) loop_ctx (set_world (calm g) s).
Proof.
  intros Hw. cbn. unfold on_disk, load_bond_key, fs_read, ibind. rewrite Hw, syscall_calm. cbn.
  unfold key_of. destruct (read_op _ g) as [bytes|e]; [| done]. by destruct (_ =? _).
Qed.

Lemma eval_collect l out s g :
  s_world s = calm g -> (forall id key, out !! id = Some key -> key_of g id = Some key) ->
  exists new, eval (collect_keys l out) s = Some (new, s) /\
    forall id key, new !! id = Some key <-> key_of g id = Some key /\ (is_Some (out !! id) \/ bonded_in l id).
Proof.
  intros Hw. assert (Hset : set_world (calm g) s = s) by (destruct s; cbn in *; by subst).
  revert out. induction l as [|b l IH]; intros out Ho.
  { exists out. split; [done |]. intros id key. split.
    - intros Hk. split; [by apply Ho | left; by eexists].
    - intros [Hk [[k' Hk']|(? & [] & _)]]. pose proof (Ho _ _ Hk'). congruence. }
  cbn [collect_keys]. unfold Bond_is_revoked. setoid_rewrite bonded_cons. destruct (status b) as [|why] eqn:Es.
  - cbn [eval]. rewrite (eval_load_key _ _ g) by done. rewrite Hset.
    destruct (key_of g (peer_id b)) as [key|] eqn:Ek.
    + destruct (IH (<[peer_id b := key]> out)) as (new & He & Hn).
      { intros id k. rewrite lookup_insert_Some. intros [[<- <-]|[_ Hk]]; [done | by apply Ho]. }
      exists new. split; [exact He |]. intros id k. rewrite Hn, lookup_insert_is_Some'. tauto.
    + destruct (IH out Ho) as (new & He & Hn). exists new. split; [exact He |].
      intros id k. rewrite Hn. split; [tauto |]. intros [Hk [?|[[<- _]|?]]]; [tauto | congruence | tauto].
  - destruct (IH out Ho) as (new & He & Hn). exists new. split; [exact He |].
    intros id k. rewrite Hn. split; [tauto |]. intros [Hk [?|[[_ ?]|?]]]; [tauto | done | tauto].
Qed.

Lemma find_bond_some id l b : In b l -> peer_id b = id -> is_Some (find_bond id l).
Proof.
  intros Hb Hid. destruct (find_bond id l) as [b'|] eqn:E; [by eexists |].
  pose proof (find_none _ _ E b Hb) as Hf. cbn in Hf. by rewrite bool_decide_true in Hf.
Qed.

(** ** The reload *)

Lemma elem_of_perm_filter (P : str -> Prop) `{!forall x, Decision (P x)} l id :
  id ∈ hash_order (filter P l) <-> P id /\ id ∈ l.
Proof. by rewrite hash_order_perm, list_elem_of_filter. Qed.

Lemma NoDup_hash_filter (P : str -> Prop) `{!forall x, Decision (P x)} l :
  NoDup l -> NoDup (hash_order (filter P l)).
Proof. intros Hl. rewrite hash_order_perm. by apply NoDup_filter. Qed.

Lemma NoDup_btree_keys {A} (m : gmap (list Z) A) : NoDup (btree_iter m).*1.
Proof. rewrite btree_iter_perm. apply NoDup_fst_map_to_list. Qed.

Lemma elem_of_keys {A} (m : gmap (list Z) A) id : id ∈ (map_to_list m).*1 <-> is_Some (m !! id).
Proof. rewrite <- btree_iter_perm. apply elem_of_btree_keys. Qed.

(** The peers after a reload, entry by entry. *)
Definition reconciled (g : fs) (store : BondStore) (s s' : St) : Prop :=
  forall id : str,
    (forall e, s_peers s !! id = Some e -> (exists key, wanted g store id key) -> s_peers s' !! id = Some e) /\
    (forall e, s_peers s !! id = None -> s_peers s' !! id = Some e ->
       exists key b, wanted g store id key /\ find_bond id (bonds store) = Some b /\
         bond_key e = key /\ phone_pubkey e = Some (pubkey b) /\ (s_next s <= cell e)%nat).

Lemma eval_compute_diff new s :
  eval (compute_diff new) s =
  Some ((hash_order (filter (fun id => id ∉ (btree_iter (s_peers s)).*1) (map_to_list new).*1),
         hash_order (filter (fun id => id ∉ (map_to_list new).*1) (btree_iter (s_peers s)).*1)), s).
Proof. reflexivity. Qed.

Lemma eval_load_store {A} (k : result BondStore BondError -> prog A) s g store :
  s_world s = calm g -> BondStore_load bonds_file (calm g) = (Ret (Ok store), calm g) ->
  eval (Do LoadStore k) s = eval (k (Ok store)) s.
Proof.
  intros Hw Hl. cbn [eval Orchestrator.exec]. unfold on_disk. rewrite Hw, Hl.
  assert (Hset : set_world (calm g) s = s) by (destruct s; cbn in *; by subst). by rewrite Hset.
Qed.

Lemma eval_rotate now s :
  exists s', eval (rotate_once now) s = Some (tt, s') /\
    registered (s_peripheral s') = registered (s_peripheral s) /\ s_peers s' = s_peers s /\ same_rest s s' /\
    (WillingPeripheral PP -> on_air (s_peripheral s') = build_uuid_union (snapshot_peers s) (minute_index now)).
Proof.
  unfold rotate_once. cbn [eval Orchestrator.exec]. unfold on_radio.
  destruct (set_session_uuids (build_uuid_union (snapshot_peers s) (minute_index now)) (s_peripheral s)) as [r p] eqn:E.
  destruct (set_session_uuids_spec _ _ _ _ E) as [Hr Ha]. eexists. split; [reflexivity |].
  split; [done |]. split; [done |]. split; [done |]. intros Hw. apply Ha.
  pose proof (set_willing (build_uuid_union (snapshot_peers s) (minute_index now)) (s_peripheral s)) as Hok.
  rewrite E in Hok. cbn in Hok. by subst r.
Qed.

(** What follows the additions. *)
Definition reload_end : prog unit :=
  Do PeerKeys (fun after => Do ExitWhenEmpty (fun exit =>
    pbind (if (length (after : list str) =? 0)%nat && (exit : bool) then Do RaiseSigterm Done else Done tt)
      (fun _ => Do Now (fun now => rotate_once now)))).

Lemma btree_empty {A} (m : gmap (list Z) A) : length (btree_iter m).*1 = 0%nat <-> m = ∅.
Proof.
  rewrite length_fmap, btree_iter_perm. split; [| by intros ->].
  intros Hl. apply map_to_list_empty_iff. by apply nil_length_inv.
Qed.

Lemma eval_reload_end s :
  exists s', eval reload_end s = Some (tt, s') /\
    registered (s_peripheral s') = registered (s_peripheral s) /\ s_peers s' = s_peers s /\
    s_audit s' = s_audit s /\ s_world s' = s_world s /\
    (s_sigterm s' = true <-> s_sigterm s = true \/ (s_peers s = ∅ /\ s_exit_when_empty s = true)) /\
    (WillingPeripheral PP -> on_air (s_peripheral s') = build_uuid_union (snapshot_peers s) (minute_index (s_clock s))).
Proof.
  unfold reload_end. cbn [eval Orchestrator.exec]. rewrite eval_bind.
  match goal with |- context [Nat.eqb ?a 0] => destruct (Nat.eqb_spec a 0) as [Hz|Hz] end;
    [apply (btree_empty (s_peers s)) in Hz |]; destruct (s_exit_when_empty s) eqn:Ex; cbn [andb eval Orchestrator.exec].
  all: match goal with |- context [eval (rotate_once ?now) ?s1] =>
      destruct (eval_rotate now s1) as (s2 & He & Hr & Hp & (Hw & Ha & _ & Ht & _) & Hon) end.
  all: exists s2; split; [exact He |]; split; [exact Hr |]; split; [exact Hp |]; split; [exact Ha |];
    split; [exact Hw |]; split; [| exact Hon]; rewrite Ht; cbn [set_sigterm s_sigterm].
  - split; auto.
  - split; [auto | by intros [?|[_ ?]]].
  - split; [auto |]. intros [?|[Hn _]]; [done |]. by destruct Hz; apply (btree_empty (s_peers s)).
  - split; [auto | by intros [?|[_ ?]]].
Qed.

Lemma eval_reload trigger s g store :
  in_sync s -> s_world s = calm g -> BondStore_load bonds_file (calm g) = (Ret (Ok store), calm g) ->
  exists s', eval (run_reload trigger) s = Some (tt, s') /\ in_sync s' /\ reconciled g store s s' /\
    s_audit s' = s_audit s /\ s_world s' = s_world s /\
    (s_sigterm s' = true <-> s_sigterm s = true \/ (s_peers s' = ∅ /\ s_exit_when_empty s = true)) /\
    (WillingPeripheral PP ->
       (forall id : str, is_Some (s_peers s' !! id) <-> exists key, wanted g store id key) /\
       on_air (s_peripheral s') = build_uuid_union (snapshot_peers s') (minute_index (s_clock s))).
Proof.
  intros Hs Hw Hload. unfold run_reload. rewrite (eval_load_store _ s g store Hw Hload).
  change (reload_bonds_with_trigger store trigger) with
    (pbind (compute_new_set store) (fun new_set => pbind (compute_diff new_set) (fun diff =>
       pbind (remove_all diff.2) (fun _ => pbind (add_all store new_set diff.1) (fun _ => reload_end))))).
  unfold compute_new_set. rewrite eval_bind.
  destruct (eval_collect (BondStore_list store) ∅ s g Hw) as (new & -> & Hnew); [done |].
  assert (Hwant : forall (id : str) key, new !! id = Some key <-> wanted g store id key).
  { intros id key. rewrite Hnew. unfold wanted, BondStore_list. split; [| naive_solver].
    intros [? [Hin|?]]; [by destruct Hin | done]. }
  assert (Hwant' : forall id : str, is_Some (new !! id) <-> exists key, wanted g store id key).
  { intros id. unfold is_Some. by setoid_rewrite Hwant. }
  rewrite eval_bind, eval_compute_diff, eval_bind. cbn [fst snd].
  match goal with |- context [remove_all ?r] => set (to_remove := r) end.
  match goal with |- context [add_all _ _ ?a] => set (to_add := a) end.
  assert (Hrm : forall id : str, id ∈ to_remove <-> ~ is_Some (new !! id) /\ is_Some (s_peers s !! id)).
  { intros id. unfold to_remove. by rewrite elem_of_perm_filter, elem_of_keys, elem_of_btree_keys. }
  assert (Had : forall id : str, id ∈ to_add <-> ~ is_Some (s_peers s !! id) /\ is_Some (new !! id)).
  { intros id. unfold to_add. by rewrite elem_of_perm_filter, elem_of_keys, elem_of_btree_keys. }
  destruct (eval_remove_all to_remove s Hs) as (s1 & -> & Hs1 & He1 & Hc1 & Hn1 & Hk1 & Hw1);
    [apply NoDup_hash_filter, NoDup_btree_keys | intros id Hid; by apply Hrm |].
  rewrite eval_bind.
  destruct (eval_add_all store new to_add s1 Hs1) as (s2 & -> & Hs2 & He2 & Hn2 & Hk2 & Hnew2 & Hw2).
  { apply NoDup_hash_filter, NoDup_fst_map_to_list. }
  { intros id [Hno Hin]%Had. split_and!; [| done |].
    - rewrite Hk1; [by apply eq_None_not_Some |]. rewrite Hrm. by intros [].
    - apply Hwant' in Hin as (key & _ & b & Hb & Hid & _). exact (find_bond_some _ _ b Hb Hid). }
  destruct (eval_reload_end s2) as (s3 & -> & Hr3 & Hp3 & Ha3 & Hw3 & Ht3 & Hon3).
  assert (Hkept : forall id : str, ~ id ∈ to_add -> ~ id ∈ to_remove -> s_peers s3 !! id = s_peers s !! id).
  { intros id H1 H2. by rewrite Hp3, Hk2, Hk1. }
  destruct He1 as (Hw1' & Ha1 & Hx1 & Ht1 & Hc1'), He2 as (Hw2' & Ha2 & Hx2 & Ht2 & Hc2').
  exists s3. split; [done |]. split; [intros id; by rewrite Hr3, Hp3 |]. split; [| split; [congruence |]; split; [congruence |]; split].
  - intros id. split.
    + intros e Hid Hkey%Hwant'. rewrite Hkept; [done | |]; rewrite ?Had, ?Hrm; [| tauto].
      intros [Hno _]. apply Hno. by eexists.
    + intros e Hid Hid3. destruct (decide (id ∈ to_add)) as [Hin|Hin].
      * rewrite Hp3 in Hid3. destruct (Hnew2 id e Hin Hid3) as (key & b & ? & ? & ? & ? & ?).
        exists key, b. rewrite <- Hn1. split_and!; try done; by apply Hwant.
      * rewrite Hkept in Hid3; [congruence | done |]. rewrite Hrm, Hid. intros [_ Hno]. by destruct Hno.
  - by rewrite Ht3, Hp3, Hx2, Hx1, Ht2, Ht1.
  - intros Hwill. specialize (Hw1 Hwill). specialize (Hw2 Hwill). split.
    + intros id. rewrite <- Hwant'. destruct (decide (id ∈ to_add)) as [Hin|Hin].
      * rewrite Hp3. apply Had in Hin as Hin'. split; intros _; [apply Hin' | by apply Hw2].
      * destruct (decide (id ∈ to_remove)) as [Hout|Hout].
        -- rewrite Hp3, Hk2, Hw1 by done. apply Hrm in Hout as [Hno _]. split; [by intros [] | done].
        -- rewrite Hkept by done. rewrite Hrm in Hout. rewrite Had in Hin.
           split; intros Hsome.
           ++ destruct (new !! id); [by eexists |]. exfalso. apply Hout. split; [by intros [] | done].
           ++ destruct (s_peers s !! id); [by eexists |]. exfalso. apply Hin. split; [by intros [] | done].
    + rewrite Hon3 by done. unfold snapshot_peers. by rewrite Hp3, Hc2', Hc1'.
Qed.

(** ** Properties *)

(** A reload of a readable bonds file keeps the peripheral and the peer map in step,
    whatever the radio does: a phone that stays bonded keeps its entry, and with it
    its slot and its nonce cache; a new entry carries the key of its key file, the
    public key of its bond and a cell no entry had before; no file and no audit line
    is written; and the daemon asks for its own end exactly when it was told to exit
    without peers and none is left. *)
Theorem reload_reconciles trigger s g store :
  in_sync s -> s_world s = calm g -> BondStore_load bonds_file (calm g) = (Ret (Ok store), calm g) ->
  exists s', eval (run_reload trigger) s = Some (tt, s') /\ in_sync s' /\ reconciled g store s s' /\
    s_audit s' = s_audit s /\ s_world s' = s_world s /\
    (s_sigterm s' = true <-> s_sigterm s = true \/ (s_peers s' = ∅ /\ s_exit_when_empty s = true)).
Proof.
  intros Hs Hw Hl. destruct (eval_reload trigger s g store Hs Hw Hl) as (s' & ? & ? & ? & ? & ? & ? & _).
  exists s'. by split_and!.
Qed.

(** C27: with a radio that works, the peers after a reload are exactly the phones that
    are bonded on disk with a key file of 32 bytes, so that a revoked phone is gone; the
    session UUIDs on the air are those of these peers; and a second reload of the same
    disk changes no entry. *)
Theorem reload_serves_the_bonded `{!WillingPeripheral PP} t1 t2 s g store :
  in_sync s -> s_world s = calm g -> BondStore_load bonds_file (calm g) = (Ret (Ok store), calm g) ->
  exists s1 s2, eval (run_reload t1) s = Some (tt, s1) /\ eval (run_reload t2) s1 = Some (tt, s2) /\
    (forall id : str, is_Some (s_peers s1 !! id) <-> exists key, wanted g store id key) /\
    on_air (s_peripheral s1) = build_uuid_union (snapshot_peers s1) (minute_index (s_clock s)) /\
    s_peers s2 = s_peers s1.
Proof.
  intros Hs Hw Hl.
  destruct (eval_reload t1 s g store Hs Hw Hl) as (s1 & E1 & Hs1 & _ & _ & Hw1 & _ & Hx1).
  destruct (Hx1 _) as [Hp1 Ha1].
  destruct (eval_reload t2 s1 g store Hs1 (eq_trans Hw1 Hw) Hl) as (s2 & E2 & _ & Hr2 & _ & _ & _ & Hx2).
  destruct (Hx2 _) as [Hp2 _]. exists s1, s2. split_and!; try done.
  enough (Hq : forall id : str, s_peers s2 !! id = s_peers s1 !! id) by (apply map_eq; exact Hq).
  intros id. destruct (s_peers s1 !! id) as [e|] eqn:Ee.
  - destruct (Hr2 id) as [Hkeep _]. apply Hkeep; [done |]. apply Hp1. by eexists.
  - apply eq_None_not_Some. intros Hin. apply Hp2, Hp1 in Hin as [e He]. congruence.
Qed.

(** A reload does not notice a changed key: the entry of a phone that is in the
    peer map and still bonded stays as it is, bond key and public key included,
    although the key file on disk now holds another key. *)
Theorem reload_keeps_stale_key trigger s g store id e key :
  in_sync s -> s_world s = calm g -> BondStore_load bonds_file (calm g) = (Ret (Ok store), calm g) ->
  s_peers s !! id = Some e -> wanted g store id key -> bond_key e <> key ->
  exists s' e', eval (run_reload trigger) s = Some (tt, s') /\ s_peers s' !! id = Some e' /\
    bond_key e' <> key /\ phone_pubkey e' = phone_pubkey e.
Proof.
  intros Hs Hw Hl He Hk Hne. destruct (eval_reload trigger s g store Hs Hw Hl) as (s' & E & _ & Hr & _).
  exists s', e. split_and!; try done. destruct (Hr id) as [Hkeep _]. apply Hkeep; [done | by exists key].
Qed.
End reload.

(** ** Sample reloads *)

Section samples.
Import ToyCrypto ToyCrates ToyDaemon Fake.

Definition reload_file : path := join sample_dir (lit "bonds.toml").
Definition reload_store : BondStore := mkStore [phone_bond; set_status (StRevoked (lit "lost")) sample_bond].
Definition reload_bytes : list Z := match serialize_to_toml reload_store with Ok b => b | Err _ => [] end.

(** The disk with the two bonds and a key for the phone that is not revoked. *)
Definition reload_fs (key : list Z) : fs :=
  <[join sample_dir (peer_id phone_bond ++ BOND_KEY_FILE_EXT) := File key 384]>
    (<[reload_file := File reload_bytes 384]> sample_fs).

Lemma reload_loads key :
  BondStore_load reload_file (calm (reload_fs key)) = (Ret (Ok reload_store), calm (reload_fs key)).
Proof.
  apply load_calm.
  - replace (reload_fs key !! reload_file) with (Some (File reload_bytes 384)); [by split; vm_compute |].
    symmetry. unfold reload_fs. rewrite lookup_insert_ne; [apply lookup_insert_eq |]. by vm_compute.
  - unfold reload_fs. rewrite lookup_insert_ne, lookup_insert_eq; [done |]. by vm_compute.
Qed.

Lemma reload_wanted key :
  length key = 32%nat -> wanted sample_dir (reload_fs key) reload_store (peer_id phone_bond) key.
Proof.
  intros Hk. split; [| exists phone_bond; by split; [left |]]. unfold key_of, read_op, reload_fs.
  rewrite lookup_insert_eq. unfold len. by rewrite Hk.
Qed.

(** A daemon that still serves the revoked phone. *)
Notation revoked_radio := (fake_add_peer (peer_id sample_bond) phone_key (FakePeripheral_new [])).2.
Notation stale_state w :=
  (set_exit_when_empty true
    (with_peers_and_audit (PP := FakePeripheral) revoked_radio [(sample_bond, phone_key)] w (Some (opened []))
      1700000000000000000)).

Lemma singleton_sync script (x : Bond * list Z) w a now b :
  in_sync (PP := FakePeripheral) (set_exit_when_empty b
    (with_peers_and_audit (PP := FakePeripheral) (fake_add_peer (peer_id x.1) x.2 (FakePeripheral_new script)).2 [x] w a now)).
Proof.
  intros id.
  replace (registered _) with ({[peer_id x.1 := x.2]} : gmap (list Z) (list Z)); [| cbn; unfold fake_add_peer; cbn; by rewrite lookup_empty].
  change (s_peers _) with ({[peer_id x.1 := mkEntry x.2 (Some (pubkey x.1)) O]} : gmap (list Z) PeerEntry).
  destruct (decide (peer_id x.1 = id)) as [<-|Hn].
  - rewrite !lookup_singleton_eq. split; by eexists.
  - by rewrite !lookup_singleton_ne.
Qed.

Lemma reload_reconciles_witness :
  exists s', eval (PP := FakePeripheral) reload_file sample_dir (run_reload Sighup) (stale_state (calm (reload_fs phone_key))) = Some (tt, s') /\
    in_sync s'.
Proof.
  destruct (reload_reconciles (PP := FakePeripheral) reload_file sample_dir Sighup
    (stale_state (calm (reload_fs phone_key))) (reload_fs phone_key) reload_store) as (s' & E & Hs & _).
  - apply (singleton_sync _ (sample_bond, phone_key)).
  - reflexivity.
  - apply reload_loads.
  - exists s'. by split.
Defined.

Lemma reload_serves_the_bonded_witness :
  exists s', eval (PP := FakePeripheral) reload_file sample_dir (run_reload Sighup) (stale_state (calm (reload_fs phone_key))) = Some (tt, s') /\
    is_Some (s_peers s' !! (peer_id phone_bond)).
Proof.
  destruct (reload_serves_the_bonded (PP := FakePeripheral) reload_file sample_dir Sighup Sighup
    (stale_state (calm (reload_fs phone_key))) (reload_fs phone_key) reload_store) as (s1 & s2 & E & _ & Hp & _).
  - apply (singleton_sync _ (sample_bond, phone_key)).
  - reflexivity.
  - apply reload_loads.
  - exists s1. split; [exact E |]. apply Hp. exists phone_key. by apply reload_wanted.
Defined.

(** The phone paired again: its key file holds a new key. *)
Lemma reload_keeps_stale_key_witness :
  exists s' e', eval (PP := FakePeripheral) reload_file sample_dir (run_reload Sighup)
      (set_exit_when_empty false (with_peers_and_audit (PP := FakePeripheral) phone_radio [(phone_bond, phone_key)]
        (calm (reload_fs (replicate 32 1))) (Some (opened [])) 1700000000000000000)) = Some (tt, s') /\
    s_peers s' !! peer_id phone_bond = Some e' /\ bond_key e' <> replicate 32 1.
Proof.
  destruct (reload_keeps_stale_key (PP := FakePeripheral) reload_file sample_dir Sighup
    (set_exit_when_empty false (with_peers_and_audit (PP := FakePeripheral) phone_radio [(phone_bond, phone_key)]
        (calm (reload_fs (replicate 32 1))) (Some (opened [])) 1700000000000000000))
    (reload_fs (replicate 32 1)) reload_store (peer_id phone_bond) (mkEntry phone_key (Some (pubkey phone_bond)) O)
    (replicate 32 1)) as (s' & e' & E & Hp & Hk & _).
  - apply (singleton_sync _ (phone_bond, phone_key)).
  - reflexivity.
  - apply reload_loads.
  - apply lookup_singleton_eq.
  - by apply reload_wanted.
  - by vm_compute.
  - exists s', e'. by split_and!.
Defined.
End samples.
