(* ===== verification/Rpc.v ===== *)
(** * The RPC frames of the daemon's socket

    Models crates/syauth-presenced/src/rpc.rs: the requests and responses the PAM
    module and the daemon exchange, their encoding as CBOR behind a length of four
    bytes, and the two readers and writers (for tokio and for blocking streams).

    A stream is the bytes that arrived, and how it ended if it did: an
    asynchronous read that needs more is pending.  CBOR itself is the [ciborium]
    crate. *)

From stdpp Require Import prelude list gmap strings.
From Stdlib Require Import ZArith Lia.
From S2P Require Import Prelude WireFrame Fs Bond Peripheral Orchestrator.

Definition MAX_FRAME_LEN : Z := 64 * 1024.
Definition LENGTH_PREFIX_BYTES : Z := 4.
Definition u32_max : Z := 2 ^ 32 - 1.

Inductive Request :=
| ReqChallenge (peer_id : str) (nonce : list Z)
| ReqReload
| ReqStatus.

Inductive Response :=
| RespChallenge (ok : bool) (signature : option (list Z)) (reason : str)
| RespReload (ok : bool)
| RespStatus (peers : list PeerStatus) (started_at : SystemTime).

Inductive FrameError :=
| FrIo (e : ErrorKind)
| FrDecode (message : str)
| FrEncode (message : str)
| FrTooLarge (announced max : Z).

(** ** Serialization *)

(** [serialize] and [deserialize] of a type with CBOR; a [Deserialize]
    implementation of the repository may panic. *)
Class Serde (T : Type) := {
  into_writer : T -> result (list Z) str;
  from_reader : list Z -> outcome (result T str);
}.

(** The values a Rust program can hold, and what serialization makes of them:
    reading a written value gives it back up to [stored_as]. *)
Class SerdeLaws (T : Type) `{Serde T} (wf : T -> Prop) (stored_as : T -> T) : Prop :=
  serde_roundtrip : forall v bytes, wf v -> into_writer v = Ok bytes -> from_reader bytes = Ret (Ok (stored_as v)).

(** [ciborium] at the shapes the derived implementations give: a response's
    [started_at] is a number. *)
Inductive RawResponse :=
| RawChallenge (ok : bool) (signature : option (list Z)) (reason : str)
| RawReload (ok : bool)
| RawStatus (peers : list PeerStatus) (started_at : Z).

Class Ciborium := {
  cbor_of_request : Request -> result (list Z) str;
  cbor_to_request : list Z -> result Request str;
  cbor_of_response : RawResponse -> result (list Z) str;
  cbor_to_response : list Z -> result RawResponse str;
}.

Definition status_wf (p : PeerStatus) : Prop :=
  utf8 (st_peer_id p) = true /\
  (forall n, last_challenge_ms_ago p = Some n -> is_u64 n) /\ (forall n, last_connect_ms_ago p = Some n -> is_u64 n) /\
  arr 16 (current_session_uuid p) /\ 0 <= in_flight_challenges p < 2 ^ 32.

Definition request_wf (r : Request) : Prop :=
  match r with
  | ReqChallenge id n => utf8 id = true /\ bytes_ok n
  | _ => True
  end.

Definition raw_response_wf (r : RawResponse) : Prop :=
  match r with
  | RawChallenge _ sig reason => (forall s, sig = Some s -> bytes_ok s) /\ utf8 reason = true
  | RawReload _ => True
  | RawStatus peers secs => Forall status_wf peers /\ is_u64 secs
  end.

(** A value of the type is read back as it was written, and what is read is a
    value of the type. *)
Class CiboriumLaws (C : Ciborium) : Prop := {
  cbor_request_roundtrip : forall r bytes, request_wf r -> cbor_of_request r = Ok bytes -> cbor_to_request bytes = Ok r;
  cbor_response_roundtrip : forall r bytes,
    raw_response_wf r -> cbor_of_response r = Ok bytes -> cbor_to_response bytes = Ok r;
  cbor_request_typed : forall bytes r, cbor_to_request bytes = Ok r -> request_wf r;
  cbor_response_typed : forall bytes r, cbor_to_response bytes = Ok r -> raw_response_wf r;
}.

(** [epoch_seconds]: [value.duration_since(UNIX_EPOCH).unwrap_or(ZERO).as_secs()],
    and [UNIX_EPOCH + Duration::from_secs(secs)], which panics when the seconds do not
    fit the [i64] of a [SystemTime]. *)
Definition epoch_seconds_serialize (value : SystemTime) : Z :=
  as_secs (match since_epoch value with Some d => d | None => 0 end).

Definition epoch_seconds_deserialize (secs : Z) : outcome SystemTime :=
  if secs <? 2 ^ 63 then Ret (secs * 1000000000) else Panicked.

Definition raw_of_response (r : Response) : RawResponse :=
  match r with
  | RespChallenge ok sig reason => RawChallenge ok sig reason
  | RespReload ok => RawReload ok
  | RespStatus peers started_at => RawStatus peers (epoch_seconds_serialize started_at)
  end.

Definition response_of_raw (r : RawResponse) : outcome Response :=
  match r with
  | RawChallenge ok sig reason => Ret (RespChallenge ok sig reason)
  | RawReload ok => Ret (RespReload ok)
  | RawStatus peers secs =>
      match epoch_seconds_deserialize secs with
      | Ret t => Ret (RespStatus peers t)
      | Killed => Killed
      | Panicked => Panicked
      end
  end.

#[global] Instance Request_serde `{Ciborium} : Serde Request := {
  into_writer := cbor_of_request;
  from_reader bytes := Ret (cbor_to_request bytes);
}.

#[global] Instance Response_serde `{Ciborium} : Serde Response := {
  into_writer r := cbor_of_response (raw_of_response r);
  from_reader bytes :=
    match cbor_to_response bytes with
    | Ok raw => match response_of_raw raw with Ret r => Ret (Ok r) | Killed => Killed | Panicked => Panicked end
    | Err e => Ret (Err e)
    end;
}.

(** ** Streams *)

(** The bytes that can be read, and the error the stream ends with. *)
Record Reader := mkReader { r_bytes : list Z; r_end : option ErrorKind }.

Inductive poll (A : Type) := Pending | Ready (a : A).
Arguments Pending {A}.
Arguments Ready {A} a.

(** [read_exact]: all of the [n] bytes, or the error the stream ends with (the
    rest of the stream is then gone), or not yet. *)
Definition read_exact (n : Z) (r : Reader) : poll (result (list Z) ErrorKind * Reader) :=
  if n <=? len (r_bytes r)
  then Ready (Ok (slice 0 n (r_bytes r)), mkReader (drop (Z.to_nat n) (r_bytes r)) (r_end r))
  else match r_end r with
       | Some e => Ready (Err e, mkReader [] (Some e))
       | None => Pending
       end.

(** A stream to write to: what was written, and the failure of a write after
    some more bytes. *)
Record Writer := mkWriter { w_bytes : list Z; w_fault : option (nat * ErrorKind) }.

(** [write_all] *)
Definition write_all (bytes : list Z) (w : Writer) : result unit ErrorKind * Writer :=
  match w_fault w with
  | Some (n, e) =>
      if (length bytes <=? n)%nat
      then (Ok tt, mkWriter (w_bytes w ++ bytes) (Some (n - length bytes, e)%nat))
      else (Err e, mkWriter (w_bytes w ++ take n bytes) (Some (O, e)))
  | None => (Ok tt, mkWriter (w_bytes w ++ bytes) None)
  end.

(** [flush] of an unbuffered socket. *)
Definition flush (w : Writer) : result unit ErrorKind * Writer := (Ok tt, w).

(** ** Frames *)

Definition u32_try_from (n : Z) : option Z := if n <=? u32_max then Some n else None.
Definition usize_try_from (n : Z) : option Z := if n <? 2 ^ 64 then Some n else None.

Section frames.
Context {T : Type} `{Serde T}.

Definition encode_frame (value : T) : result (list Z) FrameError :=
  let? payload := map_err FrEncode (into_writer value) in
  if len payload >? MAX_FRAME_LEN then
    Err (FrTooLarge (default u32_max (u32_try_from (len payload))) MAX_FRAME_LEN)
  else
    let? len_bytes := ok_or (u32_try_from (len payload)) (FrTooLarge u32_max MAX_FRAME_LEN) in
    Ok (to_be_bytes 4 len_bytes ++ payload).

Definition decode_frame (bytes : list Z) : outcome (result T FrameError) :=
  if len bytes >? MAX_FRAME_LEN then
    Ret (Err (FrTooLarge (default u32_max (u32_try_from (len bytes))) MAX_FRAME_LEN))
  else
    match from_reader bytes with
    | Ret r => Ret (map_err FrDecode r)
    | Killed => Killed
    | Panicked => Panicked
    end.

(** The tokio reader. *)
Definition read_frame (r : Reader) : poll (outcome (result T FrameError) * Reader) :=
  match read_exact LENGTH_PREFIX_BYTES r with
  | Pending => Pending
  | Ready (Err e, r) => Ready (Ret (Err (FrIo e)), r)
  | Ready (Ok len_buf, r) =>
      let announced_len := from_be_bytes len_buf in
      match usize_try_from announced_len with
      | None => Ready (Ret (Err (FrTooLarge announced_len MAX_FRAME_LEN)), r)
      | Some len_usize =>
          if len_usize >? MAX_FRAME_LEN
          then Ready (Ret (Err (FrTooLarge announced_len MAX_FRAME_LEN)), r)
          else
            match read_exact len_usize r with
            | Pending => Pending
            | Ready (Err e, r) => Ready (Ret (Err (FrIo e)), r)
            | Ready (Ok payload, r) => Ready (decode_frame payload, r)
            end
      end
  end.

Definition write_frame (value : T) (w : Writer) : result unit FrameError * Writer :=
  match encode_frame value with
  | Err e => (Err e, w)
  | Ok framed =>
      match write_all framed w with
      | (Err e, w) => (Err (FrIo e), w)
      | (Ok _, w) => let '(r, w) := flush w in (map_err FrIo r, w)
      end
  end.

(** The blocking reader and writer of the PAM module. *)
Definition read_frame_blocking (r : Reader) : poll (outcome (result T FrameError) * Reader) :=
  match read_exact LENGTH_PREFIX_BYTES r with
  | Pending => Pending
  | Ready (Err e, r) => Ready (Ret (Err (FrIo e)), r)
  | Ready (Ok len_buf, r) =>
      let announced_len := from_be_bytes len_buf in
      match usize_try_from announced_len with
      | None => Ready (Ret (Err (FrTooLarge announced_len MAX_FRAME_LEN)), r)
      | Some len_usize =>
          if len_usize >? MAX_FRAME_LEN
          then Ready (Ret (Err (FrTooLarge announced_len MAX_FRAME_LEN)), r)
          else
            match read_exact len_usize r with
            | Pending => Pending
            | Ready (Err e, r) => Ready (Ret (Err (FrIo e)), r)
            | Ready (Ok payload, r) => Ready (decode_frame payload, r)
            end
      end
  end.

Definition write_frame_blocking (value : T) (w : Writer) : result unit FrameError * Writer :=
  match encode_frame value with
  | Err e => (Err e, w)
  | Ok framed =>
      match write_all framed w with
      | (Err e, w) => (Err (FrIo e), w)
      | (Ok _, w) => let '(r, w) := flush w in (map_err FrIo r, w)
      end
  end.
End frames.

(** ** What the codecs promise *)

(** [started_at] in whole seconds since the epoch. *)
Definition whole_seconds (r : Response) : Response :=
  match r with
  | RespStatus peers t => RespStatus peers (epoch_seconds_serialize t * 1000000000)
  | _ => r
  end.

(** A response with a [started_at] that a [SystemTime] of the platform can hold. *)
Definition response_wf (r : Response) : Prop :=
  raw_response_wf (raw_of_response r) /\
  match r with RespStatus _ t => t < 2 ^ 63 * 1000000000 | _ => True end.

#[global] Instance Request_laws `{C : Ciborium, !CiboriumLaws C} : SerdeLaws Request request_wf id.
Proof. intros r bytes Hr Hb. cbn in *. by rewrite (cbor_request_roundtrip r). Qed.

#[global] Instance Response_laws `{C : Ciborium, !CiboriumLaws C} : SerdeLaws Response response_wf whole_seconds.
Proof.
  intros r bytes [Hr Ht] Hb. cbn in *. rewrite (cbor_response_roundtrip _ _ Hr Hb).
  destruct r as [| |peers t]; cbn; [done | done |]. unfold epoch_seconds_deserialize.
  destruct (Z.ltb_spec (epoch_seconds_serialize t) (2 ^ 63)) as [|Hge]; [done |].
  unfold epoch_seconds_serialize, since_epoch, as_secs in Hge.
  destruct (Z.ltb_spec t 0); [change (0 / 1000000000) with 0 in Hge; lia |].
  assert (t / 1000000000 < 2 ^ 63) by (apply Z.div_lt_upper_bound; lia). lia.
Qed.

(** ** Streams and frames *)

Lemma read_exact_app l rest e :
  read_exact (len l) (mkReader (l ++ rest) e) = Ready (Ok l, mkReader rest e).
Proof.
  unfold read_exact. cbn [r_bytes r_end]. rewrite len_app.
  rewrite (proj2 (Z.leb_le _ _)) by (pose proof (len_nonneg rest); lia).
  rewrite slice_prefix by done. unfold len. by rewrite Nat2Z.id, drop_app_length.
Qed.

Lemma read_exact_short n l e :
  len l < n -> read_exact n (mkReader l e) = match e with Some k => Ready (Err k, mkReader [] (Some k)) | None => Pending end.
Proof. intros Hl. unfold read_exact. cbn [r_bytes r_end]. by rewrite (proj2 (Z.leb_gt _ _)). Qed.

Lemma read_exact_ready n r x r' :
  0 <= n -> read_exact n r = Ready (Ok x, r') -> r_bytes r = x ++ r_bytes r' /\ len x = n /\ r_end r' = r_end r.
Proof.
  unfold read_exact. intros Hn. case_bool; [| by destruct (r_end r)]. intros [= <- <-]. cbn. split_and!; [| | done].
  - unfold slice. by rewrite Z.sub_0_r, drop_0, take_drop.
  - rewrite len_slice; lia.
Qed.

Lemma length_to_be_bytes k n : length (to_be_bytes k n) = k.
Proof. pose proof (len_to_be_bytes k n) as Hl. unfold len in Hl. lia. Qed.

Section frame_lemmas.
Context {T : Type} `{Serde T}.

Lemma encode_frame_ok (v : T) framed :
  encode_frame v = Ok framed <->
  exists payload, into_writer v = Ok payload /\ len payload <= MAX_FRAME_LEN /\
    framed = to_be_bytes 4 (len payload) ++ payload.
Proof.
  unfold encode_frame. destruct (into_writer v) as [payload|e]; cbn; [| split; [done | by intros (? & ? & _)]].
  destruct (Z.gtb_spec (len payload) MAX_FRAME_LEN).
  - split; [done | intros (p & [= <-] & Hp & _); lia].
  - unfold u32_try_from, u32_max. rewrite (proj2 (Z.leb_le _ _)) by (unfold MAX_FRAME_LEN in *; lia). cbn.
    split; [intros [= <-]; by exists payload | by intros (p & [= <-] & _ & ->)].
Qed.

(** A frame whose payload is there, in front of anything. *)
Lemma read_frame_payload payload rest e :
  len payload <= MAX_FRAME_LEN ->
  read_frame (T := T) (mkReader ((to_be_bytes 4 (len payload) ++ payload) ++ rest) e) =
  Ready (decode_frame payload, mkReader rest e).
Proof.
  intros Hp. unfold read_frame. rewrite <- (app_assoc (to_be_bytes _ _)).
  change LENGTH_PREFIX_BYTES with (Z.of_nat 4). rewrite <- (len_to_be_bytes 4 (len payload)), read_exact_app.
  pose proof (len_nonneg payload). unfold MAX_FRAME_LEN in *.
  rewrite from_to_be_bytes by (change (256 ^ Z.of_nat 4) with 4294967296; lia).
  unfold usize_try_from. rewrite (proj2 (Z.ltb_lt _ _)) by lia.
  destruct (Z.gtb_spec (len payload) (64 * 1024)); [lia |]. by rewrite read_exact_app.
Qed.

(** A frame cut short. *)
Lemma read_frame_cut payload k e :
  len payload <= MAX_FRAME_LEN -> (k < 4 + length payload)%nat ->
  read_frame (T := T) (mkReader (take k (to_be_bytes 4 (len payload) ++ payload)) e) =
  match e with Some err => Ready (Ret (Err (FrIo err)), mkReader [] (Some err)) | None => Pending end.
Proof.
  intros Hp Hk. pose proof (len_to_be_bytes 4 (len payload)) as Hl. unfold read_frame.
  destruct (decide (k < 4)%nat) as [Hs|Hs].
  { rewrite read_exact_short; [by destruct e |]. unfold len, LENGTH_PREFIX_BYTES. rewrite length_take. lia. }
  rewrite take_app_ge by (rewrite length_to_be_bytes; lia). change LENGTH_PREFIX_BYTES with (Z.of_nat 4).
  rewrite <- Hl, read_exact_app.
  pose proof (len_nonneg payload). unfold MAX_FRAME_LEN in *.
  rewrite from_to_be_bytes by (change (256 ^ Z.of_nat 4) with 4294967296; lia).
  unfold usize_try_from. rewrite (proj2 (Z.ltb_lt _ _)) by lia.
  destruct (Z.gtb_spec (len payload) (64 * 1024)); [lia |].
  rewrite read_exact_short; [by destruct e |]. unfold len in *. rewrite length_take, length_to_be_bytes. lia.
Qed.

Lemma read_frame_blocking_same (r : Reader) : read_frame_blocking (T := T) r = read_frame r.
Proof. reflexivity. Qed.

(** What a reader takes from the stream. *)
Lemma read_frame_takes (r : Reader) res r' :
  bytes_ok (r_bytes r) -> read_frame (T := T) r = Ready (res, r') ->
  (exists err, res = Ret (Err (FrIo err)) /\ r' = mkReader [] (Some err) /\ r_end r = Some err /\
     len (r_bytes r) < LENGTH_PREFIX_BYTES + MAX_FRAME_LEN) \/
  (exists prefix, r_bytes r = prefix ++ r_bytes r' /\ len prefix = 4 /\ MAX_FRAME_LEN < from_be_bytes prefix /\
     res = Ret (Err (FrTooLarge (from_be_bytes prefix) MAX_FRAME_LEN))) \/
  (exists payload, r_bytes r = (to_be_bytes 4 (len payload) ++ payload) ++ r_bytes r' /\
     len payload <= MAX_FRAME_LEN /\ res = decode_frame payload).
Proof.
  intros Hb. unfold read_frame. destruct (read_exact LENGTH_PREFIX_BYTES r) as [|[[p|e] r1]] eqn:E1; [done | |].
  2: { intros [= <- <-]. left. exists e. split; [done |]. unfold read_exact in E1.
       destruct (Z.leb_spec LENGTH_PREFIX_BYTES (len (r_bytes r))); [done |]. unfold MAX_FRAME_LEN.
       destruct (r_end r); [injection E1 as -> <-; split_and!; [done | done | lia] | done]. }
  apply read_exact_ready in E1 as (Hr & Hp & He); [| by vm_compute].
  rewrite Hr in Hb. apply bytes_ok_app in Hb as [Hb1 Hb2].
  pose proof (from_be_bytes_bound p Hb1) as Hbound. rewrite Hp in Hbound. change (256 ^ LENGTH_PREFIX_BYTES) with 4294967296 in Hbound.
  unfold usize_try_from. rewrite (proj2 (Z.ltb_lt _ _)) by lia.
  destruct (Z.gtb_spec (from_be_bytes p) MAX_FRAME_LEN).
  { intros [= <- <-]. right. left. exists p. by split_and!. }
  destruct (read_exact (from_be_bytes p) r1) as [|[[x|e] r2]] eqn:E2; [done | |].
  - intros [= <- <-]. right. right. exists x. apply read_exact_ready in E2 as (Hr1 & Hx & _); [| lia].
    split_and!; [| lia | done]. rewrite Hr, Hr1, Hx, <- app_assoc. f_equal.
    rewrite <- (to_from_be_bytes p Hb1) at 1. f_equal. unfold len, LENGTH_PREFIX_BYTES in Hp. lia.
  - intros [= <- <-]. left. exists e. split; [done |]. unfold read_exact in E2.
    destruct (Z.leb_spec (from_be_bytes p) (len (r_bytes r1))); [done |]. rewrite Hr, len_app, Hp, <- He.
    destruct (r_end r1); [injection E2 as -> <-; split_and!; [done | done | lia] | done].
Qed.

(** A read that waits: the stream is open, and shorter than the largest frame. *)
Lemma read_frame_waits (r : Reader) :
  read_frame (T := T) r = Pending -> r_end r = None /\ len (r_bytes r) < LENGTH_PREFIX_BYTES + MAX_FRAME_LEN.
Proof.
  unfold read_frame. destruct (read_exact LENGTH_PREFIX_BYTES r) as [|[[p|e] r1]] eqn:E1; [| | done].
  { intros _. unfold read_exact in E1. destruct (Z.leb_spec LENGTH_PREFIX_BYTES (len (r_bytes r))); [done |].
    unfold MAX_FRAME_LEN. destruct (r_end r); [done |]. split; [done | lia]. }
  apply read_exact_ready in E1 as (Hr & Hp & He); [| by vm_compute].
  destruct (usize_try_from (from_be_bytes p)) as [n|] eqn:En; [| done].
  destruct (Z.gtb_spec n MAX_FRAME_LEN); [done |].
  destruct (read_exact n r1) as [|[[x|e] r2]] eqn:E2; [| done | done]. intros _. unfold read_exact in E2.
  destruct (Z.leb_spec n (len (r_bytes r1))); [done |]. rewrite Hr, len_app, Hp, <- He.
  destruct (r_end r1); [done |]. split; [done | lia].
Qed.

Lemma write_frame_ok (v : T) w w' :
  write_frame v w = (Ok tt, w') <->
  exists framed, encode_frame v = Ok framed /\ write_all framed w = (Ok tt, w').
Proof.
  unfold write_frame, flush. destruct (encode_frame v) as [framed|e]; [| split; [done | by intros (? & ? & _)]].
  destruct (write_all framed w) as [[[]|e] w1] eqn:E; cbn.
  - split; [intros [= <-]; by exists framed | intros (f & [= <-] & Hw); congruence].
  - split; [done | intros (f & [= <-] & Hw); congruence].
Qed.
End frame_lemmas.

Lemma write_all_ok bytes w w' : write_all bytes w = (Ok tt, w') -> w_bytes w' = w_bytes w ++ bytes.
Proof.
  unfold write_all. destruct (w_fault w) as [[n e]|]; [| by intros [= <-]].
  destruct (length bytes <=? n)%nat; [by intros [= <-] | done].
Qed.

Lemma write_all_prefix bytes w : exists k, w_bytes (write_all bytes w).2 = w_bytes w ++ take k bytes.
Proof.
  unfold write_all. destruct (w_fault w) as [[n e]|].
  - destruct (length bytes <=? n)%nat; cbn; [| by exists n]. exists (length bytes). by rewrite firstn_all.
  - exists (length bytes). cbn. by rewrite firstn_all.
Qed.

Lemma write_frame_prefix {T} `{Serde T} (v : T) w :
  exists k framed, w_bytes (write_frame v w).2 = w_bytes w ++ take k framed /\
    (encode_frame v = Ok framed \/ (k = O /\ framed = [])).
Proof.
  unfold write_frame. destruct (encode_frame v) as [framed|e]; [| exists O, []; rewrite app_nil_r; auto].
  destruct (write_all_prefix framed w) as [k Hk]. exists k, framed. split; [| by left]. rewrite <- Hk.
  by destruct (write_all framed w) as [[]].
Qed.

(** ** Properties *)

Section properties.
Context {T : Type} {wf : T -> Prop} {stored_as : T -> T} `{S : Serde T, !SerdeLaws T wf stored_as}.

(** C35: a frame that a writer sent is read by either reader as the value written (a
    timestamp up to its whole seconds) and nothing behind it is consumed, however the
    stream was cut into chunks: on a proper beginning of the frame the reader waits, and
    if the stream ends there it reports the stream's error. *)
Theorem rpc_frame_roundtrip (v : T) w w' :
  wf v -> write_frame_blocking v w = (Ok tt, w') ->
  exists framed, w_bytes w' = w_bytes w ++ framed /\
    (forall rest e, read_frame (mkReader (framed ++ rest) e) = Ready (Ret (Ok (stored_as v)), mkReader rest e)) /\
    (forall k, (k < length framed)%nat -> read_frame (T := T) (mkReader (take k framed) None) = Pending) /\
    (forall k e, (k < length framed)%nat ->
       read_frame (T := T) (mkReader (take k framed) (Some e)) = Ready (Ret (Err (FrIo e)), mkReader [] (Some e))) /\
    (forall r, read_frame_blocking (T := T) r = read_frame r).
Proof.
  intros Hv Hw. change (write_frame v w = (Ok tt, w')) in Hw. apply write_frame_ok in Hw as (framed & Hf & Hw).
  apply encode_frame_ok in Hf as (payload & Hp & Hl & ->). eexists. split; [by apply write_all_ok |].
  assert (Hlen : length (to_be_bytes 4 (len payload) ++ payload) = (4 + length payload)%nat).
  { by rewrite length_app, length_to_be_bytes. }
  rewrite Hlen. split_and!.
  - intros rest e. rewrite read_frame_payload by done. unfold decode_frame.
    destruct (Z.gtb_spec (len payload) MAX_FRAME_LEN); [lia |]. by rewrite (serde_roundtrip v payload Hv Hp).
  - intros k Hk. by apply (read_frame_cut payload k None).
  - intros k e Hk. by apply (read_frame_cut payload k (Some e)).
  - apply read_frame_blocking_same.
Qed.
End properties.

(** C36: What any peer can make [read_frame] take from a stream: it waits for more only while the stream is open and has
    fewer bytes than the largest frame; it takes at most 4 + 65536 bytes: a length above the limit is refused after its four
    bytes and the rest stays in place, otherwise exactly the announced payload is taken and decoded; an I/O error is reported
    only if the stream, shorter than the largest frame, has ended with it.  No value is written as a longer frame. *)
Theorem rpc_frame_bounds {T} `{Serde T} (r : Reader) :
  bytes_ok (r_bytes r) ->
  match read_frame (T := T) r with
  | Pending => r_end r = None /\ len (r_bytes r) < LENGTH_PREFIX_BYTES + MAX_FRAME_LEN
  | Ready (res, r') =>
      (exists err, res = Ret (Err (FrIo err)) /\ r_end r = Some err /\ len (r_bytes r) < LENGTH_PREFIX_BYTES + MAX_FRAME_LEN) \/
      exists taken, r_bytes r = taken ++ r_bytes r' /\ let announced := from_be_bytes (slice 0 4 taken) in
        if MAX_FRAME_LEN <? announced
        then len taken = LENGTH_PREFIX_BYTES /\ res = Ret (Err (FrTooLarge announced MAX_FRAME_LEN))
        else len taken = LENGTH_PREFIX_BYTES + announced /\ res = decode_frame (drop 4 taken)
  end /\
  forall (v : T) framed, encode_frame v = Ok framed ->
    LENGTH_PREFIX_BYTES <= len framed <= LENGTH_PREFIX_BYTES + MAX_FRAME_LEN.
Proof.
  intros Hb. split.
  - destruct (read_frame (T := T) r) as [|[res r']] eqn:Hr; [by apply (read_frame_waits (T := T)) |].
    destruct (read_frame_takes r res r' Hb Hr) as [(err & -> & _ & He & Hl)|[(p & Hp & Hl & Hm & ->)|(x & Hp & Hl & ->)]].
    + left. by exists err.
    + right. exists p. split; [done |]. cbv zeta. rewrite slice_full by done.
      by rewrite (proj2 (Z.ltb_lt _ _) Hm).
    + right. eexists. split; [exact Hp |]. cbv zeta. pose proof (len_nonneg x).
      rewrite slice_prefix by apply len_to_be_bytes. unfold MAX_FRAME_LEN in *.
      rewrite from_to_be_bytes by (change (256 ^ Z.of_nat 4) with 4294967296; lia).
      rewrite (proj2 (Z.ltb_ge _ _) Hl), len_app, len_to_be_bytes. split; [done |]. by rewrite drop_app_length' by (by rewrite length_to_be_bytes).
  - intros v framed (x & _ & Hl & ->)%encode_frame_ok. rewrite len_app, len_to_be_bytes.
    pose proof (len_nonneg x). unfold LENGTH_PREFIX_BYTES. lia.
Qed.

(** ** A sample codec *)

Module ToyCbor.
Import ToyCrates.

#[global] Instance PeerStatus_eq_dec : EqDecision PeerStatus.
Proof. solve_decision. Defined.
#[global] Instance PeerStatus_countable : Countable PeerStatus.
Proof.
  refine (inj_countable'
    (fun p => (st_peer_id p, last_challenge_ms_ago p, last_connect_ms_ago p, current_session_uuid p, in_flight_challenges p))
    (fun '(a, b, c, d, e) => mkStatus a b c d e) _). by intros [].
Defined.

#[global] Instance Request_eq_dec : EqDecision Request.
Proof. solve_decision. Defined.
#[global] Instance Request_countable : Countable Request.
Proof.
  refine (inj_countable'
    (fun r => match r with ReqChallenge a b => inl (a, b) | ReqReload => inr true | ReqStatus => inr false end)
    (fun x => match x with inl (a, b) => ReqChallenge a b | inr true => ReqReload | inr false => ReqStatus end) _).
  by intros [].
Defined.

#[global] Instance RawResponse_eq_dec : EqDecision RawResponse.
Proof. solve_decision. Defined.
#[global] Instance RawResponse_countable : Countable RawResponse.
Proof.
  refine (inj_countable'
    (fun r => match r with
              | RawChallenge a b c => inl (a, b, c) | RawReload a => inr (inl a) | RawStatus a b => inr (inr (a, b)) end)
    (fun x => match x with
              | inl (a, b, c) => RawChallenge a b c | inr (inl a) => RawReload a | inr (inr (a, b)) => RawStatus a b end) _).
  by intros [].
Defined.

#[global] Instance some_dec {A} (P : A -> Prop) `{!forall a, Decision (P a)} (o : option A) :
  Decision (forall a, o = Some a -> P a).
Proof.
  refine (match o with Some a => cast_if (decide (P a)) | None => left _ end); [by intros ? [= <-] | by intros Ha; apply n, Ha | done].
Defined.
#[global] Instance is_u64_dec n : Decision (is_u64 n).
Proof. unfold is_u64. apply _. Defined.
#[global] Instance status_wf_dec p : Decision (status_wf p).
Proof. unfold status_wf. apply _. Defined.
#[global] Instance request_wf_dec r : Decision (request_wf r).
Proof. destruct r; cbn; apply _. Defined.
#[global] Instance raw_response_wf_dec r : Decision (raw_response_wf r).
Proof. destruct r; cbn; apply _. Defined.

(** A value as one number, in the text of Bond.v. *)
Definition toy_write {A} `{Countable A} (a : A) : list Z := text_of [Zpos (encode a)].
Definition toy_read {A} `{Countable A} (P : A -> Prop) `{!forall a, Decision (P a)} (bytes : list Z) : result A str :=
  match of_text bytes with
  | [Zpos p] => match decode p with Some a => if decide (P a) then Ok a else Err [] | None => Err [] end
  | _ => Err []
  end.

Lemma toy_read_write {A} `{Countable A} (P : A -> Prop) `{!forall a, Decision (P a)} a :
  P a -> toy_read P (toy_write a) = Ok a.
Proof. intros Ha. unfold toy_read, toy_write. rewrite of_text_of, decode_encode. by rewrite decide_True. Qed.

Lemma toy_read_typed {A} `{Countable A} (P : A -> Prop) `{!forall a, Decision (P a)} bytes a :
  toy_read P bytes = Ok a -> P a.
Proof. unfold toy_read. intros Hr. repeat case_match; by simplify_eq. Qed.

#[export] Instance toy_cbor : Ciborium := {|
  cbor_of_request r := Ok (toy_write r);
  cbor_to_request := toy_read request_wf;
  cbor_of_response r := Ok (toy_write r);
  cbor_to_response := toy_read raw_response_wf;
|}.

#[export] Instance toy_cbor_laws : CiboriumLaws toy_cbor.
Proof.
  split; cbn; [| | apply toy_read_typed | apply toy_read_typed].
  - intros r bytes Hr [= <-]. by apply toy_read_write.
  - intros r bytes Hr [= <-]. by apply toy_read_write.
Qed.
End ToyCbor.

Section samples.
Import ToyCbor.

Definition sample_request : Request := ReqChallenge (lit "ab") [1; 2; 3].
Notation sample_framed := (match encode_frame sample_request with Ok f => f | Err _ => [] end).

Lemma rpc_frame_roundtrip_witness :
  read_frame (mkReader (sample_framed ++ [7; 7]) None) = Ready (Ret (Ok sample_request), mkReader [7; 7] None) /\
  read_frame (T := Request) (mkReader (take 9 sample_framed) None) = Pending.
Proof.
  destruct (rpc_frame_roundtrip (wf := request_wf) sample_request (mkWriter [] None) (mkWriter sample_framed None))
    as (framed & Hf & Hr & Hp & _); [decide_now | vm_compute; reflexivity |].
  cbn [w_bytes app] in Hf. rewrite Hf. split; [apply Hr |]. apply Hp. rewrite <- Hf. vm_compute. lia.
Defined.

Lemma rpc_frame_bounds_witness :
  read_frame (T := Request) (mkReader [0; 1; 0; 1; 9; 9] None) =
    Ready (Ret (Err (FrTooLarge 65537 MAX_FRAME_LEN)), mkReader [9; 9] None) /\
  exists taken, [0; 1; 0; 1; 9; 9] = taken ++ [9; 9] /\ len taken = 4.
Proof.
  assert (E : read_frame (T := Request) (mkReader [0; 1; 0; 1; 9; 9] None) =
    Ready (Ret (Err (FrTooLarge 65537 MAX_FRAME_LEN)), mkReader [9; 9] None)) by (vm_compute; reflexivity).
  split; [exact E |].
  destruct (rpc_frame_bounds (T := Request) (mkReader [0; 1; 0; 1; 9; 9] None)) as [H _]; [decide_now |].
  rewrite E in H. destruct H as [(err & [=] & _)|(taken & Ht & Hl)].
  exists taken. split; [exact Ht |]. change [0; 1; 0; 1; 9; 9] with ([0; 1; 0; 1] ++ [9; 9]) in Ht.
  cbn [r_bytes] in Ht. apply app_inv_tail in Ht as <-. reflexivity.
Defined.
End samples.
