(* ===== verification/Server.v ===== *)
(** * The socket server of the daemon

    Models crates/syauth-presenced/src/server.rs: binding the socket ([serve_setup],
    [set_socket_mode], [SocketGuard]), the accept loop with its cap on connections, and
    the life of a connection ([handle_connection], [dispatch]) over the orchestrator
    of Orchestrator.v.

    The accept loop and the connections are tasks: a run is a sequence of events in
    any order, each of them a step of one task or something the outside does.  A
    connection is kept after it closed, with what it received and what it wrote. *)

From stdpp Require Import prelude list gmap strings.
From Stdlib Require Import ZArith Lia.
From S2P Require Import Prelude WireFrame Fs Bond PairRecovery PairTransaction Peripheral AuditTrail Orchestrator Challenge Rpc.

Definition LISTEN_MODE : Z := 384.
Definition CONCURRENT_ACCEPT_CAP : Z := 4.
Definition STUB_CHALLENGE_REASON : str := lit "not-implemented".

(** The handles a connection sees: of the reload channel and of the
    orchestrator; the daemon has one of each at most. *)
Record BackendState := mkBackend { reload_tx : bool; orchestrator : bool }.

Inductive ServeError :=
| SBind (p : path) (source : ErrorKind)
| SChmod (p : path) (source : ErrorKind).

(** ** Binding *)

Section bind.
Context `{Umask}.

(** [UnixListener::bind] makes the socket's node; the path must be free.  The node
    of a socket is modelled as an empty file. *)
Definition bind_op (p : path) (g : fs) : result unit ErrorKind * fs :=
  match g !! p with
  | Some _ => (Err AlreadyExists, g)
  | None =>
      match resolve_parent g p with
      | Ok _ => (Ok tt, <[p := File [] dir_mode]> g)
      | Err e => (Err e, g)
      end
  end.

Definition set_socket_mode (p : path) : io (result unit ServeError) :=
  let!? meta := imap_err (SChmod p) (fs_metadata p) in
  let!? _ := imap_err (SChmod p) (fs_set_permissions p LISTEN_MODE) in
  iret (Ok tt).

(** The start of [serve], up to the guard. *)
Definition serve_setup (socket_path : path) : io (result unit ServeError) :=
  let!? _ := imap_err (SBind socket_path) (syscall (bind_op socket_path)) in
  let!? _ := set_socket_mode socket_path in
  iret (Ok tt).

(** [Drop for SocketGuard]; a failure is only logged. *)
Definition SocketGuard_drop (p : path) : io unit :=
  let! _ := fs_remove_file p in
  iret tt.
End bind.

(** ** Connections *)

Section server.
Context `{B3 : Blake3, ED : Ed25519, HK : Hkdf, CH : Chrono, TM : Toml, HX : Hex, HO : HashOrder, PP : Peripheral, CB : Ciborium}.
Context (bonds_file keys : path).

Notation sys_step := (sys_step bonds_file keys).

(** Where the task of a connection is: before its first step, in [read_frame], in the
    [select!] of a challenge (which runs as the task of the same number), in the
    [send] of a reload, at its end. *)
Inductive phase := Starting | Reading | Challenging | Reloading | Closed.

#[global] Instance phase_eq_dec : EqDecision phase.
Proof. solve_decision. Defined.

Record Conn := mkConn {
  c_fed : list Z;
  c_reader : Reader;
  c_backend : BackendState;
  c_phase : phase;
  c_out : Writer;
}.

Record Server := mkServer {
  v_sys : Sys;
  v_backend : BackendState;
  v_receiver_open : bool;
  v_listening : bool;
  v_waiting : option nat;
  v_permits : Z;
  v_conns : gmap nat Conn;
  v_started_at : SystemTime;
  v_fixed_nonce : option (list Z);
}.

Definition set_sys (y : Sys) (v : Server) : Server :=
  mkServer y (v_backend v) (v_receiver_open v) (v_listening v) (v_waiting v) (v_permits v) (v_conns v)
    (v_started_at v) (v_fixed_nonce v).
Definition set_accept (listening : bool) (waiting : option nat) (permits : Z) (v : Server) : Server :=
  mkServer (v_sys v) (v_backend v) (v_receiver_open v) listening waiting permits (v_conns v)
    (v_started_at v) (v_fixed_nonce v).
Definition set_backend (b : BackendState) (open : bool) (v : Server) : Server :=
  mkServer (v_sys v) b open (v_listening v) (v_waiting v) (v_permits v) (v_conns v) (v_started_at v) (v_fixed_nonce v).
Definition put_conn (cid : nat) (c : Conn) (v : Server) : Server :=
  mkServer (v_sys v) (v_backend v) (v_receiver_open v) (v_listening v) (v_waiting v) (v_permits v)
    (<[cid := c]> (v_conns v)) (v_started_at v) (v_fixed_nonce v).

Definition with_phase (p : phase) (c : Conn) : Conn := mkConn (c_fed c) (c_reader c) (c_backend c) p (c_out c).
Definition with_reader (r : Reader) (c : Conn) : Conn := mkConn (c_fed c) r (c_backend c) (c_phase c) (c_out c).
Definition with_out (w : Writer) (c : Conn) : Conn := mkConn (c_fed c) (c_reader c) (c_backend c) (c_phase c) w.

(** The end of the connection's task drops its permit. *)
Definition close_conn (cid : nat) (c : Conn) (v : Server) : Server :=
  set_accept (v_listening v) (v_waiting v) (v_permits v + 1) (put_conn cid (with_phase Closed c) v).

(** [write_frame(&mut write_half, &response).await?] and the end of the handler. *)
Definition reply (r : Response) (cid : nat) (c : Conn) (v : Server) : Server :=
  close_conn cid (with_out (write_frame r (c_out c)).2 c) v.

(** The response to a finished challenge. *)
Definition challenge_response (outcome : ChallengeOutcome) : Response :=
  RespChallenge (match outcome with COk _ => true | _ => false end) (signature_bytes outcome) (reason_str outcome).

Definition stub_response : Response := RespChallenge false None STUB_CHALLENGE_REASON.

(** [dispatch], up to its first suspension. *)
Definition dispatch (request : Request) (cid : nat) (c : Conn) (v : Server) : Server :=
  match request with
  | ReqChallenge peer_id _ =>
      if orchestrator (c_backend c)
      then put_conn cid (with_phase Challenging c)
             (set_sys (sys_step (v_sys v) (Spawn cid peer_id (v_fixed_nonce v))) v)
      else reply stub_response cid c v
  | ReqReload =>
      if reload_tx (c_backend c) then put_conn cid (with_phase Reloading c) v
      else reply (RespReload false) cid c v
  | ReqStatus =>
      let peers := if orchestrator (c_backend c) then peers_snapshot (y_st (v_sys v)) else [] in
      reply (RespStatus peers (v_started_at v)) cid c v
  end.

(** A read of one byte would return: a byte, the end of the stream or an error. *)
Definition readable (r : Reader) : bool :=
  match r_bytes r, r_end r with [], None => false | _, _ => true end.

(** The outcome of the challenge, once it returned. *)
Definition finished (cid : nat) (v : Server) : option ChallengeOutcome :=
  match y_tasks (v_sys v) !! cid with
  | Some t => match t_prog t with Done out => Some out | _ => None end
  | None => None
  end.

(** The branch of the probe: the flag is raised, then the challenge's future is dropped
    as the handler returns. *)
Definition abandon (cid : nat) (c : Conn) (v : Server) : Server :=
  close_conn cid c (set_sys (sys_step (sys_step (v_sys v) (Cancel cid)) (DropTask cid)) v).

(** One step of [handle_connection] behind the credentials.  [take_probe] is the branch
    [select!] takes when both are ready. *)
Definition poll_conn (cid : nat) (take_probe : bool) (c : Conn) (v : Server) : Server :=
  match c_phase c with
  | Reading =>
      match read_frame (c_reader c) with
      | Pending => v
      | Ready (Ret (Ok request), r) => dispatch request cid (with_reader r c) v
      | Ready (_, r) => close_conn cid (with_reader r c) v
      end
  | Challenging =>
      match finished cid v, readable (c_reader c) with
      | Some out, false => reply (challenge_response out) cid c v
      | Some out, true => if take_probe then abandon cid c v else reply (challenge_response out) cid c v
      | None, true => abandon cid c v
      | None, false => v
      end
  | Reloading =>
      if negb (v_receiver_open v) then reply (RespReload false) cid c v
      else if len (y_queue (v_sys v)) <? RELOAD_CHANNEL_CAPACITY
           then reply (RespReload true) cid c (set_sys (sys_step (v_sys v) (SendReload Rpc)) v)
           else v
  | Starting | Closed => v
  end.

(** The first step of [handle_connection]: [SO_PEERCRED], whose user is only
    compared for a log line, and the backend of this moment. *)
Definition start_conn (cid : nat) (creds : result Z unit) (c : Conn) (v : Server) : Server :=
  match creds with
  | Err _ => close_conn cid c v
  | Ok peer_uid => put_conn cid (mkConn (c_fed c) (c_reader c) (v_backend v) Reading (c_out c)) v
  end.

Definition feed (bytes : list Z) (c : Conn) : Conn :=
  match r_end (c_reader c) with
  | Some _ => c
  | None =>
      mkConn (c_fed c ++ bytes) (mkReader (r_bytes (c_reader c) ++ bytes) None) (c_backend c) (c_phase c) (c_out c)
  end.

Definition hang_up (e : ErrorKind) (c : Conn) : Conn :=
  match r_end (c_reader c) with
  | Some _ => c
  | None => with_reader (mkReader (r_bytes (c_reader c)) (Some e)) c
  end.

Definition new_conn (fault : option (nat * ErrorKind)) : Conn :=
  mkConn [] (mkReader [] None) (mkBackend false false) Starting (mkWriter [] fault).

(** [Accept] is [listener.accept()], [Permit] the acquisition that follows it (the loop
    waits there, and does not look at the shutdown); [Daemon] an event of the
    orchestrator, whose challenges are started and dropped by connections only. *)
Inductive sv_event :=
| Accept (cid : nat)
| Permit (fault : option (nat * ErrorKind))
| Start (cid : nat) (creds : result Z unit)
| Receive (cid : nat) (bytes : list Z)
| HangUp (cid : nat) (e : ErrorKind)
| Poll (cid : nat) (take_probe : bool)
| Publish (b : BackendState)
| ReceiverDropped
| Daemon (e : event)
| Shutdown.

Definition of_daemon (e : event) : bool :=
  match e with Spawn _ _ _ | Cancel _ | DropTask _ => false | _ => true end.

Definition on_conn (cid : nat) (f : Conn -> Server -> Server) (v : Server) : Server :=
  match v_conns v !! cid with Some c => f c v | None => v end.

Definition sv_step (v : Server) (e : sv_event) : Server :=
  match e with
  | Accept cid =>
      match v_waiting v, v_conns v !! cid with
      | None, None => if v_listening v then set_accept true (Some cid) (v_permits v) v else v
      | _, _ => v
      end
  | Permit fault =>
      match v_waiting v with
      | Some cid =>
          if 0 <? v_permits v
          then put_conn cid (new_conn fault) (set_accept (v_listening v) None (v_permits v - 1) v)
          else v
      | None => v
      end
  | Start cid creds =>
      on_conn cid (fun c v => if decide (c_phase c = Starting) then start_conn cid creds c v else v) v
  | Receive cid bytes =>
      on_conn cid (fun c v => if decide (bytes_ok bytes) then put_conn cid (feed bytes c) v else v) v
  | HangUp cid e => on_conn cid (fun c v => put_conn cid (hang_up e c) v) v
  | Poll cid take_probe => on_conn cid (poll_conn cid take_probe) v
  | Publish b => set_backend b (v_receiver_open v) v
  | ReceiverDropped => set_backend (v_backend v) false v
  | Daemon e => if of_daemon e then set_sys (sys_step (v_sys v) e) v else v
  | Shutdown => match v_waiting v with None => set_accept false None (v_permits v) v | Some _ => v end
  end.

Definition sv_run (v : Server) (es : list sv_event) : Server := foldl sv_step v es.

(** [serve], once bound, over an orchestrator's initial state. *)
Definition sv_start (s : St) (b : BackendState) (started_at : SystemTime) (fixed : option (list Z)) : Server :=
  mkServer (sys_start s) b true true None CONCURRENT_ACCEPT_CAP ∅ started_at fixed.

(** ** What a connection's history says *)

(** The request was read from the beginning of what the client sent. *)
Definition requested (c : Conn) (request : Request) : Prop :=
  exists payload, c_fed c = (to_be_bytes 4 (len payload) ++ payload) ++ r_bytes (c_reader c) /\
    len payload <= MAX_FRAME_LEN /\ decode_frame payload = Ret (Ok request).

(** The response [dispatch] owes to a request; [task] is the challenge run for the
    connection. *)
Definition answers (started_at : SystemTime) (task : option challenge_task) (b : BackendState)
  (request : Request) (r : Response) : Prop :=
  match request with
  | ReqChallenge id _ =>
      if orchestrator b
      then exists t out, task = Some t /\ t_peer t = id /\ t_prog t = Done out /\ r = challenge_response out
      else r = stub_response
  | ReqReload => exists ok, r = RespReload ok /\ (reload_tx b = false -> ok = false)
  | ReqStatus => exists peers, r = RespStatus peers started_at /\ (orchestrator b = false -> peers = [])
  end.

(** The client received nothing, or the beginning of one response that answers its
    request. *)
Definition replied (started_at : SystemTime) (task : option challenge_task) (c : Conn) : Prop :=
  w_bytes (c_out c) = [] \/
  exists request r framed k, requested c request /\ answers started_at task (c_backend c) request r /\
    encode_frame r = Ok framed /\ w_bytes (c_out c) = take k framed.

Definition conn_inv (started_at : SystemTime) (task : option challenge_task) (c : Conn) : Prop :=
  bytes_ok (c_fed c) /\
  match c_phase c with
  | Starting | Reading => c_fed c = r_bytes (c_reader c) /\ w_bytes (c_out c) = [] /\ task = None
  | Challenging =>
      w_bytes (c_out c) = [] /\ orchestrator (c_backend c) = true /\
      exists id n, requested c (ReqChallenge id n) /\ forall t, task = Some t -> t_peer t = id
  | Reloading => w_bytes (c_out c) = [] /\ reload_tx (c_backend c) = true /\ requested c ReqReload /\ task = None
  | Closed => replied started_at task c
  end.

Definition is_open (c : Conn) : Z := if decide (c_phase c = Closed) then 0 else 1.
Definition open_count (m : gmap nat Conn) : Z := map_fold (fun _ c n => is_open c + n) 0 m.

Lemma open_count_delete m cid c : m !! cid = Some c -> open_count m = is_open c + open_count (delete cid m).
Proof. intros Hc. unfold open_count. apply (map_fold_delete_L (fun _ c n => is_open c + n)); [lia | done]. Qed.

Lemma open_count_new m cid c : m !! cid = None -> open_count (<[cid := c]> m) = is_open c + open_count m.
Proof. intros Hc. unfold open_count. apply (map_fold_insert_L (fun _ c n => is_open c + n)); [lia | done]. Qed.

Lemma open_count_update m cid c c' :
  m !! cid = Some c -> open_count (<[cid := c']> m) = open_count m - is_open c + is_open c'.
Proof.
  intros Hc. rewrite <- insert_delete_eq, open_count_new by apply lookup_delete_eq.
  rewrite (open_count_delete m cid c Hc). lia.
Qed.

Lemma open_count_nonneg m : 0 <= open_count m.
Proof.
  induction m as [|cid c m Hm _ IH] using map_first_key_ind; [done |]. rewrite open_count_new by done.
  unfold is_open. destruct (decide _); lia.
Qed.

(** ** The invariant of the server *)

Record sv_inv (s : St) (v : Server) : Prop := mkSvInv {
  sv_conn : forall cid c, v_conns v !! cid = Some c -> conn_inv (v_started_at v) (y_tasks (v_sys v) !! cid) c;
  sv_fresh : forall cid, v_conns v !! cid = None -> y_tasks (v_sys v) !! cid = None;
  sv_wait : forall cid, v_waiting v = Some cid -> v_conns v !! cid = None;
  sv_cap : v_permits v + open_count (v_conns v) = CONCURRENT_ACCEPT_CAP /\ 0 <= v_permits v;
  sv_sys : exists es, v_sys v = sys_run bonds_file keys (sys_start s) es;
}.

(** A step of the connection [cid], which ends as [c']. *)
Record moves (cid : nat) (c c' : Conn) (v v' : Server) : Prop := mkMoves {
  mv_conns : v_conns v' = <[cid := c']> (v_conns v);
  mv_same : v_started_at v' = v_started_at v /\ v_waiting v' = v_waiting v;
  mv_permits : v_permits v' + is_open c' = v_permits v + is_open c /\ v_permits v <= v_permits v';
  mv_tasks : forall n, n <> cid -> y_tasks (v_sys v') !! n = y_tasks (v_sys v) !! n;
  mv_sys : exists es, v_sys v' = sys_run bonds_file keys (v_sys v) es;
  mv_inv : conn_inv (v_started_at v) (y_tasks (v_sys v') !! cid) c';
}.

Lemma moves_inv s cid c c' v v' :
  sv_inv s v -> v_conns v !! cid = Some c -> moves cid c c' v v' -> sv_inv s v'.
Proof.
  intros [Hc Hf Hw [Hcap Hp] [es Hy]] Hcid [Hm [Hsa Hwt] [Hpm Hpl] Ht [es' Hs] Hi]. split.
  - intros n d. rewrite Hm, Hsa. destruct (decide (n = cid)) as [->|Hn].
    + rewrite lookup_insert_eq. by intros [= <-].
    + rewrite lookup_insert_ne, Ht by done. apply Hc.
  - intros n. rewrite Hm. destruct (decide (n = cid)) as [->|Hn]; [by rewrite lookup_insert_eq |].
    rewrite lookup_insert_ne, Ht by done. apply Hf.
  - intros n. rewrite Hm, Hwt. intros Hwn. destruct (decide (n = cid)) as [->|Hn].
    + apply Hw in Hwn. congruence.
    + rewrite lookup_insert_ne by done. by apply Hw.
  - rewrite Hm, (open_count_update _ _ c) by done. lia.
  - exists (es ++ es'). unfold sys_run in *. by rewrite Hs, Hy, foldl_app.
Qed.

(** *** Steps of a connection *)

(** What a connection does to the orchestrator: nothing to another's task. *)
Definition sys_moves (cid : nat) (y y' : Sys) : Prop :=
  (forall n, n <> cid -> y_tasks y' !! n = y_tasks y !! n) /\ exists es, y' = sys_run bonds_file keys y es.

Lemma sys_moves_refl cid y : sys_moves cid y y.
Proof. split; [done | by exists []]. Qed.

Lemma sys_moves_spawn cid y id fixed : sys_moves cid y (sys_step y (Spawn cid id fixed)).
Proof.
  split; [| by exists [Spawn cid id fixed]]. intros n Hn. cbn.
  destruct (y_tasks y !! cid); [done |]. cbn. by rewrite lookup_insert_ne.
Qed.

Lemma sys_moves_reload cid y t : sys_moves cid y (sys_step y (SendReload t)).
Proof. split; [| by exists [SendReload t]]. intros n Hn. cbn. by destruct (len (y_queue y) <? _). Qed.

Lemma sys_moves_abandon cid y : sys_moves cid y (sys_step (sys_step y (Cancel cid)) (DropTask cid)).
Proof.
  split; [| by exists [Cancel cid; DropTask cid]]. intros n Hn. cbn. rewrite lookup_alter_eq.
  destruct (y_tasks y !! cid); cbn; by rewrite ?lookup_delete_ne, lookup_alter_ne.
Qed.

Lemma set_sys_same v : set_sys (v_sys v) v = v.
Proof. by destruct v. Qed.

Lemma moves_put cid c c' y v :
  sys_moves cid (v_sys v) y -> is_open c' = is_open c -> conn_inv (v_started_at v) (y_tasks y !! cid) c' ->
  moves cid c c' v (put_conn cid c' (set_sys y v)).
Proof. intros [Ht Hes] Ho Hi. split; cbn; auto; lia. Qed.

Lemma moves_close cid c c' y v :
  sys_moves cid (v_sys v) y -> is_open c = 1 -> bytes_ok (c_fed c') ->
  replied (v_started_at v) (y_tasks y !! cid) c' ->
  moves cid c (with_phase Closed c') v (close_conn cid c' (set_sys y v)).
Proof. intros [Ht Hes] Ho Hb Hr. split; cbn; auto; [rewrite Ho; change (is_open (with_phase Closed c')) with 0; lia | by split]. Qed.

Lemma moves_reply cid c c' y v request r :
  sys_moves cid (v_sys v) y -> is_open c = 1 -> bytes_ok (c_fed c') -> w_bytes (c_out c') = [] ->
  requested c' request -> answers (v_started_at v) (y_tasks y !! cid) (c_backend c') request r ->
  moves cid c (with_phase Closed (with_out (write_frame r (c_out c')).2 c')) v (reply r cid c' (set_sys y v)).
Proof.
  intros Hy Ho Hb Hw Hq Ha. apply moves_close; [done | done | done |].
  destruct (write_frame_prefix r (c_out c')) as (k & framed & Hk & [Hf|[-> ->]]); rewrite Hw in Hk.
  - right. by exists request, r, framed, k.
  - left. exact Hk.
Qed.

(** The same without a step of the orchestrator. *)
Lemma moves_put_here cid c c' v :
  is_open c' = is_open c -> conn_inv (v_started_at v) (y_tasks (v_sys v) !! cid) c' -> moves cid c c' v (put_conn cid c' v).
Proof. intros Ho Hi. pose proof (moves_put cid c c' _ v (sys_moves_refl cid _) Ho Hi) as Hm. by rewrite set_sys_same in Hm. Qed.

Lemma moves_close_here cid c c' v :
  is_open c = 1 -> bytes_ok (c_fed c') -> replied (v_started_at v) (y_tasks (v_sys v) !! cid) c' ->
  moves cid c (with_phase Closed c') v (close_conn cid c' v).
Proof.
  intros Ho Hb Hr. pose proof (moves_close cid c c' _ v (sys_moves_refl cid _) Ho Hb Hr) as Hm.
  by rewrite set_sys_same in Hm.
Qed.

Lemma moves_reply_here cid c c' v request r :
  is_open c = 1 -> bytes_ok (c_fed c') -> w_bytes (c_out c') = [] -> requested c' request ->
  answers (v_started_at v) (y_tasks (v_sys v) !! cid) (c_backend c') request r ->
  moves cid c (with_phase Closed (with_out (write_frame r (c_out c')).2 c')) v (reply r cid c' v).
Proof.
  intros Ho Hb Hw Hq Ha. pose proof (moves_reply cid c c' _ v request r (sys_moves_refl cid _) Ho Hb Hw Hq Ha) as Hm.
  by rewrite set_sys_same in Hm.
Qed.

(** Feeding or closing the client's side changes nothing that was read. *)
Lemma requested_feed c request bytes : requested c request -> requested (feed bytes c) request.
Proof.
  intros (payload & Hf & Hrest). unfold feed. destruct (r_end (c_reader c)); exists payload; cbn;
    (split; [| done]); [done |]. by rewrite Hf, <- !app_assoc.
Qed.

Lemma feed_inv started task c bytes :
  bytes_ok bytes -> conn_inv started task c -> conn_inv started task (feed bytes c).
Proof.
  intros Hb [Hc Hi]. split.
  { unfold feed. destruct (r_end (c_reader c)); [done |]. by apply bytes_ok_app. }
  assert (Hsame : c_phase (feed bytes c) = c_phase c /\ c_out (feed bytes c) = c_out c /\
    c_backend (feed bytes c) = c_backend c) by (unfold feed; by destruct (r_end (c_reader c))).
  destruct Hsame as (-> & Ho & Hk). unfold replied. rewrite Ho, Hk.
  destruct (c_phase c).
  1-2: destruct Hi as (Hf & ? & ?); (split; [| done]); unfold feed; destruct (r_end (c_reader c)); cbn; by rewrite ?Hf.
  - destruct Hi as (? & ? & id & n & Hq & ?). split; [done |]. split; [done |]. exists id, n. split; [by apply requested_feed | done].
  - destruct Hi as (? & ? & Hq & ?). split_and!; try done. by apply requested_feed.
  - destruct Hi as [?|(request & r & framed & k & Hq & ?)]; [by left | right; exists request, r, framed, k].
    split; [by apply requested_feed | done].
Qed.

Lemma hang_up_inv started task c e : conn_inv started task c -> conn_inv started task (hang_up e c).
Proof. unfold hang_up. by destruct (r_end (c_reader c)). Qed.

(** What [read_frame] returned is the request of the connection. *)
Lemma read_requested c request r :
  bytes_ok (c_fed c) -> c_fed c = r_bytes (c_reader c) -> read_frame (c_reader c) = Ready (Ret (Ok request), r) ->
  requested (with_reader r c) request.
Proof.
  intros Hb Hf Hr. rewrite Hf in Hb.
  destruct (read_frame_takes _ _ _ Hb Hr) as [(e & [=] & _)|[(p & _ & _ & _ & [=])|(payload & Hp & Hl & He)]].
  exists payload. cbn. by rewrite Hf.
Qed.

(** Every step of a connection keeps its history straight. *)
Lemma dispatch_moves cid c c' request v :
  is_open c = 1 -> bytes_ok (c_fed c') -> w_bytes (c_out c') = [] -> requested c' request ->
  c_phase c' <> Closed -> y_tasks (v_sys v) !! cid = None ->
  exists c'', moves cid c c'' v (dispatch request cid c' v).
Proof.
  intros Ho Hb Hw Hq Hp Ht. unfold dispatch. destruct request as [id n| |].
  - destruct (orchestrator (c_backend c')) eqn:Eo.
    + eexists. apply moves_put; [apply sys_moves_spawn | by rewrite Ho |]. split; [done |]. cbn.
      split; [done |]. split; [done |]. exists id, n. split; [exact Hq |]. intros t. cbn. rewrite Ht. cbn.
      rewrite lookup_insert_eq. by intros [= <-].
    + eexists.
      eapply moves_reply_here; [done | done | done | exact Hq |]. cbn. by rewrite Eo.
  - destruct (reload_tx (c_backend c')) eqn:Eo.
    + eexists. apply moves_put_here; [by rewrite Ho |].
      split; [done |]. cbn. by split_and!.
    + eexists.
      eapply moves_reply_here; [done | done | done | exact Hq |]. cbn. by exists false.
  - cbv zeta. match goal with |- context [RespStatus ?p _] => set (peers := p) end. eexists.
    eapply moves_reply_here; [done | done | done | exact Hq |]. cbn.
    exists peers. split; [done |]. unfold peers. by intros ->.
Qed.

Lemma poll_moves cid take_probe c v :
  conn_inv (v_started_at v) (y_tasks (v_sys v) !! cid) c ->
  poll_conn cid take_probe c v = v \/ exists c', moves cid c c' v (poll_conn cid take_probe c v).
Proof.
  intros [Hb Hi]. unfold poll_conn. destruct (c_phase c) eqn:Ep; [by left | | | | by left].
  all: assert (Ho : is_open c = 1) by (unfold is_open; by rewrite Ep).
  - destruct Hi as (Hf & Hw & Ht). destruct (read_frame (T := Request) (c_reader c)) as [|[res r]] eqn:Er; [by left |]. right.
    assert (Hclose : exists c', moves cid c c' v (close_conn cid (with_reader r c) v)).
    { eexists. apply moves_close_here; [done | done |]. by left. }
    destruct res as [[request|e]| |]; [| exact Hclose..].
    apply dispatch_moves; [done | done | done | by apply read_requested | cbn; by rewrite Ep | done].
  - destruct Hi as (Hw & Hor & id & n & Hq & Hid).
    assert (Habandon : exists c', moves cid c c' v (abandon cid c v)).
    { eexists. apply moves_close; [apply sys_moves_abandon | done | done |]. by left. }
    assert (Hreply : forall out, finished cid v = Some out -> exists c', moves cid c c' v (reply (challenge_response out) cid c v)).
    { intros out Hfin. eexists.
      eapply moves_reply_here; [done | done | done | exact Hq |]. cbn. rewrite Hor.
      unfold finished in Hfin. destruct (y_tasks (v_sys v) !! cid) as [t|] eqn:Et; [| done].
      destruct (t_prog t) as [out'|] eqn:Ed; [| done]. injection Hfin as <-. exists t, out'. by rewrite (Hid t eq_refl). }
    destruct (finished cid v) as [out|] eqn:Ef, (readable (c_reader c)); [| | | by left]; right; auto.
    destruct take_probe; auto.
  - destruct Hi as (Hw & Htx & Hq & Ht). destruct (v_receiver_open v); cbn [negb]; cycle 1.
    { right. eexists.
      eapply moves_reply_here; [done | done | done | exact Hq |]. cbn. by exists false. }
    destruct (len (y_queue (v_sys v)) <? RELOAD_CHANNEL_CAPACITY); [| by left]. right. eexists.
    eapply (moves_reply cid c c _ v _ _ (sys_moves_reload cid _ _)); [done | done | done | exact Hq |]. cbn.
    exists true. split; [done |]. by rewrite Htx.
Qed.

(** *** Steps of the daemon *)

(** A task keeps its peer, and is left alone once it returned. *)
Definition task_grows (o o' : option challenge_task) : Prop :=
  (forall t', o' = Some t' -> exists t, o = Some t /\ t_peer t' = t_peer t) /\
  (forall t out, o = Some t -> t_prog t = Done out -> o' = Some t).

Lemma task_grows_refl o : task_grows o o.
Proof. split; eauto. Qed.

Lemma step_task_grows tid ch y n : task_grows (y_tasks y !! n) (y_tasks (step_task bonds_file keys tid ch y) !! n).
Proof.
  unfold step_task. destruct (y_tasks y !! tid) as [[id [out|o k] x log]|] eqn:E; [apply task_grows_refl | | apply task_grows_refl].
  destruct (exec bonds_file keys o ch x (y_st y)) as [a x' s'| |s']; [| apply task_grows_refl |]; cbn.
  - destruct (decide (n = tid)) as [->|Hn]; [| rewrite lookup_insert_ne by done; apply task_grows_refl].
    rewrite lookup_insert_eq, E. split; [intros t' [= <-]; by eexists | by intros t out [= <-]].
  - destruct (decide (n = tid)) as [->|Hn]; [| rewrite lookup_delete_ne by done; apply task_grows_refl].
    rewrite lookup_delete_eq, E. split; [done | by intros t out [= <-]].
Qed.

Lemma daemon_grows y e n : of_daemon e = true -> task_grows (y_tasks y !! n) (y_tasks (sys_step y e) !! n).
Proof.
  destruct e; try done; intros _; cbn; repeat case_match; try apply task_grows_refl; [apply step_task_grows |].
  unfold step_loop. repeat case_match; apply task_grows_refl.
Qed.

Lemma conn_inv_grow started task task' c :
  task_grows task task' -> conn_inv started task c -> conn_inv started task' c.
Proof.
  intros [Hg1 Hg2] [Hb Hi]. split; [done |].
  assert (Hnone : task = None -> task' = None).
  { intros ->. destruct task' as [t'|]; [| done]. by destruct (Hg1 t' eq_refl) as (t & [=] & _). }
  destruct (c_phase c).
  1-2: destruct Hi as (? & ? & ?); by auto.
  - destruct Hi as (? & ? & id & n & Hq & Hid). split; [done |]. split; [done |]. exists id, n. split; [done |].
    intros t' Ht'. destruct (Hg1 t' Ht') as (t & Ht & ->). by apply Hid.
  - destruct Hi as (? & ? & ? & ?). by auto.
  - destruct Hi as [?|(request & r & framed & k & Hq & Ha & ? & ?)]; [by left | right].
    exists request, r, framed, k. split_and!; try done. destruct request as [id n| |]; cbn in *; [| done..].
    destruct (orchestrator (c_backend c)); [| done]. destruct Ha as (t & out & Ht & ? & Hd & ?). exists t, out.
    by rewrite (Hg2 t out Ht Hd).
Qed.

(** *** Every step *)

Lemma on_conn_inv s cid f v :
  sv_inv s v ->
  (forall c, v_conns v !! cid = Some c -> conn_inv (v_started_at v) (y_tasks (v_sys v) !! cid) c ->
     f c v = v \/ exists c', moves cid c c' v (f c v)) ->
  sv_inv s (on_conn cid f v).
Proof.
  intros Hv Hf. unfold on_conn. destruct (v_conns v !! cid) as [c|] eqn:Ec; [| done].
  destruct (Hf c eq_refl (sv_conn _ _ Hv _ _ Ec)) as [->|[c' Hm]]; [done | by eapply moves_inv].
Qed.

Lemma set_accept_inv s v l w p :
  sv_inv s v -> (forall cid, w = Some cid -> v_conns v !! cid = None) -> p = v_permits v ->
  sv_inv s (set_accept l w p v).
Proof. intros [Hc Hf Hw Hcap Hy] Hw' ->. by split. Qed.

Lemma permit_inv s v cid fault :
  sv_inv s v -> v_waiting v = Some cid -> 0 < v_permits v ->
  sv_inv s (put_conn cid (new_conn fault) (set_accept (v_listening v) None (v_permits v - 1) v)).
Proof.
  intros [Hc Hf Hw [Hcap Hp] Hy] Hwt Hpos. pose proof (Hw _ Hwt) as Hnew. split; cbn.
  - intros n c. destruct (decide (n = cid)) as [->|Hn].
    + rewrite lookup_insert_eq. intros [= <-]. split; [constructor |]. by rewrite (Hf _ Hnew).
    + rewrite lookup_insert_ne by done. apply Hc.
  - intros n. destruct (decide (n = cid)) as [->|Hn]; [by rewrite lookup_insert_eq |].
    rewrite lookup_insert_ne by done. apply Hf.
  - done.
  - rewrite open_count_new by done. change (is_open (new_conn fault)) with 1. lia.
  - done.
Qed.

Lemma sv_step_inv s v e : sv_inv s v -> sv_inv s (sv_step v e).
Proof.
  intros Hv. destruct e as [cid|fault|cid creds|cid bytes|cid e|cid tp|b| |e|]; cbn.
  - destruct (v_waiting v) eqn:Ew; [done |]. destruct (v_conns v !! cid) eqn:Ec; [done |].
    destruct (v_listening v); [| done]. apply set_accept_inv; [done | by intros n [= <-] | done].
  - destruct (v_waiting v) as [cid|] eqn:Ew; [| done]. destruct (Z.ltb_spec 0 (v_permits v)); [by apply permit_inv | done].
  - apply on_conn_inv; [done |]. intros c Ec Hc. destruct (decide (c_phase c = Starting)) as [Ep|]; [| by left]. right.
    assert (Ho : is_open c = 1) by (unfold is_open; by rewrite Ep).
    destruct Hc as [Hb Hi]. rewrite Ep in Hi. destruct creds; cbn; eexists.
    + by apply moves_put_here.
    + apply moves_close_here; [done | done |]. left. apply Hi.
  - apply on_conn_inv; [done |]. intros c Ec Hc. destruct (decide (bytes_ok bytes)) as [Hb|]; [right | by left].
    eexists. apply moves_put_here; [unfold is_open, feed; by destruct (r_end (c_reader c)) | by apply feed_inv].
  - apply on_conn_inv; [done |]. intros c Ec Hc. right. eexists.
    apply moves_put_here; [unfold is_open, hang_up; by destruct (r_end (c_reader c)) | by apply hang_up_inv].
  - apply on_conn_inv; [done |]. intros c Ec Hc. by apply poll_moves.
  - by destruct Hv.
  - by destruct Hv.
  - destruct (of_daemon e) eqn:Ed; [| done]. destruct Hv as [Hc Hf Hw Hcap [es Hy]]. split; cbn; try done.
    + intros cid c Ec. eapply conn_inv_grow; [by apply daemon_grows | by apply Hc].
    + intros cid Ec. destruct (y_tasks (sys_step (v_sys v) e) !! cid) as [t'|] eqn:Et; [| done].
      destruct (daemon_grows (v_sys v) e cid Ed) as [Hg _]. destruct (Hg t' Et) as (t & Ht & _). rewrite Hf in Ht; done.
    + exists (es ++ [e]). unfold sys_run. by rewrite foldl_app, Hy.
  - destruct (v_waiting v) eqn:Ew; [done |]. by apply set_accept_inv.
Qed.

Lemma sv_reachable s b started fixed es : sv_inv s (sv_run (sv_start s b started fixed) es).
Proof.
  assert (H0 : sv_inv s (sv_start s b started fixed)).
  { split; cbn; try done. by exists []. }
  revert H0. generalize (sv_start s b started fixed). unfold sv_run.
  induction es as [|e es IH]; intros v Hv; [done |]. apply IH. by apply sv_step_inv.
Qed.

(** ** Properties *)

(** On every run of the server at most four connections are served; one more can
    have been accepted and wait for a permit, and the accept loop then looks neither at
    further connections nor at the shutdown. *)
Theorem accept_cap s b started fixed es :
  let v := sv_run (sv_start s b started fixed) es in
  open_count (v_conns v) <= CONCURRENT_ACCEPT_CAP /\
  v_permits v = CONCURRENT_ACCEPT_CAP - open_count (v_conns v) /\
  (is_Some (v_waiting v) -> forall cid, sv_step v (Accept cid) = v /\ sv_step v Shutdown = v).
Proof.
  intros v. destruct (sv_cap _ _ (sv_reachable s b started fixed es)) as [Hc Hp].
  fold v in Hc, Hp. split; [lia |]. split; [lia |]. intros [n Hn] cid. cbn. by rewrite Hn.
Qed.

(** C26: whatever clients send and whenever they hang up, a client receives nothing
    or the beginning of exactly one response frame, and it answers the request that is
    the first frame it sent: to a challenge the outcome of the challenge that was run for
    this connection and this peer, or the stub if no orchestrator was live; to a reload
    and to a status their responses. *)
Theorem server_answers_the_request s b started fixed es cid c :
  v_conns (sv_run (sv_start s b started fixed) es) !! cid = Some c ->
  w_bytes (c_out c) = [] \/
  exists request r framed k,
    requested c request /\ encode_frame r = Ok framed /\ w_bytes (c_out c) = take k framed /\ c_phase c = Closed /\
    answers (v_started_at (sv_run (sv_start s b started fixed) es))
      (y_tasks (v_sys (sv_run (sv_start s b started fixed) es)) !! cid) (c_backend c) request r.
Proof.
  intros Hc. destruct (sv_conn _ _ (sv_reachable s b started fixed es) _ _ Hc) as [_ Hi].
  destruct (c_phase c) eqn:Ep; [left; apply Hi.. |].
  destruct Hi as [?|(request & r & framed & k & ? & ? & ? & ?)]; [by left | right; exists request, r, framed, k].
  by split_and!.
Qed.
End server.

(** ** Binding the socket *)

Lemma metadata_file_calm `{Umask} g d n c m :
  resolve g [] d = Ok tt -> g !! join d n = Some (File c m) ->
  fs_metadata (join d n) (calm g) = (Ret (Ok (IsFile, m)), calm g).
Proof.
  intros Hd Hf. unfold fs_metadata. rewrite syscall_calm. cbn [fst snd].
  rewrite resolve_parent_join, Hd, Hf. by destruct d.
Qed.

(** Binding a free path leaves a socket of mode 0600, and dropping the guard
    leaves the directory as it was; but a path that is taken, as it is when an earlier
    daemon was killed before its guard ran, makes [serve] fail with [Bind] and change
    nothing: nothing removes a stale socket. *)
Theorem socket_lifecycle `{Umask} (g : fs) (d : path) (n : str) :
  resolve g [] d = Ok tt ->
  let p := join d n in
  (g !! p = None ->
     serve_setup p (calm g) = (Ret (Ok tt), calm (<[p := File [] LISTEN_MODE]> g)) /\
     SocketGuard_drop p (calm (<[p := File [] LISTEN_MODE]> g)) = (Ret tt, calm g)) /\
  (is_Some (g !! p) -> serve_setup p (calm g) = (Ret (Err (SBind p AlreadyExists)), calm g)).
Proof.
  intros Hd p. split.
  - intros Hp. assert (Hd' : forall m, resolve (<[p := File [] m]> g) [] d = Ok tt).
    { intros m. apply (resolve_mono g); [| done]. apply dirs_kept_insert. by rewrite Hp. }
    assert (Hbind : bind_op p g = (Ok tt, <[p := File [] dir_mode]> g)).
    { unfold bind_op. rewrite Hp. unfold p. by rewrite resolve_parent_join, Hd. }
    split.
    + unfold serve_setup, set_socket_mode, fs_set_permissions, itry, imap_err, ibind.
      rewrite syscall_calm, Hbind. cbn [fst snd map_err iret].
      rewrite (metadata_file_calm _ d n [] dir_mode) by (done || apply lookup_insert_eq). cbn [map_err iret].
      rewrite syscall_calm, (set_permissions_op_ready _ _ (Hd' _) n [] dir_mode) by apply lookup_insert_eq.
      cbn. by rewrite insert_insert_eq.
    + unfold SocketGuard_drop, fs_remove_file, ibind.
      rewrite syscall_calm, (remove_op_ready _ _ (Hd' _) n [] LISTEN_MODE) by apply lookup_insert_eq.
      cbn. by rewrite delete_insert_id.
  - intros [x Hx]. unfold serve_setup, itry, imap_err, ibind. rewrite syscall_calm. unfold bind_op. by rewrite Hx.
Qed.

(** ** Sample runs *)

Section samples.
Import ToyCrypto ToyCrates ToyTempfile ToyDaemon Fake ToyCbor.

Notation reload_frame := (match encode_frame ReqReload with Ok f => f | Err _ => [] end).
Notation refusal := (match encode_frame (RespReload false) with Ok f => f | Err _ => [] end).

(** A client asks for a reload before the radio is ready. *)
Notation reload_run :=
  (sv_run (PP := FakePeripheral) [] [] (sv_start phone_state (mkBackend false false) 0 None)
    [Accept 0; Permit None; Start 0 (Ok 0); Receive 0 reload_frame; Poll 0 false]).

Lemma server_answers_the_request_witness :
  exists c, v_conns reload_run !! 0%nat = Some c /\ w_bytes (c_out c) = refusal /\
    exists request, requested c request.
Proof.
  destruct (v_conns reload_run !! 0%nat) as [c|] eqn:E; [| vm_compute in E; discriminate E].
  exists c. split; [reflexivity |].
  assert (Hw : w_bytes (c_out c) = refusal) by (vm_compute in E; injection E as <-; vm_compute; reflexivity).
  split; [exact Hw |].
  destruct (server_answers_the_request (PP := FakePeripheral) [] [] phone_state (mkBackend false false) 0 None
    _ 0 c E) as [Hn|(request & r & framed & k & Hq & _)].
  - rewrite Hw in Hn. vm_compute in Hn. discriminate Hn.
  - exists request. exact Hq.
Defined.

Lemma socket_lifecycle_witness :
  serve_setup (join sample_dir (lit "auth.sock")) (calm sample_fs) =
    (Ret (Ok tt), calm (<[join sample_dir (lit "auth.sock") := File [] LISTEN_MODE]> sample_fs)) /\
  serve_setup (join sample_dir (lit "auth.sock"))
      (calm (<[join sample_dir (lit "auth.sock") := File [] LISTEN_MODE]> sample_fs)) =
    (Ret (Err (SBind (join sample_dir (lit "auth.sock")) AlreadyExists)),
     calm (<[join sample_dir (lit "auth.sock") := File [] LISTEN_MODE]> sample_fs)).
Proof.
  split.
  - apply (socket_lifecycle sample_fs sample_dir (lit "auth.sock")); vm_compute; reflexivity.
  - apply (socket_lifecycle (<[join sample_dir (lit "auth.sock") := File [] LISTEN_MODE]> sample_fs) sample_dir (lit "auth.sock"));
      [vm_compute; reflexivity |]. rewrite lookup_insert_eq. eexists. reflexivity.
Defined.
End samples.
