(* ===== verification/Pam.v ===== *)
(** * The PAM module

    Models crates/syauth-pam/src: the configuration from the module's arguments
    (config.rs), the choice of the peer, the round trip to the daemon and the
    mapping of its answer (auth.rs), and the entry points with their panic boundary
    (entry.rs).  Messages to syslog are not modelled.

    The PAM host, the random generator, the clock and the socket are what the module
    finds outside ([PamEnv], [PamHandle], [Socket]); the disk is that of Fs.v. *)

From stdpp Require Import prelude list gmap strings.
From Stdlib Require Import ZArith Lia.
From S2P Require Import Prelude WireFrame Fs Bond PairRecovery Peripheral AuditTrail Orchestrator Challenge Rpc.

(** ** Return codes *)

Definition PAM_SUCCESS : Z := 0.
Definition PAM_AUTH_ERR : Z := 7.
Definition PAM_AUTHINFO_UNAVAIL : Z := 9.

(** ** config.rs *)

Definition DEFAULT_BOND_DIR : path := [lit "var"; lit "lib"; lit "syauth"].
Definition DEFAULT_AUTH_TIMEOUT : Z := 20000.
Definition LAST_LOG_FILENAME : str := lit "last.log".
Definition DEFAULT_RUNTIME_FALLBACK_PREFIX : str := lit "/run/user/".
Definition RUNTIME_SUBDIR : str := lit "syauth".
Definition DEFAULT_SOCKET_BASENAME : str := lit "auth.sock".
Definition PAM_SOCKET_ARG_PREFIX : str := lit "socket=".

(** The socket's path is kept as its text: [PathBuf::join] of the text. *)
Definition path_join (a b : str) : str :=
  match b with
  | 47 :: _ => b
  | _ => match last a with
         | Some 47 | None => a ++ b
         | Some _ => a ++ [47] ++ b
         end
  end.

Record Config := mkConfig { bond_dir : path; socket_path : str; auth_timeout : Z }.

(** [argv.iter().find_map(|arg| arg.strip_prefix(PAM_SOCKET_ARG_PREFIX))] *)
Fixpoint find_socket_arg (argv : list str) : option str :=
  match argv with
  | [] => None
  | arg :: argv =>
      match strip_prefix PAM_SOCKET_ARG_PREFIX arg with
      | Some p => Some p
      | None => find_socket_arg argv
      end
  end.

Definition runtime_socket (uid : Z) : str :=
  path_join (path_join (DEFAULT_RUNTIME_FALLBACK_PREFIX ++ decimal uid) RUNTIME_SUBDIR) DEFAULT_SOCKET_BASENAME.

(** [XDG_RUNTIME_DIR], if it is set to Unicode text, and the effective user. *)
Definition resolve_socket_path (xdg_runtime_dir : option str) (euid : Z) (override_path : option str) : str :=
  match override_path with
  | Some p => p
  | None =>
      match xdg_runtime_dir with
      | Some (c :: dir) => path_join (path_join (c :: dir) RUNTIME_SUBDIR) DEFAULT_SOCKET_BASENAME
      | _ => runtime_socket euid
      end
  end.

Definition Config_default (xdg_runtime_dir : option str) (euid : Z) : Config :=
  mkConfig DEFAULT_BOND_DIR (resolve_socket_path xdg_runtime_dir euid None) DEFAULT_AUTH_TIMEOUT.

Definition from_pam_argv (xdg_runtime_dir : option str) (euid : Z) (argv : list str) : Config :=
  mkConfig DEFAULT_BOND_DIR (resolve_socket_path xdg_runtime_dir euid (find_socket_arg argv)) DEFAULT_AUTH_TIMEOUT.

Definition from_pam_argv_for_uid (argv : list str) (uid : Z) : Config :=
  let socket_override := find_socket_arg argv in
  mkConfig DEFAULT_BOND_DIR (default (runtime_socket uid) socket_override) DEFAULT_AUTH_TIMEOUT.

Definition with_bond_dir (d : path) (self : Config) : Config := mkConfig d (socket_path self) (auth_timeout self).
Definition with_socket_path (p : str) (self : Config) : Config := mkConfig (bond_dir self) p (auth_timeout self).
Definition with_auth_timeout (t : Z) (self : Config) : Config := mkConfig (bond_dir self) (socket_path self) t.

Definition last_log_path (self : Config) : path := join (bond_dir self) LAST_LOG_FILENAME.
Definition bonds_file_path (self : Config) : path := join (bond_dir self) (lit "bonds.toml").

(** ** auth.rs *)

Definition DAEMON_WRITE_TIMEOUT : Z := 50.
Definition DAEMON_RESPONSE_BUDGET : Z := 20000.
Definition OUTCOME_REASON_OFFLINE : str := lit "offline".
Definition OUTCOME_REASON_ADAPTER_MISSING : str := lit "adapter-missing".
Definition LAST_LOG_VERB_SUCCESS : str := lit "success".
Definition LAST_LOG_VERB_FAILURE : str := lit "failure".
Definition LAST_LOG_UNKNOWN_PEER : str := lit "unknown".
Definition REASON_NO_BONDS_CONFIGURED : str := lit "no bonds configured".
Definition REASON_NO_BONDED_PEER : str := lit "no bonded peer".
Definition UNKNOWN_REASON : str := lit "unknown-reason".

Inductive AuthOutcome :=
| AuthSuccess (peer : str)
| AuthInfoUnavail (why : str) (peer : option str)
| AuthErr (why : str) (peer : option str).

Definition to_pam_code (self : AuthOutcome) : Z :=
  match self with
  | AuthSuccess _ => PAM_SUCCESS
  | AuthInfoUnavail _ _ => PAM_AUTHINFO_UNAVAIL
  | AuthErr _ _ => PAM_AUTH_ERR
  end.

Definition AuthOutcome_reason (self : AuthOutcome) : str :=
  match self with
  | AuthSuccess _ => lit "granted"
  | AuthInfoUnavail why _ | AuthErr why _ => why
  end.

Definition AuthOutcome_peer_id (self : AuthOutcome) : option str :=
  match self with
  | AuthSuccess peer => Some peer
  | AuthInfoUnavail _ peer | AuthErr _ peer => peer
  end.

Definition is_success (self : AuthOutcome) : bool :=
  match self with AuthSuccess _ => true | _ => false end.

(** The arms of the source's match, in their order. *)
Definition reason_table : list (str * Z) :=
  [(OUTCOME_REASON_OK, PAM_SUCCESS);
   (OUTCOME_REASON_DENIED, PAM_AUTH_ERR);
   (OUTCOME_REASON_REPLAY, PAM_AUTH_ERR);
   (OUTCOME_REASON_BAD_SIGNATURE, PAM_AUTH_ERR);
   (OUTCOME_REASON_RESPONSE_TIMEOUT, PAM_AUTHINFO_UNAVAIL);
   (OUTCOME_REASON_OFFLINE, PAM_AUTHINFO_UNAVAIL);
   (OUTCOME_REASON_BUSY, PAM_AUTHINFO_UNAVAIL);
   (OUTCOME_REASON_UNKNOWN_PEER, PAM_AUTHINFO_UNAVAIL);
   (OUTCOME_REASON_TRANSPORT_ERROR, PAM_AUTHINFO_UNAVAIL);
   (OUTCOME_REASON_ADAPTER_MISSING, PAM_AUTHINFO_UNAVAIL)].

Fixpoint match_reason (reason : str) (table : list (str * Z)) : Z * str :=
  match table with
  | [] => (PAM_AUTH_ERR, UNKNOWN_REASON)
  | (r, code) :: table => if bool_decide (reason = r) then (code, r) else match_reason reason table
  end.

Definition outcome_reason_to_pam (reason : str) : Z * str := match_reason reason reason_table.

(** [Iterator::max_by]: the last of the greatest elements. *)
Definition max_by {A} (cmp : A -> A -> comparison) (l : list A) : option A :=
  foldl (fun acc x =>
    match acc with
    | None => Some x
    | Some a => match cmp a x with Gt => Some a | _ => Some x end
    end) None l.

(** The order of [OffsetDateTime]: that of the instants. *)
Class ChronoOrd `{Chrono} := { instant : OffsetDateTime -> Z }.
Definition datetime_cmp `{ChronoOrd} (a b : OffsetDateTime) : comparison := instant a ?= instant b.

(** The bytes of the random generator and the clock of one call. *)
Record PamEnv `{Chrono} := mkPamEnv { e_random : option (list Z); e_now : OffsetDateTime }.

(** The daemon's socket as one call finds it: whether it connects and takes the
    timeouts, what becomes of the writes and what can be read within them (in
    milliseconds). *)
Record Socket := mkSocket {
  k_connect : result unit ErrorKind;
  k_write_timeout : result unit ErrorKind;
  k_read_timeout : result unit ErrorKind;
  k_out : Z -> Writer;
  k_in : Z -> Reader;
}.

(** A read that lasts until its timeout fails. *)
Definition blocking (r : Reader) : Reader := mkReader (r_bytes r) (Some (default WouldBlock (r_end r))).

Section auth.
Context `{B3 : Blake3, CH : Chrono, CO : !ChronoOrd, TM : Toml, CB : Ciborium, UM : Umask}.

Definition first_bonded (store : BondStore) : option Bond :=
  max_by (fun a b => datetime_cmp (created_at a) (created_at b))
    (filter (fun b => status b = StBonded) (BondStore_list store)).

Definition resolve_peer_id (cfg : Config) : io (result str AuthOutcome) :=
  let! loaded := BondStore_load (bonds_file_path cfg) in
  iret match loaded with
       | Err _ => Err (AuthInfoUnavail REASON_NO_BONDS_CONFIGURED None)
       | Ok store =>
           match first_bonded store with
           | None => Err (AuthInfoUnavail REASON_NO_BONDED_PEER None)
           | Some bond => Ok (peer_id bond)
           end
       end.

(** The response, and the bytes that went to the daemon. *)
Definition daemon_round_trip (k : Socket) (id : str) (n : list Z) (timeout : Z) : outcome (result Response unit) * list Z :=
  match k_connect k, k_write_timeout k, k_read_timeout k with
  | Ok _, Ok _, Ok _ =>
      let request := ReqChallenge id n in
      match write_frame_blocking request (k_out k DAEMON_WRITE_TIMEOUT) with
      | (Err _, w) => (Ret (Err tt), w_bytes w)
      | (Ok _, w) =>
          match read_frame_blocking (blocking (k_in k (Z.min timeout DAEMON_RESPONSE_BUDGET))) with
          | Ready (Ret r, _) => (Ret (map_err (fun _ => tt) r), w_bytes w)
          | Ready (Killed, _) => (Killed, w_bytes w)
          | Ready (Panicked, _) => (Panicked, w_bytes w)
          | Pending => (Ret (Err tt), w_bytes w)
          end
      end
  | _, _, _ => (Ret (Err tt), [])
  end.

(** Step 4 of [authenticate_inner]. *)
Definition judge_reply (id : str) (response : Response) : AuthOutcome :=
  match response with
  | RespChallenge _ _ reason =>
      let '(code, static_reason) := outcome_reason_to_pam reason in
      if code =? PAM_SUCCESS then AuthSuccess id
      else if code =? PAM_AUTHINFO_UNAVAIL then AuthInfoUnavail static_reason (Some id)
      else AuthErr static_reason (Some id)
  | _ => AuthInfoUnavail OUTCOME_REASON_TRANSPORT_ERROR (Some id)
  end.

Definition lift {A} (o : outcome A) : io A := fun w => (o, w).

Definition authenticate_inner (cfg : Config) (e : PamEnv) (k : Socket) : io AuthOutcome :=
  let! peer := resolve_peer_id cfg in
  match peer with
  | Err outcome => iret outcome
  | Ok id =>
      match e_random e with
      | None => iret (AuthInfoUnavail OUTCOME_REASON_TRANSPORT_ERROR (Some id))
      | Some n =>
          let! response := lift (daemon_round_trip k id n (auth_timeout cfg)).1 in
          iret match response with
               | Err _ => AuthInfoUnavail OUTCOME_REASON_TRANSPORT_ERROR (Some id)
               | Ok response => judge_reply id response
               end
      end
  end.

(** [OpenOptions::new().create(true).append(true)] and the writes of a line. *)
Definition append_op (p : path) (data : list Z) (g : fs) : result unit ErrorKind * fs :=
  match resolve_parent g p with
  | Err e => (Err e, g)
  | Ok _ =>
      match g !! p with
      | Some (Dir _) => (Err IsADirectory, g)
      | Some (File c m) => (Ok tt, <[p := File (c ++ data) m]> g)
      | None => (Ok tt, <[p := File data file_mode]> g)
      end
  end.

Definition fs_append (p : path) (data : list Z) : io (result unit ErrorKind) := fun w =>
  let '(flt, w) := next_fault w in
  match flt with
  | Fine => let '(r, g) := append_op p data (files w) in (Ret r, with_files g w)
  | Fails k None => (Ret (Err (fault_kind k)), w)
  | Fails k (Some n) => (Ret (Err (fault_kind k)), with_files (append_op p (take n data) (files w)).2 w)
  | Dies None => (Killed, w)
  | Dies (Some n) => (Killed, with_files (append_op p (take n data) (files w)).2 w)
  end.

Definition last_log_line (now : OffsetDateTime) (outcome : AuthOutcome) : str :=
  let ts := default (lit "0000-00-00T00:00:00Z") (rfc3339_format now) in
  let verb := if is_success outcome then LAST_LOG_VERB_SUCCESS else LAST_LOG_VERB_FAILURE in
  let peer := default LAST_LOG_UNKNOWN_PEER (AuthOutcome_peer_id outcome) in
  ts ++ [32] ++ verb ++ [32] ++ peer ++ [10].

Definition append_last_log (cfg : Config) (now : OffsetDateTime) (outcome : AuthOutcome) : io (result unit ErrorKind) :=
  let! _ := match parent (last_log_path cfg) with
            | Some d => let! _ := fs_create_dir_all d in iret tt
            | None => iret tt
            end in
  let!? _ := fs_append (last_log_path cfg) (last_log_line now outcome) in
  iret (Ok tt).

Definition authenticate (cfg : Config) (e : PamEnv) (k : Socket) : io AuthOutcome :=
  let! outcome := authenticate_inner cfg e k in
  let! _ := append_last_log cfg (e_now e) outcome in
  iret outcome.

(** ** entry.rs *)

(** What libpam hands over: the handle may be null; [pam_get_user] returns a code and a
    C string or null. *)
Record PamHandle := mkHandle { h_null : bool; h_get_user : Z * option (list Z) }.

(** [User::from_name]: an error, nobody, or the user's number. *)
Definition pam_login_uid (from_name : str -> result (option Z) unit) (h : PamHandle) : option Z :=
  if h_null h then None
  else
    let '(rc, user) := h_get_user h in
    match user with
    | None => None
    | Some bytes =>
        if negb (rc =? PAM_SUCCESS) then None
        else if negb (utf8 bytes) then None
        else match from_name bytes with Ok u => u | Err _ => None end
    end.

(** [argv]: null, or pointers that are null or C strings. *)
Definition collect_pam_argv (argc : Z) (argv : option (list (option (list Z)))) : list str :=
  match argv with
  | None => []
  | Some entries =>
      if argc <=? 0 then []
      else omap (fun x => match x with Some s => if utf8 s then Some s else None | None => None end)
             (take (Z.to_nat argc) entries)
  end.

(** [catch_unwind(f)], a panic becoming [PAM_AUTH_ERR]. *)
Definition run_entry (f : io Z) : io Z := fun w =>
  match f w with
  | (Panicked, w) => (Ret PAM_AUTH_ERR, w)
  | r => r
  end.

Definition pam_sm_authenticate (from_name : str -> result (option Z) unit) (h : PamHandle) (argc : Z)
  (argv : option (list (option (list Z)))) (e : PamEnv) (sockets : str -> Socket) : io Z :=
  run_entry
    match pam_login_uid from_name h with
    | None => iret PAM_AUTHINFO_UNAVAIL
    | Some pam_uid =>
        let cfg := from_pam_argv_for_uid (collect_pam_argv argc argv) pam_uid in
        let! outcome := authenticate cfg e (sockets (socket_path cfg)) in
        iret (to_pam_code outcome)
    end.

Definition pam_sm_setcred : io Z := run_entry (iret PAM_SUCCESS).
Definition pam_sm_acct_mgmt : io Z := run_entry (iret PAM_AUTHINFO_UNAVAIL).

(** ** The newest bond *)

Lemma max_by_instant {A} (f : A -> Z) (l : list A) :
  match max_by (fun a b => f a ?= f b) l with
  | Some m => exists l1 l2, l = l1 ++ m :: l2 /\ Forall (fun x => f x <= f m) l1 /\ Forall (fun x => f x < f m) l2
  | None => l = []
  end.
Proof.
  unfold max_by. induction l as [|x l IH] using rev_ind; [done |]. rewrite foldl_app. cbn [foldl].
  destruct (foldl _ None l) as [m|]; [| subst l; by exists [], []].
  destruct IH as (l1 & l2 & -> & H1 & H2). destruct (Z.compare_spec (f m) (f x)) as [He|Hl|Hg].
  - exists (l1 ++ m :: l2), []. split; [done |]. split; [| constructor]. apply Forall_app. split.
    + eapply Forall_impl; [exact H1 |]. cbn. lia.
    + constructor; [lia |]. eapply Forall_impl; [exact H2 |]. cbn. lia.
  - exists (l1 ++ m :: l2), []. split; [done |]. split; [| constructor]. apply Forall_app. split.
    + eapply Forall_impl; [exact H1 |]. cbn. lia.
    + constructor; [lia |]. eapply Forall_impl; [exact H2 |]. cbn. lia.
  - exists l1, (l2 ++ [x]). split; [by rewrite <- app_assoc |]. split; [done |]. apply Forall_app. split; [done | by constructor].
Qed.

(** ** Running the module *)

(** The round trip succeeds exactly when every step does. *)
Lemma round_trip_ok k id n timeout r sent :
  daemon_round_trip k id n timeout = (Ret (Ok r), sent) <->
  is_ok (k_connect k) = true /\ is_ok (k_write_timeout k) = true /\ is_ok (k_read_timeout k) = true /\
  (exists w, write_frame_blocking (ReqChallenge id n) (k_out k DAEMON_WRITE_TIMEOUT) = (Ok tt, w) /\ sent = w_bytes w) /\
  exists rest, read_frame_blocking (blocking (k_in k (Z.min timeout DAEMON_RESPONSE_BUDGET))) = Ready (Ret (Ok r), rest).
Proof.
  unfold daemon_round_trip. destruct (k_connect k), (k_write_timeout k), (k_read_timeout k); cbn [is_ok];
    try (by split; [intros [=] | intros (? & ? & ? & ?)]).
  destruct (write_frame_blocking (ReqChallenge id n) (k_out k DAEMON_WRITE_TIMEOUT)) as [[[]|e] w].
  2: { split; [intros [=] | by intros (_ & _ & _ & (? & [=] & _) & _)]. }
  destruct (read_frame_blocking (T := Response) (blocking (k_in k (Z.min timeout DAEMON_RESPONSE_BUDGET)))) as [|[[[r'|e]| |] rest]]; cbn [map_err].
  2: { split; [intros [= -> <-]; split_and!; try done; by eexists |].
       intros (_ & _ & _ & (w' & [= <-] & ->) & (rest' & [= -> _])). done. }
  all: split; [intros [=] | by intros (_ & _ & _ & _ & (? & [=]))].
Qed.

Lemma match_reason_success reason table :
  Forall (fun x => x.2 = PAM_SUCCESS -> x.1 = OUTCOME_REASON_OK) table ->
  (match_reason reason table).1 = PAM_SUCCESS -> reason = OUTCOME_REASON_OK.
Proof.
  induction 1 as [|[r c] table Hr _ IH]; [done |]. cbn. case_bool_decide as He; [| exact IH].
  cbn. intros Hc. rewrite He. by apply Hr.
Qed.

Lemma success_reason reason : (outcome_reason_to_pam reason).1 = PAM_SUCCESS <-> reason = OUTCOME_REASON_OK.
Proof.
  split; [| by intros ->]. apply match_reason_success. repeat constructor; done.
Qed.

Lemma judge_reply_success id r id' :
  judge_reply id r = AuthSuccess id' <-> id' = id /\ exists ok sig, r = RespChallenge ok sig OUTCOME_REASON_OK.
Proof.
  destruct r as [ok sig reason| |]; cbn [judge_reply]; [| by split; [| intros (_ & ? & ? & [=])]..].
  pose proof (success_reason reason) as Hs. destruct (outcome_reason_to_pam reason) as [code st]. cbn [fst] in Hs.
  destruct (Z.eqb_spec code PAM_SUCCESS) as [Hc|Hc].
  - apply Hs in Hc as ->. split; [intros [= ->]; split; by eauto | by intros [-> _]].
  - split; [by destruct (code =? _) |]. intros [_ (ok' & sig' & [= _ _ ->])]. by destruct Hc; apply Hs.
Qed.

Lemma lift_same {A} (o : outcome A) w : lift o w = (o, w).
Proof. done. Qed.

(** A success of [authenticate_inner], taken apart. *)
Lemma inner_success cfg e k w id w' :
  authenticate_inner cfg e k w = (Ret (AuthSuccess id), w') ->
  exists store bond n ok sig,
    (BondStore_load (bonds_file_path cfg) w).1 = Ret (Ok store) /\ first_bonded store = Some bond /\ id = peer_id bond /\
    e_random e = Some n /\ (daemon_round_trip k id n (auth_timeout cfg)).1 = Ret (Ok (RespChallenge ok sig OUTCOME_REASON_OK)).
Proof.
  unfold authenticate_inner, resolve_peer_id, ibind.
  destruct (BondStore_load (bonds_file_path cfg) w) as [[[store|]| |] w1]; cbn; try done.
  destruct (first_bonded store) as [bond|] eqn:Eb; [| done].
  destruct (e_random e) as [n|]; [| done]. unfold lift.
  destruct (daemon_round_trip k (peer_id bond) n (auth_timeout cfg)) as [[[r|]| |] sent] eqn:Er; cbn; try done.
  intros [= Hj _]. apply judge_reply_success in Hj as (-> & ok & sig & ->). exists store, bond, n, ok, sig. by rewrite Er.
Qed.

Lemma authenticate_outcome cfg e k w out w' :
  authenticate cfg e k w = (Ret out, w') -> exists w1, authenticate_inner cfg e k w = (Ret out, w1).
Proof.
  unfold authenticate, ibind. destruct (authenticate_inner cfg e k w) as [[o| |] w1]; [| done..].
  destruct (append_last_log cfg (e_now e) o w1) as [[x| |] w2]; [| done..]. intros [= -> _]. by exists w1.
Qed.

Lemma first_bonded_spec store bond :
  first_bonded store = Some bond ->
  In bond (bonds store) /\ status bond = StBonded /\
  forall b, In b (bonds store) -> status b = StBonded -> instant (created_at b) <= instant (created_at bond).
Proof.
  intros Hb. set (l := filter (fun b => status b = StBonded) (bonds store)).
  assert (Hl : forall b, b ∈ l <-> status b = StBonded /\ In b (bonds store)).
  { intros b. unfold l. by rewrite list_elem_of_filter, list_elem_of_In. }
  pose proof (max_by_instant (fun b => instant (created_at b)) l) as Hm. cbv beta in Hm.
  unfold first_bonded, datetime_cmp, BondStore_list in Hb. fold l in Hb. rewrite Hb in Hm.
  destruct Hm as (l1 & l2 & El & H1 & H2). destruct (proj1 (Hl bond)) as [Hs Hin]; [rewrite El; set_solver |].
  split; [done |]. split; [done |]. intros b Hbi Hbs. assert (Hb' : b ∈ l) by by apply Hl.
  rewrite Forall_forall in H1, H2. rewrite El in Hb'. apply elem_of_app in Hb' as [Hi|Hi]; [by apply H1 |].
  apply elem_of_cons in Hi as [->|Hi]; [lia |]. apply H2 in Hi. lia.
Qed.

(** A success of the module, taken apart. *)
Lemma pam_success_parts from_name h argc argv e sockets w w' :
  pam_sm_authenticate from_name h argc argv e sockets w = (Ret PAM_SUCCESS, w') ->
  exists uid, pam_login_uid from_name h = Some uid /\
    let cfg := from_pam_argv_for_uid (collect_pam_argv argc argv) uid in
    let k := sockets (socket_path cfg) in
    exists store bond n ok sig framed rest,
    (BondStore_load (bonds_file_path cfg) w).1 = Ret (Ok store) /\ first_bonded store = Some bond /\
    e_random e = Some n /\ encode_frame (ReqChallenge (peer_id bond) n) = Ok framed /\
    (daemon_round_trip k (peer_id bond) n (auth_timeout cfg)).2 = w_bytes (k_out k DAEMON_WRITE_TIMEOUT) ++ framed /\
    read_frame (blocking (k_in k (Z.min (auth_timeout cfg) DAEMON_RESPONSE_BUDGET))) = Ready (Ret (Ok (RespChallenge ok sig OUTCOME_REASON_OK)), rest).
Proof.
  unfold pam_sm_authenticate, run_entry. destruct (pam_login_uid from_name h) as [uid|]; [| done]. unfold ibind.
  intros Hpam. exists uid. split; [done |]. cbv zeta. set (cfg := from_pam_argv_for_uid _ uid) in *. set (k := sockets _) in *.
  destruct (authenticate cfg e k w) as [[out| |] w1] eqn:Ea; [| done..]. injection Hpam as Hc _.
  destruct out as [id| |]; [| done..]. apply authenticate_outcome in Ea as [w2 Ei].
  apply inner_success in Ei as (store & bond & n & ok & sig & Hl & Hb & -> & Hn & Hr).
  destruct (daemon_round_trip k (peer_id bond) n (auth_timeout cfg)) as [res sent] eqn:Et. cbn in Hr. subst res.
  apply round_trip_ok in Et as Et'. destruct Et' as (_ & _ & _ & (wr & Hw & ->) & (rest & Hrd)).
  change (write_frame (ReqChallenge (peer_id bond) n) (k_out k DAEMON_WRITE_TIMEOUT) = (Ok tt, wr)) in Hw.
  apply write_frame_ok in Hw as (framed & Hf & Hw).
  exists store, bond, n, ok, sig, framed, rest. rewrite Et. split_and!; try done. by apply write_all_ok.
Qed.

(** ** Properties *)

Section properties.
Context (from_name : str -> result (option Z) unit) (h : PamHandle) (argc : Z) (argv : option (list (option (list Z)))).

(** The module grants access only if the account's user is known, the bonds file of
    the machine was read and holds a bonded phone, no bonded phone is newer than the
    one asked for, the whole request for it went to the daemon's socket of that user (or
    of the [socket=] argument), and a whole response with the reason "ok" came back. *)
Theorem pam_success_needs_daemon_ok e sockets w w' :
  pam_sm_authenticate from_name h argc argv e sockets w = (Ret PAM_SUCCESS, w') ->
  exists uid store bond n ok sig framed rest,
    pam_login_uid from_name h = Some uid /\
    let cfg := from_pam_argv_for_uid (collect_pam_argv argc argv) uid in
    let k := sockets (socket_path cfg) in
    (BondStore_load (bonds_file_path cfg) w).1 = Ret (Ok store) /\
    In bond (bonds store) /\ status bond = StBonded /\
    (forall b, In b (bonds store) -> status b = StBonded -> instant (created_at b) <= instant (created_at bond)) /\
    encode_frame (ReqChallenge (peer_id bond) n) = Ok framed /\
    (daemon_round_trip k (peer_id bond) n (auth_timeout cfg)).2 = w_bytes (k_out k DAEMON_WRITE_TIMEOUT) ++ framed /\
    read_frame (blocking (k_in k (Z.min (auth_timeout cfg) DAEMON_RESPONSE_BUDGET))) = Ready (Ret (Ok (RespChallenge ok sig OUTCOME_REASON_OK)), rest).
Proof.
  intros Hpam. destruct (pam_success_parts _ _ _ _ _ _ _ _ Hpam)
    as (uid & Hu & store & bond & n & ok & sig & framed & rest & Hl & Hb & _ & Hf & Hs & Hr).
  apply first_bonded_spec in Hb as (Hin & Hst & Hnew).
  exists uid, store, bond, n, ok, sig, framed, rest. split; [done |]. cbv zeta. by split_and!.
Qed.

(** C33: whatever the disk, the daemon and the arguments do, the entry point returns
    [PAM_SUCCESS], [PAM_AUTH_ERR] or [PAM_AUTHINFO_UNAVAIL] unless the process is killed:
    no panic crosses it, and a panic anywhere inside becomes [PAM_AUTH_ERR]. *)
Theorem pam_entry_total e sockets w :
  let r := pam_sm_authenticate from_name h argc argv e sockets w in
  r.1 = Killed \/ exists code, r.1 = Ret code /\ In code [PAM_SUCCESS; PAM_AUTH_ERR; PAM_AUTHINFO_UNAVAIL] /\
    (forall uid, pam_login_uid from_name h = Some uid ->
       let cfg := from_pam_argv_for_uid (collect_pam_argv argc argv) uid in
       (authenticate cfg e (sockets (socket_path cfg)) w).1 = Panicked -> code = PAM_AUTH_ERR).
Proof.
  unfold pam_sm_authenticate, run_entry. destruct (pam_login_uid from_name h) as [uid|].
  2: { right. eexists. split; [done |]. split; [by right; right; left | done]. }
  unfold ibind. set (cfg := from_pam_argv_for_uid _ uid).
  destruct (authenticate cfg e _ w) as [[out| |] w1] eqn:Ea; [| by left |]; right; eexists; (split; [done |]).
  - split; [destruct out; cbn; tauto |]. intros u [= <-]. fold cfg. by rewrite Ea.
  - split; [cbn; tauto | done].
Qed.
End properties.
End auth.

(** The reasons of the daemon, exactly: of its outcomes only [COk] gives
    [PAM_SUCCESS]; a refusal, a replay or a wrong signature gives [PAM_AUTH_ERR]; a
    phone or radio that does not answer gives [PAM_AUTHINFO_UNAVAIL], which lets the
    stack go on; any reason outside the table gives [PAM_AUTH_ERR], and so does the
    daemon's answer while its radio is not ready. *)
Theorem daemon_reasons_to_pam `{Ed25519} (out : ChallengeOutcome) reason :
  (outcome_reason_to_pam (reason_str out)).1 =
    match out with
    | COk _ => PAM_SUCCESS
    | CDenied | CReplay | CBadSignature => PAM_AUTH_ERR
    | CTimedOut | CUnknownPeer | CBusy | CTransportError _ => PAM_AUTHINFO_UNAVAIL
    end /\
  (~ In reason reason_table.*1 -> outcome_reason_to_pam reason = (PAM_AUTH_ERR, UNKNOWN_REASON)) /\
  outcome_reason_to_pam (lit "not-implemented") = (PAM_AUTH_ERR, UNKNOWN_REASON).
Proof.
  split; [by destruct out |]. split; [| done]. unfold outcome_reason_to_pam. generalize reason_table.
  induction l as [|[r c] l IH]; [done |]. cbn. intros Hn. rewrite bool_decide_false; [apply IH |]; intuition congruence.
Qed.

(** ** Sample calls *)

Section samples.
Import ToyCrypto ToyCrates ToyTempfile ToyDaemon ToyCbor.

#[export] Instance toy_chrono_ord : ChronoOrd := {| instant d := from_be_bytes d |}.

Definition pam_store : BondStore := mkStore [phone_bond; set_status (StRevoked (lit "lost")) sample_bond].
Definition pam_bytes : list Z := match serialize_to_toml pam_store with Ok b => b | Err _ => [] end.
Definition pam_fs : fs :=
  <[join DEFAULT_BOND_DIR (lit "bonds.toml") := File pam_bytes 384]>
    (<[DEFAULT_BOND_DIR := Dir 448]> (<[[lit "var"; lit "lib"] := Dir 493]> (<[[lit "var"] := Dir 493]> ∅))).

Definition alice : PamHandle := mkHandle false (0, Some (lit "alice")).
Definition alice_uid (name : str) : result (option Z) unit := Ok (if decide (name = lit "alice") then Some 1000 else None).
Definition pam_nonce : list Z := replicate 16 3.
Definition pam_env : PamEnv := mkPamEnv _ (Some pam_nonce) (lit "now").

(** A daemon behind the user's socket that has the given bytes for the module. *)
Definition daemon_at (answer : list Z) (p : str) : Socket :=
  mkSocket (if decide (p = lit "/run/user/1000/syauth/auth.sock") then Ok tt else Err ConnectionRefused) (Ok tt) (Ok tt)
    (fun _ => mkWriter [] None) (fun _ => mkReader answer None).

Notation granted := (match encode_frame (RespChallenge true None OUTCOME_REASON_OK) with Ok f => f | Err _ => [] end).

Lemma pam_success_needs_daemon_ok_witness :
  exists bond, In bond (bonds pam_store) /\ status bond = StBonded /\
    pam_login_uid alice_uid alice = Some 1000.
Proof.
  destruct (pam_success_needs_daemon_ok alice_uid alice 0 None pam_env (daemon_at granted) (calm pam_fs)
    (pam_sm_authenticate alice_uid alice 0 None pam_env (daemon_at granted) (calm pam_fs)).2)
    as (uid & store & bond & n & ok & sig & framed & rest & Hu & Hl & Hin & Hst & _).
  - rewrite (surjective_pairing (pam_sm_authenticate _ _ _ _ _ _ _)). f_equal.
  - exists bond. rewrite Hu. vm_compute in Hu. injection Hu as <-. cbv zeta in Hl.
    assert (Hs : (BondStore_load (join DEFAULT_BOND_DIR (lit "bonds.toml")) (calm pam_fs)).1 = Ret (Ok pam_store))
      by (vm_compute; reflexivity).
    unfold bonds_file_path, from_pam_argv_for_uid in Hl. cbn [bond_dir] in Hl. rewrite Hs in Hl. injection Hl as <-.
    split; [exact Hin |]. split; [exact Hst | reflexivity].
Defined.
End samples.
