(* ===== verification/Unlock.v ===== *)
(** * Unlocking, from end to end

    The PAM module of Pam.v and the daemon of Server.v and Orchestrator.v at the two
    ends of one connection: what an answer of [PAM_SUCCESS] rests on. *)

From stdpp Require Import prelude list gmap strings.
From Stdlib Require Import ZArith Lia.
From S2P Require Import Prelude WireFrame Fs Bond PairRecovery PairTransaction Peripheral AuditTrail Orchestrator Challenge Rpc Server Pam.

Section unlock.
Context `{B3 : Blake3, ED : Ed25519, HK : Hkdf, CH : Chrono, CO : !ChronoOrd, TM : Toml, HX : Hex, HO : HashOrder,
  PP : Peripheral, CB : Ciborium, UM : Umask}.
Context `{!Ed25519Laws ED, !CiboriumLaws CB}.
Context (bonds_file keys : path).

(** What the module wrote to the socket, for a call that got as far. *)
Definition module_sent (cfg : Config) (e : PamEnv) (k : Socket) (w : world) : list Z :=
  match (resolve_peer_id cfg w).1, e_random e with
  | Ret (Ok id), Some n => (daemon_round_trip k id n (auth_timeout cfg)).2
  | _, _ => []
  end.

(** The two ends of one connection: the daemon received a beginning of what the module
    wrote, and the module can read a beginning of what the daemon wrote. *)
Definition wired (c : Conn) (cfg : Config) (e : PamEnv) (k : Socket) (w : world) : Prop :=
  w_bytes (k_out k DAEMON_WRITE_TIMEOUT) = [] /\ c_fed c `prefix_of` module_sent cfg e k w /\ r_bytes (k_in k (Z.min (auth_timeout cfg) DAEMON_RESPONSE_BUDGET)) `prefix_of` w_bytes (c_out c).

Lemma utf8_ascii_bytes l : Forall (fun c => c <= 127) l -> utf8 l = true.
Proof. induction 1 as [|c l Hc _ IH]; [done |]. cbn [utf8]. by rewrite (proj2 (Z.leb_le _ _) Hc). Qed.

Lemma byte_at_ascii l i : Forall (fun c => c <= 127) l -> byte_at l i <= 127.
Proof.
  intros Hl. unfold byte_at. destruct (l !! Z.to_nat i) as [c|] eqn:E; cbn; [| lia].
  by apply (proj1 (Forall_lookup _ _) Hl _ _ E).
Qed.

Lemma utf8_peer_id pk : utf8 (peer_id_from_pubkey pk) = true.
Proof.
  apply utf8_ascii_bytes. unfold peer_id_from_pubkey, hex_lowercase.
  assert (Ha : Forall (fun c => c <= 127) HEX_CHARS) by (repeat constructor; by vm_compute).
  induction (slice _ _ _) as [|b l IH]; cbn [map concat app]; repeat constructor; auto using byte_at_ascii.
Qed.

Lemma challenge_response_wf out : response_wf (challenge_response out).
Proof.
  split; [| done]. cbn. split; [| by destruct out].
  destruct out; cbn; try done. intros s [= <-]. apply signature_arr.
Qed.

Lemma stub_response_wf : response_wf stub_response.
Proof. by split. Qed.

Lemma prefix_of_take {A} (l f : list A) k : l `prefix_of` take k f -> l = take (length l) f.
Proof.
  intros [t Ht]. assert (Hl : (length l <= k)%nat).
  { apply (f_equal length) in Ht. rewrite length_take, length_app in Ht. lia. }
  apply (f_equal (take (length l))) in Ht. rewrite take_take, take_app_length in Ht.
  by rewrite Nat.min_l in Ht by done.
Qed.

(** A whole response read from a beginning of the daemon's frame is the one written. *)
Lemma read_own_response r r' framed k l e rest :
  response_wf r -> encode_frame r = Ok framed -> l `prefix_of` take k framed ->
  read_frame (mkReader l (Some e)) = Ready (Ret (Ok r'), rest) -> r' = whole_seconds r.
Proof.
  intros Hr (payload & Hp & Hl & ->)%encode_frame_ok Hk Hread. apply (prefix_of_take l) in Hk.
  destruct (decide (length l < 4 + length payload)%nat) as [Hs|Hs].
  - rewrite Hk, read_frame_cut in Hread; [done | done | done].
  - rewrite Hk, take_ge in Hread by (rewrite length_app, length_to_be_bytes; lia).
    rewrite <- (app_nil_r (_ ++ payload)), read_frame_payload in Hread by done.
    unfold decode_frame in Hread. destruct (Z.gtb_spec (len payload) MAX_FRAME_LEN); [lia |].
    rewrite (serde_roundtrip r payload Hr Hp) in Hread. by injection Hread as <- _.
Qed.

(** The request the daemon read from a beginning of the module's frame is the one
    written. *)
Lemma read_own_request c request r framed :
  request_wf r -> encode_frame r = Ok framed -> c_fed c `prefix_of` framed -> requested c request -> request = r.
Proof.
  intros Hr Hf Hk (payload & Hfed & Hl & Hd).
  assert (Hread : read_frame (T := Request) (mkReader (c_fed c) None) = Ready (Ret (Ok request), mkReader (r_bytes (c_reader c)) None)).
  { by rewrite Hfed, read_frame_payload, Hd. }
  apply encode_frame_ok in Hf as (p' & Hp & Hl' & ->). rewrite <- (firstn_all (_ ++ p')) in Hk.
  apply prefix_of_take in Hk. destruct (decide (length (c_fed c) < 4 + length p')%nat) as [Hs|Hs].
  - by rewrite Hk, read_frame_cut in Hread.
  - rewrite Hk, take_ge in Hread by (rewrite length_app, length_to_be_bytes; lia).
    rewrite <- (app_nil_r (_ ++ p')), read_frame_payload in Hread by done.
    unfold decode_frame in Hread. destruct (Z.gtb_spec (len p') MAX_FRAME_LEN); [lia |].
    rewrite (serde_roundtrip r p' Hr Hp) in Hread. by injection Hread as <- _.
Qed.

Lemma module_sent_request cfg e k w store bond n :
  (BondStore_load (bonds_file_path cfg) w).1 = Ret (Ok store) -> first_bonded store = Some bond -> e_random e = Some n ->
  module_sent cfg e k w = (daemon_round_trip k (peer_id bond) n (auth_timeout cfg)).2.
Proof.
  intros Hl Hb Hn. unfold module_sent, resolve_peer_id, ibind.
  destruct (BondStore_load (bonds_file_path cfg) w) as [o w3]. cbn in Hl. subst o. cbn. by rewrite Hb, Hn.
Qed.

Lemma conn_replied started task c : conn_inv started task c -> replied started task c.
Proof. intros [_ Hi]. destruct (c_phase c); [left; apply Hi.. | done]. Qed.

(** What a client that asked for a challenge and read a whole response knows: the daemon of the other end of the
    connection ran that challenge to its end and the response is its outcome, or it has no orchestrator. *)
Lemma challenge_reply_core p peers w0 audit now b started fixed es cid c id n framed reader rest resp :
  let v := sv_run bonds_file keys (sv_start (with_peers_and_audit p peers w0 audit now) b started fixed) es in
  Forall (fun x => peer_id x.1 = peer_id_from_pubkey (pubkey x.1)) peers ->
  v_conns v !! cid = Some c -> request_wf (ReqChallenge id n) -> encode_frame (ReqChallenge id n) = Ok framed ->
  c_fed c `prefix_of` framed -> r_bytes reader `prefix_of` w_bytes (c_out c) ->
  read_frame (blocking reader) = Ready (Ret (Ok resp), rest) ->
  (exists t out, y_tasks (v_sys v) !! cid = Some t /\ t_prog t = Done out /\ t_peer t = id /\ resp = challenge_response out /\
     forall sig, out = COk sig -> authentic t sig) \/
  resp = stub_response.
Proof using All.
  cbv zeta. intros Hpeers Hconn Hwf Hf Hfed Hin Hr.
  destruct (sv_reachable bonds_file keys (with_peers_and_audit p peers w0 audit now) b started fixed es) as [Hconns _ _ _ [ses Hsys]].
  destruct (conn_replied _ _ _ (Hconns _ _ Hconn)) as [Hnone|(request & r & fr & m & Hq & Ha & He & Hbytes)].
  { rewrite Hnone in Hin. apply prefix_nil_inv in Hin. unfold blocking in Hr. by rewrite Hin in Hr. }
  apply (read_own_request c request (ReqChallenge id n) framed) in Hq; [| done..].
  subst request. rewrite Hbytes in Hin. cbn [answers] in Ha. destruct (orchestrator (c_backend c)).
  - destruct Ha as (t & out & Ht & Hp & Hd & ->).
    pose proof (read_own_response _ _ _ _ _ _ _ (challenge_response_wf out) He Hin Hr) as ->.
    left. exists t, out. split_and!; try done. intros sig ->.
    refine (ok_authentic _ cid t sig _ Ht Hd). rewrite Hsys. by apply reachable_inv.
  - subst r. right. by pose proof (read_own_response _ _ _ _ _ _ _ stub_response_wf He Hin Hr) as ->.
Qed.

(** C1: if the PAM module, connected to the daemon, answers [PAM_SUCCESS], then the
    daemon ran a challenge for the newest bonded phone of the bonds file over this
    connection and it ended with [COk]: that phone's entry was looked up under its
    identifier, its slot was held, and the registered key, from which the identifier is
    derived, signed the very frame that was sent, with a nonce not seen before; whatever
    else the daemon, its radio, other clients and reloads were doing. *)
Theorem unlock_authentic p peers w0 audit now b started fixed es cid c
  from_name h argc argv e sockets w w' uid
  (Hpeers : Forall (fun x => peer_id x.1 = peer_id_from_pubkey (pubkey x.1)) peers)
  (Hconn : v_conns (sv_run bonds_file keys (sv_start (with_peers_and_audit p peers w0 audit now) b started fixed) es) !! cid = Some c)
  (Huid : pam_login_uid from_name h = Some uid)
  (Hwired : let cfg := from_pam_argv_for_uid (collect_pam_argv argc argv) uid in
            wired c cfg e (sockets (socket_path cfg)) w)
  (Hrandom : forall n, e_random e = Some n -> bytes_ok n)
  (Hpam : pam_sm_authenticate from_name h argc argv e sockets w = (Ret PAM_SUCCESS, w')) :
  exists t sig store bond,
    y_tasks (v_sys (sv_run bonds_file keys (sv_start (with_peers_and_audit p peers w0 audit now) b started fixed) es)) !! cid = Some t /\
    t_prog t = Done (COk sig) /\ authentic t sig /\ t_peer t = peer_id bond /\
    (BondStore_load (join DEFAULT_BOND_DIR (lit "bonds.toml")) w).1 = Ret (Ok store) /\
    first_bonded store = Some bond.
Proof.
  destruct (pam_success_parts _ _ _ _ _ _ _ _ Hpam)
    as (u & Hu & store & bond & n & ok & sig & framed & rest & Hl & Hb & Hn & Hf & Hs & Hr).
  rewrite Huid in Hu. injection Hu as <-. cbv zeta in *.
  set (cfg := from_pam_argv_for_uid _ uid) in *. set (k := sockets (socket_path cfg)) in *.
  destruct Hwired as (Hout & Hfed & Hin). rewrite Hout in Hs.
  rewrite (module_sent_request cfg e k w store bond n), Hs in Hfed by done.
  assert (Hid : utf8 (peer_id bond) = true).
  { pose proof (load_ids _ _ _ Hl) as Hids. rewrite List.Forall_forall in Hids.
    rewrite (Hids bond); [apply utf8_peer_id |]. by apply first_bonded_spec in Hb as []. }
  destruct (challenge_reply_core p peers w0 audit now b started fixed es cid c (peer_id bond) n framed
    (k_in k (Z.min (auth_timeout cfg) DAEMON_RESPONSE_BUDGET)) rest (RespChallenge ok sig OUTCOME_REASON_OK))
    as [(t & out & Ht & Hd & Hp & Hresp & Ha) | Hstub]; try done; [by split; [| apply Hrandom] |].
  destruct out as [sg| | | | | | |]; try done. exists t, sg, store, bond. by split_and!; auto.
Qed.
End unlock.

(** ** A sample unlock: the request of alice's session reaches the daemon, the phone
    signs, the answer comes back. *)

Section samples.
Import ToyCrypto ToyCrates ToyTempfile ToyDaemon Fake ToyCbor.
#[local] Existing Instance toy_chrono_ord.

Notation request_frame :=
  (match encode_frame (ReqChallenge (peer_id phone_bond) pam_nonce) with Ok f => f | Err _ => [] end).
Notation unlock_run :=
  ([Accept 0; Permit None; Publish (mkBackend true true); Start 0 (Ok 0); Receive 0 request_frame; Poll 0 false] ++
   replicate 12 (Daemon (Step 0 (mkChoice (Some phone_nonce) false false))) ++ [Poll 0 false]).
Notation unlock_server :=
  (sv_run (PP := FakePeripheral) [] []
    (sv_start (with_peers_and_audit (PP := FakePeripheral) phone_radio [(phone_bond, phone_key)] (calm ∅) (Some (opened [])) 1700000000000000000)
      (mkBackend false false) 0 None) unlock_run).
Notation unlock_conn := (default (new_conn None) (v_conns unlock_server !! 0%nat)).
Notation unlock_answer := (w_bytes (c_out unlock_conn)).

Lemma unlock_authentic_witness :
  exists t sig, y_tasks (v_sys unlock_server) !! 0%nat = Some t /\ t_prog t = Done (COk sig) /\ authentic t sig /\
    t_peer t = peer_id phone_bond.
Proof.
  destruct (unlock_authentic (ED := toy_ed25519) (PP := FakePeripheral) (CB := toy_cbor) (Ed25519Laws0 := toy_ed25519_laws) [] [] phone_radio
    [(phone_bond, phone_key)] (calm ∅) (Some (opened [])) 1700000000000000000 (mkBackend false false) 0 None unlock_run 0
    unlock_conn alice_uid alice 0 None pam_env (daemon_at unlock_answer) (calm pam_fs)
    (pam_sm_authenticate alice_uid alice 0 None pam_env (daemon_at unlock_answer) (calm pam_fs)).2 1000)
    as (t & sig & store & bond & Ht & Hd & Ha & Hp & Hl & Hb).
  - exact phone_ids.
  - vm_compute. reflexivity.
  - reflexivity.
  - split; [reflexivity |]. split; exists []; vm_compute; reflexivity.
  - intros n [= <-]. decide_now.
  - rewrite (surjective_pairing (pam_sm_authenticate _ _ _ _ _ _ _)). f_equal.
  - exists t, sig. split; [exact Ht |]. split; [exact Hd |]. split; [exact Ha |]. rewrite Hp.
    assert (Hs : (BondStore_load (join DEFAULT_BOND_DIR (lit "bonds.toml")) (calm pam_fs)).1 = Ret (Ok pam_store))
      by (vm_compute; reflexivity).
    rewrite Hs in Hl. injection Hl as <-. vm_compute in Hb. injection Hb as <-. reflexivity.
Defined.
End samples.
