(* ===== verification/Mobile.v ===== *)
(** * The phone's library

    Models crates/syauth-mobile/src/implementation.rs, the functions the Android
    app calls through UniFFI, and crates/syauth-cli/src/oob.rs, whose code the
    desktop shows next to the phone's.  The reasons of a [MobileError] are text for
    a screen and are not modelled.

    The derivations and the codec are written twice in the repository, once for each
    side; the theorems here say that the two sides agree: the phone accepts the frames
    the daemon sends, signs what the daemon verifies, scans for the UUID the daemon
    advertises, shows the number the desktop shows, and steps through the same
    transaction. *)

From stdpp Require Import prelude list gmap strings.
From Stdlib Require Import ZArith Lia.
From S2P Require Import Prelude WireFrame Fs Bond PairRecovery PairTransaction Peripheral AuditTrail Orchestrator Challenge.

Definition INVITE_URI_SCHEME : str := lit "syauth://".
Definition INVITE_URI_HOST_PATH : str := lit "invite?".
Definition INVITE_QUERY_KEY_HOST : str := lit "host".
Definition INVITE_QUERY_KEY_PUBKEY : str := lit "pubkey".
Definition INVITE_PUBKEY_LEN : Z := 32.
Definition ED25519_SECRET_KEY_LEN : Z := 32.
Definition MOBILE_BOND_KEY_LEN : Z := BOND_KEY_BYTES.
Definition HKDF_INFO_OOB_V1 : str := lit "syauth-oob-v1".
Definition OOB_CODE_DIGITS : Z := 8.
Definition OOB_CODE_SPACE : Z := 100000000.
Definition OOB_CODE_BYTES : Z := 4.
Definition ED25519_SIGNATURE_LEN : Z := 64.
Definition SESSION_INFO_V1 : str := lit "syauth-session-v1".
Definition SESSION_UUID_BYTES_MOBILE : Z := 16.

Record Invite := mkInvite { host_name : str; host_pubkey : list Z }.

Inductive MobileError := InvalidInvite | InvalidKey | BadFrame | VerifyFailed | SignFailed.

(** ** Invites *)

(** [pair.splitn(2, '=')]: the key, and the value or the empty string. *)
Fixpoint split_pair (key : str) (s : str) : str * str :=
  match s with
  | [] => (key, [])
  | c :: s => if c =? 61 then (key, s) else split_pair (key ++ [c]) s
  end.

Section invite.
Context `{Hex}.

(** The loop over the pairs, with what it found so far. *)
Fixpoint scan_pairs (host pubkey : option str) (pairs : list str) : result (option str * option str) MobileError :=
  match pairs with
  | [] => Ok (host, pubkey)
  | [] :: pairs => scan_pairs host pubkey pairs
  | p :: pairs =>
      let '(key, value) := split_pair [] p in
      if bool_decide (key = INVITE_QUERY_KEY_HOST) then
        match value with
        | [] => Err InvalidInvite
        | _ => scan_pairs (Some value) pubkey pairs
        end
      else if bool_decide (key = INVITE_QUERY_KEY_PUBKEY) then scan_pairs host (Some value) pairs
      else scan_pairs host pubkey pairs
  end.

Definition parse_invite_uri (uri : str) : result Invite MobileError :=
  let? after_scheme := ok_or (strip_prefix INVITE_URI_SCHEME uri) InvalidInvite in
  let? query := ok_or (strip_prefix INVITE_URI_HOST_PATH after_scheme) InvalidInvite in
  let? found := scan_pairs None None (split 38 query) in
  let? name := ok_or found.1 InvalidInvite in
  let? hex := ok_or found.2 InvalidInvite in
  let? key := ok_or (hex_to_bytes hex) InvalidInvite in
  if negb (len key =? INVITE_PUBKEY_LEN) then Err InvalidInvite
  else Ok (mkInvite name key).
End invite.

(** ** Frames *)

(** [SigningKey::from_bytes] *)
Class Ed25519Seed `{Ed25519} := { SigningKey_from_bytes : list Z -> SigningKey }.

Definition bond_key_array (bond_key : list Z) : result (list Z) MobileError :=
  if negb (len bond_key =? MOBILE_BOND_KEY_LEN) then Err InvalidKey else Ok bond_key.

Section frames.
Context `{B3 : Blake3, ED : Ed25519, SD : !Ed25519Seed}.

Definition verify_challenge_frame (bond_key frame_bytes : list Z) : result (list Z) MobileError :=
  let? bond_key_arr := bond_key_array bond_key in
  let? frame := map_err (fun _ => BadFrame) (Frame_decode frame_bytes) in
  let? body := map_err (fun _ => BadFrame) (Frame_body_bytes frame) in
  if negb (verify_tag bond_key_arr body (tag frame)) then Err VerifyFailed
  else Ok (payload frame).

Definition sign_challenge_response (signing_key frame_bytes : list Z) : result (list Z) MobileError :=
  if negb (len signing_key =? ED25519_SECRET_KEY_LEN) then Err InvalidKey
  else
    let sk := SigningKey_from_bytes signing_key in
    let? frame := map_err (fun _ => BadFrame) (Frame_decode frame_bytes) in
    let? sig := map_err (fun _ => SignFailed) (sign_frame sk frame) in
    Ok (Signature_to_bytes sig).

(** [signer] is the app's [FrameSigner]; [response_nonce] what [OsRng] gives. *)
Definition build_response_frame (bond_key : list Z) (signer : list Z -> list Z) (response_nonce challenge_frame_bytes : list Z)
  : result (list Z) MobileError :=
  let? bond_key_arr := bond_key_array bond_key in
  let? challenge := map_err (fun _ => BadFrame) (Frame_decode challenge_frame_bytes) in
  let? unsigned_body := map_err (fun _ => BadFrame) (Frame_body_bytes challenge) in
  let sig_bytes := signer unsigned_body in
  if negb (len sig_bytes =? ED25519_SIGNATURE_LEN) then Err SignFailed
  else
    let body := [SYAUTH_WIRE_VERSION_V1] ++ response_nonce ++ sig_bytes in
    let t := compute_tag bond_key_arr body in
    let response_frame := mkFrame SYAUTH_WIRE_VERSION_V1 response_nonce sig_bytes t in
    let '(out, r) := Frame_encode response_frame [] in
    let? _ := map_err (fun _ => SignFailed) r in
    Ok out.
End frames.

(** ** Derivations *)

(** [format!("{:0width$}", n, width = ..)] *)
Definition zero_padded (width : Z) (n : Z) : str :=
  replicate (Z.to_nat (width - len (decimal n))) 48 ++ decimal n.

Section derivations.
Context `{HK : Hkdf}.

Definition oob_code_for_bond (bond_key : list Z) : result str MobileError :=
  let? bond_key_arr := bond_key_array bond_key in
  let? out := ok_or (hkdf_sha256 None bond_key_arr HKDF_INFO_OOB_V1 OOB_CODE_BYTES) InvalidKey in
  Ok (zero_padded OOB_CODE_DIGITS (from_be_bytes out mod OOB_CODE_SPACE)).

(** crates/syauth-cli/src/oob.rs *)
Definition OOB_HKDF_BYTES : Z := 4.
Definition cli_oob_code_for_bond (bond_key : list Z) : str :=
  let out := match hkdf_sha256 None bond_key (lit "syauth-oob-v1") OOB_HKDF_BYTES with
             | Some out => out
             | None => replicate (Z.to_nat OOB_HKDF_BYTES) 0
             end in
  zero_padded 8 (from_be_bytes out mod 100000000).

Definition session_uuid_for_bond (bond_key : list Z) (minute : Z) : result (list Z) MobileError :=
  let? bond_key_arr := bond_key_array bond_key in
  let info := SESSION_INFO_V1 ++ to_be_bytes 8 minute in
  let? out := ok_or (hkdf_sha256 None bond_key_arr info SESSION_UUID_BYTES_MOBILE) InvalidKey in
  Ok out.
End derivations.

Definition mobile_peer_id_from_pubkey `{Blake3} (key : list Z) : result str MobileError :=
  if negb (len key =? PUBKEY_LEN) then Err InvalidKey else Ok (peer_id_from_pubkey key).

(** ** Transactions

    The app stores the serialized transaction between the calls. *)
Definition pair_transaction_create (transaction_id : list Z) (r : Z) : result (list Z) MobileError :=
  if negb (len transaction_id =? 16) then Err InvalidKey
  else
    let? role := match r with 0 => Ok Coordinator | 1 => Ok Participant | _ => Err InvalidKey end in
    Ok (Transaction_serialize (Transaction_new transaction_id role)).

Definition local_event (event : Z) : option LocalEvent :=
  match event with
  | 0 => Some LCapability
  | 1 => Some LVerifiedExchange
  | 2 => Some LConfirm
  | 3 => Some LPrepared
  | 4 => Some LCommit
  | 5 => Some LCommitAck
  | 6 => Some LCommitted
  | 7 => Some LDisconnected
  | 8 => Some (LAbort OpReject)
  | 9 => Some (LAbort OpCancel)
  | 10 => Some (LAbort OpTimeout)
  | 11 => Some (LAbort OpError)
  | _ => None
  end.

Definition pair_transaction_apply_local (state : list Z) (event : Z) : result (list Z) MobileError :=
  let? tx := map_err (fun _ => BadFrame) (Transaction_restore state) in
  let? event := ok_or (local_event event) BadFrame in
  let '(tx, r) := Transaction_local tx event in
  let? _ := map_err (fun _ => BadFrame) r in
  Ok (Transaction_serialize tx).

Definition pair_transaction_apply_remote (state message : list Z) : result (list Z) MobileError :=
  let? tx := map_err (fun _ => BadFrame) (Transaction_restore state) in
  let? message := map_err (fun _ => BadFrame) (Message_decode message) in
  let '(tx, r) := Transaction_remote tx message in
  let? _ := map_err (fun _ => BadFrame) r in
  Ok (Transaction_serialize tx).

Definition pair_transaction_restore (state : list Z) : result (list Z) MobileError :=
  let? tx := map_err (fun _ => BadFrame) (Transaction_restore state) in
  Ok (Transaction_serialize tx).

Definition pair_transaction_status_query (transaction_id : list Z) (n : Z) : result (list Z) MobileError :=
  if negb (len transaction_id =? 16) || (n <? 0) then Err InvalidKey
  else Ok (StatusMessage_encode (StatusMessage_query transaction_id n)).

Definition pair_transaction_apply_status (state response : list Z) (n : Z) : result (list Z) MobileError :=
  if n <? 0 then Err InvalidKey
  else
    let? tx := map_err (fun _ => BadFrame) (Transaction_restore state) in
    let? response := map_err (fun _ => BadFrame) (StatusMessage_decode response) in
    match s_state response with
    | None => Err BadFrame
    | Some _ =>
        let '(tx, r) := Transaction_apply_status_response tx response n in
        let? _ := map_err (fun _ => BadFrame) r in
        Ok (Transaction_serialize tx)
    end.

Definition pair_transaction_phase (state : list Z) : result Z MobileError :=
  let? tx := map_err (fun _ => BadFrame) (Transaction_restore state) in
  Ok match phase tx with
     | Negotiating => 0
     | OobPending => 1
     | Preparing => 2
     | Prepared => 3
     | CommitPending => 4
     | Committed => 5
     | Bonded => 6
     | Aborted _ => 7
     | Uncertain => 8
     end.

(** ** The phone and the daemon *)

Section agreement.
Context `{B3 : Blake3, ED : Ed25519, SD : !Ed25519Seed, !Blake3Laws B3, !Ed25519Laws ED}.

Lemma challenge_frame_wf ps n : arr NONCE_LEN n -> Frame_wf (challenge_frame ps n).
Proof.
  intros Hn. split; [| by split]. split; [by vm_compute |]. split; [done |]. split; [constructor |]. apply compute_tag_arr.
Qed.

Lemma challenge_frame_body ps n : Frame_body_bytes (challenge_frame ps n) = Ok ([SYAUTH_WIRE_VERSION_V1] ++ n).
Proof. rewrite Frame_body_ok by (by vm_compute). cbn. by rewrite app_nil_r. Qed.

(** C25: a phone with the bond key and the seed of the registered public key accepts the
    frame the daemon sends for a challenge, and what it signs is an answer the daemon
    accepts for this very challenge; and whatever bytes a phone accepts are a frame of
    version 1 whose tag is the one of its bond key. *)
Theorem phone_answer_accepted ps n seed :
  arr NONCE_LEN n -> len (ps_bond_key ps) = BOND_KEY_BYTES -> len seed = ED25519_SECRET_KEY_LEN ->
  VerifyingKey_from_bytes (ps_phone_pubkey ps) = Ok (verifying_key (SigningKey_from_bytes seed)) ->
  (exists sig, verify_challenge_frame (ps_bond_key ps) (frame_wire (challenge_frame ps n)) = Ok [] /\
     sign_challenge_response seed (frame_wire (challenge_frame ps n)) = Ok (Signature_to_bytes sig) /\
     signed_by_phone ps n (Signature_to_bytes sig) sig) /\
  forall bytes p, verify_challenge_frame (ps_bond_key ps) bytes = Ok p ->
  exists m t, bytes = [SYAUTH_WIRE_VERSION_V1] ++ m ++ p ++ t /\ len m = NONCE_LEN /\
    t = compute_tag (ps_bond_key ps) ([SYAUTH_WIRE_VERSION_V1] ++ m ++ p).
Proof.
  intros Hn Hk Hs Hvk. split.
  - pose proof (challenge_frame_wf ps n Hn) as Hwf. pose proof (challenge_frame_body ps n) as Hb.
    exists (ed_sign (SigningKey_from_bytes seed) ([SYAUTH_WIRE_VERSION_V1] ++ n)). split_and!.
    + unfold verify_challenge_frame, bond_key_array. rewrite Hk, Z.eqb_refl. cbn [negb rbind].
      rewrite Frame_decode_wire by done. cbn [map_err rbind]. rewrite Hb. cbn [map_err rbind].
      unfold verify_tag, ct_eq. by rewrite bool_decide_true.
    + unfold sign_challenge_response. rewrite Hs, Z.eqb_refl. cbn [negb]. rewrite Frame_decode_wire by done.
      cbn [map_err rbind]. unfold sign_frame. by rewrite Hb.
    + split; [apply signature_arr |]. split; [apply signature_roundtrip |]. eexists. split; [exact Hvk |].
      unfold verify_frame. rewrite Hb. cbn [map_err rbind]. by rewrite verify_sign.
  - intros bytes p Hacc. unfold verify_challenge_frame, bond_key_array in Hacc. rewrite Hk, Z.eqb_refl in Hacc. cbn [negb rbind] in Hacc.
    destruct (Frame_decode bytes) as [f|] eqn:Ef; [| done]. cbn [map_err rbind] in Hacc.
    apply Frame_decode_inv in Ef as (<- & Hv & Hm & Ht & Hp & _).
    rewrite Frame_body_ok in Hacc by done. cbn [map_err rbind] in Hacc.
    destruct (verify_tag _ _ _) eqn:Evt; [| done]. injection Hacc as <-. unfold verify_tag, ct_eq in Evt.
    apply bool_decide_eq_true in Evt. exists (nonce f), (tag f). unfold frame_wire. rewrite <- Evt, Hv. done.
Qed.

(** The response frame the library builds verifies under the bond key and carries
    the signature, but it is 97 bytes long, and the daemon, which takes the 64 bytes of
    a bare signature, refuses it. *)
Theorem response_frame_refused bond_key signer response_nonce challenge out :
  arr NONCE_LEN response_nonce -> (forall m, bytes_ok (signer m)) ->
  build_response_frame bond_key signer response_nonce challenge = Ok out ->
  len out = 97 /\ parse_signature out = None /\
  exists body, verify_challenge_frame bond_key out = Ok (signer body).
Proof.
  intros Hn Hsig. unfold build_response_frame, bond_key_array.
  destruct (negb (len bond_key =? MOBILE_BOND_KEY_LEN)) eqn:Ek; [done |]. cbn [rbind].
  destruct (Frame_decode challenge) as [f|]; [| done]. cbn [map_err rbind].
  destruct (Frame_body_bytes f) as [body|]; [| done]. cbn [map_err rbind].
  destruct (Z.eqb_spec (len (signer body)) ED25519_SIGNATURE_LEN) as [Hl|]; [| done]. cbn [negb].
  set (r := mkFrame _ _ _ _). unfold ED25519_SIGNATURE_LEN in Hl.
  assert (Hwf : Frame_wf r).
  { split; [| split; [done | cbn; rewrite Hl; by vm_compute]]. split; [by vm_compute |]. split; [done |].
    split; [cbn; apply Hsig | apply compute_tag_arr]. }
  rewrite Frame_encode_ok by (cbn; rewrite Hl; by vm_compute). cbn [map_err rbind app]. intros [= <-].
  assert (Hlen : len (frame_wire r) = 97) by (rewrite len_frame_wire by apply Hwf; cbn; rewrite Hl; done).
  split; [done |]. split; [unfold parse_signature; by rewrite Hlen |].
  exists body. unfold verify_challenge_frame, bond_key_array. rewrite Ek. cbn [rbind].
  rewrite Frame_decode_wire by done. cbn [map_err rbind]. rewrite Frame_body_ok by apply Hwf. cbn [map_err rbind].
  unfold verify_tag, ct_eq. by rewrite bool_decide_true.
Qed.
End agreement.

(** ** The derivations of the two sides *)

Lemma digits_length fuel n rest k :
  0 <= n < 10 ^ Z.of_nat (S k) -> (length (digits fuel n rest) <= S k + length rest)%nat.
Proof.
  revert n rest k. induction fuel as [|fuel IH]; intros n rest k Hn; cbn [digits]; [lia |].
  destruct (Z.eqb_spec (n / 10) 0) as [|Hd]; [cbn; lia |].
  destruct k as [|k].
  { destruct Hd. apply Z.div_small. change (10 ^ Z.of_nat 1) with 10 in Hn. lia. }
  etransitivity; [apply (IH _ _ k) | cbn; lia].
  rewrite Nat2Z.inj_succ, Z.pow_succ_r in Hn by lia.
  split; [apply Z.div_pos; lia | apply Z.div_lt_upper_bound; lia].
Qed.

Lemma digits_digits fuel n rest :
  Forall (fun c => 48 <= c <= 57) rest -> Forall (fun c => 48 <= c <= 57) (digits fuel n rest).
Proof.
  revert n rest. induction fuel as [|fuel IH]; intros n rest Hr; cbn [digits]; [done |].
  assert (Hd : Forall (fun c => 48 <= c <= 57) ((48 + n mod 10) :: rest)).
  { constructor; [pose proof (Z.mod_pos_bound n 10); lia | done]. }
  destruct (_ =? 0); [done | by apply IH].
Qed.

Lemma zero_padded_spec n :
  0 <= n < OOB_CODE_SPACE -> len (zero_padded OOB_CODE_DIGITS n) = OOB_CODE_DIGITS /\
  Forall (fun c => 48 <= c <= 57) (zero_padded OOB_CODE_DIGITS n).
Proof.
  intros Hn. assert (Hl : (length (decimal n) <= 8)%nat).
  { etransitivity; [apply (digits_length _ n [] 7) |]; [done | cbn; lia]. }
  unfold zero_padded, len. rewrite length_app, length_replicate. unfold OOB_CODE_DIGITS. split; [lia |].
  apply Forall_app. split; [by apply Forall_replicate | apply digits_digits; constructor].
Qed.

(** For every bond key of 32 bytes the phone scans for the very UUID the daemon
    advertises, in every minute, and shows the very number the desktop shows, which is
    eight decimal digits; any other key is refused. *)
Theorem derivations_agree `{HK : Hkdf, !HkdfLaws HK} key minute :
  (len key = BOND_KEY_BYTES ->
     session_uuid_for_bond key minute = Ok (session_uuid_for key minute) /\
     oob_code_for_bond key = Ok (cli_oob_code_for_bond key) /\
     len (cli_oob_code_for_bond key) = OOB_CODE_DIGITS /\
     Forall (fun c => 48 <= c <= 57) (cli_oob_code_for_bond key)) /\
  (len key <> BOND_KEY_BYTES -> session_uuid_for_bond key minute = Err InvalidKey /\ oob_code_for_bond key = Err InvalidKey).
Proof.
  unfold session_uuid_for_bond, oob_code_for_bond, cli_oob_code_for_bond, session_uuid_for, bond_key_array. split.
  - intros Hk. rewrite Hk, Z.eqb_refl. cbn [negb rbind].
    destruct (hkdf_expands None key (SESSION_INFO_V1 ++ to_be_bytes 8 minute) SESSION_UUID_BYTES_MOBILE)
      as (u & Hu & _); [by vm_compute |].
    destruct (hkdf_expands None key HKDF_INFO_OOB_V1 OOB_CODE_BYTES) as (o & Ho & _); [by vm_compute |].
    change HKDF_INFO_SESSION_V1 with SESSION_INFO_V1. change SESSION_UUID_BYTES with SESSION_UUID_BYTES_MOBILE.
    change (lit "syauth-oob-v1") with HKDF_INFO_OOB_V1. change OOB_HKDF_BYTES with OOB_CODE_BYTES. rewrite Hu, Ho.
    split; [done |]. split; [done |]. apply zero_padded_spec. by apply Z.mod_pos_bound.
  - intros Hk. change MOBILE_BOND_KEY_LEN with BOND_KEY_BYTES. by destruct (Z.eqb_spec (len key) BOND_KEY_BYTES).
Qed.

(** ** The stored transaction *)

(** The states no call can continue from: an aborted transaction, and one that
    announced its capability before the peer's arrived. *)
Definition dead (t : Transaction) : bool := is_aborted (phase t) || bool_decide (offered_first t).

Lemma restore_stored i r evs :
  arr 16 i -> let t := run (Transaction_new i r) evs in
  Transaction_restore (Transaction_serialize t) =
    if is_aborted (phase t) then Err Incompatible
    else if bool_decide (offered_first t) then Err InvalidTransition else Ok t.
Proof.
  intros Hi t. rewrite Transaction_restore_serialize by (unfold t; rewrite run_id; by apply arr_len).
  rewrite inv_validate by apply inv_run, inv_new. fold t.
  destruct (is_aborted (phase t)); [done |].
  destruct (decide (offered_first t)) as [Ho|Ho]; [by rewrite bool_decide_true | by rewrite bool_decide_false].
Qed.

Definition stored (x : Transaction * result unit TransactionError) : result (list Z) MobileError :=
  match x with (t, Ok _) => Ok (Transaction_serialize t) | (_, Err _) => Err BadFrame end.

(** The stored bytes stand for the transaction: on the serialization of any
    transaction that local facts, messages and status responses can lead to, each call
    does what the state machine does and stores its result, a refused call changing
    nothing; except that an aborted transaction and one that announced its capability
    first answer every call with an error, so the phase 7 is never reported. *)
Theorem mobile_api_exact i r evs code message n :
  arr 16 i ->
  let t := run (Transaction_new i r) evs in
  let s := Transaction_serialize t in
  if dead t then
    pair_transaction_apply_local s code = Err BadFrame /\ pair_transaction_apply_remote s message = Err BadFrame /\
    pair_transaction_restore s = Err BadFrame /\ pair_transaction_phase s = Err BadFrame
  else
    pair_transaction_apply_local s code =
      match local_event code with Some ev => stored (Transaction_local t ev) | None => Err BadFrame end /\
    pair_transaction_apply_remote s message =
      match Message_decode message with Ok m => stored (Transaction_remote t m) | Err _ => Err BadFrame end /\
    pair_transaction_restore s = Ok s /\
    (exists c, pair_transaction_phase s = Ok c /\ c <> 7) /\
    (0 <= n -> forall response, StatusMessage_decode message = Ok response ->
       pair_transaction_apply_status s message n =
         match s_state response, Transaction_apply_status_response t response n with
         | Some _, (t', Ok _) => Ok (Transaction_serialize t')
         | _, _ => Err BadFrame
         end).
Proof.
  intros Hi t s. pose proof (restore_stored i r evs Hi) as Hr. cbv zeta in Hr. fold t in Hr. fold s in Hr. unfold dead.
  unfold pair_transaction_apply_local, pair_transaction_apply_remote, pair_transaction_restore, pair_transaction_phase,
    pair_transaction_apply_status. rewrite Hr.
  destruct (is_aborted (phase t)) eqn:Ea; cbn [orb]; [done |].
  destruct (bool_decide (offered_first t)); [done |]. cbn [map_err rbind]. split_and!.
  - destruct (local_event code) as [ev|]; [| done]. cbn [ok_or rbind]. by destruct (Transaction_local t ev) as [t' []].
  - destruct (Message_decode message) as [m|]; [| done]. cbn [map_err rbind]. by destruct (Transaction_remote t m) as [t' []].
  - done.
  - eexists. split; [reflexivity |]. by destruct (phase t).
  - intros Hn response Hd. rewrite (proj2 (Z.ltb_ge n 0) Hn), Hd. cbn [map_err rbind].
    destruct (s_state response); [| done]. by destruct (Transaction_apply_status_response t response n) as [t' []].
Qed.

(** ** Reading an invite *)

Lemma split_pair_app key k v :
  Forall (fun c => c <> 61) k -> split_pair key (k ++ 61 :: v) = (key ++ k, v).
Proof.
  revert key. induction k as [|c k IH]; intros key Hk; [by rewrite app_nil_r |].
  apply Forall_cons in Hk as [Hc Hk]. cbn [split_pair app]. destruct (Z.eqb_spec c 61); [done |].
  rewrite IH by done. by rewrite <- app_assoc.
Qed.

(** An invite in the canonical form is read back, an [=] in the host's name
    included. *)
Theorem invite_roundtrip `{Hex} host hex key :
  host <> [] -> Forall (fun c => c <> 38) host -> Forall (fun c => c <> 38) hex ->
  hex_to_bytes hex = Some key -> len key = INVITE_PUBKEY_LEN ->
  parse_invite_uri (lit "syauth://invite?host=" ++ host ++ lit "&pubkey=" ++ hex) = Ok (mkInvite host key).
Proof.
  intros Hne Hh Hx Hk Hl. unfold parse_invite_uri.
  change (lit "syauth://invite?host=") with (INVITE_URI_SCHEME ++ INVITE_URI_HOST_PATH ++ lit "host=").
  rewrite <- !app_assoc, strip_prefix_app. cbn [ok_or rbind]. rewrite strip_prefix_app. cbn [ok_or rbind].
  change (lit "&pubkey=" ++ hex) with (38 :: lit "pubkey=" ++ hex).
  rewrite (app_assoc (lit "host=")), split_piece; cycle 1.
  { apply Forall_app. split; [| done]. by repeat constructor. }
  rewrite split_end; cycle 1.
  { apply Forall_app. split; [| done]. by repeat constructor. }
  assert (H1 : split_pair [] (lit "host=" ++ host) = (INVITE_QUERY_KEY_HOST, host)).
  { change (lit "host=" ++ host) with (INVITE_QUERY_KEY_HOST ++ 61 :: host). apply (split_pair_app []). by repeat constructor. }
  assert (H2 : split_pair [] (lit "pubkey=" ++ hex) = (INVITE_QUERY_KEY_PUBKEY, hex)).
  { change (lit "pubkey=" ++ hex) with (INVITE_QUERY_KEY_PUBKEY ++ 61 :: hex). apply (split_pair_app []). by repeat constructor. }
  assert (Hscan : scan_pairs None None [lit "host=" ++ host; lit "pubkey=" ++ hex] = Ok (Some host, Some hex)).
  { unfold scan_pairs. cbv iota. fold (lit "host=" ++ host). rewrite H1. rewrite bool_decide_true by done.
    destruct host as [|c host]; [done |]. cbv iota. by rewrite H2. }
  rewrite Hscan. cbn [rbind fst snd ok_or]. rewrite Hk. cbn [ok_or rbind]. by rewrite Hl.
Qed.

(** ** Samples *)

Section samples.
Import ToyCrypto ToyCrates ToyDaemon.

#[local] Instance toy_seed : Ed25519Seed := {| SigningKey_from_bytes l := byte_at l 0 =? 1 |}.

Definition phone_seed : list Z := replicate 32 1.
Definition phone_peer : PeerState := mkPeerState (pubkey phone_bond) phone_key O.

Lemma phone_answer_accepted_witness :
  exists sig, sign_challenge_response phone_seed (frame_wire (challenge_frame phone_peer phone_nonce)) =
      Ok (Signature_to_bytes sig) /\
    signed_by_phone phone_peer phone_nonce (Signature_to_bytes sig) sig.
Proof.
  destruct (phone_answer_accepted (Blake3Laws0 := toy_blake3_laws) (Ed25519Laws0 := toy_ed25519_laws)
    phone_peer phone_nonce phone_seed) as [(sig & _ & Hs & Hp) _];
    [decide_now | reflexivity | reflexivity | vm_compute; reflexivity |].
  exists sig. split; [exact Hs | exact Hp].
Defined.

Definition phone_signer (m : list Z) : list Z := Signature_to_bytes (@ed_sign toy_ed25519 true m).
Notation framed_answer :=
  (match build_response_frame phone_key phone_signer phone_nonce (frame_wire (challenge_frame phone_peer phone_nonce)) with
   | Ok out => out | Err _ => [] end).

Lemma response_frame_refused_witness : len framed_answer = 97 /\ parse_signature framed_answer = None.
Proof.
  destruct (response_frame_refused (Blake3Laws0 := toy_blake3_laws) phone_key phone_signer phone_nonce
    (frame_wire (challenge_frame phone_peer phone_nonce)) framed_answer) as (Hl & Hp & _);
    [decide_now | intros m; apply (@signature_arr _ toy_ed25519_laws) | vm_compute; reflexivity |].
  split; [exact Hl | exact Hp].
Defined.

Lemma derivations_agree_witness :
  oob_code_for_bond phone_key = Ok (cli_oob_code_for_bond phone_key) /\ len (cli_oob_code_for_bond phone_key) = 8.
Proof.
  destruct (derivations_agree (HkdfLaws0 := toy_hkdf_laws) phone_key 28333333) as [Hk _].
  destruct Hk as (_ & Ho & Hl & _); [reflexivity |]. split; [exact Ho | exact Hl].
Defined.

(** The phone announces its capability before the desktop's arrived. *)
Lemma mobile_api_exact_witness :
  let s := Transaction_serialize (run (Transaction_new (replicate 16 7) Participant) [EvLocal LCapability]) in
  pair_transaction_apply_local s 1 = Err BadFrame /\ pair_transaction_phase s = Err BadFrame.
Proof.
  destruct (mobile_api_exact (replicate 16 7) Participant [EvLocal LCapability] 1 [] 0) as (Hl & _ & _ & Hp);
    [decide_now |]. split; [exact Hl | exact Hp].
Defined.
End samples.
