(* ===== verification/Lock.v ===== *)
(** * The pid file

    Models crates/syauth-presenced/src/lock.rs: [PidFileLock::acquire] and its drop,
    by several processes at once, one system call at a time.  What matters is which
    inode a descriptor refers to: the lock of [fcntl(F_OFD_SETLK)] belongs to the
    inode of the open file, while [unlink] removes whatever the path names now.  The
    directory part ([ensure_parent_dir]) runs on the file system of Fs.v. *)

From stdpp Require Import prelude list gmap strings.
From Stdlib Require Import ZArith Lia.
From S2P Require Import Prelude Fs AuditTrail.

Definition PIDFILE_MODE : Z := 384.
Definition PIDFILE_DIR_MODE : Z := 448.

Inductive LockError := AlreadyRunning | LockParentDir | LockOpen | LockFcntl | LockWrite.

#[global] Instance LockError_eq_dec : EqDecision LockError.
Proof. solve_decision. Defined.

(** ** The directory *)

Section directory.
Context `{Umask}.

Definition pid_parent_dir (p : path) : io (result unit LockError) :=
  match parent p with
  | Some (c :: d) =>
      let!? _ := imap_err (fun _ => LockParentDir) (fs_create_dir_all (c :: d)) in
      let! meta := fs_metadata (c :: d) in
      match meta with
      | Ok (_, mode) =>
          if negb (Z.land mode 511 =? PIDFILE_DIR_MODE)
          then let! _ := fs_set_permissions (c :: d) PIDFILE_DIR_MODE in iret (Ok tt)
          else iret (Ok tt)
      | Err _ => iret (Ok tt)
      end
  | _ => iret (Ok tt)
  end.
End directory.

(** ** Processes *)

(** The file of an inode: its text, and the process whose open file holds the
    lock. *)
Record inode := mkInode { text : str; owner : option nat }.

(** Where a process is in [acquire] and [drop]; [i] is the inode of its
    descriptor. *)
Inductive pc :=
| Idle
| Opened (i : nat)
| Locked (i : nat)
| Truncated (i : nat)
| Holding (i : nat)
| Unlinked (i : nat)
| Ended (e : option LockError).

#[global] Instance pc_eq_dec : EqDecision pc.
Proof. solve_decision. Defined.

(** The directory entry of the pid file, the inodes made so far, the processes. *)
Record Host := mkHost { entry : option nat; inodes : list inode; procs : nat -> pc }.

Definition host_start : Host := mkHost None [] (fun _ => Idle).

(** [write_pid]: the process number and a newline. *)
Definition pid_line (p : nat) : str := decimal (Z.of_nat p) ++ [10].

Definition at_pc (p : nat) (x : pc) (s : Host) : Host :=
  mkHost (entry s) (inodes s) (fun q => if decide (q = p) then x else procs s q).

Definition on_inode (i : nat) (f : inode -> inode) (s : Host) : Host :=
  mkHost (entry s) (alter f i (inodes s)) (procs s).

Definition set_owner (o : option nat) (x : inode) : inode := mkInode (text x) o.
Definition set_text (t : str) (x : inode) : inode := mkInode t (owner x).

(** Closing the last descriptor of the open file releases its lock. *)
Definition release (p i : nat) (s : Host) : Host :=
  on_inode i (fun x => if decide (owner x = Some p) then set_owner None x else x) s.

Definition descriptor (x : pc) : option nat :=
  match x with
  | Opened i | Locked i | Truncated i | Holding i | Unlinked i => Some i
  | Idle | Ended _ => None
  end.

(** The end of a process: its descriptor is closed. *)
Definition end_with (e : option LockError) (p : nat) (s : Host) : Host :=
  at_pc p (Ended e) match descriptor (procs s p) with Some i => release p i s | None => s end.

(** One system call of process [p] ([ok]: it does not fail for an outside reason), or
    the moment it is killed. *)
Inductive call := Run (ok : bool) | Kill.

Definition host_step (s : Host) (c : nat * call) : Host :=
  let '(p, k) := c in
  match k with
  | Kill => end_with None p s
  | Run ok =>
      match procs s p with
      | Idle =>
          if negb ok then end_with (Some LockOpen) p s
          else match entry s with
               | Some i => at_pc p (Opened i) s
               | None =>
                   let i := length (inodes s) in
                   at_pc p (Opened i) (mkHost (Some i) (inodes s ++ [mkInode [] None]) (procs s))
               end
      | Opened i =>
          if negb ok then end_with (Some LockFcntl) p s
          else match inodes s !! i with
               | Some (mkInode _ None) => at_pc p (Locked i) (on_inode i (set_owner (Some p)) s)
               | _ => end_with (Some AlreadyRunning) p s
               end
      | Locked i =>
          if negb ok then end_with (Some LockWrite) p s
          else at_pc p (Truncated i) (on_inode i (set_text []) s)
      | Truncated i =>
          if negb ok then end_with (Some LockWrite) p s
          else at_pc p (Holding i) (on_inode i (set_text (pid_line p)) s)
      | Holding i =>
          at_pc p (Unlinked i) (if ok then mkHost None (inodes s) (procs s) else s)
      | Unlinked _ => end_with None p s
      | Ended _ => s
      end
  end.

Definition host_run (s : Host) (cs : list (nat * call)) : Host := foldl host_step s cs.

(** The process has acquired the lock and not begun to give it up. *)
Definition holds_lock (s : Host) (p : nat) : Prop := exists i, procs s p = Holding i.

(** ** The invariant *)

(** The inode a process has locked. *)
Definition locks (x : pc) : option nat :=
  match x with
  | Locked i | Truncated i | Holding i | Unlinked i => Some i
  | Idle | Opened _ | Ended _ => None
  end.

Record host_inv (s : Host) : Prop := mkHostInv {
  hi_entry : forall i, entry s = Some i -> is_Some (inodes s !! i);
  hi_open : forall p i, descriptor (procs s p) = Some i -> is_Some (inodes s !! i);
  hi_owner : forall p i, locks (procs s p) = Some i <-> exists x, inodes s !! i = Some x /\ owner x = Some p;
}.

Lemma at_pc_same p x s : procs (at_pc p x s) p = x.
Proof. cbn. by rewrite decide_True. Qed.
Lemma at_pc_other p q x s : q <> p -> procs (at_pc p x s) q = procs s q.
Proof. intros Hq. cbn. by rewrite decide_False. Qed.

Lemma host_start_inv : host_inv host_start.
Proof. split; cbn; [done | done |]. intros p i. split; [done | by intros (x & ? & _)]. Qed.

(** A step of one process: its new place, a change of the owners that concerns it
    alone, inodes that stay. *)
Lemma step_inv s s' p :
  host_inv s ->
  (forall i, is_Some (inodes s !! i) -> is_Some (inodes s' !! i)) ->
  (forall i, entry s' = Some i -> is_Some (inodes s' !! i)) ->
  (forall q, q <> p -> procs s' q = procs s q) ->
  (forall i, descriptor (procs s' p) = Some i -> is_Some (inodes s' !! i)) ->
  (forall q i, q <> p -> (exists x, inodes s' !! i = Some x /\ owner x = Some q) <-> exists x, inodes s !! i = Some x /\ owner x = Some q) ->
  (forall i, locks (procs s' p) = Some i <-> exists x, inodes s' !! i = Some x /\ owner x = Some p) ->
  host_inv s'.
Proof.
  intros [He Ho Hw] Hkeep Hentry Hq Hopen Howner Hmine. split; [done | |].
  - intros q i. destruct (decide (q = p)) as [->|Hn]; [apply Hopen |]. rewrite Hq by done. intros Hd. apply Hkeep. by eapply Ho.
  - intros q i. destruct (decide (q = p)) as [->|Hn]; [apply Hmine |]. rewrite Hq, Howner by done. apply Hw.
Qed.

Lemma alter_some i j f (l : list inode) : is_Some (alter f i l !! j) <-> is_Some (l !! j).
Proof. unfold is_Some. destruct (decide (i = j)) as [->|Hn]; [rewrite list_lookup_alter_eq | by rewrite list_lookup_alter_ne].
  destruct (l !! j); cbn; naive_solver. Qed.

(** Owners after a change of one inode. *)
Lemma alter_owner i j f (l : list inode) (o : nat) :
  (exists x, alter f i l !! j = Some x /\ owner x = Some o) <->
  exists x, l !! j = Some x /\ owner (if decide (i = j) then f x else x) = Some o.
Proof.
  destruct (decide (i = j)) as [->|Hn]; [rewrite list_lookup_alter_eq | by rewrite list_lookup_alter_ne].
  destruct (l !! j); cbn; naive_solver.
Qed.

Lemma locks_descriptor x i : locks x = Some i -> descriptor x = Some i.
Proof. by destruct x. Qed.

Lemma end_with_inv e p s : host_inv s -> host_inv (end_with e p s).
Proof.
  intros Hs. pose proof Hs as [He Ho Hw]. unfold end_with. destruct (descriptor (procs s p)) as [i|] eqn:Ed.
  - apply (step_inv s _ p Hs); cbn [at_pc release on_inode entry inodes procs].
    + intros j. by rewrite alter_some.
    + intros j Hj. rewrite alter_some. by apply He.
    + intros q Hq. by rewrite decide_False.
    + intros j. by rewrite decide_True.
    + intros q j Hq. rewrite alter_owner.
      split; intros (x & Hx & Hox); exists x; (split; [done |]); destruct (decide (i = j)); try done;
        destruct (decide (owner x = Some p)); cbn in *; congruence.
    + intros j. rewrite decide_True by done. split; [done |]. intros (x & Hx & Hox)%alter_owner.
      destruct (decide (i = j)) as [->|Hn]; [by destruct (decide (owner x = Some p)) |].
      assert (Hl : locks (procs s p) = Some j) by (apply Hw; by exists x).
      apply locks_descriptor in Hl. congruence.
  - apply (step_inv s _ p Hs); cbn [at_pc entry inodes procs]; try done.
    + intros q Hq. by rewrite decide_False.
    + intros j. by rewrite decide_True.
    + intros j. rewrite decide_True by done. split; [done |]. intros Hx. apply Hw, locks_descriptor in Hx. congruence.
Qed.

(** A call that moves a process on without touching owners. *)
Lemma move_inv p x t i s :
  host_inv s -> descriptor (procs s p) = Some i -> descriptor x = Some i -> locks x = locks (procs s p) ->
  host_inv (at_pc p x (on_inode i (set_text t) s)).
Proof.
  intros Hs Hd Hx Hl. pose proof Hs as [He Ho Hw].
  assert (Hown : forall q j, (exists y, alter (set_text t) i (inodes s) !! j = Some y /\ owner y = Some q) <->
    exists y, inodes s !! j = Some y /\ owner y = Some q).
  { intros q j. rewrite alter_owner. by destruct (decide (i = j)). }
  apply (step_inv s _ p Hs); cbn [at_pc on_inode entry inodes procs].
  - intros j. by rewrite alter_some.
  - intros j Hj. rewrite alter_some. by apply He.
  - intros q Hq. by rewrite decide_False.
  - intros j. rewrite decide_True by done. rewrite Hx. intros [= <-]. rewrite alter_some. by eapply Ho.
  - intros q j _. apply Hown.
  - intros j. rewrite decide_True, Hl, Hown by done. apply Hw.
Qed.

Lemma host_step_inv s c : host_inv s -> host_inv (host_step s c).
Proof.
  intros Hs. pose proof Hs as [He Ho Hw]. destruct c as [p [ok|]]; cbn; [| by apply end_with_inv].
  destruct (procs s p) as [|i|i|i|i|i|e] eqn:Ep; [| | | | | by apply end_with_inv | done];
    try (destruct ok; cbn [negb]; [| by apply end_with_inv]).
  - destruct (entry s) as [i|] eqn:Ee.
    + apply (step_inv s _ p Hs); cbn [at_pc entry inodes procs]; try done; [by rewrite Ee | | |].
      * intros q Hq. by rewrite decide_False.
      * intros j. rewrite decide_True by done. intros [= <-]. by apply He.
      * intros j. rewrite decide_True by done. rewrite <- Hw, Ep. done.
    + assert (Hown : forall q j, (exists x, (inodes s ++ [mkInode [] None]) !! j = Some x /\ owner x = Some q) <->
        exists x, inodes s !! j = Some x /\ owner x = Some q).
      { intros q j. split; intros (x & Hx & Hq); [| exists x; split; [by apply lookup_app_l_Some | done]].
        apply lookup_app_Some in Hx as [Hx|[_ Hx]]; [by exists x |].
        apply list_lookup_singleton_Some in Hx as [_ <-]. done. }
      apply (step_inv s _ p Hs); cbn [at_pc entry inodes procs].
      * intros j [x Hx]. exists x. by apply lookup_app_l_Some.
      * intros j [= <-]. rewrite list_lookup_middle by done. by eexists.
      * intros q Hq. by rewrite decide_False.
      * intros j. rewrite decide_True by done. intros [= <-]. rewrite list_lookup_middle by done. by eexists.
      * intros q j _. apply Hown.
      * intros j. rewrite decide_True, Hown, <- Hw, Ep by done. done.
  - destruct (inodes s !! i) as [[t [o|]]|] eqn:Ei; [by apply end_with_inv | | by apply end_with_inv].
    apply (step_inv s _ p Hs); cbn [at_pc on_inode entry inodes procs].
    + intros j. by rewrite alter_some.
    + intros j Hj. rewrite alter_some. by apply He.
    + intros q Hq. by rewrite decide_False.
    + intros j. rewrite decide_True by done. intros [= <-]. rewrite alter_some. by eexists.
    + intros q j Hq. rewrite alter_owner. destruct (decide (i = j)) as [<-|]; [| done]. rewrite Ei.
      split; intros (x & [= <-] & Hx); cbn in *; congruence.
    + intros j. rewrite decide_True, alter_owner by done. cbn [locks]. destruct (decide (i = j)) as [<-|Hn].
      * split; [by eexists | done].
      * rewrite <- Hw, Ep. split; [by intros [= ->] | done].
  - apply (move_inv p _ _ i s Hs); by rewrite ?Ep.
  - apply (move_inv p _ _ i s Hs); by rewrite ?Ep.
  - assert (Hu : forall e, (forall j, e = Some j -> is_Some (inodes s !! j)) ->
      host_inv (at_pc p (Unlinked i) (mkHost e (inodes s) (procs s)))).
    { intros e Hent. apply (step_inv s _ p Hs); cbn [at_pc entry inodes procs]; try done.
      - intros q Hq. by rewrite decide_False.
      - intros j. rewrite decide_True by done. intros [= <-]. apply (Ho p). by rewrite Ep.
      - intros j. rewrite decide_True by done. rewrite <- Hw, Ep. done. }
    destruct ok; [by apply Hu |]. by apply (Hu (entry s)).
Qed.

Lemma host_reachable cs : host_inv (host_run host_start cs).
Proof.
  unfold host_run. induction cs as [|c cs IH] using rev_ind; [apply host_start_inv |].
  rewrite foldl_app. by apply host_step_inv.
Qed.

(** ** Properties *)

(** The run of the processes up to here: none of those that hold the lock shuts
    down cleanly (they may be killed). *)
Definition nobody_leaves (cs : list (nat * call)) : Prop :=
  forall pre p ok post, cs = pre ++ (p, Run ok) :: post -> ~ holds_lock (host_run host_start pre) p.

Definition one_file (s : Host) : Prop :=
  (entry s = None /\ inodes s = []) \/ (entry s = Some O /\ length (inodes s) = 1%nat).

Lemma end_with_one_file e p s : one_file s -> one_file (end_with e p s).
Proof.
  unfold end_with, one_file. destruct (descriptor (procs s p)); cbn; [| done].
  intros [[-> ->]|[-> Hl]]; [by left | right; by rewrite length_alter].
Qed.

Lemma host_step_one_file s p k :
  (forall ok, k = Run ok -> ~ holds_lock s p) -> one_file s -> one_file (host_step s (p, k)).
Proof.
  intros Hh Ho. destruct k as [ok|]; cbn; [| by apply end_with_one_file].
  specialize (Hh ok eq_refl). destruct (procs s p) as [|i|i|i|i|i|e] eqn:Ep;
    [| | | | destruct Hh; by exists i | by apply end_with_one_file | done];
    (destruct ok; cbn [negb]; [| by apply end_with_one_file]).
  - destruct Ho as [[He Hi]|[He Hi]]; rewrite He; [right; cbn; by rewrite Hi | right; done].
  - destruct (inodes s !! i) as [[t [o|]]|]; [by apply end_with_one_file | | by apply end_with_one_file].
    unfold one_file. cbn. rewrite length_alter. destruct Ho as [[-> ->]|?]; [by left | by right].
  - unfold one_file. cbn. rewrite length_alter. destruct Ho as [[-> ->]|?]; [by left | by right].
  - unfold one_file. cbn. rewrite length_alter. destruct Ho as [[-> ->]|?]; [by left | by right].
Qed.

Lemma nobody_leaves_one_file cs : nobody_leaves cs -> one_file (host_run host_start cs).
Proof.
  unfold host_run. induction cs as [|[p k] cs IH] using rev_ind; [by left |]. intros Hn. rewrite foldl_app. cbn [foldl].
  apply host_step_one_file.
  - intros ok ->. by apply (Hn cs p ok []).
  - apply IH. intros pre q ok post ->. apply (Hn pre q ok (post ++ [(p, k)])). by rewrite <- app_assoc.
Qed.

(** While no daemon shuts down cleanly, at most one process holds the lock,
    whatever other processes try and whichever are killed at whatever call. *)
Theorem pid_lock_single cs p q :
  nobody_leaves cs -> holds_lock (host_run host_start cs) p -> holds_lock (host_run host_start cs) q -> p = q.
Proof.
  intros Hn [i Hi] [j Hj]. destruct (host_reachable cs) as [_ Hopen Hown].
  assert (Hp := Hown p i). assert (Hq := Hown q j). rewrite Hi in Hp. rewrite Hj in Hq. cbn in Hp, Hq.
  destruct (proj1 Hp eq_refl) as (x & Hx & Hxo). destruct (proj1 Hq eq_refl) as (y & Hy & Hyo).
  destruct (nobody_leaves_one_file cs Hn) as [[_ Hnil]|[_ Hone]]; [by rewrite Hnil in Hx |].
  apply lookup_lt_Some in Hx as Hli. apply lookup_lt_Some in Hy as Hlj.
  assert (i = j) as <- by lia. congruence.
Qed.

(** The calls after the file is open, on an inode nobody has locked. *)
Lemma acquire_rest p i t s :
  procs s p = Opened i -> inodes s !! i = Some (mkInode t None) -> entry s = Some i ->
  exists x, let s' := host_run s (replicate 3 (p, Run true)) in
    procs s' p = Holding i /\ inodes s' !! i = Some x /\ text x = pid_line p /\ entry s' = Some i.
Proof.
  intros H1 H2 H3. eexists. cbn [replicate host_run foldl].
  assert (E1 : host_step s (p, Run true) = at_pc p (Locked i) (on_inode i (set_owner (Some p)) s)) by (cbn; by rewrite H1, H2).
  rewrite E1. set (s1 := at_pc p (Locked i) _).
  assert (E2 : host_step s1 (p, Run true) = at_pc p (Truncated i) (on_inode i (set_text []) s1))
    by (assert (P1 : procs s1 p = Locked i) by apply at_pc_same; cbn [host_step]; by rewrite P1).
  rewrite E2. set (s2 := at_pc p (Truncated i) _).
  assert (E3 : host_step s2 (p, Run true) = at_pc p (Holding i) (on_inode i (set_text (pid_line p)) s2))
    by (assert (P2 : procs s2 p = Truncated i) by apply at_pc_same; cbn [host_step]; by rewrite P2).
  rewrite E3, at_pc_same. split; [done |]. cbn. rewrite !list_lookup_alter_eq, H2. cbn. by rewrite H3.
Qed.

(** No crash leaves a lock behind: once every other process is gone, however it
    ended, a process that starts acquires the lock with its four calls and its number is
    in the file the path names. *)
Theorem pid_lock_restart cs p :
  let s := host_run host_start cs in
  procs s p = Idle -> (forall q, q <> p -> locks (procs s q) = None) ->
  exists i x, let s' := host_run s (replicate 4 (p, Run true)) in
    procs s' p = Holding i /\ inodes s' !! i = Some x /\ text x = pid_line p /\ entry s' = Some i.
Proof.
  intros s Hp Hq. pose proof (host_reachable cs) as [He _ Hw]. fold s in He, Hw.
  assert (Hfree : forall i x, inodes s !! i = Some x -> owner x = None).
  { intros i x Hx. destruct (owner x) as [o|] eqn:Eo; [| done].
    assert (Hl : locks (procs s o) = Some i) by (apply Hw; by exists x).
    destruct (decide (o = p)) as [->|Hn]; [by rewrite Hp in Hl | by rewrite Hq in Hl]. }
  change (replicate 4 (p, Run true)) with ((p, Run true) :: replicate 3 (p, Run true)). cbn [host_run foldl].
  destruct (entry s) as [i|] eqn:Ee.
  - destruct (He i eq_refl) as [[t o] Hx]. pose proof (Hfree i _ Hx) as Hno. cbn in Hno. subst o.
    assert (Hstep : host_step s (p, Run true) = at_pc p (Opened i) s) by (cbn; by rewrite Hp, Ee).
    exists i. rewrite Hstep. apply (acquire_rest p i t); [apply at_pc_same | done | done].
  - set (s1 := mkHost (Some (length (inodes s))) (inodes s ++ [mkInode [] None]) (procs s)).
    assert (Hstep : host_step s (p, Run true) = at_pc p (Opened (length (inodes s))) s1) by (cbn; by rewrite Hp, Ee).
    exists (length (inodes s)). rewrite Hstep.
    apply (acquire_rest p _ []); [apply at_pc_same | by apply list_lookup_middle | done].
Qed.

(** A clean shutdown breaks the exclusion: a process that opened the file before the
    holder unlinks it locks the unlinked inode, and the next one makes a new file, so
    that two daemons hold the lock at once. *)
Theorem pid_lock_race :
  exists cs p q, p <> q /\ holds_lock (host_run host_start cs) p /\ holds_lock (host_run host_start cs) q.
Proof.
  exists (replicate 4 (0, Run true) ++ [(1, Run true)] ++ replicate 2 (0, Run true) ++ replicate 3 (1, Run true) ++
    replicate 4 (2, Run true))%nat, 1%nat, 2%nat.
  split; [done |]. split; [exists 0%nat | exists 1%nat]; vm_compute; reflexivity.
Qed.

(** ** Samples *)

Lemma pid_lock_single_witness :
  let cs := replicate 4 (0, Run true)%nat ++ [(1, Run true); (1, Run true); (2, Kill)]%nat in
  holds_lock (host_run host_start cs) 0 /\ ~ holds_lock (host_run host_start cs) 1.
Proof.
  set (cs := _ ++ _). split; [exists 0%nat; vm_compute; reflexivity |]. intros H1.
  discriminate (pid_lock_single cs 1 0); [| exact H1 | exists 0%nat; vm_compute; reflexivity].
  intros pre p ok post Hc [i Hi]. unfold cs in Hc. cbn [replicate app] in Hc.
  do 8 (destruct pre as [|c pre]; [first [discriminate Hc | injection Hc as <- <- <-; vm_compute in Hi; discriminate Hi] | try discriminate Hc; injection Hc as <- Hc]).
Defined.

(** The first daemon is killed while it writes its number. *)
Lemma pid_lock_restart_witness :
  let s := host_run host_start [(0, Run true); (0, Run true); (0, Run true); (0, Kill)]%nat in
  procs (host_run s (replicate 4 (1%nat, Run true))) 1 = Holding 0.
Proof.
  intros s. destruct (pid_lock_restart [(0, Run true); (0, Run true); (0, Run true); (0, Kill)]%nat 1) as (i & x & Hp & _).
  - vm_compute. reflexivity.
  - intros q Hq. vm_compute. destruct q as [|[|q]]; reflexivity.
  - fold s in Hp. rewrite Hp. vm_compute in Hp. injection Hp as <-. reflexivity.
Defined.
