(* ===== verification/Reconcile.v ===== *)
(** * Crash recovery of a pairing and revocation, from the command line

    Models crates/syauth-cli/src/reconcile.rs (the reader of the journal, the
    status exchange with the phone, the decision and what it does to the disk),
    the status exchange itself ([query_pair_status] of
    crates/syauth-transport/src/bluez.rs) and crates/syauth-cli/src/revoke.rs, on
    the files of Fs.v, Bond.v and PairRecovery.v and the transactions of
    PairTransaction.v.  The theorems say when a recovery may change the trust of
    the machine, that a pairing cut off after its commit decision is completed,
    and what a revocation leaves on disk. *)

From stdpp Require Import prelude list gmap strings.
From Stdlib Require Import ZArith Lia.
From S2P Require Import Prelude WireFrame Fs Bond PairTransaction PairRecovery PairCommit.

(** ** The status exchange *)

Definition SYAUTH_PAIR_SERVICE_UUID : Z := 0x5a4e8e3c1c4c4a179c81d518a55a0101.
Definition SYAUTH_PAIR_V2_CONTROL_CHAR_UUID : Z := 0x5a4e8e3c1c4c4a179c81d518a55a0105.
Definition SYAUTH_PAIR_V2_STATUS_CHAR_UUID : Z := 0x5a4e8e3c1c4c4a179c81d518a55a0106.

Inductive TransportError :=
| TransportTimeout
| Unreachable
| TransportClosed
| BadFrame (e : FrameError)
| WrongVersion (v : Z)
| TransportReplay
| TransportNotPaired
| TransportAdapterMissing (name : str)
| IncompleteReassembly
| TransportBackend (reason : str).

(** The radio: what a remote device shows and answers, through [bluer].  Every
    call may fail with a reason; what a characteristic reads may depend on what was
    written to another one before. *)
Record Characteristic := mkCharacteristic {
  c_uuid : result Z str;
  c_write : list Z -> result unit str;
  c_read : list Z -> result (list Z) str;
}.

Record Service := mkService {
  v_uuid : result Z str;
  v_characteristics : result (list Characteristic) str;
}.

Record Device := mkDevice {
  d_connect : result unit str;
  d_services : result (list Service) str;
}.

Definition backend (what : string) (err : str) : TransportError := TransportBackend (lit what ++ err).

(** The two characteristics found so far: control, status. *)
Definition found : Type := option Characteristic * option Characteristic.

Fixpoint scan_characteristics (cs : list Characteristic) (f : found) : result found TransportError :=
  match cs with
  | [] => Ok f
  | c :: cs =>
      let? uuid := map_err (backend "characteristic.uuid: ") (c_uuid c) in
      scan_characteristics cs
        (if uuid =? SYAUTH_PAIR_V2_CONTROL_CHAR_UUID then (Some c, f.2)
         else if uuid =? SYAUTH_PAIR_V2_STATUS_CHAR_UUID then (f.1, Some c)
         else f)
  end.

Fixpoint scan_services (ss : list Service) (f : found) : result found TransportError :=
  match ss with
  | [] => Ok f
  | s :: ss =>
      let? uuid := map_err (backend "service.uuid: ") (v_uuid s) in
      if negb (uuid =? SYAUTH_PAIR_SERVICE_UUID) then scan_services ss f
      else
        let? cs := map_err (backend "service.characteristics: ") (v_characteristics s) in
        let? f := scan_characteristics cs f in
        scan_services ss f
  end.

Definition query_pair_status (device : Device) (query : StatusMessage) : result StatusMessage TransportError :=
  let? _ := map_err (backend "device.connect: ") (d_connect device) in
  let? services := map_err (backend "device.services: ") (d_services device) in
  let? f := scan_services services (None, None) in
  let? control := ok_or f.1 Unreachable in
  let? status := ok_or f.2 Unreachable in
  let? _ := map_err (backend "status query write: ") (c_write control (StatusMessage_encode query)) in
  let? bytes := map_err (backend "status response read: ") (c_read status (StatusMessage_encode query)) in
  if negb (len bytes =? STATUS_MESSAGE_LEN) then Err (BadFrame (TooShort STATUS_MESSAGE_LEN (len bytes)))
  else map_err (fun _ => BadFrame (TooShort STATUS_MESSAGE_LEN (len bytes))) (StatusMessage_decode bytes).

(** [bluer]'s session, adapter and address parser. *)
Class Bluer := {
  bluer_adapter : str -> result unit str;
  bluer_address : str -> option str;
  bluer_device : str -> result Device str;
}.

(** ** The recovery *)

(** The reasons [ReconcileError::Transaction] is rendered from. *)
Inductive TransactionWhy :=
| WhyTransaction (e : TransactionError)
| WhyRecovery (e : RecoveryError)
| WhyQuery.

Inductive ReconcileError :=
| NoJournal
| MalformedJournal
| Transport (e : TransportError)
| TransactionRejected (why : TransactionWhy)
| ReconcileIo (k : ErrorKind)
| ReconcileBond (e : BondError).

Inductive ReconcileResult := RBonded | RAborted | RUncertain.

Section reconcile.
Context `{B3 : Blake3, CH : Chrono, TM : Toml, UM : Umask, TF : Tempfile, BL : Bluer}.

Definition hex_id (text : str) : io (result (list Z) ReconcileError) :=
  if negb (len text =? 32) then iret (Err MalformedJournal)
  else imap_err (fun _ => MalformedJournal) (hex_bytes text 16 0).

Definition authenticated_status (adapter_name address : str) (query : StatusMessage)
  : result StatusMessage ReconcileError :=
  let? _ := map_err (fun e => Transport (TransportBackend e)) (bluer_adapter adapter_name) in
  let? address := ok_or (bluer_address address) MalformedJournal in
  let? device := map_err (fun e => Transport (TransportBackend e)) (bluer_device address) in
  map_err Transport (query_pair_status device query).

Definition clear_recovery (d : path) (id : str) : io unit := discard d id.

Definition finalize (d : path) (pending : Bond) : io (result unit ReconcileError) :=
  imap_err (fun err => match err with RIo k => ReconcileIo k | other => TransactionRejected (WhyRecovery other) end)
    (promote d (peer_id pending)).

(** The [match field(&journal, "state")] of [run_reconcile]. *)
Definition local_status_of (journal : str) : result StatusState ReconcileError :=
  let s := default (lit "commit_pending") (field journal (lit "state")) in
  if bool_decide (s = lit "pre_commit") then Ok SPreCommit
  else if bool_decide (s = lit "commit_pending") then Ok SCommitPending
  else if bool_decide (s = lit "aborted") then Ok SAborted
  else Err MalformedJournal.

(** The steps on the transaction when the first reconciliation reached
    [Committed]. *)
Definition complete_commit (tx : Transaction) (remote : StatusState) : result Transaction ReconcileError :=
  if bool_decide (phase tx = Committed) then
    let '(tx, r) := Transaction_local tx LCommitted in
    let? _ := map_err (fun e => TransactionRejected (WhyTransaction e)) r in
    let '(tx, r) := Transaction_reconcile_status tx remote in
    let? _ := map_err (fun e => TransactionRejected (WhyTransaction e)) r in
    Ok tx
  else Ok tx.

Definition apply_status_decision (d : path) (pending : Bond) (tx : Transaction) (response : StatusMessage) (nonce : Z)
  : io (result ReconcileResult ReconcileError) :=
  let!? remote := iret (ok_or (s_state response) (TransactionRejected WhyQuery)) in
  let '(tx, r) := Transaction_apply_status_response tx response nonce in
  let!? _ := iret (map_err (fun e => TransactionRejected (WhyTransaction e)) r) in
  if bool_decide (remote = SUnknown) || bool_decide (phase tx = Uncertain) then iret (Ok RUncertain)
  else
    let!? tx := iret (complete_commit tx remote) in
    match phase tx with
    | Bonded =>
        let!? _ := finalize d pending in
        iret (Ok RBonded)
    | Aborted _ =>
        let! _ := clear_recovery d (peer_id pending) in
        iret (Ok RAborted)
    | _ => iret (Ok RUncertain)
    end.

(** [nonce] is what the random source gave. *)
Definition run_reconcile (adapter : str) (d : path) (nonce : Z) : io (result ReconcileResult ReconcileError) :=
  let!? journal := imap_err (fun _ => NoJournal) (fs_read_to_string (journal_path d)) in
  let!? id_text := iret (ok_or (field journal (lit "transaction_id")) MalformedJournal) in
  let!? id := hex_id id_text in
  let!? peer := iret (ok_or (field journal (lit "peer_id")) MalformedJournal) in
  let!? address := iret (ok_or (field journal (lit "peer_address")) MalformedJournal) in
  let!? store := imap_err ReconcileBond (BondStore_load (pending_bond_path d)) in
  let!? pending := iret (ok_or (head (BondStore_list store)) MalformedJournal) in
  if negb (bool_decide (peer_id pending = peer)) then iret (Err MalformedJournal)
  else
    let!? local_status := iret (local_status_of journal) in
    let!? tx := iret (map_err (fun e => TransactionRejected (WhyTransaction e))
                        (Transaction_from_recovery_status id Coordinator local_status)) in
    let!? response := iret (authenticated_status adapter address (StatusMessage_query id nonce)) in
    apply_status_decision d pending tx response nonce.

(** What the command prints is not modelled; what it returns is. *)
Definition run_reconcile_cli (adapter : str) (d : path) (nonce : Z) : io (result unit ReconcileError) :=
  let! r := run_reconcile adapter d nonce in
  match r with
  | Ok _ | Err NoJournal | Err (Transport _) => iret (Ok tt)
  | Err err => iret (Err err)
  end.
End reconcile.

(** ** The decision *)

Inductive decision := DPromote | DClear | DKeep.

(** The reference: trust is activated only when this side had decided to commit
    and the phone has committed; the staging is dropped only when this side had not
    decided and the phone aborted, or both agree that nothing was committed;
    everything else is kept for later. *)
Definition recovery_decision (local remote : StatusState) : decision :=
  match local, remote with
  | SCommitPending, SCommitted | SCommitPending, SBonded => DPromote
  | SPreCommit, SAborted | SAborted, SAborted | SAborted, SPreCommit => DClear
  | _, _ => DKeep
  end.

(** The statuses a journal can record. *)
Definition journal_status (s : StatusState) : Prop := s = SPreCommit \/ s = SCommitPending \/ s = SAborted.

Section decide.
Context `{B3 : Blake3, CH : Chrono, TM : Toml, UM : Umask, TF : Tempfile, BL : Bluer}.

Definition act (d : path) (pending : Bond) (dec : decision) : io (result ReconcileResult ReconcileError) :=
  match dec with
  | DPromote => let!? _ := finalize d pending in iret (Ok RBonded)
  | DClear => let! _ := clear_recovery d (peer_id pending) in iret (Ok RAborted)
  | DKeep => iret (Ok RUncertain)
  end.

Lemma decision_exact d pending i local tx response nonce remote w :
  journal_status local -> Transaction_from_recovery_status i Coordinator local = Ok tx ->
  s_transaction response = i -> s_nonce response = nonce -> s_state response = Some remote ->
  apply_status_decision d pending tx response nonce w = act d pending (recovery_decision local remote) w.
Proof.
  intros Hl Ht Hi Hn Hr. unfold apply_status_decision, Transaction_apply_status_response.
  rewrite Hr, Hi, Hn, Z.eqb_refl.
  destruct Hl as [-> | [-> | ->]]; injection Ht as <-; cbn [PairTransaction.id];
    rewrite bool_decide_eq_true_2 by done; by destruct remote.
Qed.

Lemma decision_mismatch d pending tx response nonce w :
  s_transaction response <> PairTransaction.id tx \/ s_nonce response <> nonce \/ s_state response = None ->
  exists why, apply_status_decision d pending tx response nonce w = (Ret (Err (TransactionRejected why)), w).
Proof.
  intros H. unfold apply_status_decision, Transaction_apply_status_response.
  destruct (s_state response) as [s|]; [| by eexists]. cbn [iret ok_or itry ibind].
  unfold itry, ibind. cbn [iret ok_or].
  assert (negb (bool_decide (s_transaction response = PairTransaction.id tx)) || negb (s_nonce response =? nonce)
    || bool_decide (Some s = None) = true) as ->.
  { case_bool_decide; [| done]. destruct (Z.eqb_spec (s_nonce response) nonce); [| done]. naive_solver. }
  by eexists.
Qed.

Lemma local_status_journal j s : local_status_of j = Ok s -> journal_status s.
Proof.
  unfold local_status_of, journal_status. repeat case_bool_decide; intros [= <-]; auto.
Qed.

(** ** What a recovery consulted before it acted *)

Definition consulted (adapter : str) (d : path) (nonce : Z) (g : fs) (local : StatusState) (pending : Bond)
    (remote : StatusState) : Prop :=
  exists journal m id_text tx addr store response,
    g !! journal_path d = Some (File journal m) /\
    field journal (lit "transaction_id") = Some id_text /\ (hex_id id_text (calm ∅)).1 = Ret (Ok tx) /\
    field journal (lit "peer_id") = Some (peer_id pending) /\
    field journal (lit "peer_address") = Some addr /\
    stored (g !! pending_bond_path d) store /\ head (bonds store) = Some pending /\
    local_status_of journal = Ok local /\
    authenticated_status adapter addr (StatusMessage_query tx nonce) = Ok response /\
    s_transaction response = tx /\ s_nonce response = nonce /\ s_state response = Some remote.

(** What each decision may have done to the disk, [r] being what was returned,
    if anything was. *)
Definition acted (d : path) (pending : Bond) (dec : decision) (g0 g : fs)
    (r : option (result ReconcileResult ReconcileError)) : Prop :=
  match dec with
  | DPromote =>
      (intact d (peer_id pending) g0 g \/ promoted d (peer_id pending) g0 g) /\
      (forall x, r = Some (Ok x) -> x = RBonded /\ promoted d (peer_id pending) g0 g)
  | DClear =>
      (forall q, ~ staging d q -> g !! q = g0 !! q) /\ (forall x, r = Some x -> x = Ok RAborted)
  | DKeep => g = g0 /\ forall x, r = Some x -> x = Ok RUncertain
  end.

Definition recovery_post (adapter : str) (d : path) (nonce : Z) (g0 g : fs)
    (r : option (result ReconcileResult ReconcileError)) : Prop :=
  (g = g0 /\ forall x, r <> Some (Ok x)) \/
  exists local pending remote, consulted adapter d nonce g0 local pending remote /\
    acted d pending (recovery_decision local remote) g0 g r.

Lemma act_triple `{!Blake3Laws B3} d pending dec g0 :
  plain (peer_id pending) ->
  ctriple (eq g0) (act d pending dec) (fun r g => acted d pending dec g0 g (Some r))
    (fun g => acted d pending dec g0 g None).
Proof.
  intros Hp w Hw. destruct dec; cbn [act].
  - pose proof (promote_triple d (peer_id pending) Hp g0 w Hw) as Ht. revert Ht.
    unfold finalize, itry, imap_err, ibind. destruct (promote d (peer_id pending) w) as [[[u|e]| |] w'] eqn:E; cbn.
    + intros [H1 H2]. split; [done |]. intros x [= <-]. auto.
    + intros [H1 H2]. split; [done |]. by intros x [=].
    + intros H1. split; [done |]. by intros x [=].
    + intros H1. split; [done |]. by intros x [=].
  - pose proof (touches_discard d (peer_id pending) w) as Ht. revert Ht.
    unfold clear_recovery, ibind. destruct (discard d (peer_id pending) w) as [[u| |] w'] eqn:E; cbn;
      intros Ht; (split; [intros q Hq; rewrite Hw; by apply Ht |]); intros x; [by intros [= <-] | done | done].
  - cbn. split; [by rewrite Hw |]. by intros x [= <-].
Qed.

Lemma ctriple_try_pure {A B E : Type} P (r : result A E) (k : A -> io (result B E)) Q R :
  (forall e, r = Err e -> forall g, P g -> Q (Err e) g) -> (forall a, r = Ok a -> ctriple P (k a) Q R) ->
  ctriple P (itry (iret r) k) Q R.
Proof.
  intros He Hk w Hw. destruct r as [a|e]; [by apply Hk | by apply He].
Qed.

Lemma read_to_string_triple p g0 :
  ctriple (eq g0) (fs_read_to_string p)
    (fun r g => g0 = g /\ forall raw, r = Ok raw -> exists m, g0 !! p = Some (File raw m)) (eq g0).
Proof.
  apply ctriple_syscall. intros g <-. cbn. split_and!; try done. intros raw. unfold read_op.
  destruct (g0 !! p) as [[c m|m]|]; cbn; [| done |].
  - destruct (utf8 c); [| done]. intros [= <-]. by eexists.
  - by destruct (resolve_parent g0 p).
Qed.

Lemma hex_id_triple t g0 :
  ctriple (eq g0) (hex_id t)
    (fun r g => g0 = g /\ forall x, r = Ok x -> (hex_id t (calm ∅)).1 = Ret (Ok x)) (eq g0).
Proof.
  assert (Hf : world_free (hex_id t)).
  { unfold hex_id. destruct (negb _); [apply world_free_ret |].
    apply world_free_bind; [apply hex_bytes_world_free | intros; apply world_free_ret]. }
  intros w Hw. rewrite Hf. cbn. destruct (hex_id t (calm ∅)).1; [| done | done]. naive_solver.
Qed.
End decide.

(** ** Recovery on every fault script *)

Section recover.
Context `{B3 : Blake3, CH : Chrono, TM : Toml, UM : Umask, TF : Tempfile, BL : Bluer, !Blake3Laws B3}.

Lemma recovery_untouched adapter d nonce g0 g r :
  g0 = g -> (forall x, r <> Some (Ok x)) -> recovery_post adapter d nonce g0 g r.
Proof. intros <- Hr. by left. Qed.

(** The last step: the phone answered and the decision is carried out. *)
Lemma respond_triple adapter d nonce g0 local pending tx i response :
  plain (peer_id pending) -> journal_status local ->
  Transaction_from_recovery_status i Coordinator local = Ok tx ->
  (forall remote, s_transaction response = i -> s_nonce response = nonce -> s_state response = Some remote ->
     consulted adapter d nonce g0 local pending remote) ->
  ctriple (eq g0) (apply_status_decision d pending tx response nonce)
    (fun r g => recovery_post adapter d nonce g0 g (Some r)) (fun g => recovery_post adapter d nonce g0 g None).
Proof.
  intros Hp Hl Ht Hc w Hw.
  assert (Hi : PairTransaction.id tx = i) by (revert Ht; destruct Hl as [-> | [-> | ->]]; by intros [= <-]).
  destruct (s_state response) as [remote|] eqn:Hs; [destruct (decide (s_transaction response = i)) as [E1|E1];
    [destruct (decide (s_nonce response = nonce)) as [E2|E2] |] |].
  2-4: destruct (decision_mismatch d pending tx response nonce w) as [why ->]; [rewrite Hi; by auto |];
    by apply recovery_untouched.
  rewrite (decision_exact d pending i local tx response nonce remote w) by done.
  pose proof (act_triple d pending (recovery_decision local remote) g0 Hp w Hw) as Ha.
  destruct (act d pending (recovery_decision local remote) w) as [[r| |] w']; cbn in *; right; by eauto 10.
Qed.

Lemma ok_or_Some {A E} (o : option A) (e : E) a : ok_or o e = Ok a -> o = Some a.
Proof. destruct o; [by intros [= ->] | done]. Qed.

Ltac untouched := intros; subst; apply recovery_untouched; [done | by intros x [=]].

Lemma run_reconcile_triple adapter d nonce g0 :
  ctriple (eq g0) (run_reconcile adapter d nonce)
    (fun r g => recovery_post adapter d nonce g0 g (Some r)) (fun g => recovery_post adapter d nonce g0 g None).
Proof.
  unfold run_reconcile.
  eapply (ctriple_try _ _ _ (fun j g => (exists m, g0 !! journal_path d = Some (File j m)) /\ g0 = g)).
  { apply ctriple_map_err. eapply ctriple_conseq; [apply (read_to_string_triple _ g0) | done | | untouched].
    intros [j|e] g [<- Hj]; cbn; [naive_solver | untouched]. }
  intros journal. apply ctriple_pure. intros [m Hj].
  apply ctriple_try_pure; [untouched | intros id_text Hid % ok_or_Some].
  eapply (ctriple_try _ _ _ (fun i g => (hex_id id_text (calm ∅)).1 = Ret (Ok i) /\ g0 = g)).
  { eapply ctriple_conseq; [apply (hex_id_triple _ g0) | done | | untouched].
    intros [i|e] g [<- Hi]; cbn; [naive_solver | untouched]. }
  intros i. apply ctriple_pure. intros Hi.
  apply ctriple_try_pure; [untouched | intros peer Hpe % ok_or_Some].
  apply ctriple_try_pure; [untouched | intros addr Had % ok_or_Some].
  eapply (ctriple_try _ _ _ (fun st g => stored (g0 !! pending_bond_path d) st /\ g0 = g)).
  { apply ctriple_map_err. eapply ctriple_conseq; [apply (load_stored _ g0) | done | | untouched].
    intros [st|e] g [-> Hst]; cbn; [naive_solver | untouched]. }
  intros st. apply ctriple_pure. intros Hst.
  apply ctriple_try_pure; [untouched | intros pending Hpend % ok_or_Some].
  case_bool_decide as Hpeer; cbn [negb]; [subst peer | apply ctriple_ret; untouched].
  apply ctriple_try_pure; [untouched | intros local Hloc].
  apply ctriple_try_pure; [untouched | intros tx Htx].
  apply ctriple_try_pure; [untouched | intros response Hresp].
  apply (respond_triple adapter d nonce g0 local pending tx i response).
  - apply stored_wf in Hst. unfold BondStore_list in Hpend. apply head_Some_elem_of in Hpend.
    rewrite Forall_forall in Hst. destruct (Hst _ Hpend) as [_ ->]. apply peer_id_plain.
  - by eapply local_status_journal.
  - destruct (Transaction_from_recovery_status i Coordinator local); [| done]. by injection Htx as ->.
  - intros remote <- <- Hr. unfold consulted. eauto 20.
Qed.
End recover.

(** ** A recovery that meets no fault *)

(** The phone's end of the exchange: it shows the pair service and answers a
    query with its status, under the query's transaction and nonce. *)
Definition answer (remote : StatusState) (written : list Z) : result (list Z) str :=
  match StatusMessage_decode written with
  | Ok q => Ok (StatusMessage_encode (StatusMessage_response (s_transaction q) (s_nonce q) remote))
  | Err _ => Err (lit "no status")
  end.

Definition phone_device (remote : StatusState) : Device :=
  mkDevice (Ok tt) (Ok [mkService (Ok SYAUTH_PAIR_SERVICE_UUID) (Ok
    [mkCharacteristic (Ok SYAUTH_PAIR_V2_CONTROL_CHAR_UUID) (fun _ => Ok tt) (fun _ => Err (lit "write only"));
     mkCharacteristic (Ok SYAUTH_PAIR_V2_STATUS_CHAR_UUID) (fun _ => Err (lit "read only")) (answer remote)])]).

Lemma query_phone i nonce remote :
  arr 16 i -> is_u64 nonce ->
  query_pair_status (phone_device remote) (StatusMessage_query i nonce) = Ok (StatusMessage_response i nonce remote).
Proof.
  intros Hi Hn. unfold query_pair_status. cbn [phone_device d_connect d_services map_err rbind scan_services
    v_uuid v_characteristics negb scan_characteristics c_uuid ok_or fst snd].
  cbn -[StatusMessage_encode StatusMessage_decode STATUS_MESSAGE_LEN answer]. unfold answer.
  rewrite StatusMessage_decode_encode by done. cbn [map_err rbind s_transaction s_nonce].
  rewrite len_StatusMessage_encode by done. rewrite Z.eqb_refl. cbn [negb].
  by rewrite StatusMessage_decode_encode.
Qed.

Section completes.
Context `{B3 : Blake3, CH : Chrono, TM : Toml, UM : Umask, TF : Tempfile, BL : Bluer}.
Context `{!TempfileLaws TF, !TomlLaws TM, !ChronoLaws CH}.

(** The pairing was cut off right after the commit decision was recorded. *)
Lemma staged_and_decided g d tx addr b key pbytes :
  site g d -> bond_wf b -> arr 16 tx -> printable (peer_id b) -> printable addr ->
  serialize_to_toml (mkStore [b]) = Ok pbytes ->
  exists g' m,
    (let!? _ := stage d tx (peer_id b) addr b key in mark_commit_pending d) (calm g) = (Ret (Ok tt), calm g') /\
    site g' d /\ g' !! d = Some (Dir 448) /\ stored (g' !! pending_bond_path d) (mkStore [b]) /\
    g' !! pending_key_path d (peer_id b) = Some (File key 384) /\
    g' !! journal_path d = Some (File (journal_text tx (peer_id b) addr JCommitPending) m) /\
    g' !! bonds_path d = g !! bonds_path d.
Proof.
  intros Hs Hb Htx Hpi Hpa Hpb.
  destruct (stage_calm g d tx (peer_id b) addr b key pbytes Hs Hpb) as (g1 & m1 & E1 & Hs1 & _ & Lp & Lk & Lj).
  destruct (mark_commit_pending_calm g1 d tx (peer_id b) addr JPreCommit m1 Hs1 Htx Hpi Hpa Lj) as [m2 E2].
  exists (<[journal_path d := File (journal_text tx (peer_id b) addr JCommitPending) m2]> (<[d := Dir 448]> g1)), m2.
  split; [by rewrite (itry_ok _ _ _ _ _ E1) |].
  unfold journal_path, pending_bond_path, pending_key_path, bonds_path in *. split_and!; fs_lookup; try done.
  - destruct (dir_chmod_calm g1 d 448 Hs1) as [_ Hs2]. apply site_insert; [done |]. by apply (site_files _ _ Hs2).
  - rewrite Lp. apply saved_stored; [by constructor | done].
  - pose proof (touches_stage d tx (peer_id b) addr b key (calm g) (bonds_path d)) as Ht.
    rewrite E1 in Ht. apply Ht, trust_not_staging. by left.
Qed.

Lemma hex_id_text i w : arr 16 i -> hex_id (hex_lowercase i) w = (Ret (Ok i), w).
Proof.
  intros [Hl Hb]. unfold hex_id. rewrite len_hex_lowercase. unfold len. rewrite Hl.
  change (negb (2 * 16 =? 32)) with false. cbv iota. replace 16%nat with (length i) by lia.
  unfold imap_err, ibind. pose proof (hex_bytes_hex_lowercase [] i w Hb) as Hx. cbn [app] in Hx.
  replace (len []) with 0 in Hx by done. by rewrite Hx.
Qed.

(** Up to the decision, on a journal and a staged bond as the daemon writes them. *)
Lemma run_reconcile_calm g d tx b addr st m adapter a remote nonce :
  arr 16 tx -> is_u64 nonce -> printable (peer_id b) -> printable addr ->
  g !! journal_path d = Some (File (journal_text tx (peer_id b) addr st) m) ->
  stored (g !! pending_bond_path d) (mkStore [b]) ->
  bluer_adapter adapter = Ok tt -> bluer_address addr = Some a -> bluer_device a = Ok (phone_device remote) ->
  run_reconcile adapter d nonce (calm g) =
    act d b (recovery_decision (match st with JPreCommit => SPreCommit | JCommitPending => SCommitPending end) remote)
      (calm g).
Proof.
  intros Htx Hn Hpi Hpa Hj Hst Had Haddr Hdev. unfold run_reconcile, field.
  erewrite itry_map_ok.
  2: { unfold fs_read_to_string. rewrite syscall_calm, (read_op_file _ _ _ _ Hj). cbn [rbind].
       rewrite journal_utf8 by (done || apply Htx). reflexivity. }
  unfold local_status_of, field. rewrite journal_lines by (done || apply Htx).
  replace (find_field (lit "transaction_id") _) with (Some (hex_lowercase tx)) by done.
  replace (find_field (lit "state") _) with (Some (JournalState_as_str st)) by done.
  replace (find_field (lit "peer_id") _) with (Some (peer_id b)) by done.
  replace (find_field (lit "peer_address") _) with (Some addr) by done.
  erewrite itry_ok by reflexivity. rewrite (itry_ok _ _ _ _ _ (hex_id_text tx (calm g) Htx)).
  do 2 erewrite itry_ok by reflexivity. erewrite itry_map_ok.
  2: { apply load_calm; [exact Hst |]. intros E. by rewrite E in Hst. }
  erewrite itry_ok by reflexivity. rewrite bool_decide_eq_true_2 by done. cbn [negb].
  assert (Ha : authenticated_status adapter addr (StatusMessage_query tx nonce) =
    Ok (StatusMessage_response tx nonce remote)).
  { unfold authenticated_status. rewrite Had, Haddr. cbn [map_err ok_or rbind]. rewrite Hdev. cbn [map_err rbind].
    by rewrite query_phone. }
  rewrite Ha. destruct st; repeat (erewrite itry_ok by reflexivity);
    apply (decision_exact d b tx); unfold journal_status; auto.
Qed.
End completes.

(** ** Revocation from the command line *)

Definition DEFAULT_REVOKE_REASON : str := lit "manual: syauth revoke".

Inductive RevokeError :=
| UnknownId (id : str)
| RevokeBond (e : BondError).

Inductive RevokeOutcome :=
| Revoked (id reason : str)
| AlreadyRevoked (id existing_reason : str).

Definition render_outcome (o : RevokeOutcome) : str :=
  match o with
  | Revoked id reason => lit "revoked bond " ++ id ++ lit ": " ++ reason ++ newline
  | AlreadyRevoked id reason => lit "bond " ++ id ++ lit " already revoked: " ++ reason ++ newline
  end.

Section revoke.
Context `{B3 : Blake3, CH : Chrono, TM : Toml, UM : Umask, TF : Tempfile}.

Fixpoint status_of (id : str) (l : list Bond) : result BondStatus RevokeError :=
  match l with
  | [] => Err (UnknownId id)
  | b :: l => if bool_decide (peer_id b = id) then Ok (status b) else status_of id l
  end.

Definition lookup_status (store : BondStore) (id : str) : result BondStatus RevokeError :=
  status_of id (BondStore_list store).

Definition apply_revoke (store : BondStore) (id reason : str) : BondStore * result RevokeOutcome RevokeError :=
  match lookup_status store id with
  | Err e => (store, Err e)
  | Ok (StRevoked existing) => (store, Ok (AlreadyRevoked id existing))
  | Ok StBonded =>
      let '(store, r) := BondStore_mark_revoked store id reason in
      (store, let? _ := map_err RevokeBond r in Ok (Revoked id reason))
  end.

(** Returns what is printed; writing to the standard output is not modelled. *)
Definition run_revoke (d : path) (id reason : str) : io (result str RevokeError) :=
  let!? store := imap_err RevokeBond (BondStore_load (bonds_path d)) in
  let '(store, r) := apply_revoke store id reason in
  let!? o := iret r in
  let!? _ := match o with
             | Revoked _ _ => imap_err RevokeBond (BondStore_save store (bonds_path d))
             | AlreadyRevoked _ _ => iret (Ok tt)
             end in
  iret (Ok (render_outcome o)).

(** The store with one bonded record turned into a revoked one, every other
    record, and the record's own key and name, as they were. *)
Definition revokes (st new : BondStore) (id reason : str) : Prop :=
  exists l1 b l2, bonds st = l1 ++ b :: l2 /\ peer_id b = id /\ status b = StBonded /\
    bonds new = l1 ++ set_status (StRevoked reason) b :: l2.

Lemma status_of_spec id l s :
  status_of id l = Ok s ->
  exists l1 b l2, l = l1 ++ b :: l2 /\ peer_id b = id /\ status b = s /\
    position (fun b => bool_decide (peer_id b = id)) l = Some (length l1).
Proof.
  induction l as [|b l IH]; [done |]. cbn. case_bool_decide as Hb.
  - intros [= <-]. by exists [], b, l.
  - intros (l1 & b' & l2 & -> & Hp & Hs & Hx) % IH. exists (b :: l1), b', l2. by rewrite Hx.
Qed.

Lemma status_of_unknown id l e :
  status_of id l = Err e -> e = UnknownId id /\ Forall (fun b => peer_id b <> id) l.
Proof.
  induction l as [|b l IH]; cbn; [by intros [= <-] |]. case_bool_decide; [done |].
  intros [-> Hl] % IH. split; [done |]. by constructor.
Qed.

(** The three outcomes of [apply_revoke]. *)
Lemma apply_revoke_cases st id reason :
  (exists new, apply_revoke st id reason = (new, Ok (Revoked id reason)) /\ revokes st new id reason) \/
  (exists old, apply_revoke st id reason = (st, Ok (AlreadyRevoked id old)) /\
     exists b, In b (bonds st) /\ peer_id b = id /\ status b = StRevoked old) \/
  (apply_revoke st id reason = (st, Err (UnknownId id)) /\ Forall (fun b => peer_id b <> id) (bonds st)).
Proof.
  unfold apply_revoke, lookup_status, BondStore_list.
  destruct (status_of id (bonds st)) as [s|e] eqn:E.
  - apply status_of_spec in E as (l1 & b & l2 & Hb & Hp & Hs & Hx). destruct s as [|old].
    + left. unfold BondStore_mark_revoked, find_index. rewrite Hx, Hb, list_lookup_middle by done.
      unfold Bond_is_revoked. rewrite Hs. eexists. split; [reflexivity |].
      exists l1, b, l2. cbn [bonds]. by rewrite <- (Nat.add_0_r (length l1)), insert_app_r.
    + right; left. exists old. split; [done |]. exists b. rewrite Hb. split; [apply in_app_iff; cbn; auto | done].
  - apply status_of_unknown in E as [-> E]. auto.
Qed.

(** What the command may have left in the bonds file, [r] being what it
    returned, if anything. *)
Definition revoke_post (d : path) (id reason : str) (g0 g : fs) (r : option (result str RevokeError)) : Prop :=
  (g !! bonds_path d = g0 !! bonds_path d /\
     forall s, r = Some (Ok s) -> exists st b old, stored (g0 !! bonds_path d) st /\ In b (bonds st) /\
       peer_id b = id /\ status b = StRevoked old /\ s = render_outcome (AlreadyRevoked id old)) \/
  (exists st new bytes, stored (g0 !! bonds_path d) st /\ revokes st new id reason /\
     serialize_to_toml new = Ok bytes /\ g !! bonds_path d = Some (File bytes BOND_FILE_MODE) /\
     forall s, r = Some s -> s = Ok (render_outcome (Revoked id reason))).

Lemma run_revoke_triple d id reason g0 :
  ctriple (eq g0) (run_revoke d id reason)
    (fun r g => revoke_post d id reason g0 g (Some r)) (fun g => revoke_post d id reason g0 g None).
Proof.
  unfold run_revoke.
  eapply (ctriple_try _ _ _ (fun st g => stored (g0 !! bonds_path d) st /\ g0 = g)).
  { apply ctriple_map_err. eapply ctriple_conseq; [apply (load_stored _ g0) | done | | by intros g <-; left].
    intros [st|e] g [-> Hst]; cbn; [naive_solver |]. by left. }
  intros st. apply ctriple_pure. intros Hst.
  destruct (apply_revoke_cases st id reason) as [(new & -> & Hnew) | [(old & -> & b & Hb) | [-> _]]].
  - apply ctriple_try_pure; [done | intros o [= <-]].
    eapply (ctriple_try _ _ _ (fun _ g => exists bytes, serialize_to_toml new = Ok bytes /\
      g !! bonds_path d = Some (File bytes BOND_FILE_MODE))).
    { apply ctriple_map_err. eapply ctriple_conseq.
      - apply (save_triple_any new d BONDS_FILE_NAME (g0 !! bonds_path d)), bonds_not_tmp_name.
      - by intros g <-.
      - intros [u|e] g Hg; cbn; [exact Hg |]. by left.
      - intros g [Hg | (bytes & Hs & Hg)]; [by left |]. right. by exists st, new, bytes. }
    intros _. apply ctriple_ret. intros g (bytes & Hs & Hg). right. exists st, new, bytes.
    split_and!; try done. by intros s [= <-].
  - apply ctriple_try_pure; [done | intros o [= <-]]. apply ctriple_ret. intros g <-. left. split; [done |].
    intros s [= <-]. exists st, b, old. by destruct Hb as (? & ? & ?).
  - apply ctriple_try_pure; [| done]. intros e _ g <-. by left.
Qed.
End revoke.

(** ** Properties *)

Section properties.
Context `{B3 : Blake3, CH : Chrono, TM : Toml, UM : Umask, TF : Tempfile, BL : Bluer}.

Definition returned {A} (o : outcome A) : option A := match o with Ret a => Some a | _ => None end.

Lemma run_reconcile_post `{!Blake3Laws B3} adapter d nonce w :
  recovery_post adapter d nonce (files w) (files (run_reconcile adapter d nonce w).2)
    (returned (run_reconcile adapter d nonce w).1).
Proof.
  pose proof (run_reconcile_triple adapter d nonce (files w) w eq_refl) as Ht.
  by destruct (run_reconcile adapter d nonce w) as [[r| |] w'].
Qed.

(** C22: Recovery activates trust only by agreement, on every fault script and
    whatever the phone answers.  [run_reconcile] either leaves the disk as it was
    and returns no verdict, or it read a journal and a staged bond and got a
    status of the phone for that transaction and that nonce, and did exactly what
    the decision table says; and if it changed the bonds file or an active key at
    all, then the journal recorded the commit decision, the phone reported
    COMMITTED or BONDED, and the promotion is complete or can be run again. *)
Theorem reconcile_by_agreement `{!Blake3Laws B3} adapter d nonce w :
  let '(o, w') := run_reconcile adapter d nonce w in
  recovery_post adapter d nonce (files w) (files w') (returned o) /\
  forall q, active_trust d q -> files w' !! q <> files w !! q ->
    exists pending remote, consulted adapter d nonce (files w) SCommitPending pending remote /\
      (remote = SCommitted \/ remote = SBonded) /\
      (intact d (peer_id pending) (files w) (files w') \/ promoted d (peer_id pending) (files w) (files w')).
Proof.
  pose proof (run_reconcile_post adapter d nonce w) as Hp.
  destruct (run_reconcile adapter d nonce w) as [o w']. cbn in Hp. split; [exact Hp |].
  intros q Hq Hne. destruct Hp as [[E _] | (local & pending & remote & Hc & Ha)]; [by rewrite E in Hne |].
  destruct (recovery_decision local remote) eqn:Ed; cbn in Ha.
  - exists pending, remote. destruct local, remote; try done; (split; [exact Hc |]);
      (split; [by auto |]); apply Ha.
  - exfalso. apply Hne, Ha, trust_not_staging, Hq.
  - destruct Ha as [E _]. by rewrite E in Hne.
Qed.

(** A pairing that was cut off after its commit decision is completed by the
    recovery: the machine stages and records the decision, the process is gone,
    and later [syauth reconcile] reaches the phone, which reports COMMITTED or
    BONDED.  The recovery then returns [Bonded], the bonds file reads as a store
    in which the peer is the staged bond and every other peer is as before, its
    key is in place, and no trace of staging is left. *)
Theorem reconcile_completes `{!TempfileLaws TF, !TomlLaws TM, !ChronoLaws CH}
    g d tx addr b key pbytes active new bytes adapter a remote nonce :
  site g d -> plain (peer_id b) -> bond_wf b -> arr 16 tx -> printable (peer_id b) -> printable addr ->
  len key = BOND_KEY_DERIVED_BYTES -> serialize_to_toml (mkStore [b]) = Ok pbytes ->
  stored (g !! bonds_path d) active -> NoDup (ids active) ->
  activate active b = Ok new -> serialize_to_toml new = Ok bytes -> Forall bond_wf (bonds new) ->
  bluer_adapter adapter = Ok tt -> bluer_address addr = Some a -> bluer_device a = Ok (phone_device remote) ->
  is_u64 nonce -> remote = SCommitted \/ remote = SBonded ->
  exists g1 g2,
    (let!? _ := stage d tx (peer_id b) addr b key in mark_commit_pending d) (calm g) = (Ret (Ok tt), calm g1) /\
    run_reconcile adapter d nonce (calm g1) = (Ret (Ok RBonded), calm g2) /\
    stored (g2 !! bonds_path d) new /\ view new = <[peer_id b := b]> (view active) /\
    g2 !! active_key_path d (peer_id b) = Some (File key 384) /\
    g2 !! journal_path d = None /\ g2 !! pending_bond_path d = None /\ g2 !! pending_key_path d (peer_id b) = None.
Proof.
  intros Hs Hid Hb Htx Hpi Hpa Hk Hpb Hact Hnd Hnew Hser Hwf Had Haddr Hdev Hn Hrem.
  destruct (staged_and_decided g d tx addr b key pbytes) as (g1 & m & E1 & Hs1 & Hd1 & Hp1 & Hk1 & Hj1 & Hb1);
    try done.
  destruct (promote_calm g1 d (peer_id b) (mkStore [b]) b key 384 active new bytes
    (journal_text tx (peer_id b) addr JCommitPending) m) as (g2 & E2 & R1 & R2 & R3 & R4 & R5); try done.
  { apply find_bond_singleton. }
  { by rewrite Hb1. }
  exists g1, g2. split; [exact E1 |]. split.
  - rewrite (run_reconcile_calm g1 d tx b addr JCommitPending m adapter a remote nonce) by done.
    destruct Hrem as [-> | ->]; cbn [recovery_decision act]; unfold finalize;
      by rewrite (itry_map_ok _ _ _ _ _ _ E2).
  - rewrite R1. split; [by apply saved_stored |]. split; [| done].
    destruct (activate_view active b Hnd) as (new' & E & _ & Hv). congruence.
Qed.

(** A revocation is all or nothing on every fault script: [syauth revoke]
    leaves the bonds file as it was or replaces it by the complete document in
    which the one record is revoked with the given reason and everything else is
    kept; it reports success only in the second case or for a record that was
    revoked before, whose reason it keeps, and it touches no key. *)
Theorem revoke_all_or_nothing d id reason w :
  let '(o, w') := run_revoke d id reason w in
  revoke_post d id reason (files w) (files w') (returned o) /\
  forall n, files w' !! join (keys_dir d) n = files w !! join (keys_dir d) n.
Proof.
  pose proof (run_revoke_triple d id reason (files w) w eq_refl) as Ht.
  assert (Hk : touches (save_touches d (bonds_path d)) (run_revoke d id reason)).
  { unfold run_revoke. apply touches_try.
    - apply touches_map_err. eapply touches_weaken; [apply touches_load | done].
    - intros st. destruct (apply_revoke st id reason) as [st' r]. apply touches_try; [apply touches_ret |].
      intros o. apply touches_try; [| intros; apply touches_ret].
      destruct o; [apply touches_map_err, touches_save | apply touches_ret]. }
  specialize (Hk w). destruct (run_revoke d id reason w) as [o w']. split.
  - by destruct o.
  - intros n. apply Hk. intros [Ha | [E | [[s E] | E]]].
    + destruct Ha as (k & _ & E % (f_equal length)). revert E. unfold keys_dir, join. rewrite !length_app. cbn. lia.
    + by apply join_join_ne_dir in E.
    + by apply join_join_ne in E.
    + by apply join_join_ne in E.
Qed.

(** Revoking twice: on a working disk the first call succeeds and the bonds
    file then reads as the store with the peer revoked; the second call, with
    whatever reason, reports the first reason and changes nothing. *)
Theorem revoke_twice `{!TempfileLaws TF, !TomlLaws TM, !ChronoLaws CH} g d st new bytes id reason reason' :
  ready g d -> stored (g !! bonds_path d) st -> revokes st new id reason ->
  apply_revoke st id reason = (new, Ok (Revoked id reason)) -> serialize_to_toml new = Ok bytes ->
  let g' := <[bonds_path d := File bytes BOND_FILE_MODE]> g in
  run_revoke d id reason (calm g) = (Ret (Ok (render_outcome (Revoked id reason))), calm g') /\
  stored (g' !! bonds_path d) new /\
  run_revoke d id reason' (calm g') = (Ret (Ok (render_outcome (AlreadyRevoked id reason))), calm g').
Proof.
  intros Hr Hst Hrev Happ Hser g'. pose proof Hr as (_ & Hd & _).
  assert (Hwf : Forall bond_wf (bonds new)).
  { apply stored_wf in Hst. destruct Hrev as (l1 & b & l2 & E1 & _ & _ & E2). rewrite E1 in Hst. rewrite E2.
    apply Forall_app in Hst as [H1 H2]. apply Forall_cons in H2 as [H2 H3]. apply Forall_app. by split; [| constructor]. }
  assert (Hst' : stored (g' !! bonds_path d) new) by (unfold g'; rewrite lookup_insert_eq; by apply saved_stored).
  split_and!; [| exact Hst' |].
  - unfold run_revoke. erewrite itry_map_ok.
    2: { apply load_calm; [exact Hst |]. intros _. unfold bonds_path. by rewrite resolve_parent_join. }
    rewrite Happ. erewrite itry_ok by reflexivity. cbv beta iota. erewrite itry_map_ok; [reflexivity |].
    apply save_ready; try done; [| apply bonds_not_tmp_name]. unfold stored, bonds_path in *.
    by destruct (g !! join d BONDS_FILE_NAME) as [[]|].
  - unfold run_revoke. erewrite itry_map_ok.
    2: { apply load_calm; [exact Hst' |]. unfold g'. by rewrite lookup_insert_eq. }
    assert (Hs2 : status_of id (bonds new) = Ok (StRevoked reason)).
    { revert Happ. unfold apply_revoke, lookup_status, BondStore_list.
      destruct (status_of id (bonds st)) as [[|]|] eqn:E; try done.
      apply status_of_spec in E as (l1 & b & l2 & Hb & Hp & Hs & Hx).
      unfold BondStore_mark_revoked, find_index. rewrite Hx, Hb, list_lookup_middle by done.
      unfold Bond_is_revoked. rewrite Hs. intros [= <-]. cbn [bonds].
      rewrite <- (Nat.add_0_r (length l1)), insert_app_r. rewrite Hb in Hx. clear -Hp Hx.
      induction l1 as [|c l1 IH]; cbn in *; [by rewrite bool_decide_eq_true_2 |].
      case_bool_decide; [done |]. apply IH. destruct (position _ _); [by injection Hx as -> | done]. }
    unfold apply_revoke, lookup_status, BondStore_list. rewrite Hs2. reflexivity.
Qed.
End properties.

(** ** The properties on a concrete directory *)

Import ToyCrypto ToyCrates ToyTempfile.

Definition toy_bluer (remote : StatusState) : Bluer := {|
  bluer_adapter _ := Ok tt;
  bluer_address s := Some s;
  bluer_device _ := Ok (phone_device remote);
|}.

Lemma reconcile_completes_witness :
  exists g1 g2,
    (let!? _ := stage sample_dir sample_tx (peer_id sample_bond) sample_addr sample_bond sample_key in
     mark_commit_pending sample_dir) (calm sample_site) = (Ret (Ok tt), calm g1) /\
    run_reconcile (BL := toy_bluer SCommitted) (lit "hci0") sample_dir 7 (calm g1) = (Ret (Ok RBonded), calm g2) /\
    g2 !! active_key_path sample_dir (peer_id sample_bond) = Some (File sample_key 384).
Proof.
  assert (Hwf : bond_wf sample_bond) by (split; [decide_now | reflexivity]).
  assert (Hpl : plain (peer_id sample_bond)) by (vm_compute; exact I).
  assert (Htx : arr 16 sample_tx) by decide_now.
  assert (Hp1 : printable (peer_id sample_bond)) by decide_now.
  assert (Hp2 : printable sample_addr) by decide_now.
  assert (Hl : len sample_key = BOND_KEY_DERIVED_BYTES) by (vm_compute; reflexivity).
  assert (Hst : stored (sample_site !! bonds_path sample_dir) (mkStore [])) by (vm_compute; reflexivity).
  assert (Hnd : NoDup (ids (mkStore []))) by apply NoDup_nil_2.
  assert (Hac : activate (mkStore []) sample_bond = Ok sample_store) by (vm_compute; reflexivity).
  assert (Hws : Forall bond_wf (bonds sample_store)) by (constructor; [exact Hwf | constructor]).
  assert (Hn : is_u64 7) by (unfold is_u64; lia).
  destruct (reconcile_completes (BL := toy_bluer SCommitted) (TempfileLaws0 := toy_tempfile_laws)
    (TomlLaws0 := toy_toml_laws) (ChronoLaws0 := toy_chrono_laws) sample_site sample_dir sample_tx sample_addr
    sample_bond sample_key sample_bytes (mkStore []) sample_store sample_bytes (lit "hci0") sample_addr SCommitted 7
    site_sample_site Hpl Hwf Htx Hp1 Hp2 Hl sample_serializes Hst Hnd Hac sample_serializes Hws
    eq_refl eq_refl eq_refl Hn (or_introl eq_refl)) as (g1 & g2 & E1 & E2 & _ & _ & K & _).
  exists g1, g2. split; [exact E1 | split; [exact E2 | exact K]].
Defined.

(** A disk on which the sample phone is staged, and the same with the commit
    decision recorded. *)
Definition staged_fs : fs :=
  files (stage sample_dir sample_tx (peer_id sample_bond) sample_addr sample_bond sample_key (calm sample_site)).2.

Definition decided_fs : fs := files (mark_commit_pending sample_dir (calm staged_fs)).2.

Lemma reconcile_by_agreement_witness :
  let w' := (run_reconcile (BL := toy_bluer SBonded) (lit "hci0") sample_dir 7 (calm decided_fs)).2 in
  files w' !! bonds_path sample_dir <> decided_fs !! bonds_path sample_dir /\
  exists pending remote,
    consulted (BL := toy_bluer SBonded) (lit "hci0") sample_dir 7 decided_fs SCommitPending pending remote.
Proof.
  assert (Hne : files (run_reconcile (BL := toy_bluer SBonded) (lit "hci0") sample_dir 7 (calm decided_fs)).2
    !! bonds_path sample_dir <> decided_fs !! bonds_path sample_dir) by (vm_compute; intros [=]).
  split; [exact Hne |].
  pose proof (reconcile_by_agreement (BL := toy_bluer SBonded) (Blake3Laws0 := toy_blake3_laws) (lit "hci0") sample_dir 7
    (calm decided_fs)) as H.
  destruct (run_reconcile _ _ _ _) as [o w']. destruct H as [_ H].
  destruct (H (bonds_path sample_dir) (or_introl eq_refl) Hne) as (pending & remote & Hc & _).
  exists pending, remote. exact Hc.
Defined.

Lemma revoke_twice_witness :
  let g := <[bonds_path sample_dir := File sample_bytes 384]> sample_fs in
  exists g', run_revoke sample_dir (peer_id sample_bond) (lit "lost") (calm g) =
      (Ret (Ok (render_outcome (Revoked (peer_id sample_bond) (lit "lost")))), calm g') /\
    run_revoke sample_dir (peer_id sample_bond) (lit "again") (calm g') =
      (Ret (Ok (render_outcome (AlreadyRevoked (peer_id sample_bond) (lit "lost")))), calm g').
Proof.
  pose (new := mkStore [set_status (StRevoked (lit "lost")) sample_bond]).
  assert (Hg : ready (<[bonds_path sample_dir := File sample_bytes 384]> sample_fs) sample_dir).
  { split; [done |]. split; [vm_compute; reflexivity |]. exists 448. by split; vm_compute. }
  assert (Hst : stored ((<[bonds_path sample_dir := File sample_bytes 384]> sample_fs) !! bonds_path sample_dir)
    sample_store) by (vm_compute; split; reflexivity).
  assert (Hrev : revokes sample_store new (peer_id sample_bond) (lit "lost")) by (by exists [], sample_bond, []).
  assert (Happ : apply_revoke sample_store (peer_id sample_bond) (lit "lost") =
    (new, Ok (Revoked (peer_id sample_bond) (lit "lost")))) by (vm_compute; reflexivity).
  destruct (serialize_to_toml new) as [bytes|] eqn:Hs; [| by vm_compute in Hs].
  destruct (revoke_twice (TempfileLaws0 := toy_tempfile_laws) (TomlLaws0 := toy_toml_laws) (ChronoLaws0 := toy_chrono_laws)
    _ sample_dir sample_store new bytes (peer_id sample_bond) (lit "lost") (lit "again") Hg Hst Hrev Happ Hs)
    as (E1 & _ & E2).
  eexists. split; [exact E1 | exact E2].
Defined.

(** ** A journal without its last line *)

(** The journal of [stage] up to its [state] line. *)
Definition torn_at : nat :=
  length (journal_text sample_tx (peer_id sample_bond) sample_addr JPreCommit) - length (lit "state=pre_commit" ++ newline).

(** The two readers of the journal disagree on a missing [state] line: a process
    that dies while [stage] writes it leaves a journal that [read_journal] takes for
    [pre_commit] and [syauth reconcile] for [commit_pending]; when the phone then
    reports ABORTED, the recovery neither drops the staging nor completes it, while
    it would drop it for the complete journal. *)
Theorem torn_journal_is_kept :
  let w := mkWorld sample_site (replicate 19 Fine ++ [Dies (Some torn_at)]) in
  let '(o, w') := stage sample_dir sample_tx (peer_id sample_bond) sample_addr sample_bond sample_key w in
  o = Killed /\
  (read_journal sample_dir (calm (files w'))).1 =
    Ret (Ok (Some (mkJournal sample_tx (peer_id sample_bond) sample_addr JPreCommit))) /\
  (run_reconcile (BL := toy_bluer SAborted) (lit "hci0") sample_dir 7 (calm (files w'))).1 = Ret (Ok RUncertain) /\
  (run_reconcile (BL := toy_bluer SAborted) (lit "hci0") sample_dir 7 (calm staged_fs)).1 = Ret (Ok RAborted).
Proof. vm_compute. split_and!; reflexivity. Qed.
