(* ===== verification/PamService.v ===== *)
(** * Wiring the module into a PAM service file

    Models crates/syauth-cli/src/install_pam.rs and uninstall_pam.rs: the lines of a
    service file, the two recognition patterns, the insertion of the syauth line and
    of the pam_u2f fallback, [install] and [uninstall] on the files of Fs.v.  The
    theorems say what is inserted where, that installing is idempotent and
    undone by uninstalling, and what either command can leave behind when a call
    fails or the process dies.

    A service name is a plain file name.  The patterns are matched as the [regex]
    crate documents it; which characters outside ASCII count as word characters
    is a parameter. *)

From stdpp Require Import prelude list gmap strings.
From Stdlib Require Import ZArith Lia.
From S2P Require Import Prelude Fs Bond.

(** ** Characters *)

(** [str::chars]: a character is the bytes that encode it, a lead byte and its
    continuation bytes. *)
Fixpoint chars (s : str) : list str :=
  match s with
  | [] => []
  | b :: s =>
      match chars s with
      | (c :: g) :: gs => if cont c then (b :: c :: g) :: gs else [b] :: (c :: g) :: gs
      | _ => [[b]]
      end
  end.

(** [char::is_whitespace], and [\s]: the Unicode property White_Space. *)
Definition is_whitespace (c : str) : bool :=
  match c with
  | [b] => ((9 <=? b) && (b <=? 13)) || (b =? 32)
  | [194; b] => (b =? 133) || (b =? 160)
  | [225; 154; 128] => true
  | [226; 128; b] => ((128 <=? b) && (b <=? 138)) || (b =? 168) || (b =? 169) || (b =? 175)
  | [226; 129; 159] => true
  | [227; 128; 128] => true
  | _ => false
  end.

(** [\w] beyond ASCII. *)
Class UnicodeWord := { unicode_word : str -> bool }.

Definition is_word `{UnicodeWord} (c : str) : bool :=
  match c with
  | [b] => ((48 <=? b) && (b <=? 57)) || ((65 <=? b) && (b <=? 90)) || ((97 <=? b) && (b <=? 122)) || (b =? 95)
  | _ => unicode_word c
  end.

(** ** Patterns *)

(** The constructs the two patterns use. *)
Inductive item :=
| One (p : str -> bool)
| Many (p : str -> bool)
| Plus (p : str -> bool)
| WordBoundary.

Section regex.
Context `{UW : UnicodeWord}.

(** [p*] followed by [k], with every way to divide the text. *)
Fixpoint match_many (p : str -> bool) (k : option str -> list str -> bool) (prev : option str) (s : list str) : bool :=
  if k prev s then true
  else
    match s with
    | [] => false
    | c :: s => if p c then match_many p k (Some c) s else false
    end.

Definition word_at (c : option str) : bool := match c with Some c => is_word c | None => false end.

(** Does the pattern match here, [prev] being the character before? *)
Fixpoint match_here (pat : list item) (prev : option str) (s : list str) : bool :=
  match pat with
  | [] => true
  | One p :: pat => match s with [] => false | c :: s => if p c then match_here pat (Some c) s else false end
  | Many p :: pat => match_many p (match_here pat) prev s
  | Plus p :: pat =>
      match s with [] => false | c :: s => if p c then match_many p (match_here pat) (Some c) s else false end
  | WordBoundary :: pat => if xorb (word_at prev) (word_at (head s)) then match_here pat prev s else false
  end.

Definition is_char (b : Z) (c : str) : bool := bool_decide (c = [b]).

(** [^] with the flag [m]: the start of the text or of a line. *)
Definition line_start (prev : option str) : bool :=
  match prev with None => true | Some c => is_char 10 c end.

(** [Regex::is_match] of [(?m)^pat]. *)
Fixpoint search (pat : list item) (prev : option str) (s : list str) : bool :=
  if (if line_start prev then match_here pat prev s else false) then true
  else
    match s with
    | [] => false
    | c :: s => search pat (Some c) s
    end.

Definition literal (s : str) : list item := map (fun b => One (is_char b)) s.
Definition non_whitespace (c : str) : bool := negb (is_whitespace c).

(** [(?m)^\s*auth\s+\S+\s+<module>\b] *)
Definition auth_line_regex (module : str) : list item :=
  [Many is_whitespace] ++ literal (lit "auth") ++ [Plus is_whitespace; Plus non_whitespace; Plus is_whitespace] ++
  literal module ++ [WordBoundary].

Definition RECOGNITION_REGEX : list item := auth_line_regex (lit "pam_syauth.so").
Definition U2F_RECOGNITION_REGEX : list item := auth_line_regex (lit "pam_u2f.so").

Definition recognition_regex_match (body : str) : bool := search RECOGNITION_REGEX None (chars body).
Definition u2f_present (body : str) : bool := search U2F_RECOGNITION_REGEX None (chars body).
End regex.

(** ** Lines *)

(** [str::split_inclusive('\n')] *)
Fixpoint split_inclusive (s : str) : list str :=
  match s with
  | [] => []
  | c :: s =>
      if c =? 10 then [c] :: split_inclusive s
      else match split_inclusive s with [] => [[c]] | l :: ls => (c :: l) :: ls end
  end.

Fixpoint drop_whitespace (cs : list str) : list str :=
  match cs with
  | [] => []
  | c :: cs' => if is_whitespace c then drop_whitespace cs' else cs
  end.

(** [str::trim_start] *)
Definition trim_start (s : str) : str := concat (drop_whitespace (chars s)).

Definition is_auth_directive (line : str) : bool :=
  match strip_prefix (lit "auth") (trim_start line) with
  | None => false
  | Some after => match chars after with c :: _ => is_whitespace c | [] => false end
  end.

(** [str::contains] *)
Fixpoint contains (needle s : str) : bool :=
  match strip_prefix needle s with
  | Some _ => true
  | None => match s with [] => false | _ :: s => contains needle s end
  end.

Definition MODULE_TYPE : str := lit "auth".
Definition FIELD_SEPARATOR : str := lit "    ".
Definition DEFAULT_SO_NAME : str := lit "pam_syauth.so".
Definition DEFAULT_MODULE_ARGS : str := lit "timeout=8000".
Definition DEFAULT_CONTROL_FLAG : str := lit "sufficient".
Definition BACKUP_SUFFIX : str := lit ".bak".
Definition U2F_FALLBACK_LINE : str := lit "auth    sufficient    pam_u2f.so cue".

(** The options [install] reads. *)
Record InstallOpts := mkInstallOpts {
  service : str;
  pam_dir : path;
  module_args : str;
  so_path : str;
  control : str;
  with_u2f_fallback : bool;
}.

Definition build_line (opts : InstallOpts) : str :=
  MODULE_TYPE ++ FIELD_SEPARATOR ++ control opts ++ FIELD_SEPARATOR ++ so_path opts ++ lit " " ++ module_args opts.

(** The loop of [insert_line]: what is written and whether the line was. *)
Fixpoint insert_loop (new_line : str) (ls : list str) (out : str) (inserted : bool) : str * bool :=
  match ls with
  | [] => (out, inserted)
  | line :: ls =>
      if negb inserted && is_auth_directive line
      then insert_loop new_line ls (out ++ new_line ++ [10] ++ line) true
      else insert_loop new_line ls (out ++ line) inserted
  end.

Definition insert_line (original new_line : str) : str :=
  let '(out, inserted) := insert_loop new_line (split_inclusive original) [] false in
  if inserted then out else new_line ++ [10] ++ original.

Fixpoint u2f_loop (ls : list str) (out : str) (inserted : bool) : str :=
  match ls with
  | [] => out
  | line :: ls =>
      if negb inserted && contains (lit "pam_syauth.so") line
      then u2f_loop ls (out ++ line ++ U2F_FALLBACK_LINE ++ [10]) true
      else u2f_loop ls (out ++ line) inserted
  end.

Definition maybe_insert_u2f_fallback `{UnicodeWord} (body : str) (enabled : bool) : str :=
  if negb enabled then body
  else if u2f_present body then body
  else u2f_loop (split_inclusive body) [] false.

(** ** The commands *)

(** [fs::copy]: the destination gets the bytes and the mode of the source; a call
    that is cut off leaves the first bytes of the copy. *)
Definition put_op (p : path) (data : list Z) (m : Z) (g : fs) : result unit ErrorKind * fs :=
  match resolve_parent g p with
  | Err e => (Err e, g)
  | Ok _ => match g !! p with Some (Dir _) => (Err IsADirectory, g) | _ => (Ok tt, <[p := File data m]> g) end
  end.

Definition fs_put (p : path) (data : list Z) (m : Z) : io (result unit ErrorKind) := fun w =>
  let '(flt, w) := next_fault w in
  match flt with
  | Fine => let '(r, g) := put_op p data m (files w) in (Ret r, with_files g w)
  | Fails k None => (Ret (Err (fault_kind k)), w)
  | Fails k (Some n) => (Ret (Err (fault_kind k)), with_files (put_op p (take n data) m (files w)).2 w)
  | Dies None => (Killed, w)
  | Dies (Some n) => (Killed, with_files (put_op p (take n data) m (files w)).2 w)
  end.

Definition source_op (p : path) (g : fs) : result (list Z * Z) ErrorKind :=
  match g !! p with
  | Some (File c m) => Ok (c, m)
  | Some (Dir _) => Err InvalidInput
  | None => let? _ := resolve_parent g p in Err NotFound
  end.

Definition fs_copy (src dst : path) : io (result unit ErrorKind) :=
  let!? cm := syscall (fun g => (source_op src g, g)) in
  fs_put dst cm.1 cm.2.

(** [InstallError] and [UninstallError]: they share every variant but
    [BackupExists] and [BackupMissing]. *)
Inductive InstallError :=
| ServiceNotFound (p : path)
| BackupExists (p : path)
| BackupMissing (p : path) (service : path)
| NotUtf8 (p : path)
| InstallIo (p : path) (k : ErrorKind)
| Persist (p : path) (k : ErrorKind).

Inductive InstallOutcome :=
| AlreadyInstalled (p : path)
| Installed (service backup : path).

Inductive UninstallOutcome :=
| NotInstalled (p : path)
| Restored (service backup : path).

Definition service_path (d : path) (s : str) : path := join d s.
Definition backup_path (d : path) (s : str) : path := join d (s ++ BACKUP_SUFFIX).

Section commands.
Context `{UW : UnicodeWord, UM : Umask, TF : Tempfile}.

Definition read_utf8 (p : path) : io (result str InstallError) :=
  let!? bytes := imap_err (InstallIo p) (fs_read p) in
  iret (if utf8 bytes then Ok bytes else Err (NotUtf8 p)).

Definition perm_bits (m : Z) : Z := Z.land m 4095.

Definition service_mode (p : path) : io (result Z InstallError) :=
  let!? meta := imap_err (InstallIo p) (fs_metadata p) in
  iret (Ok (perm_bits meta.2)).

Definition fill_and_persist (tmp target : path) (data : list Z) (mode : Z) : io (result unit InstallError) :=
  let!? _ := imap_err (InstallIo tmp) (fs_write tmp data) in
  let!? _ := imap_err (InstallIo tmp) fs_sync_all in
  let!? _ := imap_err (InstallIo tmp) (fs_set_permissions tmp mode) in
  imap_err (Persist target) (fs_rename tmp target).

(** [atomic_write] and [atomic_restore]; an error drops the temporary file, which
    unlinks it. *)
Definition atomic_write (target : path) (data : list Z) (mode : Z) : io (result unit InstallError) :=
  let d := default [] (parent target) in
  let!? tmp := imap_err (InstallIo d) (tmp_create d) in
  let! r := fill_and_persist tmp target data mode in
  match r with
  | Ok _ => iret (Ok tt)
  | Err e => let! _ := fs_remove_file tmp in iret (Err e)
  end.

(** The backup of a first installation. *)
Definition take_backup (service backup : path) (mode : Z) : io (result unit InstallError) :=
  let! there := fs_exists backup in
  if there then iret (Err (BackupExists backup))
  else
    let!? _ := imap_err (InstallIo backup) (fs_copy service backup) in
    imap_err (InstallIo backup) (fs_set_permissions backup mode).

(** The body [install] writes over [original]. *)
Definition new_contents (opts : InstallOpts) (original : str) : str :=
  let with_syauth :=
    if recognition_regex_match original then original else insert_line original (build_line opts) in
  maybe_insert_u2f_fallback with_syauth (with_u2f_fallback opts).

Definition install (opts : InstallOpts) : io (result InstallOutcome InstallError) :=
  let svc := service_path (pam_dir opts) (service opts) in
  let! there := fs_exists svc in
  if negb there then iret (Err (ServiceNotFound svc))
  else
    let!? original := read_utf8 svc in
    let syauth_present := recognition_regex_match original in
    let needs_u2f_insert := with_u2f_fallback opts && negb (u2f_present original) in
    if syauth_present && negb needs_u2f_insert then iret (Ok (AlreadyInstalled svc))
    else
      let!? mode := service_mode svc in
      let backup := backup_path (pam_dir opts) (service opts) in
      let!? _ := if syauth_present then iret (Ok tt) else take_backup svc backup mode in
      let!? _ := atomic_write svc (new_contents opts original) mode in
      iret (Ok (Installed svc backup)).

Definition uninstall (d : path) (name : str) : io (result UninstallOutcome InstallError) :=
  let svc := service_path d name in
  let! there := fs_exists svc in
  if negb there then iret (Err (ServiceNotFound svc))
  else
    let!? body := read_utf8 svc in
    if negb (recognition_regex_match body) then iret (Ok (NotInstalled svc))
    else
      let backup := backup_path d name in
      let! there := fs_exists backup in
      if negb there then iret (Err (BackupMissing backup svc))
      else
        let!? bak_bytes := imap_err (InstallIo backup) (fs_read backup) in
        let!? mode := service_mode svc in
        let!? _ := atomic_write svc bak_bytes mode in
        let!? _ := imap_err (InstallIo backup) (fs_remove_file backup) in
        iret (Ok (Restored svc backup)).
End commands.

(** ** Texts *)

(** A text that starts a character. *)
Definition starts_char (s : str) : Prop := match s with [] => True | b :: _ => cont b = false end.

Lemma chars_head s : match chars s with [] => s = [] | [] :: _ => False | (b :: _) :: _ => head s = Some b end.
Proof.
  destruct s as [|b s]; [done |]. cbn. destruct (chars s) as [|[|c g] gs]; try done. by destruct (cont c).
Qed.

Lemma concat_chars s : concat (chars s) = s.
Proof.
  induction s as [|b s IH]; [done |]. cbn. pose proof (chars_head s) as Hh.
  destruct (chars s) as [|[|c g] gs]; [by subst s | done |].
  destruct (cont c); cbn in *; by rewrite IH.
Qed.

Lemma chars_app a b : starts_char b -> chars (a ++ b) = chars a ++ chars b.
Proof.
  intros Hb. induction a as [|x a IH]; [done |]. cbn [app chars]. rewrite IH.
  pose proof (chars_head a) as Ha. destruct (chars a) as [|[|c g] gs]; [| done | cbn; by destruct (cont c)].
  subst a. cbn. pose proof (chars_head b) as Hh. destruct (chars b) as [|[|c g] gs]; [done | done |].
  destruct b as [|y b]; [done |]. injection Hh as ->. by rewrite Hb.
Qed.

Lemma chars_ascii s : Forall (fun b => cont b = false) s -> chars s = map (fun b => [b]) s.
Proof.
  induction 1 as [|b s Hb Hs IH]; [done |]. cbn. rewrite IH. destruct Hs as [|c s Hc _]; [done |].
  cbn. by rewrite Hc.
Qed.

Lemma concat_split s : concat (split_inclusive s) = s.
Proof.
  induction s as [|c s IH]; [done |]. cbn. destruct (c =? 10); cbn; [by rewrite IH |].
  destruct (split_inclusive s); cbn in *; by rewrite <- IH.
Qed.

Lemma split_line l s : 10 ∉ l -> split_inclusive (l ++ 10 :: s) = (l ++ [10]) :: split_inclusive s.
Proof.
  induction l as [|c l IH]; [done |]. intros [Hc Hl] % not_elem_of_cons. cbn. rewrite (IH Hl).
  destruct (Z.eqb_spec c 10); [by subst | done].
Qed.

(** Complete lines: a text that is empty or ends with a newline. *)
Inductive complete : str -> Prop :=
| complete_nil : complete []
| complete_line l s : 10 ∉ l -> complete s -> complete (l ++ 10 :: s).

Lemma complete_app a b : complete a -> complete b -> complete (a ++ b).
Proof. induction 1 as [|l s Hl _ IH]; intros Hb; [done |]. rewrite <- app_assoc. cbn. constructor; auto. Qed.

Lemma complete_one l : 10 ∉ l -> complete (l ++ [10]).
Proof. intros Hl. apply complete_line; [done | constructor]. Qed.

Lemma split_complete a b : complete a -> split_inclusive (a ++ b) = split_inclusive a ++ split_inclusive b.
Proof.
  induction 1 as [|l s Hl _ IH]; [done |]. rewrite <- app_assoc. cbn [app]. by rewrite !split_line, IH.
Qed.

Lemma split_nonempty s : Forall (fun l => l <> []) (split_inclusive s).
Proof.
  induction s as [|c s IH]; [constructor |]. cbn. destruct (c =? 10); [by constructor |].
  destruct IH as [|l ls _ Hls]; by repeat constructor.
Qed.

(** The lines before one of the lines are complete. *)
Lemma split_prefix s ls1 ls2 : split_inclusive s = ls1 ++ ls2 -> ls2 <> [] -> complete (concat ls1).
Proof.
  revert ls1. induction s as [|c s IH]; intros ls1; cbn [split_inclusive].
  - intros E Hn. symmetry in E. apply app_eq_nil in E as [-> ->]. done.
  - destruct ls1 as [|l ls1]; [constructor |]. destruct (Z.eqb_spec c 10) as [->|Hc].
    + intros [= <- E] Hn. apply (complete_line []); [set_solver | by apply (IH ls1)].
    + pose proof (split_nonempty s) as Hne. destruct (split_inclusive s) as [|l0 ls0].
      * intros [= <- E] Hn. symmetry in E. apply app_eq_nil in E as [-> ->]. done.
      * intros [= <- ->] Hn. specialize (IH (l0 :: ls1) eq_refl Hn).
        apply Forall_cons in Hne as [Hne _]. change (complete (c :: concat (l0 :: ls1))).
        inversion IH as [E|l1 s1 Hl Hs E]; [by destruct l0 |].
        cbn [concat]. rewrite <- E. apply (complete_line (c :: l1)); [set_solver | done].
Qed.

(** ** What is inserted *)

(** [new_line] goes before the first line that is an auth directive. *)
Lemma insert_loop_done new_line ls out : insert_loop new_line ls out true = (out ++ concat ls, true).
Proof.
  revert out. induction ls as [|l ls IH]; intros out; cbn; [by rewrite app_nil_r |]. by rewrite IH, <- app_assoc.
Qed.

Lemma insert_loop_spec new_line ls out :
  (exists ls1 l ls2, ls = ls1 ++ l :: ls2 /\ Forall (fun x => is_auth_directive x = false) ls1 /\
     is_auth_directive l = true /\
     insert_loop new_line ls out false = (out ++ concat ls1 ++ new_line ++ [10] ++ l ++ concat ls2, true)) \/
  (Forall (fun x => is_auth_directive x = false) ls /\ insert_loop new_line ls out false = (out ++ concat ls, false)).
Proof.
  revert out. induction ls as [|l ls IH]; intros out; cbn.
  - right. by rewrite app_nil_r.
  - destruct (is_auth_directive l) eqn:El.
    + left. exists [], l, ls. split_and!; try done. cbn. rewrite insert_loop_done. by rewrite <- !app_assoc.
    + destruct (IH (out ++ l)) as [(ls1 & l' & ls2 & -> & H1 & H2 & ->) | [H1 ->]].
      * left. exists (l :: ls1), l', ls2. split_and!; try done; [by constructor |]. cbn. by rewrite <- !app_assoc.
      * right. split; [by constructor |]. by rewrite <- app_assoc.
Qed.

Lemma insert_line_spec original new_line :
  exists ls1 ls2, split_inclusive original = ls1 ++ ls2 /\
    insert_line original new_line = concat ls1 ++ (new_line ++ [10]) ++ concat ls2 /\ complete (concat ls1) /\
    Forall (fun x => is_auth_directive x = false) ls1 /\
    match ls2 with
    | l :: _ => is_auth_directive l = true \/ ls1 = [] /\ Forall (fun x => is_auth_directive x = false) ls2
    | [] => original = []
    end.
Proof.
  unfold insert_line. destruct (insert_loop_spec new_line (split_inclusive original) [])
    as [(ls1 & l & ls2 & E & H1 & H2 & ->) | [H1 ->]].
  - exists ls1, (l :: ls2). split_and!; try done; [by rewrite <- !app_assoc | | by left].
    by apply (split_prefix original ls1 (l :: ls2)).
  - exists [], (split_inclusive original). split_and!; try done.
    + cbn. by rewrite concat_split, <- app_assoc.
    + constructor.
    + pose proof (concat_split original) as Hc. destruct (split_inclusive original); [by subst original | by right].
Qed.

(** A body that has the line [l], alone on its line. *)
Definition has_line (l body : str) : Prop := exists a b, complete a /\ body = a ++ (l ++ [10]) ++ b.

Lemma insert_has_line original l : has_line l (insert_line original l).
Proof. destruct (insert_line_spec original l) as (ls1 & ls2 & _ & -> & Hc & _). by eexists _, _. Qed.

Lemma u2f_loop_done ls out : u2f_loop ls out true = out ++ concat ls.
Proof.
  revert out. induction ls as [|l ls IH]; intros out; cbn; [by rewrite app_nil_r |]. by rewrite IH, <- app_assoc.
Qed.

Lemma u2f_loop_spec ls out :
  (exists ls1 l ls2, ls = ls1 ++ l :: ls2 /\ contains (lit "pam_syauth.so") l = true /\
     Forall (fun x => contains (lit "pam_syauth.so") x = false) ls1 /\
     u2f_loop ls out false = out ++ concat ls1 ++ l ++ (U2F_FALLBACK_LINE ++ [10]) ++ concat ls2) \/
  (Forall (fun x => contains (lit "pam_syauth.so") x = false) ls /\ u2f_loop ls out false = out ++ concat ls).
Proof.
  revert out. induction ls as [|l ls IH]; intros out; cbn [u2f_loop negb andb].
  - right. by rewrite app_nil_r.
  - destruct (contains (lit "pam_syauth.so") l) eqn:El.
    + left. exists [], l, ls. split_and!; try done. rewrite u2f_loop_done. cbn [concat app]. by rewrite <- !app_assoc.
    + destruct (IH (out ++ l)) as [(ls1 & l' & ls2 & -> & H1 & H2 & ->) | [H1 ->]].
      * left. exists (l :: ls1), l', ls2. split_and!; try done; [by constructor |]. cbn. by rewrite <- !app_assoc.
      * right. split; [by constructor |]. cbn. by rewrite <- app_assoc.
Qed.

(** ** Complete texts and lines *)

Lemma complete_snoc s : complete (s ++ [10]).
Proof.
  induction s as [|c s IH]; [apply (complete_line []); [set_solver | constructor] |].
  destruct (decide (c = 10)) as [->|Hc]; [apply (complete_line []); [set_solver | done] |].
  cbn. inversion IH as [E|l t Hl Ht E]; [by destruct s |].
  apply (complete_line (c :: l)); [set_solver | done].
Qed.

Lemma complete_inv s : complete s -> s = [] \/ exists t, s = t ++ [10].
Proof.
  induction 1 as [|l s _ _ [-> | [t ->]]]; [by left | right; by exists l | right].
  exists (l ++ 10 :: t). by rewrite <- app_assoc.
Qed.

Lemma complete_suffix a b : complete (a ++ b) -> complete b.
Proof.
  intros Hc. destruct b as [|x b] using rev_ind; [constructor |].
  apply complete_inv in Hc as [E | [t E]]; [by destruct a, b |].
  rewrite app_assoc in E. apply app_inj_tail in E as [_ ->]. apply complete_snoc.
Qed.

(** ** UTF-8 across lines *)

Lemma utf8_app a b : utf8 a = true -> utf8 (a ++ b) = utf8 b.
Proof.
  remember (length a) as n eqn:Hn. revert a Hn. induction (lt_wf n) as [n _ IH]. intros a -> Ha.
  assert (IH' : forall x, (length x < length a)%nat -> utf8 x = true -> utf8 (x ++ b) = utf8 b) by eauto.
  destruct a as [|c1 a]; [done |]. cbn [app utf8] in *.
  destruct (c1 <=? 127); [apply IH'; [cbn; lia | done] |].
  destruct a as [|c2 a]; [done |]. cbn [app].
  destruct ((194 <=? c1) && (c1 <=? 223) && cont c2); [apply IH'; [cbn; lia | done] |].
  destruct a as [|c3 a]; [done |]. cbn [app].
  match goal with |- (if ?x then _ else _) = _ => destruct x end; [apply IH'; [cbn; lia | done] |].
  destruct a as [|c4 a]; [done |]. cbn [app].
  match goal with |- (if ?x then _ else _) = _ => destruct x end; [apply IH'; [cbn; lia | done] | done].
Qed.

Lemma utf8_split a b : utf8 (a ++ 10 :: b) = true -> utf8 a = true /\ utf8 b = true.
Proof.
  remember (length a) as n eqn:Hn. revert a Hn. induction (lt_wf n) as [n _ IH]. intros a -> Ha.
  assert (IH' : forall x, (length x < length a)%nat -> utf8 (x ++ 10 :: b) = true -> utf8 x = true /\ utf8 b = true)
    by eauto.
  assert (H10 : cont 10 = false) by done.
  destruct a as [|c1 a]; [done |]. cbn [app utf8] in *.
  destruct (c1 <=? 127); [apply IH'; [cbn; lia | done] |].
  destruct a as [|c2 a]; cbn [app] in Ha.
  { rewrite H10, !andb_false_r in Ha. cbn in Ha. rewrite ?andb_false_r in Ha. cbn in Ha.
    by destruct b as [|? [|? ?]]. }
  destruct ((194 <=? c1) && (c1 <=? 223) && cont c2); [apply IH'; [cbn; lia | done] |].
  destruct a as [|c3 a]; cbn [app] in Ha.
  { rewrite H10, !andb_false_r in Ha. cbn in Ha. by destruct b. }
  match type of Ha with (if ?x then _ else _) = _ => destruct x end; [apply IH'; [cbn; lia | done] |].
  destruct a as [|c4 a]; cbn [app] in Ha; [by rewrite H10, !andb_false_r in Ha |].
  match type of Ha with (if ?x then _ else _) = _ => destruct x end; [apply IH'; [cbn; lia | done] | done].
Qed.

Lemma utf8_complete a b : complete a -> utf8 (a ++ b) = true -> utf8 a = true /\ utf8 b = true.
Proof.
  intros [-> | [t ->]] % complete_inv; [done |]. rewrite <- app_assoc. cbn [app].
  intros [H1 H2] % utf8_split. split; [| done]. by rewrite utf8_app.
Qed.

Lemma utf8_insert a x b : complete a -> utf8 (a ++ b) = true -> utf8 x = true -> utf8 (a ++ x ++ b) = true.
Proof. intros Ha Hab Hx. apply utf8_complete in Hab as [H1 H2]; [| done]. by rewrite !utf8_app. Qed.

(** Where the fallback goes when the line [L] mentions the module. *)
Lemma u2f_loop_at A L B out :
  contains (lit "pam_syauth.so") L = true ->
  (exists A1 A2, A = A1 ++ A2 /\
     u2f_loop (A ++ L :: B) out false =
       out ++ concat A1 ++ (U2F_FALLBACK_LINE ++ [10]) ++ concat A2 ++ L ++ concat B) \/
  u2f_loop (A ++ L :: B) out false = out ++ concat A ++ L ++ (U2F_FALLBACK_LINE ++ [10]) ++ concat B.
Proof.
  intros HL. revert out. induction A as [|x A IH]; intros out; cbn [app u2f_loop negb andb].
  - right. rewrite HL, u2f_loop_done. cbn [concat app]. by rewrite <- !app_assoc.
  - destruct (contains (lit "pam_syauth.so") x).
    + left. exists [x], A. split; [done |]. rewrite u2f_loop_done, concat_app. cbn [concat].
      by rewrite app_nil_r, <- !app_assoc.
    + destruct (IH (out ++ x)) as [(A1 & A2 & -> & ->) | ->].
      * left. exists (x :: A1), A2. split; [done |]. cbn [concat]. by rewrite <- !app_assoc.
      * right. cbn [concat]. by rewrite <- !app_assoc.
Qed.

Lemma u2f_lines l body :
  10 ∉ l -> contains (lit "pam_syauth.so") (l ++ [10]) = true -> has_line l body ->
  let body' := u2f_loop (split_inclusive body) [] false in
  has_line l body' /\ has_line U2F_FALLBACK_LINE body' /\ (utf8 body = true -> utf8 body' = true).
Proof.
  intros Hl Hc (a & b & Ha & ->) body'.
  assert (E : split_inclusive (a ++ (l ++ [10]) ++ b) = split_inclusive a ++ @cons str (l ++ [10]) (split_inclusive b)).
  { rewrite split_complete by done. rewrite <- app_assoc. cbn [app]. by rewrite split_line. }
  assert (Hu : complete (U2F_FALLBACK_LINE ++ [10])) by apply complete_snoc.
  unfold body'. rewrite E. clear body'.
  destruct (u2f_loop_at (split_inclusive a) (l ++ [10]) (split_inclusive b) [] Hc) as [(A1 & A2 & EA & ->) | ->].
  - assert (H1 : complete (concat A1)).
    { apply (split_prefix (a ++ (l ++ [10]) ++ b) A1 (A2 ++ @cons str (l ++ [10]) (split_inclusive b)));
        [by rewrite E, EA, <- app_assoc | by destruct A2]. }
    assert (H2 : complete (concat A2)).
    { apply (complete_suffix (concat A1)). replace (concat A1 ++ concat A2) with a; [done |].
      rewrite <- (concat_split a), EA. apply concat_app. }
    split; [| split; [by exists (concat A1), (concat A2 ++ (l ++ [10]) ++ concat (split_inclusive b)) |]].
    2: { intros Hu8. cbn [app]. apply utf8_insert; [done | | done]. rewrite concat_split.
         replace (concat A1 ++ concat A2 ++ (l ++ [10]) ++ b) with (a ++ (l ++ [10]) ++ b); [done |].
         rewrite <- (concat_split a), EA, (concat_app A1 A2) at 1. by rewrite <- app_assoc. }
    exists (concat A1 ++ (U2F_FALLBACK_LINE ++ [10]) ++ concat A2), (concat (split_inclusive b)).
    split; [apply complete_app; [done | by apply complete_app] |]. cbn [app]. by rewrite <- !app_assoc.
  - rewrite !concat_split. split; [by exists a, ((U2F_FALLBACK_LINE ++ [10]) ++ b) |].
    assert (Hal : complete (a ++ l ++ [10])) by (apply complete_app; [done | apply complete_snoc]).
    split; [| cbn [app]; rewrite !(app_assoc a); intros Hu8; apply utf8_insert; [apply complete_snoc | done | done]].
    exists (a ++ l ++ [10]), b.
    split; [done |]. cbn [app]. by rewrite <- !app_assoc.
Qed.

(** ** Recognition *)

Section recognition.
Context `{UW : UnicodeWord}.

Definition last_char (prev : option str) (w : list str) : option str :=
  match last w with Some c => Some c | None => prev end.

Lemma last_char_cons prev c w : last_char prev (c :: w) = last_char (Some c) w.
Proof. unfold last_char. rewrite last_cons. by destruct (last w). Qed.

Lemma match_many_take p k prev w s :
  Forall (fun c => p c = true) w -> k (last_char prev w) s = true -> match_many p k prev (w ++ s) = true.
Proof.
  intros Hw. revert prev. induction Hw as [|c w Hc _ IH]; intros prev; cbn [app].
  - unfold last_char. cbn. intros Hk. destruct s; cbn; by rewrite Hk.
  - rewrite last_char_cons. intros Hk % IH. cbn. rewrite Hc, Hk. by destruct (k _ _).
Qed.

Lemma match_literal m pat prev s :
  match_here (literal m ++ pat) prev (map (fun b => [b]) m ++ s) =
    match_here pat (last_char prev (map (fun b => [b]) m)) s.
Proof.
  revert prev. induction m as [|b m IH]; intros prev; [done |]. cbn [map literal app match_here].
  unfold is_char. rewrite bool_decide_eq_true_2 by done.
  fold (literal m). by rewrite IH, last_char_cons.
Qed.

Lemma match_many_none p pat prev s : match_here pat prev s = true -> match_here ([Many p] ++ pat) prev s = true.
Proof. intros H. by apply (match_many_take p (match_here pat) prev []). Qed.

Lemma match_plus p pat prev c w s :
  p c = true -> Forall (fun c => p c = true) w -> match_here pat (last_char (Some c) w) s = true ->
  match_here (Plus p :: pat) prev ((c :: w) ++ s) = true.
Proof. intros Hc Hw Hk. cbn. rewrite Hc. by apply match_many_take. Qed.

Lemma search_skip pat prev u v :
  search pat (last_char prev u) v = true -> search pat prev (u ++ v) = true.
Proof.
  revert prev. induction u as [|c u IH]; intros prev; [done |]. rewrite last_char_cons. intros H % IH.
  cbn. rewrite H. by destruct (if line_start _ then _ else _).
Qed.

Lemma search_here pat prev s : line_start prev = true -> match_here pat prev s = true -> search pat prev s = true.
Proof. intros Hs Hm. destruct s; cbn [search]; by rewrite Hs, Hm. Qed.

Lemma search_line pat a b :
  complete a -> starts_char b -> (forall prev, match_here pat prev (chars b) = true) ->
  search pat None (chars (a ++ b)) = true.
Proof.
  intros Ha Hb Hm. rewrite chars_app by done. apply search_skip.
  assert (Hs : line_start (last_char None (chars a)) = true).
  { apply complete_inv in Ha as [-> | [t ->]]; [done |]. rewrite chars_app by done.
    unfold last_char. cbn [chars]. by rewrite last_snoc. }
  by apply search_here.
Qed.

(** A line of the shape both patterns look for. *)
Lemma match_auth_line m ctrl rest prev :
  ctrl <> [] -> starts_char ctrl -> Forall (fun c => non_whitespace c = true) (chars ctrl) -> starts_char rest ->
  m <> [] -> Forall (fun b => cont b = false) m -> word_at (last_char None (map (fun b => [b]) m)) = true ->
  match_here (auth_line_regex m) prev (chars (lit "auth    " ++ ctrl ++ lit "    " ++ m ++ lit " " ++ rest)) = true.
Proof.
  intros Hne Hst Hctrl Hrest Hm Hasc Hword.
  assert (E : chars (lit "auth    " ++ ctrl ++ lit "    " ++ m ++ lit " " ++ rest) =
    map (fun b => [b]) (lit "auth") ++ ([32] :: [[32]; [32]; [32]]) ++ chars ctrl ++ ([32] :: [[32]; [32]; [32]]) ++
    map (fun b => [b]) m ++ chars (lit " " ++ rest)).
  { rewrite chars_app by (destruct ctrl; done). rewrite chars_app by done.
    rewrite chars_app by (destruct m; [done |]; by apply Forall_cons in Hasc as [? _]).
    rewrite chars_app by done. by rewrite (chars_ascii m). }
  rewrite E. unfold auth_line_regex. apply match_many_none.
  rewrite match_literal. apply match_plus; [done | by repeat constructor |].
  destruct (chars ctrl) as [|c cs] eqn:Ec; [by pose proof (concat_chars ctrl) as Hx; rewrite Ec in Hx; subst |].
  apply Forall_cons in Hctrl as [Hc Hcs]. apply match_plus; [done | done |].
  apply match_plus; [done | by repeat constructor |]. rewrite match_literal.
  assert (Hl : forall p, last_char p (map (fun b => [b]) m) = last_char None (map (fun b => [b]) m)).
  { intros p. unfold last_char. destruct m as [|b m]; [done |]. cbn [map]. rewrite last_cons. by destruct (last _). }
  rewrite Hl, chars_app by done. cbn [match_here]. by rewrite Hword.
Qed.
End recognition.

(** The options a usable line comes from: the control flag is one word, the
    module has its own name and the arguments stay on the line. *)
Record wired (opts : InstallOpts) : Prop := mkWired {
  wired_control : control opts <> [] /\ utf8 (control opts) = true /\ 10 ∉ control opts /\
    Forall (fun c => non_whitespace c = true) (chars (control opts));
  wired_so : so_path opts = DEFAULT_SO_NAME;
  wired_args : utf8 (module_args opts) = true /\ 10 ∉ module_args opts;
}.

Lemma utf8_starts s : utf8 s = true -> starts_char s.
Proof.
  destruct s as [|a s]; [done |]. cbn [utf8 starts_char]. unfold cont at 8.
  destruct (Z.leb_spec a 127); [intros _; destruct (Z.leb_spec 128 a); [lia | done] |].
  intros Hu. destruct (Z.leb_spec a 191) as [Hle|]; [| by rewrite andb_false_r]. exfalso. revert Hu.
  destruct s as [|b s]; [done |]. rewrite (proj2 (Z.leb_gt 194 a)) by lia. cbn [andb].
  destruct s as [|c s]; [done |].
  rewrite (proj2 (Z.eqb_neq a 224)), (proj2 (Z.leb_gt 225 a)), (proj2 (Z.eqb_neq a 237)), (proj2 (Z.leb_gt 238 a)) by lia.
  cbn [andb orb]. destruct s as [|d s]; [done |].
  by rewrite (proj2 (Z.eqb_neq a 240)), (proj2 (Z.leb_gt 241 a)), (proj2 (Z.eqb_neq a 244)) by lia.
Qed.

Lemma contains_app a n b : contains n (a ++ n ++ b) = true.
Proof.
  induction a as [|x a IH]; cbn [app].
  - destruct (n ++ b) eqn:E; cbn [contains]; by rewrite <- E, strip_prefix_app.
  - cbn. by destruct (strip_prefix n _).
Qed.

Section lines.
Context `{UW : UnicodeWord}.

Lemma build_line_recognised opts body :
  wired opts -> has_line (build_line opts) body -> recognition_regex_match body = true.
Proof.
  intros [(Hc & Hcu & _ & Hcw) Hso [Ha _]] (a & b & Hcom & ->). unfold recognition_regex_match.
  apply search_line; [done | done |]. intros prev.
  replace ((build_line opts ++ [10]) ++ b) with
    (lit "auth    " ++ control opts ++ lit "    " ++ DEFAULT_SO_NAME ++ lit " " ++ (module_args opts ++ [10] ++ b)).
  2: { unfold build_line. rewrite Hso. by rewrite <- !app_assoc. }
  apply match_auth_line; try done; [by apply utf8_starts | | by repeat constructor].
  apply utf8_starts in Ha. by destruct (module_args opts).
Qed.

Lemma u2f_line_recognised body : has_line U2F_FALLBACK_LINE body -> u2f_present body = true.
Proof.
  intros (a & b & Hcom & ->). unfold u2f_present. apply search_line; [done | done |]. intros prev.
  change ((U2F_FALLBACK_LINE ++ [10]) ++ b) with
    (lit "auth    " ++ lit "sufficient" ++ lit "    " ++ lit "pam_u2f.so" ++ lit " " ++ (lit "cue" ++ [10] ++ b)).
  apply match_auth_line; try done; by repeat constructor.
Qed.

Lemma build_line_one opts : wired opts -> 10 ∉ build_line opts.
Proof.
  intros [(_ & _ & Hc & _) Hso [_ Ha]]. unfold build_line. rewrite Hso, !not_elem_of_app.
  split_and!; try done; decide_now.
Qed.

Lemma build_line_contains opts : wired opts -> contains (lit "pam_syauth.so") (build_line opts ++ [10]) = true.
Proof.
  intros [_ Hso _]. unfold build_line. rewrite Hso.
  replace (_ ++ [10]) with ((MODULE_TYPE ++ FIELD_SEPARATOR ++ control opts ++ FIELD_SEPARATOR) ++ DEFAULT_SO_NAME ++
    (lit " " ++ module_args opts ++ [10])) by (by rewrite <- !app_assoc).
  apply contains_app.
Qed.

(** The body a first installation writes has the lines it is to have. *)
Lemma new_contents_lines opts original :
  wired opts -> recognition_regex_match original = false ->
  has_line (build_line opts) (new_contents opts original) /\
  (with_u2f_fallback opts = true -> u2f_present (new_contents opts original) = true).
Proof.
  intros Hw Hr. unfold new_contents. rewrite Hr. pose proof (insert_has_line original (build_line opts)) as Hl.
  unfold maybe_insert_u2f_fallback. destruct (with_u2f_fallback opts); cbn [negb]; [| done].
  destruct (u2f_present (insert_line original (build_line opts))) eqn:Eu; [done |].
  destruct (u2f_lines _ _ (build_line_one opts Hw) (build_line_contains opts Hw) Hl) as (H1 & H2 & _).
  split; [done |]. intros _. by apply u2f_line_recognised.
Qed.
End lines.

(** ** Runs without faults *)

Section calm_runs.
Context `{UW : UnicodeWord, UM : Umask, TF : Tempfile, !TempfileLaws TF}.
Context (d : path).

Lemma atomic_write_calm g n data mode :
  resolve g [] d = Ok tt -> not_dir (g !! join d n) -> ~ is_tmp_name n ->
  atomic_write (join d n) data mode (calm g) = (Ret (Ok tt), calm (<[join d n := File data mode]> g)).
Proof.
  intros Hr Hnd Hn. pose proof (tmp_fresh g d) as Hf. set (tn := tmp_name g d) in *.
  assert (Ht : join d tn <> join d n) by (intros [_ E] % join_inj; apply Hn; by eexists).
  unfold atomic_write. rewrite parent_join. change (default [] (Some d)) with d. erewrite itry_map_ok.
  2: { unfold tmp_create. rewrite syscall_calm. unfold tmp_create_op. rewrite Hr. fold tn. by rewrite Hf. }
  set (g1 := <[join d tn := File [] 384]> g).
  assert (R1 : resolve g1 [] d = Ok tt) by (apply (resolve_mono g); [apply dirs_kept_insert; by rewrite Hf | done]).
  set (g2 := <[join d tn := File data 384]> g).
  assert (R2 : resolve g2 [] d = Ok tt) by (apply (resolve_mono g); [apply dirs_kept_insert; by rewrite Hf | done]).
  assert (E1 : fs_write (join d tn) data (calm g1) = (Ret (Ok tt), calm g2)).
  { rewrite write_calm, (write_op_ready g1 d R1) by (unfold g1; by rewrite lookup_insert_eq).
    unfold g1, g2. by rewrite lookup_insert_eq, insert_insert_eq. }
  set (g3 := <[join d tn := File data mode]> g).
  assert (R3 : resolve g3 [] d = Ok tt) by (apply (resolve_mono g); [apply dirs_kept_insert; by rewrite Hf | done]).
  unfold ibind, fill_and_persist. rewrite (itry_map_ok _ _ _ _ _ _ E1).
  assert (Es : fs_sync_all (calm g2) = (Ret (Ok tt), calm g2)) by done. rewrite (itry_map_ok _ _ _ _ _ _ Es).
  assert (Em : fs_set_permissions (join d tn) mode (calm g2) = (Ret (Ok tt), calm g3)).
  { unfold fs_set_permissions. rewrite syscall_calm, (set_permissions_op_ready g2 d R2 tn data 384 mode)
      by apply lookup_insert_eq. unfold g2, g3. by rewrite insert_insert_eq. }
  rewrite (itry_map_ok _ _ _ _ _ _ Em). unfold imap_err, ibind, fs_rename.
  rewrite syscall_calm, (rename_op_ready g3 d R3 tn n data mode).
  - cbn. unfold g3. by rewrite delete_insert_id.
  - apply lookup_insert_eq.
  - unfold g3. by rewrite lookup_insert_ne.
Qed.

Lemma read_utf8_calm g n c m :
  g !! join d n = Some (File c m) -> utf8 c = true -> read_utf8 (join d n) (calm g) = (Ret (Ok c), calm g).
Proof.
  intros Hf Hu. unfold read_utf8. erewrite itry_map_ok.
  2: { unfold fs_read. by rewrite syscall_calm, (read_op_file _ _ _ _ Hf). }
  by rewrite Hu.
Qed.

Lemma service_mode_calm g n c m :
  resolve g [] d = Ok tt -> g !! join d n = Some (File c m) ->
  service_mode (join d n) (calm g) = (Ret (Ok (perm_bits m)), calm g).
Proof.
  intros Hd Hf. assert (E : fs_metadata (join d n) (calm g) = (Ret (Ok (IsFile, m)), calm g)).
  { unfold fs_metadata. rewrite syscall_calm. destruct (join d n) eqn:E; [by destruct d |].
    rewrite <- E in *. rewrite resolve_parent_join, Hd. cbn [rbind]. by rewrite Hf. }
  unfold service_mode. by rewrite (itry_map_ok _ _ _ _ _ _ E).
Qed.

Lemma put_calm p data m g : fs_put p data m (calm g) = (Ret (put_op p data m g).1, calm (put_op p data m g).2).
Proof. unfold fs_put. cbn. by destruct (put_op p data m g). Qed.

Lemma take_backup_calm g n b c m :
  resolve g [] d = Ok tt -> g !! join d n = Some (File c m) -> g !! join d b = None -> n <> b ->
  take_backup (join d n) (join d b) (perm_bits m) (calm g) =
    (Ret (Ok tt), calm (<[join d b := File c (perm_bits m)]> g)).
Proof.
  intros Hd Hf Hb Hne. unfold take_backup, ibind at 1. rewrite exists_calm by done.
  rewrite bool_decide_eq_false_2 by (rewrite Hb; by intros []).
  set (g1 := <[join d b := File c m]> g).
  assert (R1 : resolve g1 [] d = Ok tt) by (apply (resolve_mono g); [apply dirs_kept_insert; by rewrite Hb | done]).
  assert (E1 : syscall (fun g => (source_op (join d n) g, g)) (calm g) = (Ret (Ok (c, m)), calm g)).
  { rewrite syscall_calm. unfold source_op. by rewrite Hf. }
  assert (E2 : fs_copy (join d n) (join d b) (calm g) = (Ret (Ok tt), calm g1)).
  { unfold fs_copy. rewrite (itry_ok _ _ _ _ _ E1), put_calm. unfold put_op.
    by rewrite resolve_parent_join, Hd, Hb. }
  rewrite (itry_map_ok _ _ _ _ _ _ E2). unfold imap_err, ibind, fs_set_permissions.
  rewrite syscall_calm, (set_permissions_op_ready g1 d R1 b c m) by apply lookup_insert_eq.
  cbn. unfold g1. by rewrite insert_insert_eq.
Qed.

Lemma suffix_ne n : n <> n ++ BACKUP_SUFFIX.
Proof. intros E % (f_equal length). rewrite length_app in E. cbn in E. lia. Qed.

(** A first installation. *)
Lemma install_calm_first g opts c m :
  pam_dir opts = d -> resolve g [] d = Ok tt -> ~ is_tmp_name (service opts) ->
  g !! service_path d (service opts) = Some (File c m) -> utf8 c = true -> recognition_regex_match c = false ->
  g !! backup_path d (service opts) = None ->
  install opts (calm g) =
    (Ret (Ok (Installed (service_path d (service opts)) (backup_path d (service opts)))),
     calm (<[service_path d (service opts) := File (new_contents opts c) (perm_bits m)]>
       (<[backup_path d (service opts) := File c (perm_bits m)]> g))).
Proof.
  intros Hpd Hd Hn Hf Hu Hr Hb. unfold install. rewrite Hpd. unfold service_path, backup_path in *.
  unfold ibind at 1. rewrite exists_calm by done. rewrite bool_decide_eq_true_2 by (by rewrite Hf). cbn [negb].
  rewrite (itry_ok _ _ _ _ _ (read_utf8_calm g _ c m Hf Hu)), Hr. cbn [andb].
  rewrite (itry_ok _ _ _ _ _ (service_mode_calm g _ c m Hd Hf)).
  rewrite (itry_ok _ _ _ _ _ (take_backup_calm g _ _ c m Hd Hf Hb (suffix_ne _))).
  set (g1 := <[join d (service opts ++ BACKUP_SUFFIX) := File c (perm_bits m)]> g).
  assert (R1 : resolve g1 [] d = Ok tt) by (apply (resolve_mono g); [apply dirs_kept_insert; by rewrite Hb | done]).
  erewrite itry_ok; [reflexivity |]. apply atomic_write_calm; [done | | done].
  unfold g1. rewrite lookup_insert_ne by (intros [_ E] % join_inj; by apply (suffix_ne (service opts))). by rewrite Hf.
Qed.

(** An installation that finds everything in place. *)
Lemma install_calm_again g opts c m :
  pam_dir opts = d -> resolve g [] d = Ok tt ->
  g !! service_path d (service opts) = Some (File c m) -> utf8 c = true -> recognition_regex_match c = true ->
  (with_u2f_fallback opts = true -> u2f_present c = true) ->
  install opts (calm g) = (Ret (Ok (AlreadyInstalled (service_path d (service opts)))), calm g).
Proof.
  intros Hpd Hd Hf Hu Hr H2. unfold install. rewrite Hpd. unfold service_path in *.
  unfold ibind at 1. rewrite exists_calm by done. rewrite bool_decide_eq_true_2 by (by rewrite Hf). cbn [negb].
  rewrite (itry_ok _ _ _ _ _ (read_utf8_calm g _ c m Hf Hu)), Hr. cbn [andb].
  destruct (with_u2f_fallback opts); [by rewrite H2 | done].
Qed.

Lemma uninstall_calm g n c m k mk :
  resolve g [] d = Ok tt -> ~ is_tmp_name n ->
  g !! service_path d n = Some (File c m) -> utf8 c = true -> recognition_regex_match c = true ->
  g !! backup_path d n = Some (File k mk) ->
  uninstall d n (calm g) =
    (Ret (Ok (Restored (service_path d n) (backup_path d n))),
     calm (delete (backup_path d n) (<[service_path d n := File k (perm_bits m)]> g))).
Proof.
  intros Hd Hn Hf Hu Hr Hb. unfold uninstall, service_path, backup_path in *.
  unfold ibind at 1. rewrite exists_calm by done. rewrite bool_decide_eq_true_2 by (by rewrite Hf). cbn [negb].
  rewrite (itry_ok _ _ _ _ _ (read_utf8_calm g _ c m Hf Hu)), Hr. cbn [negb].
  unfold ibind at 1. rewrite exists_calm by done. rewrite bool_decide_eq_true_2 by (by rewrite Hb). cbn [negb].
  erewrite itry_map_ok by (unfold fs_read; by rewrite syscall_calm, (read_op_file _ _ _ _ Hb)).
  rewrite (itry_ok _ _ _ _ _ (service_mode_calm g _ c m Hd Hf)).
  rewrite (itry_ok _ _ _ _ _ (atomic_write_calm g n k (perm_bits m) Hd ltac:(by rewrite Hf) Hn)).
  set (g1 := <[join d n := File k (perm_bits m)]> g).
  assert (R1 : resolve g1 [] d = Ok tt) by (apply (resolve_mono g); [apply dirs_kept_insert; by rewrite Hf | done]).
  erewrite itry_map_ok; [reflexivity |]. apply (remove_calm g1 d _ k mk R1).
  unfold g1. rewrite lookup_insert_ne; [done |]. intros [_ E] % join_inj. by apply (suffix_ne n).
Qed.
End calm_runs.

(** ** Runs that meet faults *)

Section faults.
Context `{UW : UnicodeWord, UM : Umask, TF : Tempfile}.

Lemma ctriple_put (P : fs -> Prop) p data m Q R :
  (forall g, P g ->
     Q (put_op p data m g).1 (put_op p data m g).2 /\ (forall k, Q (Err k) g) /\ R g /\
     forall n, R (put_op p (take n data) m g).2 /\ forall k, Q (Err k) (put_op p (take n data) m g).2) ->
  ctriple P (fs_put p data m) Q R.
Proof.
  intros Hf w Hw. specialize (Hf (files w) Hw). destruct Hf as (H1 & H2 & H3 & H4). unfold fs_put.
  rewrite <- (next_fault_files w) in *.
  destruct (next_fault w) as [[|k [n|]|[n|]] w1]; cbn in *; auto; try by apply H4.
  by destruct (put_op p data m (files w1)).
Qed.

(** The target goes from its old content to the full new one in one step. *)
Lemma fill_and_persist_triple tmp p data mode old :
  tmp <> p ->
  ctriple (fun g => g !! p = old) (fill_and_persist tmp p data mode)
    (fun r g => g !! p = match r with Ok _ => Some (File data mode) | Err _ => old end)
    (fun g => g !! p = old \/ g !! p = Some (File data mode)).
Proof.
  intros Hne. unfold fill_and_persist. set (kept := fun g : fs => g !! p = old).
  set (filled := fun g : fs => kept g /\ exists m, g !! tmp = Some (File data m)).
  eapply (ctriple_try _ _ _ (fun _ => filled)).
  { apply ctriple_map_err, ctriple_write. intros g Hg.
    assert (Hw : forall x, (write_op tmp x g).2 !! p = old).
    { intros x. rewrite write_op_other; done. }
    split_and!; [| done | by left | intros n; split; [left; apply Hw | intros k; apply Hw]].
    unfold filled, kept, write_op. destruct (resolve_parent g tmp); [| done].
    destruct (g !! tmp) as [[c m|m]|]; cbn; try done; rewrite lookup_insert_ne, lookup_insert_eq by done; eauto. }
  intros _. eapply (ctriple_try _ _ _ (fun _ => filled)).
  { apply ctriple_map_err, ctriple_syscall. intros g [Hg Hf]. cbn. unfold filled. auto. }
  intros _. eapply (ctriple_try _ _ _ (fun _ g => kept g /\ g !! tmp = Some (File data mode))).
  { apply ctriple_map_err, ctriple_syscall. intros g [Hg [m Hm]]. unfold set_permissions_op, kept in *.
    destruct (resolve_parent g tmp); [| by auto]. rewrite Hm. cbn.
    rewrite lookup_insert_ne, lookup_insert_eq by done. auto. }
  intros _. apply ctriple_map_err, ctriple_syscall. intros g [Hg Hm]. unfold rename_op, kept in *.
  destruct (resolve_parent g tmp), (resolve_parent g p); try (by auto). rewrite Hm.
  destruct (g !! p) as [[c m|m]|] eqn:E; cbn; rewrite ?lookup_insert_eq, ?E; auto.
Qed.

Definition write_touches (d p q : path) : Prop := tmp_in d q \/ q = p.

Lemma touches_atomic_write d n data mode :
  touches (write_touches d (join d n)) (atomic_write (join d n) data mode).
Proof.
  unfold atomic_write. rewrite parent_join. change (default [] (Some d)) with d.
  apply touches_with_tmp; [unfold write_touches; auto |]. intros q Hq.
  assert (Hsub : forall p, p = q \/ p = join d n -> write_touches d (join d n) p).
  { intros p [-> | ->]; unfold write_touches; auto. }
  apply touches_bind.
  - eapply (touches_weaken (fun p => p = q \/ p = join d n)); [unfold fill_and_persist; touch | exact Hsub].
  - intros [|e]; [apply touches_ret |]. apply touches_bind; [| intros; apply touches_ret].
    eapply touches_weaken; [apply touches_remove_file |]. intros p <-. apply Hsub. by left.
Qed.

Lemma atomic_write_triple d n data mode old :
  ~ is_tmp_name n ->
  ctriple (fun g => g !! join d n = old) (atomic_write (join d n) data mode)
    (fun r g => g !! join d n = match r with Ok _ => Some (File data mode) | Err _ => old end)
    (fun g => g !! join d n = old \/ g !! join d n = Some (File data mode)).
Proof.
  intros Hn. unfold atomic_write. rewrite parent_join. change (default [] (Some d)) with d.
  set (kept := fun g : fs => g !! join d n = old).
  eapply (ctriple_try _ _ _ (fun tmp g => tmp <> join d n /\ kept g)).
  { apply ctriple_map_err, ctriple_syscall. intros g Hg. unfold tmp_create_op.
    assert (Ht : join d (tmp_name g d) <> join d n) by (intros [_ E] % join_inj; apply Hn; by eexists).
    destruct (resolve g [] d); [| by auto]. destruct (g !! join d (tmp_name g d)); [by auto |].
    cbn. unfold kept. rewrite !lookup_insert_ne by done. auto. }
  intros tmp. apply ctriple_pure. intros Ht.
  eapply ctriple_bind; [apply (fill_and_persist_triple tmp (join d n) data mode old Ht) |].
  intros [[]|e]; [by apply ctriple_ret |].
  eapply (ctriple_bind _ _ _ (fun _ => kept)); [| intros _; by apply ctriple_ret].
  intros w Hw. pose proof (touches_remove_file tmp w (join d n) Ht) as E.
  destruct (fs_remove_file tmp w) as [[| |] w']; cbn in *; unfold kept in *; rewrite E; auto.
Qed.

Lemma take_backup_triple g0 svc bak c m mode :
  svc <> bak -> g0 !! svc = Some (File c m) ->
  ctriple (eq g0) (take_backup svc bak mode)
    (fun r g => g !! svc = g0 !! svc /\ (is_ok r = true -> g !! bak = Some (File c mode)))
    (fun g => g !! svc = g0 !! svc).
Proof.
  intros Hne Hf. unfold take_backup.
  eapply ctriple_bind; [eapply ctriple_conseq; [apply (exists_triple (eq g0)) | done | | by intros g <-] |].
  { intros b g [Hg _]. exact Hg. }
  intros [|]; [apply ctriple_ret; by intros g <- |].
  set (kept := fun g : fs => g !! svc = g0 !! svc).
  eapply (ctriple_try _ _ _ (fun _ g => kept g /\ exists k, g !! bak = Some (File c k))).
  { apply ctriple_map_err. unfold fs_copy.
    eapply (ctriple_try _ _ _ (fun cm g => kept g /\ cm = (c, m))).
    - apply ctriple_syscall. intros g <-. cbn. unfold source_op. rewrite Hf. done.
    - intros cm. apply (ctriple_put (fun g => kept g /\ cm = (c, m))). intros g [Hg ->]. cbn [fst snd].
      assert (Hp : forall x, kept (put_op bak x m g).2).
      { intros x. unfold put_op, kept. destruct (resolve_parent g bak); [| done].
        destruct (g !! bak) as [[]|]; cbn; rewrite ?lookup_insert_ne by done; done. }
      split_and!; [| done | done | intros k; split; [apply Hp | by intros k'; split; [apply Hp |]]].
      unfold put_op in *. destruct (resolve_parent g bak); [| done].
      destruct (g !! bak) as [[]|] eqn:Eb; cbn; try done; (split; [apply (Hp c) |]);
        cbn; rewrite ?lookup_insert_eq; eauto. }
  intros _. apply ctriple_map_err, ctriple_syscall. intros g [Hg [k Hk]]. unfold set_permissions_op.
  destruct (resolve_parent g bak); [| by split_and!]. rewrite Hk. cbn. unfold kept in *.
  rewrite !lookup_insert_ne, lookup_insert_eq by done. by split_and!.
Qed.

Lemma read_utf8_triple g0 p :
  ctriple (eq g0) (read_utf8 p)
    (fun r g => g0 = g /\ forall c, r = Ok c -> utf8 c = true /\ exists m, g0 !! p = Some (File c m)) (eq g0).
Proof.
  unfold read_utf8. eapply (ctriple_try _ _ _ (fun c g => g0 = g /\ exists m, g0 !! p = Some (File c m))).
  - apply ctriple_map_err. eapply ctriple_conseq; [apply (read_triple (eq g0)) | done | | done].
    intros [c|e] g [<- Hc]; cbn; [by auto | done].
  - intros c. apply ctriple_ret. intros g [<- Hm]. split; [done |]. intros c'.
    destruct (utf8 c) eqn:Eu; [| done]. intros [= <-]. done.
Qed.

Lemma service_mode_triple g0 (p : path) c m :
  p <> [] -> g0 !! p = Some (File c m) ->
  ctriple (eq g0) (service_mode p) (fun r g => g0 = g /\ forall x, r = Ok x -> x = perm_bits m) (eq g0).
Proof.
  intros Hp Hf. unfold service_mode.
  eapply (ctriple_try _ _ _ (fun (x : file_type * Z) g => g0 = g /\ x.2 = m)).
  - apply ctriple_map_err. unfold fs_metadata. apply ctriple_syscall. intros g <-. cbn. split_and!; try done.
    destruct p as [|a p0] eqn:Ep; [done |]. rewrite <- Ep in *.
    destruct (resolve_parent g0 p); cbn; [| done]. by rewrite Hf.
  - intros x. apply ctriple_ret. intros g [<- <-]. split; [done |]. by intros y [= <-].
Qed.
End faults.

(** ** What the commands leave behind *)

Section post.
Context `{UW : UnicodeWord, UM : Umask, TF : Tempfile}.

(** [r] is what the command returned, if anything. *)
Definition install_post (opts : InstallOpts) (g0 g : fs) (r : option (result InstallOutcome InstallError)) : Prop :=
  let svc := service_path (pam_dir opts) (service opts) in
  let bak := backup_path (pam_dir opts) (service opts) in
  (g !! svc = g0 !! svc /\ forall a b, r <> Some (Ok (Installed a b))) \/
  (exists c m, g0 !! svc = Some (File c m) /\ utf8 c = true /\
     g !! svc = Some (File (new_contents opts c) (perm_bits m)) /\
     (recognition_regex_match c = false -> g !! bak = Some (File c (perm_bits m))) /\
     forall x, r = Some x -> x = Ok (Installed svc bak)).

Definition uninstall_post (d : path) (n : str) (g0 g : fs) (r : option (result UninstallOutcome InstallError)) : Prop :=
  let svc := service_path d n in
  let bak := backup_path d n in
  (g !! svc = g0 !! svc /\ g !! bak = g0 !! bak /\ forall a b, r <> Some (Ok (Restored a b))) \/
  (exists c m k mk, g0 !! svc = Some (File c m) /\ recognition_regex_match c = true /\
     g0 !! bak = Some (File k mk) /\ g !! svc = Some (File k (perm_bits m)) /\
     (g !! bak = g0 !! bak \/ g !! bak = None) /\
     forall x, r = Some (Ok x) -> x = Restored svc bak /\ g !! bak = None).

Lemma backup_not_tmp n : ~ is_tmp_name n -> ~ is_tmp_name (n ++ BACKUP_SUFFIX).
Proof.
  intros Hn [s E]. destruct n as [|a [|b [|c [|e n]]]]; try done. injection E as -> -> -> -> E.
  apply Hn. by exists n.
Qed.

Lemma backup_kept d n : ~ is_tmp_name n -> ~ write_touches d (join d n) (join d (n ++ BACKUP_SUFFIX)).
Proof.
  intros Hn [[s E] | E].
  - apply join_inj in E as [_ E]. apply (backup_not_tmp n Hn). by eexists.
  - apply join_inj in E as [_ E]. symmetry in E. by apply suffix_ne in E.
Qed.

Lemma service_backup_ne d n : service_path d n <> backup_path d n.
Proof. intros [_ E] % join_inj. by apply suffix_ne in E. Qed.

(** A target written whole, and what holds of the backup meanwhile. *)
Lemma write_service_triple d n data mode old (B : option node -> Prop) :
  ~ is_tmp_name n ->
  ctriple (fun g => g !! join d n = old /\ B (g !! join d (n ++ BACKUP_SUFFIX))) (atomic_write (join d n) data mode)
    (fun r g => g !! join d n = match r with Ok _ => Some (File data mode) | Err _ => old end /\
                B (g !! join d (n ++ BACKUP_SUFFIX)))
    (fun g => (g !! join d n = old \/ g !! join d n = Some (File data mode)) /\ B (g !! join d (n ++ BACKUP_SUFFIX))).
Proof.
  intros Hn. apply (ctriple_keep _ _ _ _ _ _ (touches_atomic_write d n data mode)).
  - apply stable_lookup. by apply backup_kept.
  - by apply atomic_write_triple.
Qed.

Ltac same := intros; subst; left; split_and!; try done; by intros ? ? [=].

Lemma install_triple_post opts g0 :
  ~ is_tmp_name (service opts) ->
  ctriple (eq g0) (install opts) (fun r g => install_post opts g0 g (Some r)) (fun g => install_post opts g0 g None).
Proof.
  intros Hn. unfold install. eapply ctriple_bind.
  { eapply ctriple_conseq; [apply (exists_triple (eq g0)) | done | | same]. intros b g [Hg _]. exact Hg. }
  intros [|]; cbn [negb]; [| apply ctriple_ret; same].
  eapply (ctriple_try _ _ _ (fun c g => (utf8 c = true /\
    exists m, g0 !! service_path (pam_dir opts) (service opts) = Some (File c m)) /\ g0 = g)).
  { eapply ctriple_conseq; [apply read_utf8_triple | done | | same].
    intros [c|e] g [<- Hc]; [by split; [apply Hc |] | same]. }
  intros c. apply ctriple_pure. intros [Hu [m Hf]].
  destruct (_ && _); [apply ctriple_ret; same |].
  eapply (ctriple_try _ _ _ (fun x g => x = perm_bits m /\ g0 = g)).
  { eapply ctriple_conseq; [eapply service_mode_triple; [| exact Hf]; by destruct (pam_dir opts) | done | | same].
    intros [x|e] g [<- Hx]; [by split; [apply Hx |] | same]. }
  intros mode. apply ctriple_pure. intros ->.
  set (svc := service_path (pam_dir opts) (service opts)) in *.
  set (bak := backup_path (pam_dir opts) (service opts)).
  set (B := fun x : option node => recognition_regex_match c = false -> x = Some (File c (perm_bits m))).
  eapply (ctriple_try _ _ _ (fun _ g => g !! svc = g0 !! svc /\ B (g !! bak))).
  { destruct (recognition_regex_match c) eqn:Er; [by apply ctriple_ret; intros g <- |].
    eapply ctriple_conseq; [apply (take_backup_triple g0 svc bak c m _ (service_backup_ne _ _) Hf) | done | |].
    - intros [x|e] g [Hg Hb]; [by split; [| intros _; apply Hb] |]. left. split; [done |]. by intros ? ? [=].
    - intros g Hg. left. by split; [| intros ? ? [=]]. }
  intros _. eapply (ctriple_try _ _ _ (fun _ g => g !! svc = Some (File (new_contents opts c) (perm_bits m)) /\ B (g !! bak))).
  { eapply ctriple_conseq; [apply (write_service_triple _ _ _ _ (g0 !! svc) B Hn) | done | |].
    - intros [x|e] g [Hg Hb]; [done |]. left. split; [done |]. by intros ? ? [=].
    - intros g [[Hg | Hg] Hb]; [left; split; [done | by intros ? ? [=]] | right]. by exists c, m. }
  intros _. apply ctriple_ret. intros g [Hg Hb]. right. exists c, m. split_and!; try done. by intros x [= <-].
Qed.

Lemma uninstall_triple_post d n g0 :
  ~ is_tmp_name n ->
  ctriple (eq g0) (uninstall d n) (fun r g => uninstall_post d n g0 g (Some r)) (fun g => uninstall_post d n g0 g None).
Proof.
  intros Hn. unfold uninstall. eapply ctriple_bind.
  { eapply ctriple_conseq; [apply (exists_triple (eq g0)) | done | | same]. intros b g [Hg _]. exact Hg. }
  intros [|]; cbn [negb]; [| apply ctriple_ret; same].
  eapply (ctriple_try _ _ _ (fun c g => (utf8 c = true /\ exists m, g0 !! service_path d n = Some (File c m)) /\ g0 = g)).
  { eapply ctriple_conseq; [apply read_utf8_triple | done | | same].
    intros [c|e] g [<- Hc]; [by split; [apply Hc |] | same]. }
  intros c. apply ctriple_pure. intros [Hu [m Hf]].
  destruct (recognition_regex_match c) eqn:Er; cbn [negb]; [| apply ctriple_ret; same].
  eapply ctriple_bind.
  { eapply ctriple_conseq; [apply (exists_triple (eq g0)) | done | | same]. intros b g [Hg _]. exact Hg. }
  intros [|]; cbn [negb]; [| apply ctriple_ret; same].
  eapply (ctriple_try _ _ _ (fun k g => (exists mk, g0 !! backup_path d n = Some (File k mk)) /\ g0 = g)).
  { apply ctriple_map_err. eapply ctriple_conseq; [apply (read_triple (eq g0)) | done | | same].
    intros [k|e] g [<- Hk]; [by split; [apply Hk |] | same]. }
  intros k. apply ctriple_pure. intros [mk Hb].
  eapply (ctriple_try _ _ _ (fun x g => x = perm_bits m /\ g0 = g)).
  { eapply ctriple_conseq; [eapply service_mode_triple; [| exact Hf]; by destruct d | done | | same].
    intros [x|e] g [<- Hx]; [by split; [apply Hx |] | same]. }
  intros mode. apply ctriple_pure. intros ->.
  set (svc := service_path d n) in *. set (bak := backup_path d n) in *.
  eapply (ctriple_try _ _ _ (fun _ g => g !! svc = Some (File k (perm_bits m)) /\ g !! bak = g0 !! bak)).
  { eapply ctriple_conseq; [apply (write_service_triple _ _ _ _ (g0 !! svc) (fun x => x = g0 !! bak) Hn) | by intros g <- | |].
    - intros [x|e] g [Hg Hbk]; [done |]. left. by split_and!; [| | intros ? ? [=]].
    - intros g [[Hg | Hg] Hbk]; [left; by split_and!; [| | intros ? ? [=]] | right].
      exists c, m, k, mk. split_and!; auto. by intros x [=]. }
  intros _. eapply (ctriple_try _ _ _ (fun _ g => g !! svc = Some (File k (perm_bits m)) /\ g !! bak = None)).
  { assert (Hpost : forall g r, g !! svc = Some (File k (perm_bits m)) ->
      g !! bak = g0 !! bak \/ g !! bak = None -> (forall x, r <> Some (Ok x)) -> uninstall_post d n g0 g r).
    { intros g r Hg Hbk Hr. right. exists c, m, k, mk. split_and!; try done. by intros x Hx % Hr. }
    apply ctriple_map_err, ctriple_syscall. intros g [Hg Hbk]. unfold remove_op.
    destruct (resolve_parent g bak); [rewrite Hbk, Hb; cbn | cbn; by split_and!; intros; apply Hpost; auto].
    assert (Hs : delete bak g !! svc = Some (File k (perm_bits m))).
    { rewrite lookup_delete_ne; [done |]. apply not_eq_sym, service_backup_ne. }
    pose proof (lookup_delete_eq g bak) as Hd.
    split_and!; try done; intros; apply Hpost; auto. }
  intros _. apply ctriple_ret. intros g [Hg Hbk]. right. exists c, m, k, mk. split_and!; auto. by intros x [= <-].
Qed.
End post.

(** ** Properties *)

Section properties.
Context `{UW : UnicodeWord, UM : Umask, TF : Tempfile}.

Lemma utf8_build_line opts : wired opts -> utf8 (build_line opts ++ [10]) = true.
Proof.
  intros [(_ & Hc & _ & _) Hso [Ha _]]. unfold build_line. rewrite Hso, <- !app_assoc.
  by rewrite !utf8_app by done.
Qed.

Lemma utf8_insert_line original l :
  utf8 original = true -> utf8 (l ++ [10]) = true -> utf8 (insert_line original l) = true.
Proof.
  intros Ho Hl. destruct (insert_line_spec original l) as (ls1 & ls2 & E & -> & Hc & _).
  apply utf8_insert; [done | | done]. replace (concat ls1 ++ concat ls2) with original; [done |].
  rewrite <- (concat_split original), E. apply concat_app.
Qed.

Lemma utf8_new_contents opts c :
  wired opts -> utf8 c = true -> recognition_regex_match c = false -> utf8 (new_contents opts c) = true.
Proof.
  intros Hw Hu Hr. unfold new_contents. rewrite Hr.
  pose proof (utf8_insert_line c _ Hu (utf8_build_line opts Hw)) as Hi. unfold maybe_insert_u2f_fallback.
  destruct (with_u2f_fallback opts); cbn [negb]; [| done]. destruct (u2f_present _); [done |].
  by apply (u2f_lines _ _ (build_line_one opts Hw) (build_line_contains opts Hw) (insert_has_line c _)).
Qed.

(** The syauth line is put where the module is asked first, and nothing else
    changes: the lines of the original are kept, in order and byte for byte; the
    new line stands alone, directly before the first auth directive, or at the top
    of a file that has none. *)
Theorem insert_line_placement original new_line :
  exists ls1 ls2, split_inclusive original = ls1 ++ ls2 /\
    insert_line original new_line = concat ls1 ++ (new_line ++ [10]) ++ concat ls2 /\ complete (concat ls1) /\
    Forall (fun x => is_auth_directive x = false) ls1 /\
    match ls2 with
    | l :: _ => is_auth_directive l = true \/ ls1 = [] /\ Forall (fun x => is_auth_directive x = false) ls2
    | [] => original = []
    end.
Proof. apply insert_line_spec. Qed.

(** With options whose line the module's name does not show in, as a module under another --so-path, the installation is not undone: [uninstall]
    reports that nothing is installed and leaves the line and the backup. *)
Theorem custom_so_not_undone `{!TempfileLaws TF} g opts c m :
  let d := pam_dir opts in
  let svc := service_path d (service opts) in
  let bak := backup_path d (service opts) in
  resolve g [] d = Ok tt -> ~ is_tmp_name (service opts) -> g !! svc = Some (File c m) -> utf8 c = true -> recognition_regex_match c = false ->
  g !! bak = None -> utf8 (new_contents opts c) = true -> recognition_regex_match (new_contents opts c) = false ->
  exists g', install opts (calm g) = (Ret (Ok (Installed svc bak)), calm g') /\ g' !! bak = Some (File c (perm_bits m)) /\
    uninstall d (service opts) (calm g') = (Ret (Ok (NotInstalled svc)), calm g').
Proof.
  intros d svc bak Hd Hn Hf Hu Hr Hb Hu' Hr'. exists (<[svc := File (new_contents opts c) (perm_bits m)]> (<[bak := File c (perm_bits m)]> g)).
  split; [by apply install_calm_first |]. set (g' := <[svc := _]> _). assert (Hsb : svc <> bak) by apply service_backup_ne.
  assert (Hd' : resolve g' [] d = Ok tt).
  { apply (resolve_mono g); [| done]. eapply dirs_kept_trans; [apply (dirs_kept_insert g bak (File c (perm_bits m))); by rewrite Hb |].
    apply dirs_kept_insert. rewrite lookup_insert_ne by done. by rewrite Hf. }
  assert (Hs' : g' !! svc = Some (File (new_contents opts c) (perm_bits m))) by apply lookup_insert_eq.
  split; [unfold g'; by rewrite lookup_insert_ne, lookup_insert_eq by done |].
  unfold uninstall. fold svc. unfold svc, service_path in *. unfold ibind at 1. rewrite exists_calm by done.
  rewrite bool_decide_eq_true_2 by (by rewrite Hs'). cbn [negb]. by rewrite (itry_ok _ _ _ _ _ (read_utf8_calm _ g' _ _ _ Hs' Hu')), Hr'.
Qed.

(** C32: Installing is idempotent and uninstalling undoes it, on a disk without faults, with the
    default module file name pam_syauth.so, a control flag of one word and arguments on one line: for a service file
    that does not mention the module and has no backup, [install] writes the new body with the file's mode
    (it has the syauth line, and the pam_u2f line if asked for), a second
    [install] changes nothing, and [uninstall] gives back exactly the file system
    there was before.  (With another --so-path the line is not recognised; see [custom_so_not_undone].) *)
Theorem install_roundtrip `{!TempfileLaws TF} g opts c m :
  let d := pam_dir opts in
  let svc := service_path d (service opts) in
  let bak := backup_path d (service opts) in
  so_path opts = DEFAULT_SO_NAME ->
  control opts <> [] /\ utf8 (control opts) = true /\ 10 ∉ control opts /\ Forall (fun x => non_whitespace x = true) (chars (control opts)) ->
  utf8 (module_args opts) = true /\ 10 ∉ module_args opts ->
  resolve g [] d = Ok tt -> ~ is_tmp_name (service opts) ->
  g !! svc = Some (File c m) -> perm_bits m = m -> utf8 c = true -> recognition_regex_match c = false ->
  g !! bak = None ->
  exists g',
    install opts (calm g) = (Ret (Ok (Installed svc bak)), calm g') /\
    g' !! svc = Some (File (new_contents opts c) m) /\ has_line (build_line opts) (new_contents opts c) /\
    (with_u2f_fallback opts = true -> u2f_present (new_contents opts c) = true) /\
    install opts (calm g') = (Ret (Ok (AlreadyInstalled svc)), calm g') /\
    uninstall d (service opts) (calm g') = (Ret (Ok (Restored svc bak)), calm g).
Proof.
  intros d svc bak Hso Hctl Hargs Hd Hn Hf Hm Hu Hr Hb. pose proof (mkWired opts Hctl Hso Hargs) as Hw.
  destruct (new_contents_lines opts c Hw Hr) as [Hl H2].
  pose proof (build_line_recognised opts _ Hw Hl) as Hrec. pose proof (utf8_new_contents opts c Hw Hu Hr) as Hun.
  exists (<[svc := File (new_contents opts c) m]> (<[bak := File c m]> g)).
  set (g' := <[svc := _]> _).
  assert (Hsb : svc <> bak) by apply service_backup_ne.
  assert (Hd' : resolve g' [] d = Ok tt).
  { apply (resolve_mono g); [| done]. eapply dirs_kept_trans; [apply (dirs_kept_insert g bak (File c m)); by rewrite Hb |].
    apply dirs_kept_insert. rewrite lookup_insert_ne by done. by rewrite Hf. }
  assert (Hs' : g' !! svc = Some (File (new_contents opts c) m)) by apply lookup_insert_eq.
  assert (Hb' : g' !! bak = Some (File c m)) by (unfold g'; by rewrite lookup_insert_ne, lookup_insert_eq by done).
  split_and!; try done.
  - pose proof (install_calm_first d g opts c m eq_refl Hd Hn Hf Hu Hr Hb) as Ei. by rewrite Hm in Ei.
  - by apply (install_calm_again _ g' opts (new_contents opts c) m).
  - rewrite (uninstall_calm _ g' (service opts) (new_contents opts c) m c m) by done. rewrite Hm.
    do 2 f_equal. fold svc bak. unfold g'. rewrite insert_insert_eq, delete_insert_ne by done.
    rewrite delete_insert_id by done. by rewrite insert_id.
Qed.

(** C30: No fault loses a service file: on every fault script, also when the process
    dies half way, [install] leaves the service file as it was or puts the
    complete new body there, and then, on a first installation, the backup holds
    the complete original; [uninstall] leaves service file and backup as they
    were or puts the complete backup in place, and only then removes it.  They
    report success only in these latter cases. *)
Theorem pam_edit_crash_safe opts w :
  ~ is_tmp_name (service opts) ->
  (let '(o, w') := install opts w in
   install_post opts (files w) (files w') (match o with Ret r => Some r | _ => None end)) /\
  (let '(o, w') := uninstall (pam_dir opts) (service opts) w in
   uninstall_post (pam_dir opts) (service opts) (files w) (files w') (match o with Ret r => Some r | _ => None end)).
Proof.
  intros Hn. pose proof (install_triple_post opts (files w) Hn w eq_refl) as Hi.
  pose proof (uninstall_triple_post (pam_dir opts) (service opts) (files w) Hn w eq_refl) as Hu.
  split; [by destruct (install opts w) as [[]] |]. by destruct (uninstall _ _ w) as [[]].
Qed.
End properties.

(** ** The properties on a concrete directory *)

Import ToyTempfile ToyCrates.

#[local] Instance ascii_words : UnicodeWord := {| unicode_word _ := false |}.

Definition etc : path := [lit "etc"; lit "pam.d"].
Definition demo_body : str :=
  lit "#%PAM-1.0" ++ [10] ++ lit "auth       include      system-auth" ++ [10] ++ lit "account    include      system-auth" ++ [10].
Definition demo_fs (body : str) : fs :=
  <[[lit "etc"] := Dir 493]> (<[etc := Dir 493]> (<[service_path etc (lit "demo") := File body 420]> ∅)).
Definition demo_opts (ctrl : str) (u2f : bool) : InstallOpts :=
  mkInstallOpts (lit "demo") etc DEFAULT_MODULE_ARGS DEFAULT_SO_NAME ctrl u2f.

Lemma demo_wired u2f : wired (demo_opts DEFAULT_CONTROL_FLAG u2f).
Proof. split; [split_and!; [done | done | decide_now | by repeat constructor] | done | split; [done | decide_now]]. Qed.

Lemma install_roundtrip_witness :
  exists g', install (demo_opts DEFAULT_CONTROL_FLAG true) (calm (demo_fs demo_body)) =
      (Ret (Ok (Installed (service_path etc (lit "demo")) (backup_path etc (lit "demo")))), calm g') /\
    uninstall etc (lit "demo") (calm g') =
      (Ret (Ok (Restored (service_path etc (lit "demo")) (backup_path etc (lit "demo")))), calm (demo_fs demo_body)).
Proof.
  destruct (install_roundtrip (TempfileLaws0 := toy_tempfile_laws) (demo_fs demo_body)
    (demo_opts DEFAULT_CONTROL_FLAG true) demo_body 420) as (g' & E1 & _ & _ & _ & _ & E2);
    [reflexivity | apply (wired_control _ (demo_wired true)) | apply (wired_args _ (demo_wired true)) | vm_compute; reflexivity | by intros [s [=]] | vm_compute; reflexivity | reflexivity | vm_compute; reflexivity
    | vm_compute; reflexivity | vm_compute; reflexivity |].
  exists g'. split; [exact E1 | exact E2].
Defined.

Lemma custom_so_not_undone_witness :
  let opts := mkInstallOpts (lit "demo") etc DEFAULT_MODULE_ARGS (lit "/opt/syauth/pam_unlock.so") DEFAULT_CONTROL_FLAG false in
  exists g', install opts (calm (demo_fs demo_body)) =
      (Ret (Ok (Installed (service_path etc (lit "demo")) (backup_path etc (lit "demo")))), calm g') /\
    uninstall etc (lit "demo") (calm g') = (Ret (Ok (NotInstalled (service_path etc (lit "demo")))), calm g').
Proof.
  cbv zeta. destruct (custom_so_not_undone (TempfileLaws0 := toy_tempfile_laws) (demo_fs demo_body)
    (mkInstallOpts (lit "demo") etc DEFAULT_MODULE_ARGS (lit "/opt/syauth/pam_unlock.so") DEFAULT_CONTROL_FLAG false) demo_body 420)
    as (g' & E1 & _ & E2); [vm_compute; reflexivity | by intros [s [=]] | vm_compute; reflexivity | vm_compute; reflexivity | vm_compute; reflexivity
    | vm_compute; reflexivity | vm_compute; reflexivity | vm_compute; reflexivity |].
  exists g'. split; [exact E1 | exact E2].
Defined.

Lemma pam_edit_crash_safe_witness :
  let opts := demo_opts DEFAULT_CONTROL_FLAG false in
  let w := mkWorld (demo_fs demo_body) (replicate 8 Fine ++ [Dies (Some 3%nat)]) in
  let '(o, w') := install opts w in
  o = Killed /\ install_post opts (files w) (files w') None.
Proof.
  pose proof (pam_edit_crash_safe (demo_opts DEFAULT_CONTROL_FLAG false)
    (mkWorld (demo_fs demo_body) (replicate 8 Fine ++ [Dies (Some 3%nat)]))) as H.
  assert (Hn : ~ is_tmp_name (lit "demo")) by (by intros [s [=]]).
  destruct (H Hn) as [Hi _]. clear H.
  assert (Hk : (install (demo_opts DEFAULT_CONTROL_FLAG false)
    (mkWorld (demo_fs demo_body) (replicate 8 Fine ++ [Dies (Some 3%nat)]))).1 = Killed) by (vm_compute; reflexivity).
  cbv zeta. destruct (install _ _) as [o w']. cbn in Hk. subst o. split; [reflexivity | exact Hi].
Defined.

(** ** Where the text promises more *)

(** A control flag of several words, which the comment on [DEFAULT_CONTROL_FLAG]
    offers, is installed but not recognised: the line is in the file, yet a second
    installation is refused because of the backup and [uninstall] reports that
    nothing is installed and leaves the line in place. *)
Theorem bracketed_control_not_recognised :
  let opts := demo_opts (lit "[success=done auth_err=die default=ignore]") false in
  let '(o, w) := install opts (calm (demo_fs demo_body)) in
  o = Ret (Ok (Installed (service_path etc (lit "demo")) (backup_path etc (lit "demo")))) /\
  install opts w = (Ret (Err (BackupExists (backup_path etc (lit "demo")))), w) /\
  uninstall etc (lit "demo") w = (Ret (Ok (NotInstalled (service_path etc (lit "demo")))), w) /\
  files w !! service_path etc (lit "demo") <> Some (File demo_body 420).
Proof. vm_compute. split_and!; try reflexivity. intros [=]. Qed.

(** When the syauth line is the last one and has no newline, the fallback is glued
    to it: the file gets no pam_u2f directive, and the syauth line gets its text
    as module arguments. *)
Theorem u2f_fallback_glued :
  let body := lit "auth    sufficient    pam_syauth.so timeout=8000" in
  new_contents (demo_opts DEFAULT_CONTROL_FLAG true) body =
    lit "auth    sufficient    pam_syauth.so timeout=8000auth    sufficient    pam_u2f.so cue" ++ [10] /\
  u2f_present (new_contents (demo_opts DEFAULT_CONTROL_FLAG true) body) = false.
Proof. vm_compute. split; reflexivity. Qed.

(** Adding only the fallback to an installed file takes no backup, although the
    outcome names one. *)
Theorem u2f_only_takes_no_backup :
  let body := lit "auth    sufficient    pam_syauth.so timeout=8000" ++ [10] in
  let '(o, w) := install (demo_opts DEFAULT_CONTROL_FLAG true) (calm (demo_fs body)) in
  o = Ret (Ok (Installed (service_path etc (lit "demo")) (backup_path etc (lit "demo")))) /\
  files w !! backup_path etc (lit "demo") = None.
Proof. vm_compute. split; reflexivity. Qed.
