(* ===== verification/PairBroker.v ===== *)
(** * The pairing confirmation broker

    Models crates/syauth-transport/src/pairing.rs: the three local messages ([PairingRequest],
    [OobRequest], [BondedNotice]), their frames, and [PairingBroker], which asks the desktop
    operator to confirm a pairing; and from crates/syauth-cli/src/pair_backend.rs the client at
    the other end of the socket, [run_daemon_gui_confirmation].

    The broker is shared by tasks: each call of [request_confirmation],
    [request_oob_confirmation] or [notify_bonded] is a task with a program counter at its
    [await] points, and between two of them a task runs alone (the state is behind a
    mutex that no task holds across an [await]).  A schedule is a list of events: a task is
    polled, the GUI session acts, time passes, a task is dropped. *)

From stdpp Require Import prelude list gmap strings.
From Stdlib Require Import ZArith Lia.
From S2P Require Import Prelude WireFrame Fs Bond PairRecovery Peripheral Rpc Pam Mobile PamService.

(** ** Constants *)

Definition PAIR_CONFIRMATION_TIMEOUT : Z := 30000.
Definition PAIR_OOB_CONFIRMATION_TIMEOUT : Z := 180000.
Definition PAIR_CONFIRMATION_SOCKET : str := lit "pair-confirm.sock".
Definition PAIR_SESSION_SOCKET : str := lit "pair-session.sock".
Definition PAIR_CONFIRMATION_MAGIC : list Z := lit "SYPC".
Definition PAIR_OOB_MAGIC : list Z := lit "SYPO".
Definition PAIR_BONDED_MAGIC : list Z := lit "SYPN".
Definition PAIR_PUBKEY_LEN : Z := 32.
Definition MAX_PEER_BYTES : Z := 256.
Definition MAX_FRAME_BYTES : Z := 4096.
(** [Duration::from_secs(1)] of [exchange] and [connect_pair_session]. *)
Definition CONNECT_WAIT : Z := 1000.

(** ** Messages *)

Record PairingRequest := mkPairing { pr_id : Z; pr_peer : str; pr_passkey : Z }.
Record OobRequest := mkOob { or_id : Z; or_peer : str; or_host_pubkey : list Z; or_phone_pubkey : list Z }.
Record BondedNotice := mkNotice { bn_peer : str }.

(** [GuiEvent] *)
Inductive GuiEvent :=
| GLesc (request : PairingRequest)
| GOob (request : OobRequest)
| GBonded (notice : BondedNotice).

#[global] Instance PairingRequest_eq_dec : EqDecision PairingRequest.
Proof. solve_decision. Defined.
#[global] Instance OobRequest_eq_dec : EqDecision OobRequest.
Proof. solve_decision. Defined.
#[global] Instance BondedNotice_eq_dec : EqDecision BondedNotice.
Proof. solve_decision. Defined.
#[global] Instance GuiEvent_eq_dec : EqDecision GuiEvent.
Proof. solve_decision. Defined.

(** [u16::try_from] *)
Definition u16_try_from (n : Z) : option Z := if n <? 2 ^ 16 then Some n else None.

Definition PairingRequest_encode (self : PairingRequest) : option (list Z) :=
  let peer := pr_peer self in
  length ← u16_try_from (len peer);
  if len peer >? MAX_PEER_BYTES then None
  else Some (PAIR_CONFIRMATION_MAGIC ++ to_be_bytes 8 (pr_id self) ++ to_be_bytes 4 (pr_passkey self) ++
             to_be_bytes 2 length ++ peer).

(** [String::from_utf8(bytes).ok()] *)
Definition from_utf8 (bytes : list Z) : option str := if utf8 bytes then Some bytes else None.

Definition PairingRequest_decode (bytes : list Z) : option PairingRequest :=
  if len bytes <? 18 then None
  else if negb (bool_decide (slice 0 4 bytes = PAIR_CONFIRMATION_MAGIC)) then None
  else
    let peer_len := from_be_bytes (slice 16 18 bytes) in
    if peer_len >? MAX_PEER_BYTES then None
    else if negb (len bytes =? 18 + peer_len) then None
    else
      let id := from_be_bytes (slice 4 12 bytes) in
      let passkey := from_be_bytes (slice 12 16 bytes) in
      peer ← from_utf8 (drop 18 bytes);
      Some (mkPairing id peer passkey).

Definition OobRequest_encode (self : OobRequest) : option (list Z) :=
  let peer := or_peer self in
  peer_len ← u16_try_from (len peer);
  if len peer >? MAX_PEER_BYTES then None
  else Some (PAIR_OOB_MAGIC ++ to_be_bytes 8 (or_id self) ++ to_be_bytes 2 peer_len ++ peer ++
             or_host_pubkey self ++ or_phone_pubkey self).

Definition OobRequest_decode (bytes : list Z) : option OobRequest :=
  if len bytes <? 14 then None
  else if negb (bool_decide (slice 0 4 bytes = PAIR_OOB_MAGIC)) then None
  else
    let id := from_be_bytes (slice 4 12 bytes) in
    let peer_len := from_be_bytes (slice 12 14 bytes) in
    if peer_len >? MAX_PEER_BYTES then None
    else if negb (len bytes =? 14 + peer_len + 2 * PAIR_PUBKEY_LEN) then None
    else
      peer ← from_utf8 (slice 14 (14 + peer_len) bytes);
      let host_pubkey := slice (14 + peer_len) (14 + peer_len + PAIR_PUBKEY_LEN) bytes in
      let phone_pubkey := slice (14 + peer_len + PAIR_PUBKEY_LEN) (len bytes) bytes in
      Some (mkOob id peer host_pubkey phone_pubkey).

Definition BondedNotice_encode (self : BondedNotice) : option (list Z) :=
  let peer := bn_peer self in
  peer_len ← u16_try_from (len peer);
  if len peer >? MAX_PEER_BYTES then None
  else Some (PAIR_BONDED_MAGIC ++ to_be_bytes 2 peer_len ++ peer).

Definition BondedNotice_decode (bytes : list Z) : option BondedNotice :=
  if len bytes <? 6 then None
  else if negb (bool_decide (slice 0 4 bytes = PAIR_BONDED_MAGIC)) then None
  else
    let peer_len := from_be_bytes (slice 4 6 bytes) in
    if peer_len >? MAX_PEER_BYTES then None
    else if negb (len bytes =? 6 + peer_len) then None
    else
      peer ← from_utf8 (drop 6 bytes);
      Some (mkNotice peer).

(** [frame] *)
Definition broker_frame (payload : list Z) : option (list Z) :=
  n ← u32_try_from (len payload);
  if len payload >? MAX_FRAME_BYTES then None
  else Some (to_be_bytes 4 n ++ payload).

(** [read_frame]: [None] on an end of file, an error or an oversized frame. *)
Definition broker_read_frame (r : Reader) : poll (option (list Z) * Reader) :=
  match read_exact 4 r with
  | Pending => Pending
  | Ready (Err _, r) => Ready (None, r)
  | Ready (Ok header, r) =>
      let n := from_be_bytes header in
      if n >? MAX_FRAME_BYTES then Ready (None, r)
      else match read_exact n r with
           | Pending => Pending
           | Ready (Err _, r) => Ready (None, r)
           | Ready (Ok payload, r) => Ready (Some payload, r)
           end
  end.

(** [runtime_socket]; [dir] is the variable XDG_RUNTIME_DIR. *)
Definition runtime_socket (dir : option str) (name : str) : option str :=
  runtime ← (d ← dir; if decide (d = []) then None else Some d);
  Some (path_join (path_join runtime (lit "syauth")) name).

Definition pairing_confirmation_socket (dir : option str) : option str := runtime_socket dir PAIR_CONFIRMATION_SOCKET.
Definition pairing_session_socket (dir : option str) : option str := runtime_socket dir PAIR_SESSION_SOCKET.

(** *** Well-typed messages *)

(** What the Rust types say of the three messages, and the bound on the label. *)
Definition peer_wf (peer : str) : Prop := bytes_ok peer /\ utf8 peer = true /\ len peer <= MAX_PEER_BYTES.

Definition event_wf (e : GuiEvent) : Prop :=
  match e with
  | GLesc r => is_u64 (pr_id r) /\ 0 <= pr_passkey r < 2 ^ 32 /\ peer_wf (pr_peer r)
  | GOob r => is_u64 (or_id r) /\ peer_wf (or_peer r) /\ arr PAIR_PUBKEY_LEN (or_host_pubkey r) /\
      arr PAIR_PUBKEY_LEN (or_phone_pubkey r)
  | GBonded n => peer_wf (bn_peer n)
  end.

#[global] Instance event_wf_dec e : Decision (event_wf e).
Proof. destruct e; unfold event_wf, peer_wf, is_u64; apply _. Defined.

Definition event_encode (e : GuiEvent) : option (list Z) :=
  match e with
  | GLesc r => PairingRequest_encode r
  | GOob r => OobRequest_encode r
  | GBonded n => BondedNotice_encode n
  end.

(** The order in which the client tries the three decoders. *)
Definition event_decode (bytes : list Z) : option GuiEvent :=
  match PairingRequest_decode bytes with
  | Some r => Some (GLesc r)
  | None =>
      match OobRequest_decode bytes with
      | Some r => Some (GOob r)
      | None => GBonded <$> BondedNotice_decode bytes
      end
  end.

(** ** Lemmas on the messages *)

Lemma u16_small n : n <= MAX_PEER_BYTES -> u16_try_from n = Some n.
Proof. intros H. unfold u16_try_from. by rewrite (proj2 (Z.ltb_lt _ _)) by (unfold MAX_PEER_BYTES in H; lia). Qed.

Lemma from_utf8_Some l s : from_utf8 l = Some s <-> utf8 l = true /\ s = l.
Proof. unfold from_utf8. destruct (utf8 l); naive_solver. Qed.

(** The part of a concatenation that starts at a known offset. *)
Lemma slice_at {A} a b (p x s : list A) : len p = a -> len x = b - a -> slice a b (p ++ x ++ s) = x.
Proof.
  intros Hp Hx. rewrite slice_skip by lia. rewrite Hp, Z.sub_diag. by apply slice_prefix.
Qed.

Lemma drop_at {A} (n : nat) (p s : list A) : len p = Z.of_nat n -> drop n (p ++ s) = s.
Proof. intros H. apply drop_app_length'. unfold len in H. lia. Qed.

Lemma slice_rest {A} (n : nat) (l : list A) : slice (Z.of_nat n) (len l) l = drop n l.
Proof.
  unfold slice, len. rewrite Nat2Z.id. apply take_ge. rewrite length_drop. lia.
Qed.

Lemma slice_to_be a c k (l : list Z) :
  c = a + Z.of_nat k -> 0 <= a -> c <= len l -> bytes_ok l -> to_be_bytes k (from_be_bytes (slice a c l)) = slice a c l.
Proof.
  intros -> Ha Hl Hb. assert (Hn : length (slice a (a + Z.of_nat k) l) = k).
  { pose proof (len_slice a (a + Z.of_nat k) l ltac:(lia) Hl) as E. unfold len in E. lia. }
  rewrite <- Hn at 1. apply to_from_be_bytes. by apply bytes_ok_slice.
Qed.

Lemma slice_be_bound a c (l : list Z) :
  0 <= a <= c -> c <= len l -> bytes_ok l -> 0 <= from_be_bytes (slice a c l) < 256 ^ (c - a).
Proof.
  intros Ha Hl Hb. pose proof (from_be_bytes_bound _ (bytes_ok_slice a c l Hb)) as E. by rewrite len_slice in E by lia.
Qed.

Lemma peer_gtb peer : peer_wf peer -> (len peer >? MAX_PEER_BYTES) = false.
Proof. intros (_ & _ & H). rewrite Z.gtb_ltb. by apply Z.ltb_ge. Qed.

(** The part of a message at its offset, the message being the concatenation of its parts. *)
Lemma slice_field {A} a b (parts : list (list A)) (i : nat) (p : list A) :
  parts !! i = Some p -> len (concat (take i parts)) = a -> b = a + len p -> slice a b (concat parts) = p.
Proof.
  intros Hi Ha ->. rewrite <- (take_drop_middle parts i p Hi), concat_app. cbn [concat].
  apply slice_at; [done | lia].
Qed.

(** Evaluate a test of a decoder whose outcome follows from the lengths. *)
Ltac test_false := rewrite ?Z.gtb_ltb, (proj2 (Z.ltb_ge _ _)) by lia.

Lemma PairingRequest_decode_encode r b :
  event_wf (GLesc r) -> PairingRequest_encode r = Some b -> PairingRequest_decode b = Some r.
Proof.
  intros (Hid & Hkey & Hpeer). unfold PairingRequest_encode.
  rewrite u16_small by apply Hpeer. cbn [mbind option_bind]. rewrite peer_gtb by done. intros <-%(inj Some).
  destruct r as [id peer key]. cbn [pr_id pr_peer pr_passkey] in *. unfold PairingRequest_decode.
  pose proof (len_nonneg peer) as Hl. destruct Hpeer as (Hb & Hu & Hm). unfold MAX_PEER_BYTES, is_u64 in *.
  set (parts := [PAIR_CONFIRMATION_MAGIC; to_be_bytes 8 id; to_be_bytes 4 key; to_be_bytes 2 (len peer); peer]).
  replace (PAIR_CONFIRMATION_MAGIC ++ _) with (concat parts) by (unfold parts; cbn [concat]; by rewrite ?app_nil_r).
  assert (L : len (concat parts) = 18 + len peer).
  { cbn [parts concat]. rewrite !len_app, !len_to_be_bytes. change (len PAIR_CONFIRMATION_MAGIC) with 4. rewrite len_nil. lia. }
  rewrite (slice_field 0 4 parts 0 PAIR_CONFIRMATION_MAGIC), bool_decide_true by done.
  rewrite (slice_field 4 12 parts 1 (to_be_bytes 8 id)) by done.
  rewrite (slice_field 12 16 parts 2 (to_be_bytes 4 key)) by done.
  rewrite (slice_field 16 18 parts 3 (to_be_bytes 2 (len peer))) by done.
  rewrite <- (slice_rest 18), (slice_field 18 _ parts 4 peer) by done.
  rewrite !from_to_be_bytes, L by lia. test_false. test_false. rewrite Z.eqb_refl. cbn [negb].
  unfold from_utf8. by rewrite Hu.
Qed.

Lemma OobRequest_decode_encode r b :
  event_wf (GOob r) -> OobRequest_encode r = Some b -> OobRequest_decode b = Some r.
Proof.
  intros (Hid & Hpeer & Hhost & Hphone). unfold OobRequest_encode.
  rewrite u16_small by apply Hpeer. cbn [mbind option_bind]. rewrite peer_gtb by done. intros <-%(inj Some).
  destruct r as [id peer host phone]. cbn [or_id or_peer or_host_pubkey or_phone_pubkey] in *. unfold OobRequest_decode.
  pose proof (len_nonneg peer) as Hl. destruct Hpeer as (Hb & Hu & Hm).
  apply arr_len in Hhost, Hphone. unfold MAX_PEER_BYTES, PAIR_PUBKEY_LEN, is_u64 in *.
  set (parts := [PAIR_OOB_MAGIC; to_be_bytes 8 id; to_be_bytes 2 (len peer); peer; host; phone]).
  replace (PAIR_OOB_MAGIC ++ _) with (concat parts) by (unfold parts; cbn [concat]; by rewrite ?app_nil_r).
  assert (L : forall i, (i <= 6)%nat -> len (concat (take i parts)) =
    nth i [0; 4; 12; 14; 14 + len peer; 14 + len peer + 32; 14 + len peer + 64] 0).
  { intros i Hi. do 7 (destruct i as [|i]; [cbn [parts take concat nth]; rewrite ?len_app, ?len_nil, ?len_to_be_bytes,
      ?Hhost, ?Hphone; try change (len PAIR_OOB_MAGIC) with 4; lia |]). lia. }
  assert (La : len (concat parts) = 14 + len peer + 64) by (by apply (L 6%nat)).
  rewrite (slice_field 0 4 parts 0 PAIR_OOB_MAGIC), bool_decide_true by done.
  rewrite (slice_field 4 12 parts 1 (to_be_bytes 8 id)) by done.
  rewrite (slice_field 12 14 parts 2 (to_be_bytes 2 (len peer))) by done.
  rewrite !from_to_be_bytes by lia.
  rewrite (slice_field 14 (14 + len peer) parts 3 peer) by done.
  rewrite (slice_field (14 + len peer) (14 + len peer + 32) parts 4 host) by (rewrite ?(L 4%nat); cbn; lia || done).
  rewrite (slice_field (14 + len peer + 32) (len (concat parts)) parts 5 phone)
    by (rewrite ?(L 5%nat), ?La; cbn; lia || done).
  rewrite La. test_false. test_false. rewrite Z.eqb_refl. cbn [negb]. unfold from_utf8. by rewrite Hu.
Qed.

Lemma BondedNotice_decode_encode n b :
  event_wf (GBonded n) -> BondedNotice_encode n = Some b -> BondedNotice_decode b = Some n.
Proof.
  intros Hpeer. unfold BondedNotice_encode. destruct n as [peer]. cbn [event_wf bn_peer] in *.
  rewrite u16_small by apply Hpeer. cbn [mbind option_bind]. rewrite peer_gtb by done. intros <-%(inj Some).
  unfold BondedNotice_decode. pose proof (len_nonneg peer) as Hl. destruct Hpeer as (Hb & Hu & Hm). unfold MAX_PEER_BYTES in *.
  set (parts := [PAIR_BONDED_MAGIC; to_be_bytes 2 (len peer); peer]).
  replace (PAIR_BONDED_MAGIC ++ _) with (concat parts) by (unfold parts; cbn [concat]; by rewrite ?app_nil_r).
  assert (L : len (concat parts) = 6 + len peer).
  { cbn [parts concat]. rewrite !len_app, !len_to_be_bytes. change (len PAIR_BONDED_MAGIC) with 4. rewrite len_nil. lia. }
  rewrite (slice_field 0 4 parts 0 PAIR_BONDED_MAGIC), bool_decide_true by done.
  rewrite (slice_field 4 6 parts 1 (to_be_bytes 2 (len peer))) by done.
  rewrite <- (slice_rest 6), (slice_field 6 _ parts 2 peer) by done.
  rewrite !from_to_be_bytes, L by lia. test_false. test_false. rewrite Z.eqb_refl. cbn [negb].
  unfold from_utf8. by rewrite Hu.
Qed.

Lemma peer_encodes (peer : str) : len peer <= MAX_PEER_BYTES -> u16_try_from (len peer) = Some (len peer) /\ (len peer >? MAX_PEER_BYTES) = false.
Proof. intros H. split; [by apply u16_small |]. rewrite Z.gtb_ltb. by apply Z.ltb_ge. Qed.

(** A message from its slices. *)
Ltac glue := repeat (rewrite slice_cat by lia).

Lemma PairingRequest_decode_inv b r :
  bytes_ok b -> PairingRequest_decode b = Some r -> event_wf (GLesc r) /\ PairingRequest_encode r = Some b.
Proof.
  intros Hb. unfold PairingRequest_decode. destruct (Z.ltb_spec (len b) 18); [done |].
  case_bool_decide as Hm; [| done]. cbn [negb]. rewrite Z.gtb_ltb.
  destruct (Z.ltb_spec MAX_PEER_BYTES (from_be_bytes (slice 16 18 b))); [done |].
  destruct (Z.eqb_spec (len b) (18 + from_be_bytes (slice 16 18 b))); [| done]. cbn [negb].
  intros (peer & [Hu ->]%from_utf8_Some & <-%(inj Some))%bind_Some.
  pose proof (slice_be_bound 4 12 b ltac:(lia) ltac:(lia) Hb) as B1.
  pose proof (slice_be_bound 12 16 b ltac:(lia) ltac:(lia) Hb) as B2.
  pose proof (slice_be_bound 16 18 b ltac:(lia) ltac:(lia) Hb) as B3.
  assert (Hl : len (drop 18 b) = from_be_bytes (slice 16 18 b)) by (unfold len in *; rewrite length_drop; lia).
  split; [unfold event_wf, peer_wf, is_u64; cbn [pr_id pr_peer pr_passkey]; split_and!; try lia; [by apply Forall_drop | done] |].
  unfold PairingRequest_encode. cbn [pr_id pr_peer pr_passkey].
  destruct (peer_encodes (drop 18 b)) as [-> ->]; [lia |]. cbn [mbind option_bind]. f_equal.
  rewrite Hl, (slice_to_be 4 12 8), (slice_to_be 12 16 4), (slice_to_be 16 18 2), <- Hm, <- (slice_rest 18) by (lia || done).
  rewrite !app_assoc. glue. by apply slice_all.
Qed.

Lemma OobRequest_decode_inv b r :
  bytes_ok b -> OobRequest_decode b = Some r -> event_wf (GOob r) /\ OobRequest_encode r = Some b.
Proof.
  intros Hb. unfold OobRequest_decode. destruct (Z.ltb_spec (len b) 14); [done |].
  case_bool_decide as Hm; [| done]. cbn [negb]. rewrite Z.gtb_ltb.
  pose proof (slice_be_bound 4 12 b ltac:(lia) ltac:(lia) Hb) as B1.
  pose proof (slice_be_bound 12 14 b ltac:(lia) ltac:(lia) Hb) as B2.
  pose proof (slice_to_be 12 14 2 b eq_refl ltac:(lia) ltac:(lia) Hb) as E2.
  set (n := from_be_bytes (slice 12 14 b)) in *. unfold PAIR_PUBKEY_LEN.
  destruct (Z.ltb_spec MAX_PEER_BYTES n); [done |].
  destruct (Z.eqb_spec (len b) (14 + n + 2 * 32)); [| done]. cbn [negb].
  intros (peer & [Hu ->]%from_utf8_Some & <-%(inj Some))%bind_Some.
  assert (Hl : len (slice 14 (14 + n) b) = n) by (rewrite len_slice; lia).
  split.
  - unfold event_wf, peer_wf, is_u64, PAIR_PUBKEY_LEN. cbn [or_id or_peer or_host_pubkey or_phone_pubkey].
    pose proof (arr_slice (14 + n) (14 + n + 32) b ltac:(lia) ltac:(lia) Hb) as A1.
    pose proof (arr_slice (14 + n + 32) (len b) b ltac:(lia) ltac:(lia) Hb) as A2.
    replace (14 + n + 32 - (14 + n)) with 32 in A1 by lia. replace (len b - (14 + n + 32)) with 32 in A2 by lia.
    split_and!; (lia || by apply bytes_ok_slice || done).
  - unfold OobRequest_encode. cbn [or_id or_peer or_host_pubkey or_phone_pubkey].
    destruct (peer_encodes (slice 14 (14 + n) b)) as [-> ->]; [lia |]. cbn [mbind option_bind]. f_equal.
    rewrite Hl, (slice_to_be 4 12 8), E2, <- Hm by (lia || done).
    rewrite !app_assoc. glue. by apply slice_all.
Qed.

Lemma BondedNotice_decode_inv b n :
  bytes_ok b -> BondedNotice_decode b = Some n -> event_wf (GBonded n) /\ BondedNotice_encode n = Some b.
Proof.
  intros Hb. unfold BondedNotice_decode. destruct (Z.ltb_spec (len b) 6); [done |].
  case_bool_decide as Hm; [| done]. cbn [negb]. rewrite Z.gtb_ltb.
  destruct (Z.ltb_spec MAX_PEER_BYTES (from_be_bytes (slice 4 6 b))); [done |].
  destruct (Z.eqb_spec (len b) (6 + from_be_bytes (slice 4 6 b))); [| done]. cbn [negb].
  intros (peer & [Hu ->]%from_utf8_Some & <-%(inj Some))%bind_Some.
  pose proof (slice_be_bound 4 6 b ltac:(lia) ltac:(lia) Hb) as B1.
  assert (Hl : len (drop 6 b) = from_be_bytes (slice 4 6 b)) by (unfold len in *; rewrite length_drop; lia).
  split; [unfold event_wf, peer_wf; cbn [bn_peer]; split_and!; try lia; [by apply Forall_drop | done] |].
  unfold BondedNotice_encode. cbn [bn_peer].
  destruct (peer_encodes (drop 6 b)) as [-> ->]; [lia |]. cbn [mbind option_bind]. f_equal.
  rewrite Hl, (slice_to_be 4 6 2), <- Hm, <- (slice_rest 6) by (lia || done).
  rewrite !app_assoc. glue. by apply slice_all.
Qed.

(** The magic of a message decides which decoder can accept it. *)
Lemma PairingRequest_decode_magic b r : PairingRequest_decode b = Some r -> slice 0 4 b = PAIR_CONFIRMATION_MAGIC.
Proof. unfold PairingRequest_decode. case_match; [done |]. by case_bool_decide. Qed.

Lemma OobRequest_decode_magic b r : OobRequest_decode b = Some r -> slice 0 4 b = PAIR_OOB_MAGIC.
Proof. unfold OobRequest_decode. case_match; [done |]. by case_bool_decide. Qed.

Lemma BondedNotice_decode_magic b r : BondedNotice_decode b = Some r -> slice 0 4 b = PAIR_BONDED_MAGIC.
Proof. unfold BondedNotice_decode. case_match; [done |]. by case_bool_decide. Qed.

(** Each message is decoded as what it is. *)
Lemma event_decode_exact b e :
  bytes_ok b -> event_decode b = Some e <-> event_wf e /\ event_encode e = Some b.
Proof.
  intros Hb. unfold event_decode. split.
  - destruct (PairingRequest_decode b) as [r |] eqn:E1; [intros [= <-]; by apply PairingRequest_decode_inv |].
    destruct (OobRequest_decode b) as [r |] eqn:E2; [intros [= <-]; by apply OobRequest_decode_inv |].
    destruct (BondedNotice_decode b) as [r |] eqn:E3; [intros [= <-]; by apply BondedNotice_decode_inv | done].
  - destruct e as [r | r | r]; intros [Hw He].
    + by rewrite (PairingRequest_decode_encode _ _ Hw He).
    + pose proof (OobRequest_decode_encode _ _ Hw He) as Hd.
      destruct (PairingRequest_decode b) eqn:E1; [| by rewrite Hd].
      apply PairingRequest_decode_magic in E1. apply OobRequest_decode_magic in Hd. by rewrite E1 in Hd.
    + pose proof (BondedNotice_decode_encode _ _ Hw He) as Hd. pose proof (BondedNotice_decode_magic _ _ Hd) as Hm.
      destruct (PairingRequest_decode b) eqn:E1; [apply PairingRequest_decode_magic in E1; by rewrite E1 in Hm |].
      destruct (OobRequest_decode b) eqn:E2; [apply OobRequest_decode_magic in E2; by rewrite E2 in Hm |]. by rewrite Hd.
Qed.

(** The longest message: an OOB request with a label of 256 bytes. *)
Lemma event_encode_some e :
  event_wf e -> exists b, event_encode e = Some b /\ bytes_ok b /\ 6 <= len b <= 14 + MAX_PEER_BYTES + 2 * PAIR_PUBKEY_LEN.
Proof.
  unfold MAX_PEER_BYTES, PAIR_PUBKEY_LEN. destruct e as [r | r | r]; cbn [event_wf event_encode].
  - intros (_ & _ & Hb & _ & Hm). pose proof (len_nonneg (pr_peer r)). unfold PairingRequest_encode.
    destruct (peer_encodes (pr_peer r) Hm) as [-> ->]. eexists. split; [done |]. unfold MAX_PEER_BYTES in Hm.
    rewrite !len_app, !len_to_be_bytes. change (len PAIR_CONFIRMATION_MAGIC) with 4.
    split; [rewrite !bytes_ok_app; split_and!; auto with rust; decide_now | lia].
  - intros (_ & (Hb & _ & Hm) & [L1 H1] & [L2 H2]). pose proof (len_nonneg (or_peer r)). unfold OobRequest_encode.
    destruct (peer_encodes (or_peer r) Hm) as [-> ->]. eexists. split; [done |]. unfold MAX_PEER_BYTES, PAIR_PUBKEY_LEN in *.
    rewrite !len_app, !len_to_be_bytes. fold (len (or_host_pubkey r)) in L1. fold (len (or_phone_pubkey r)) in L2.
    change (len PAIR_OOB_MAGIC) with 4.
    split; [rewrite !bytes_ok_app; split_and!; auto with rust; decide_now | lia].
  - intros (Hb & _ & Hm). pose proof (len_nonneg (bn_peer r)). unfold BondedNotice_encode.
    destruct (peer_encodes (bn_peer r) Hm) as [-> ->]. eexists. split; [done |]. unfold MAX_PEER_BYTES in Hm.
    rewrite !len_app, !len_to_be_bytes. change (len PAIR_BONDED_MAGIC) with 4.
    split; [rewrite !bytes_ok_app; split_and!; auto with rust; decide_now | lia].
Qed.

Lemma broker_frame_some b : len b <= MAX_FRAME_BYTES -> broker_frame b = Some (to_be_bytes 4 (len b) ++ b).
Proof.
  intros H. unfold broker_frame, u32_try_from. unfold MAX_FRAME_BYTES, u32_max in *.
  rewrite (proj2 (Z.leb_le _ _)) by lia. cbn [mbind option_bind]. by test_false.
Qed.

Lemma broker_read_frame_app b f rest e :
  broker_frame b = Some f -> broker_read_frame (mkReader (f ++ rest) e) = Ready (Some b, mkReader rest e).
Proof.
  intros H. assert (Hl : len b <= MAX_FRAME_BYTES /\ f = to_be_bytes 4 (len b) ++ b).
  { revert H. unfold broker_frame. destruct (u32_try_from (len b)) as [n |] eqn:E; [| done]. cbn [mbind option_bind].
    unfold u32_try_from in E. rewrite Z.gtb_ltb. destruct (Z.leb_spec (len b) u32_max); [| done]. injection E as <-.
    destruct (Z.ltb_spec MAX_FRAME_BYTES (len b)); [done |]. intros <-%(inj Some). done. }
  destruct Hl as [Hl ->]. unfold broker_read_frame. rewrite <- app_assoc.
  change 4 with (Z.of_nat 4) at 1. rewrite <- (len_to_be_bytes 4 (len b)) at 1. rewrite read_exact_app.
  unfold MAX_FRAME_BYTES in *. pose proof (len_nonneg b). rewrite from_to_be_bytes by lia. test_false.
  by rewrite read_exact_app.
Qed.

Lemma broker_read_frame_inv r b r' :
  bytes_ok (r_bytes r) -> broker_read_frame r = Ready (Some b, r') ->
  exists f, broker_frame b = Some f /\ r_bytes r = f ++ r_bytes r' /\ bytes_ok b.
Proof.
  intros Hb. unfold broker_read_frame. destruct (read_exact 4 r) as [| [[h | k] r1]] eqn:E1; [done | | done].
  apply read_exact_ready in E1 as (E1 & Lh & _); [| done]. rewrite E1 in Hb. apply bytes_ok_app in Hb as [Hh Hr1].
  pose proof (from_be_bytes_bound h Hh) as Bh. rewrite Z.gtb_ltb. destruct (Z.ltb_spec MAX_FRAME_BYTES (from_be_bytes h)); [done |].
  destruct (read_exact (from_be_bytes h) r1) as [| [[p | k] r2]] eqn:E2; [done | | done]. intros [= -> ->].
  apply read_exact_ready in E2 as (E2 & Lb & _); [| lia]. exists (to_be_bytes 4 (len b) ++ b).
  split; [apply broker_frame_some; lia |]. rewrite Lb, E1, E2, app_assoc.
  replace 4%nat with (length h) by (unfold len in Lh; lia). rewrite to_from_be_bytes by done.
  split; [done |]. rewrite E2 in Hr1. by apply bytes_ok_app in Hr1 as [? _].
Qed.

(** ** The broker

    A call of the broker is a task.  [t_rx] says that the receiver of the task's one-shot
    channel is alive, [t_slot] what was sent into the channel; the sender is the entry of
    [pending] that names the task.  [t_sent] is what the task wrote to the socket. *)

Inductive point :=
| PGui (* at the lock of [request_via_gui] *)
| PSend (id : Z) (gui : nat) (* in [gui.send] *)
| PSendFailed (id : Z) (* at the lock of [unregister_gui] *)
| PWait (id : Z) (deadline : Z) (* in the timeout of the receiver *)
| PTimedOut (id : Z) (* at the lock that removes the entry *)
| PExchange (payload : list Z) (* at the first lock of [exchange] *)
| PConnect (payload : list Z) (deadline : Z)
| PWrite (framed : list Z)
| PRead (deadline : Z)
| PRelease (accepted : bool) (* at the last lock of [exchange] *)
| PDone (accepted : bool).

Record Task := mkTask {
  t_event : GuiEvent;
  t_pc : point;
  t_live : bool;
  t_rx : bool;
  t_slot : option bool;
  t_sent : list Z;
}.

(** [State]; a GUI session is the identifier of its channel, a sender of a one-shot channel
    the task that holds the receiver. *)
Record State := mkState {
  gui : option nat;
  pending : gmap Z nat;
  next_id : Z;
  socket_active : bool;
}.

(** A bounded channel of capacity one. *)
Record Chan := mkChan { c_queue : list GuiEvent; c_rx : bool }.

Record Broker := mkBroker {
  b_state : State;
  b_chans : gmap nat Chan;
  b_tasks : gmap nat Task;
  b_now : Z;
  b_runtime : option str;
}.

#[global] Instance point_eq_dec : EqDecision point.
Proof. solve_decision. Defined.

Definition with_gui (g : option nat) (s : State) : State := mkState g (pending s) (next_id s) (socket_active s).
Definition with_pending (m : gmap Z nat) (s : State) : State := mkState (gui s) m (next_id s) (socket_active s).
Definition with_active (b : bool) (s : State) : State := mkState (gui s) (pending s) (next_id s) b.

Definition set_state (s : State) (y : Broker) : Broker := mkBroker s (b_chans y) (b_tasks y) (b_now y) (b_runtime y).
Definition set_chan (c : nat) (ch : Chan) (y : Broker) : Broker :=
  mkBroker (b_state y) (<[c := ch]> (b_chans y)) (b_tasks y) (b_now y) (b_runtime y).
Definition set_tasks (m : gmap nat Task) (y : Broker) : Broker :=
  mkBroker (b_state y) (b_chans y) m (b_now y) (b_runtime y).
Definition set_now (n : Z) (y : Broker) : Broker := mkBroker (b_state y) (b_chans y) (b_tasks y) n (b_runtime y).

Definition with_tpc (p : point) (t : Task) : Task := mkTask (t_event t) p (t_live t) (t_rx t) (t_slot t) (t_sent t).
(** The receiver is dropped at the end of its [await]. *)
Definition close_rx (t : Task) : Task := mkTask (t_event t) (t_pc t) (t_live t) false (t_slot t) (t_sent t).
Definition with_sent (framed : list Z) (t : Task) : Task := mkTask (t_event t) (t_pc t) (t_live t) (t_rx t) (t_slot t) framed.

Definition goto (tid : nat) (p : point) (t : Task) (y : Broker) : Broker :=
  set_tasks (<[tid := with_tpc p t]> (b_tasks y)) y.

(** [oneshot::Sender::send]: fails once the receiver is gone. *)
Definition oneshot_send (tid : nat) (accepted : bool) (y : Broker) : bool * Broker :=
  match b_tasks y !! tid with
  | Some t =>
      if t_rx t
      then (true, set_tasks (<[tid := mkTask (t_event t) (t_pc t) (t_live t) true (Some accepted) (t_sent t)]> (b_tasks y)) y)
      else (false, y)
  | None => (false, y)
  end.

(** [mpsc::channel(1)] makes the channel [c]. *)
Definition register_gui (c : nat) (y : Broker) : bool * Broker :=
  match gui (b_state y) with
  | Some _ => (false, y)
  | None => (true, set_state (with_gui (Some c) (b_state y)) (set_chan c (mkChan [] true) y))
  end.

Definition unregister_gui (y : Broker) : Broker :=
  let senders := map snd (map_to_list (pending (b_state y))) in
  let y := set_state (with_pending ∅ (with_gui None (b_state y))) y in
  foldl (fun y tid => (oneshot_send tid false y).2) y senders.

Definition respond (id : Z) (accepted : bool) (y : Broker) : bool * Broker :=
  match pending (b_state y) !! id with
  | Some tid => oneshot_send tid accepted (set_state (with_pending (delete id (pending (b_state y))) (b_state y)) y)
  | None => (false, y)
  end.

(** The identifier of a request is set when it is put in [pending]. *)
Definition with_id (id : Z) (e : GuiEvent) : GuiEvent :=
  match e with
  | GLesc r => GLesc (mkPairing id (pr_peer r) (pr_passkey r))
  | GOob r => GOob (mkOob id (or_peer r) (or_host_pubkey r) (or_phone_pubkey r))
  | GBonded n => GBonded n
  end.

Definition event_timeout (e : GuiEvent) : Z :=
  match e with
  | GOob _ => PAIR_OOB_CONFIRMATION_TIMEOUT
  | _ => PAIR_CONFIRMATION_TIMEOUT
  end.

Definition expect_response (e : GuiEvent) : bool :=
  match e with GBonded _ => false | _ => true end.

(** What a call falls back to when no GUI session is registered, and what
    [notify_bonded] starts with: the payload, if it can be encoded. *)
Definition to_socket (e : GuiEvent) : point :=
  match event_encode e with
  | Some payload => PExchange payload
  | None => PDone false
  end.

(** [request_via_gui] up to [gui.send]. *)
Definition enter_gui (tid : nat) (t : Task) (y : Broker) : Broker :=
  let s := b_state y in
  match gui s with
  | None => goto tid (to_socket (t_event t)) (close_rx t) y
  | Some g =>
      if decide (pending s = ∅)
      then goto tid (PSend (next_id s) g) t
             (set_state (mkState (Some g) (<[next_id s := tid]> (pending s)) ((next_id s + 1) mod 2 ^ 64) (socket_active s)) y)
      else goto tid (PDone false) (close_rx t) y
  end.

(** What a poll of a socket operation finds: nothing yet, completion, an error, a byte. *)
Inductive input := INone | IOk | IErr | IByte (b : Z).

#[global] Instance input_eq_dec : EqDecision input.
Proof. solve_decision. Defined.

(** A poll of a task: [None] if nothing it waits for has happened. *)
Definition poll_task (tid : nat) (i : input) (t : Task) (y : Broker) : option Broker :=
  let s := b_state y in
  match t_pc t with
  | PGui => Some (enter_gui tid t y)
  | PSend id g =>
      match b_chans y !! g with
      | Some ch =>
          if c_rx ch
          then if decide (c_queue ch = [])
               then Some (goto tid (PWait id (b_now y + event_timeout (t_event t))) t
                            (set_chan g (mkChan [with_id id (t_event t)] true) y))
               else None
          else Some (goto tid (PSendFailed id) t y)
      | None => Some (goto tid (PSendFailed id) t y)
      end
  | PSendFailed _ =>
      let y := unregister_gui y in
      Some (goto tid (PDone false) (close_rx (default t (b_tasks y !! tid))) y)
  | PWait id deadline =>
      match t_slot t with
      | Some accepted => Some (goto tid (PDone accepted) (close_rx t) y)
      | None => if deadline <=? b_now y then Some (goto tid (PTimedOut id) (close_rx t) y) else None
      end
  | PTimedOut id =>
      Some (goto tid (PDone false) t (set_state (with_pending (delete id (pending s)) s) y))
  | PExchange payload =>
      if socket_active s then Some (goto tid (PDone false) t y)
      else
        let y := set_state (with_active true s) y in
        match pairing_confirmation_socket (b_runtime y) with
        | None => Some (goto tid (PRelease false) t y)
        | Some _ => Some (goto tid (PConnect payload (b_now y + CONNECT_WAIT)) t y)
        end
  | PConnect payload deadline =>
      match i with
      | IOk => match broker_frame payload with
               | Some framed => Some (goto tid (PWrite framed) t y)
               | None => Some (goto tid (PRelease false) t y)
               end
      | IErr => Some (goto tid (PRelease false) t y)
      | _ => if deadline <=? b_now y then Some (goto tid (PRelease false) t y) else None
      end
  | PWrite framed =>
      match i with
      | IOk => Some (goto tid (if expect_response (t_event t) then PRead (b_now y + event_timeout (t_event t))
                               else PRelease true) (with_sent framed t) y)
      | IErr => Some (goto tid (PRelease false) t y)
      | _ => None
      end
  | PRead deadline =>
      match i with
      | IByte b => Some (goto tid (PRelease (b =? 1)) t y)
      | IErr => Some (goto tid (PRelease false) t y)
      | _ => if deadline <=? b_now y then Some (goto tid (PRelease false) t y) else None
      end
  | PRelease accepted => Some (goto tid (PDone accepted) t (set_state (with_active false s) y))
  | PDone _ => None
  end.

(** [request_confirmation] and [request_oob_confirmation] begin with the GUI session,
    [notify_bonded] with the socket. *)
Definition start_pc (e : GuiEvent) : point :=
  match e with
  | GBonded _ => to_socket e
  | _ => PGui
  end.

Inductive bk_event :=
| BStart (tid : nat) (e : GuiEvent)
| BPoll (tid : nat) (i : input)
| BDrop (tid : nat) (* the future of the task is dropped, as by an abort *)
| BRegister (c : nat)
| BUnregister
| BReceive (c : nat) (* the session takes an event from its channel *)
| BHangUp (c : nat) (* the session drops its receiver *)
| BRespond (id : Z) (accepted : bool)
| BTick (ms : Z).

Definition bk_step (y : Broker) (e : bk_event) : option Broker :=
  match e with
  | BStart tid ev =>
      match b_tasks y !! tid with
      | Some _ => None
      | None => Some (set_tasks (<[tid := mkTask ev (start_pc ev) true true None []]> (b_tasks y)) y)
      end
  | BPoll tid i =>
      match b_tasks y !! tid with
      | Some t => if t_live t then poll_task tid i t y else None
      | None => None
      end
  | BDrop tid =>
      match b_tasks y !! tid with
      | Some t => Some (set_tasks (<[tid := mkTask (t_event t) (t_pc t) false false (t_slot t) (t_sent t)]> (b_tasks y)) y)
      | None => None
      end
  | BRegister c =>
      match b_chans y !! c with
      | Some _ => None
      | None => Some (register_gui c y).2
      end
  | BUnregister => Some (unregister_gui y)
  | BReceive c =>
      match b_chans y !! c with
      | Some ch => Some (set_chan c (mkChan (tail (c_queue ch)) (c_rx ch)) y)
      | None => None
      end
  | BHangUp c =>
      match b_chans y !! c with
      | Some ch => Some (set_chan c (mkChan [] false) y)
      | None => None
      end
  | BRespond id accepted => Some (respond id accepted y).2
  | BTick ms => if 0 <=? ms then Some (set_now (b_now y + ms) y) else None
  end.

Fixpoint bk_run (y : Broker) (es : list bk_event) : option Broker :=
  match es with
  | [] => Some y
  | e :: es => y ← bk_step y e; bk_run y es
  end.

(** [PairingBroker::default()] *)
Definition bk_init (runtime : option str) : Broker := mkBroker (mkState None ∅ 0 false) ∅ ∅ 0 runtime.

(** ** The transitions of one task *)

(** Everything but the one-shot channel. *)
Definition same_code (t t' : Task) : Prop :=
  t_event t' = t_event t /\ t_pc t' = t_pc t /\ t_sent t' = t_sent t.

Lemma same_code_refl t : same_code t t.
Proof. done. Qed.

Lemma same_code_trans t1 t2 t3 : same_code t1 t2 -> same_code t2 t3 -> same_code t1 t3.
Proof. unfold same_code. naive_solver congruence. Qed.

Create HintDb broker.
#[export] Hint Resolve same_code_refl : broker.

(** What a poll of a task does to the task itself. *)
Inductive moves (now : Z) (t : Task) : input -> point -> Prop :=
| mv_gui i id g : t_pc t = PGui -> moves now t i (PSend id g)
| mv_busy i : t_pc t = PGui -> moves now t i (PDone false)
| mv_socket i : t_pc t = PGui -> moves now t i (to_socket (t_event t))
| mv_send i id g : t_pc t = PSend id g -> moves now t i (PWait id (now + event_timeout (t_event t)))
| mv_send_failed i id g : t_pc t = PSend id g -> moves now t i (PSendFailed id)
| mv_unregister i id : t_pc t = PSendFailed id -> moves now t i (PDone false)
| mv_answer i id d b : t_pc t = PWait id d -> t_slot t = Some b -> moves now t i (PDone b)
| mv_elapsed i id d : t_pc t = PWait id d -> t_slot t = None -> d <= now -> moves now t i (PTimedOut id)
| mv_removed i id : t_pc t = PTimedOut id -> moves now t i (PDone false)
| mv_active i p : t_pc t = PExchange p -> moves now t i (PDone false)
| mv_no_path i p : t_pc t = PExchange p -> moves now t i (PRelease false)
| mv_connect i p : t_pc t = PExchange p -> moves now t i (PConnect p (now + CONNECT_WAIT))
| mv_connected p d framed : t_pc t = PConnect p d -> broker_frame p = Some framed -> moves now t IOk (PWrite framed)
| mv_not_connected i p d : t_pc t = PConnect p d -> moves now t i (PRelease false)
| mv_written f : t_pc t = PWrite f -> expect_response (t_event t) = true ->
    moves now t IOk (PRead (now + event_timeout (t_event t)))
| mv_notified f : t_pc t = PWrite f -> expect_response (t_event t) = false -> moves now t IOk (PRelease true)
| mv_not_written i f : t_pc t = PWrite f -> moves now t i (PRelease false)
| mv_read b d : t_pc t = PRead d -> moves now t (IByte b) (PRelease (b =? 1))
| mv_not_read i d : t_pc t = PRead d -> moves now t i (PRelease false)
| mv_release i b : t_pc t = PRelease b -> moves now t i (PDone b).

Lemma oneshot_send_other tid b y t : t <> tid -> b_tasks (oneshot_send tid b y).2 !! t = b_tasks y !! t.
Proof. intros H. unfold oneshot_send. repeat case_match; cbn; try done. by rewrite lookup_insert_ne. Qed.

Lemma oneshot_send_task tid b y t task' :
  b_tasks (oneshot_send tid b y).2 !! t = Some task' ->
  exists task, b_tasks y !! t = Some task /\ same_code task task' /\ t_live task' = t_live task /\ t_rx task' = t_rx task /\
    (t_slot task' = t_slot task \/ t = tid /\ t_slot task' = Some b).
Proof.
  unfold oneshot_send. destruct (b_tasks y !! tid) as [u |] eqn:E; cbn; [| eauto 10 with broker].
  destruct (t_rx u) eqn:Er; cbn; [| eauto 10 with broker]. destruct (decide (t = tid)) as [-> | Hne].
  - rewrite lookup_insert_eq. intros [= <-]. exists u. rewrite E. split_and!; [done.. |]. by right.
  - rewrite lookup_insert_ne by done. eauto 10 with broker.
Qed.

Lemma send_all_task senders y t task' :
  b_tasks (foldl (fun y tid => (oneshot_send tid false y).2) y senders) !! t = Some task' ->
  exists task, b_tasks y !! t = Some task /\ same_code task task' /\ t_live task' = t_live task /\ t_rx task' = t_rx task /\
    (t_slot task' = t_slot task \/ t ∈ senders /\ t_slot task' = Some false).
Proof.
  revert y. induction senders as [| tid senders IH]; intros y; cbn [foldl]; [eauto 10 with broker |].
  intros (u & Hu & S1 & L1 & R1 & V1)%IH. apply oneshot_send_task in Hu as (v & Hv & S2 & L2 & R2 & V2).
  exists v. split_and!; [done | by eapply same_code_trans | congruence | congruence |]. rewrite elem_of_cons.
  destruct V1 as [-> | []]; [destruct V2 as [-> | [-> ->]]; auto | auto].
Qed.

Lemma unregister_slot y t task' :
  b_tasks (unregister_gui y) !! t = Some task' ->
  exists task, b_tasks y !! t = Some task /\ same_code task task' /\ t_live task' = t_live task /\ t_rx task' = t_rx task /\
    (t_slot task' = t_slot task \/ (exists id, pending (b_state y) !! id = Some t) /\ t_slot task' = Some false).
Proof.
  unfold unregister_gui. intros (task & Ht & Hs & Hl & Hr & Hv)%send_all_task. exists task. split_and!; [done.. |].
  destruct Hv as [| [Hin ->]]; [by left |]. right. split; [| done].
  apply list_elem_of_fmap in Hin as ([id tid] & -> & Hin%elem_of_map_to_list). by eauto.
Qed.

Lemma unregister_task y t task' :
  b_tasks (unregister_gui y) !! t = Some task' ->
  exists task, b_tasks y !! t = Some task /\ same_code task task' /\ t_live task' = t_live task /\ t_rx task' = t_rx task /\
    (t_slot task' = t_slot task \/ t_slot task' = Some false).
Proof. intros (task & Ht & Hs & Hl & Hr & Hv)%unregister_slot. exists task. naive_solver. Qed.

Lemma respond_task id b y t task' :
  b_tasks (respond id b y).2 !! t = Some task' ->
  exists task, b_tasks y !! t = Some task /\ same_code task task' /\ t_live task' = t_live task /\ t_rx task' = t_rx task /\
    (t_slot task' = t_slot task \/ pending (b_state y) !! id = Some t /\ t_slot task' = Some b).
Proof.
  unfold respond. destruct (pending (b_state y) !! id) as [tid |] eqn:E; cbn; [| eauto 10 with broker].
  intros (u & Hu & S1 & L1 & R1 & V1)%oneshot_send_task. exists u. split_and!; [done.. |].
  destruct V1 as [| [-> ?]]; auto.
Qed.

Lemma oneshot_send_pc tid b y t : option_map t_pc (b_tasks (oneshot_send tid b y).2 !! t) = option_map t_pc (b_tasks y !! t).
Proof.
  unfold oneshot_send. destruct (b_tasks y !! tid) as [u |] eqn:E; [| done]. destruct (t_rx u); [| done]. cbn.
  destruct (decide (t = tid)) as [-> |]; [by rewrite lookup_insert_eq, E | by rewrite lookup_insert_ne].
Qed.

Lemma send_all_pc senders y t :
  option_map t_pc (b_tasks (foldl (fun y tid => (oneshot_send tid false y).2) y senders) !! t) = option_map t_pc (b_tasks y !! t).
Proof. revert y. induction senders as [| tid senders IH]; intros y; cbn [foldl]; [done |]. by rewrite IH, oneshot_send_pc. Qed.

Lemma unregister_pc y t : option_map t_pc (b_tasks (unregister_gui y) !! t) = option_map t_pc (b_tasks y !! t).
Proof. unfold unregister_gui. by rewrite send_all_pc. Qed.

(** What the other tasks see of a step: at most a refusal in their channel. *)
Definition untouched (y y' : Broker) (t : nat) : Prop :=
  (forall task', b_tasks y' !! t = Some task' ->
   exists task, b_tasks y !! t = Some task /\ same_code task task' /\ t_live task' = t_live task /\ t_rx task' = t_rx task /\
     (t_slot task' = t_slot task \/ t_slot task' = Some false)) /\
  option_map t_pc (b_tasks y' !! t) = option_map t_pc (b_tasks y !! t).

Definition moved (tid : nat) (i : input) (t : Task) (y y' : Broker) : Prop :=
  (exists t', b_tasks y' !! tid = Some t' /\ t_event t' = t_event t /\ t_live t' = t_live t /\
     moves (b_now y) t i (t_pc t') /\
     (t_sent t' = t_sent t \/ exists f, t_pc t = PWrite f /\ t_sent t' = f) /\
     (forall d, t_pc t' = PRead d -> exists f, t_pc t = PWrite f /\ t_sent t' = f) /\
     (t_slot t' = t_slot t \/ t_slot t' = Some false)) /\
  (forall u, u <> tid -> untouched y y' u).

Lemma untouched_same y y' t : b_tasks y' !! t = b_tasks y !! t -> untouched y y' t.
Proof. intros H. unfold untouched. rewrite H. eauto 10 with broker. Qed.

Lemma untouched_unregister y t : untouched y (unregister_gui y) t.
Proof. split; [intros k H; by apply unregister_task in H | apply unregister_pc]. Qed.


(** A task that only goes to another program counter. *)
Lemma goto_moved tid i t t0 y y0 p :
  b_tasks y0 = b_tasks y -> b_tasks y !! tid = Some t -> t0 = t \/ t0 = close_rx t ->
  moves (b_now y) t i p -> (forall d, p <> PRead d) -> moved tid i t y (goto tid p t0 y0).
Proof.
  intros H0 Ht Hc Hm Hp. split.
  - exists (with_tpc p t0). unfold goto. cbn. rewrite lookup_insert_eq.
    destruct Hc as [-> | ->]; cbn; split_and!; eauto; intros d ->; by destruct (Hp d).
  - intros u Hu. apply untouched_same. unfold goto. cbn. by rewrite lookup_insert_ne, H0 by done.
Qed.

Ltac by_goto := apply goto_moved; [done | done | by auto | econstructor; eassumption || done | done].

Lemma poll_task_moved tid i t y y' :
  b_tasks y !! tid = Some t -> poll_task tid i t y = Some y' -> moved tid i t y y'.
Proof.
  intros Ht. unfold poll_task. destruct (t_pc t) as [| id g | id | id d | id | p | p d | f | d | b | b] eqn:E.
  - intros <-%(inj Some). unfold enter_gui. destruct (gui (b_state y)) as [g |].
    + destruct (decide _); by_goto.
    + apply goto_moved; [done | done | by auto | by constructor |]. unfold to_socket. by case_match.
  - destruct (b_chans y !! g) as [ch |]; [destruct (c_rx ch); [destruct (decide _); [| done] |] |]; intros <-%(inj Some); by_goto.
  - intros <-%(inj Some). split.
    + eexists. unfold goto. cbn. rewrite lookup_insert_eq. split; [done |]. cbn.
      destruct (b_tasks (unregister_gui y) !! tid) as [u |] eqn:Eu; cbn.
      * apply unregister_task in Eu as (v & Hv & (S1 & S2 & S3) & L & R & V). simplify_eq.
        split_and!; [done.. | by econstructor | by left | done | done].
      * split_and!; [done.. | by econstructor | by left | done | by left].
    + intros u Hu. unfold untouched, goto. cbn. rewrite lookup_insert_ne by done. apply untouched_unregister.
  - destruct (t_slot t) as [b |] eqn:Es; [intros <-%(inj Some); by_goto |].
    destruct (Z.leb_spec d (b_now y)); [intros <-%(inj Some); by_goto | done].
  - intros <-%(inj Some). by_goto.
  - destruct (socket_active (b_state y)); [intros <-%(inj Some); by_goto |].
    destruct (pairing_confirmation_socket _); intros <-%(inj Some); by_goto.
  - destruct i; try destruct (Z.leb_spec d (b_now y)); try done; try (destruct (broker_frame p) eqn:Ef);
      intros <-%(inj Some); by_goto.
  - destruct i; try done; intros <-%(inj Some); [| by_goto].
    split.
    + eexists. unfold goto. cbn. rewrite lookup_insert_eq. split; [done |]. cbn.
      split_and!; [done | done | | by eauto | by eauto | by left].
      destruct (expect_response (t_event t)) eqn:Ee; by econstructor.
    + intros u Hu. apply untouched_same. unfold goto. cbn. by rewrite lookup_insert_ne.
  - destruct i; try destruct (Z.leb_spec d (b_now y)); try done; intros <-%(inj Some); by_goto.
  - intros <-%(inj Some). by_goto.
  - done.
Qed.

(** ** Authenticity of an acceptance *)

Section history.
Context (runtime : option str).

(** The GUI session answered yes to the identifier under which task [t] was pending. *)
Definition gui_accepted (es : list bk_event) (t : nat) : Prop :=
  exists es1 es2 id y1, es = es1 ++ BRespond id true :: es2 /\ bk_run (bk_init runtime) es1 = Some y1 /\
    pending (b_state y1) !! id = Some t.

(** The socket answered the byte 1 to task [t], which had sent the frame of [e]. *)
Definition socket_accepted (es : list bk_event) (t : nat) (e : GuiEvent) : Prop :=
  exists es1 es2 y1 task deadline payload, es = es1 ++ BPoll t (IByte 1) :: es2 /\
    bk_run (bk_init runtime) es1 = Some y1 /\ b_tasks y1 !! t = Some task /\ t_pc task = PRead deadline /\
    event_encode e = Some payload /\ broker_frame payload = Some (t_sent task).

Lemma gui_accepted_more es e t : gui_accepted es t -> gui_accepted (es ++ [e]) t.
Proof. intros (es1 & es2 & id & y1 & -> & H). exists es1, (es2 ++ [e]), id, y1. by rewrite <- app_assoc. Qed.

Lemma socket_accepted_more es e t ev : socket_accepted es t ev -> socket_accepted (es ++ [e]) t ev.
Proof.
  intros (es1 & es2 & y1 & task & d & p & -> & H). exists es1, (es2 ++ [e]), y1, task, d, p. by rewrite <- app_assoc.
Qed.

Definition accepted (es : list bk_event) (t : nat) (e : GuiEvent) : Prop :=
  match e with
  | GBonded _ => True
  | _ => gui_accepted es t \/ socket_accepted es t e
  end.

Lemma accepted_more es e t ev : accepted es t ev -> accepted (es ++ [e]) t ev.
Proof. destruct ev; cbn; [| | done]; intros [? | ?]; auto using gui_accepted_more, socket_accepted_more. Qed.

Lemma accepted_gui es t ev : gui_accepted es t -> accepted es t ev.
Proof. destruct ev; cbn; auto. Qed.

(** The payloads and frames a task carries are those of its event, and a yes comes
    from an answer. *)
Definition honest (es : list bk_event) (t : nat) (task : Task) : Prop :=
  (t_slot task = Some true -> gui_accepted es t) /\
  match t_pc task with
  | PExchange p | PConnect p _ => event_encode (t_event task) = Some p
  | PWrite f => exists p, event_encode (t_event task) = Some p /\ broker_frame p = Some f
  | PRead _ => exists p, event_encode (t_event task) = Some p /\ broker_frame p = Some (t_sent task)
  | PRelease true | PDone true => accepted es t (t_event task)
  | _ => True
  end.

Lemma honest_more es e t task task' :
  honest es t task -> same_code task task' -> (t_slot task' = t_slot task \/ t_slot task' = Some false \/
    (t_slot task' = Some true -> gui_accepted (es ++ [e]) t)) -> honest (es ++ [e]) t task'.
Proof.
  intros [H1 H2] (S1 & S2 & S3) Hs. split.
  - destruct Hs as [-> | [-> | Hs]]; [intros; by apply gui_accepted_more, H1 | done | done].
  - rewrite S1, S2, S3. destruct (t_pc task) as [| | | | | | | | | [] | []]; auto using accepted_more.
Qed.

Lemma honest_moves es y t i task task' :
  bk_run (bk_init runtime) es = Some y -> b_tasks y !! t = Some task -> t_event task' = t_event task ->
  moves (b_now y) task i (t_pc task') ->
  (forall d, t_pc task' = PRead d -> exists f, t_pc task = PWrite f /\ t_sent task' = f) ->
  t_slot task' = t_slot task \/ t_slot task' = Some false ->
  honest es t task -> honest (es ++ [BPoll t i]) t task'.
Proof.
  intros Hrun Ht He Hm Hr Hs [H1 H2]. split; [destruct Hs as [-> | ->]; [intros; by apply gui_accepted_more, H1 | done] |].
  rewrite He. revert Hr. generalize (t_pc task') as p', Hm. intros p' Hm'.
  destruct Hm' as [i id g E | i E | i E | i id g E | i id g E | i id E | i id d b E Es | i id d E Es Hd | i id E | i p E | i p E |
    i p E | p d f E Ef | i p d E | f E Ex | f E Ex | i f E | b d E | i d E | i b E]; intros Hr; rewrite E in H2; try done.
  - unfold to_socket. by destruct (event_encode (t_event task)) eqn:Ee.
  - destruct b; [by apply accepted_gui, gui_accepted_more, H1 | done].
  - by eauto.
  - destruct (Hr _ eq_refl) as (f' & Ef & ->). rewrite E in Ef. by injection Ef as <-.
  - by destruct (t_event task).
  - destruct (Z.eqb_spec b 1) as [-> |]; [| done]. destruct H2 as (p & Hp & Hf).
    destruct (t_event task) eqn:Ev; cbn; try done; right; by exists es, [], y, task, d, p.
  - destruct b; [by apply accepted_more | done].
Qed.

Lemma bk_run_snoc y es e : bk_run y (es ++ [e]) = bk_run y es ≫= fun y => bk_step y e.
Proof.
  revert y. induction es as [| e' es IH]; intros y; cbn; [by destruct (bk_step y e) |].
  destruct (bk_step y e'); [apply IH | done].
Qed.

Lemma bk_run_honest es y t task :
  bk_run (bk_init runtime) es = Some y -> b_tasks y !! t = Some task -> honest es t task.
Proof.
  revert y t task. induction es as [| e es IH] using rev_ind; intros y' t task'.
  { intros [= <-]. cbn. by rewrite lookup_empty. }
  rewrite bk_run_snoc. intros (y & Hrun & Hstep)%bind_Some Ht.
  assert (Hid : untouched y y' t -> honest (es ++ [e]) t task').
  { intros [H _]. destruct (H _ Ht) as (task & Hy & Hs & _ & _ & Hv). eapply honest_more; [by eapply IH | done |]. tauto. }
  destruct e as [tid ev | tid i | tid | c | | c | c | id b | ms]; cbn [bk_step] in Hstep.
  - destruct (b_tasks y !! tid) eqn:E; [done |]. injection Hstep as <-. cbn in Ht.
    destruct (decide (t = tid)) as [-> | Hne]; [| apply Hid, untouched_same; cbn; by rewrite lookup_insert_ne].
    rewrite lookup_insert_eq in Ht. injection Ht as <-. split; [done |]. unfold start_pc, to_socket. cbn.
    destruct ev; cbn; try done. by destruct (BondedNotice_encode notice).
  - destruct (b_tasks y !! tid) as [u |] eqn:E; [| done]. destruct (t_live u); [| done].
    apply poll_task_moved in Hstep as [(u' & Hu' & He & _ & Hm & _ & Hr & Hv) Ho]; [| done].
    destruct (decide (t = tid)) as [-> | Hne]; [| by apply Hid, Ho]. simplify_eq. by eapply honest_moves, IH.
  - destruct (b_tasks y !! tid) as [u |] eqn:E; [| done]. injection Hstep as <-. cbn in Ht.
    destruct (decide (t = tid)) as [-> | Hne]; [| apply Hid, untouched_same; cbn; by rewrite lookup_insert_ne].
    rewrite lookup_insert_eq in Ht. injection Ht as <-. eapply honest_more; [by eapply IH | done | by left].
  - destruct (b_chans y !! c); [done |]. injection Hstep as <-. apply Hid, untouched_same.
    unfold register_gui. by destruct (gui (b_state y)).
  - injection Hstep as <-. apply Hid, untouched_unregister.
  - destruct (b_chans y !! c); [| done]. injection Hstep as <-. by apply Hid, untouched_same.
  - destruct (b_chans y !! c); [| done]. injection Hstep as <-. by apply Hid, untouched_same.
  - injection Hstep as <-. apply respond_task in Ht as (task & Hy & Hs & _ & _ & Hv).
    eapply honest_more; [by eapply IH | done |]. destruct Hv as [-> | [Hp ->]]; [by left |]. right; right.
    intros [= ->]. by exists es, [], id, y.
  - destruct (0 <=? ms); [| done]. injection Hstep as <-. by apply Hid, untouched_same.
Qed.
End history.

(** ** One request at a time *)

Definition waiting (p : point) : option Z :=
  match p with
  | PSend id _ | PSendFailed id | PWait id _ | PTimedOut id => Some id
  | _ => None
  end.

(** Between taking the flag of the socket and giving it back. *)
Definition at_socket (p : point) : bool :=
  match p with
  | PConnect _ _ | PWrite _ | PRead _ | PRelease _ => true
  | _ => false
  end.

Definition unanswered (id : Z) (t : Task) : Prop := waiting (t_pc t) = Some id /\ t_slot t = None.

Record bk_inv (y : Broker) : Prop := {
  inv_one : forall id1 t1 id2 t2, pending (b_state y) !! id1 = Some t1 -> pending (b_state y) !! id2 = Some t2 -> id1 = id2;
  inv_pending : forall id t, pending (b_state y) !! id = Some t -> exists task, b_tasks y !! t = Some task /\ unanswered id task;
  inv_active : socket_active (b_state y) = true <-> exists t task, b_tasks y !! t = Some task /\ at_socket (t_pc task) = true;
  inv_socket : forall t1 t2 k1 k2, b_tasks y !! t1 = Some k1 -> b_tasks y !! t2 = Some k2 ->
    at_socket (t_pc k1) = true -> at_socket (t_pc k2) = true -> t1 = t2;
  inv_fresh : forall t k, b_tasks y !! t = Some k -> t_pc k = PGui -> t_slot k = None;
}.

(** A step that keeps the code of the tasks, and of the pending ones the channel. *)
Lemma inv_same_code y y' :
  bk_inv y -> pending (b_state y') ⊆ pending (b_state y) -> socket_active (b_state y') = socket_active (b_state y) ->
  (forall t, option_map t_pc (b_tasks y' !! t) = option_map t_pc (b_tasks y !! t)) ->
  (forall id t, pending (b_state y') !! id = Some t -> option_map t_slot (b_tasks y' !! t) = option_map t_slot (b_tasks y !! t)) ->
  (forall t k, b_tasks y' !! t = Some k -> t_pc k = PGui -> t_slot k = None) -> bk_inv y'.
Proof.
  intros [I1 I2 I3 I4 I5] Hp Ha Hc Hs Hf. split; [| | | | exact Hf].
  - intros id1 t1 id2 t2 H1 H2. eapply I1; by eapply lookup_weaken.
  - intros id t H. pose proof (Hs _ _ H) as Hv. specialize (Hc t). apply (lookup_weaken _ (pending (b_state y))) in H; [| done].
    destruct (I2 _ _ H) as (task & Ht & Hw & Hn). rewrite Ht in Hc, Hv. destruct (b_tasks y' !! t) as [k |]; [| done].
    cbn in Hc, Hv. exists k. unfold unanswered. split; [done |]. split; congruence.
  - rewrite Ha, I3. split; intros (t & task & Ht & Hk); specialize (Hc t); rewrite Ht in Hc.
    + destruct (b_tasks y' !! t) as [k |] eqn:E; [| done]. injection Hc as Hc. exists t, k. by rewrite Hc.
    + destruct (b_tasks y !! t) as [k |] eqn:E; [| done]. injection Hc as Hc. exists t, k. by rewrite <- Hc.
  - intros t1 t2 k1 k2 H1 H2 A1 A2. pose proof (Hc t1) as C1. pose proof (Hc t2) as C2. rewrite H1 in C1. rewrite H2 in C2.
    destruct (b_tasks y !! t1) eqn:E1; [| done]. destruct (b_tasks y !! t2) eqn:E2; [| done].
    injection C1 as C1. injection C2 as C2. rewrite C1 in A1. rewrite C2 in A2. by eapply I4.
Qed.

(** How the flag of the socket follows the task that goes on. *)
Definition flag_follows (p p' : point) (active active' : bool) : Prop :=
  at_socket p' = at_socket p /\ active' = active \/
  at_socket p' = true /\ active = false /\ active' = true \/
  at_socket p = true /\ at_socket p' = false /\ active' = false.

Section flag.
Context (m : gmap nat Task) (tid : nat) (t t' : Task) (active active' : bool).
Context (Ht : m !! tid = Some t) (Hf : flag_follows (t_pc t) (t_pc t') active active').
Context (Hflag : active = true <-> exists u k, m !! u = Some k /\ at_socket (t_pc k) = true).
Context (Hone : forall t1 t2 k1 k2, m !! t1 = Some k1 -> m !! t2 = Some k2 ->
  at_socket (t_pc k1) = true -> at_socket (t_pc k2) = true -> t1 = t2).

Lemma flag_other u k : u <> tid -> m !! u = Some k -> at_socket (t_pc k) = true -> active' = true /\ at_socket (t_pc t') = false.
Proof using Ht Hf Hflag Hone.
  intros Hu Hk Ha. assert (active = true) by (apply Hflag; eauto).
  destruct Hf as [[Hs ->] | [(_ & ? & _) | (Hs & _)]]; [| congruence | by destruct Hu; eapply Hone].
  split; [done |]. rewrite Hs. apply not_true_iff_false. intros ?. by destruct Hu; eapply Hone.
Qed.

Lemma flag_goto : active' = true <-> exists u k, <[tid := t']> m !! u = Some k /\ at_socket (t_pc k) = true.
Proof using Ht Hf Hflag Hone.
  split.
  - intros ->. destruct (at_socket (t_pc t')) eqn:E.
    { exists tid, t'. by rewrite lookup_insert_eq. }
    destruct Hf as [[Hs <-] | [(? & _) | (_ & _ & ?)]]; [| congruence | done].
    destruct (proj1 Hflag eq_refl) as (u & k & Hu & Ha). exists u, k. rewrite lookup_insert_ne; [done |].
    intros <-. simplify_eq. congruence.
  - intros (u & k & Hu & Ha). destruct (decide (u = tid)) as [-> | Hne].
    + rewrite lookup_insert_eq in Hu. injection Hu as <-.
      destruct Hf as [[Hs ->] | [(_ & _ & ->) | (_ & ? & _)]]; [| done | congruence]. apply Hflag. exists tid, t. split; congruence.
    + rewrite lookup_insert_ne in Hu by done. by eapply flag_other.
Qed.

Lemma flag_unique t1 t2 k1 k2 : <[tid := t']> m !! t1 = Some k1 -> <[tid := t']> m !! t2 = Some k2 ->
  at_socket (t_pc k1) = true -> at_socket (t_pc k2) = true -> t1 = t2.
Proof using Ht Hf Hflag Hone.
  intros H1 H2 A1 A2. destruct (decide (t1 = tid)) as [-> | N1], (decide (t2 = tid)) as [-> | N2];
    rewrite ?lookup_insert_eq, ?lookup_insert_ne in H1 by done; rewrite ?lookup_insert_eq, ?lookup_insert_ne in H2 by done.
  - done.
  - injection H1 as <-. destruct (flag_other t2 k2); [done.. | congruence].
  - injection H2 as <-. destruct (flag_other t1 k1); [done.. | congruence].
  - by eapply Hone.
Qed.
End flag.

(** A task that goes on: what it must leave behind it. *)
Lemma inv_goto y tid t t0 p st' chans :
  bk_inv y -> b_tasks y !! tid = Some t -> t_slot t0 = t_slot t ->
  pending st' ⊆ pending (b_state y) -> (forall id, pending st' !! id = Some tid -> waiting p = waiting (t_pc t)) ->
  flag_follows (t_pc t) p (socket_active (b_state y)) (socket_active st') -> p <> PGui ->
  bk_inv (goto tid p t0 (mkBroker st' chans (b_tasks y) (b_now y) (b_runtime y))).
Proof.
  intros [I1 I2 I3 I4 I5] Ht Hs Hp Hw Ha Hg. split; cbn.
  - intros id1 t1 id2 t2 H1 H2. eapply I1; by eapply lookup_weaken.
  - intros id u H. destruct (I2 id u) as (task & Hu & Hun); [by eapply lookup_weaken |].
    destruct (decide (u = tid)) as [-> | Hne]; [| rewrite lookup_insert_ne by done; eauto].
    rewrite lookup_insert_eq. exists (with_tpc p t0). split; [done |]. unfold unanswered in *. cbn. rewrite (Hw id), Hs by done.
    by simplify_eq.
  - by eapply flag_goto.
  - by eapply flag_unique.
  - intros u k Hu Hk. destruct (decide (u = tid)) as [-> | Hne]; [| rewrite lookup_insert_ne in Hu by done; by eapply I5].
    rewrite lookup_insert_eq in Hu. by injection Hu as <-.
Qed.

Lemma oneshot_send_state tid b y :
  b_state (oneshot_send tid b y).2 = b_state y /\ b_now (oneshot_send tid b y).2 = b_now y /\
  b_chans (oneshot_send tid b y).2 = b_chans y.
Proof. unfold oneshot_send. by repeat case_match. Qed.

Lemma send_all_state senders y :
  let y' := foldl (fun y tid => (oneshot_send tid false y).2) y senders in
  b_state y' = b_state y /\ b_now y' = b_now y /\ b_chans y' = b_chans y.
Proof.
  revert y. induction senders as [| tid senders IH]; intros y; cbn [foldl]; [done |].
  destruct (IH (oneshot_send tid false y).2) as (-> & -> & ->). apply oneshot_send_state.
Qed.

Lemma unregister_state y :
  b_state (unregister_gui y) = with_pending ∅ (with_gui None (b_state y)) /\ b_now (unregister_gui y) = b_now y /\
  b_chans (unregister_gui y) = b_chans y.
Proof. unfold unregister_gui. by destruct (send_all_state (map snd (map_to_list (pending (b_state y))))
  (set_state (with_pending ∅ (with_gui None (b_state y))) y)) as (-> & -> & ->). Qed.

(** A task that is not waiting is not pending. *)
Lemma not_pending y tid t id : bk_inv y -> b_tasks y !! tid = Some t -> waiting (t_pc t) = None -> pending (b_state y) !! id <> Some tid.
Proof. intros H Ht Hw Hp. destruct (inv_pending _ H _ _ Hp) as (k & Hk & Hu & _). congruence. Qed.

Lemma inv_unregister y : bk_inv y -> bk_inv (unregister_gui y).
Proof.
  intros H. destruct (unregister_state y) as (Es & _). eapply inv_same_code; [exact H | | | | |]; rewrite ?Es; cbn.
  - apply map_empty_subseteq.
  - done.
  - intros t. apply unregister_pc.
  - intros id t. by rewrite lookup_empty.
  - intros t k (k0 & Hk0 & (_ & Hc & _) & _ & _ & Hv)%unregister_slot Hg. rewrite Hc in Hg.
    destruct Hv as [-> | [[id Hp] _]]; [by eapply inv_fresh | by eapply not_pending in Hp; rewrite ?Hg].
Qed.

Lemma inv_respond id b y : bk_inv y -> bk_inv (respond id b y).2.
Proof.
  intros H. unfold respond. destruct (pending (b_state y) !! id) as [tid |] eqn:E; [| done].
  destruct (oneshot_send_state tid b (set_state (with_pending (delete id (pending (b_state y))) (b_state y)) y)) as (Es & _).
  eapply inv_same_code; [exact H | | | | |]; rewrite ?Es; cbn.
  - apply delete_subseteq.
  - done.
  - intros t. by rewrite oneshot_send_pc.
  - intros id' t (Hne & Hp)%lookup_delete_Some. destruct Hne. by eapply inv_one.
  - intros t k (k0 & Hk0 & (_ & Hc & _) & _ & _ & Hv)%oneshot_send_task Hg. rewrite Hc in Hg.
    destruct Hv as [-> | [-> _]]; [by eapply inv_fresh | by eapply not_pending in E; rewrite ?Hg].
Qed.

Lemma inv_enter y tid t : bk_inv y -> b_tasks y !! tid = Some t -> t_pc t = PGui -> bk_inv (enter_gui tid t y).
Proof.
  intros H Ht E. unfold enter_gui. destruct (gui (b_state y)) as [g |] eqn:Eg.
  - destruct (decide (pending (b_state y) = ∅)) as [Hp |].
    + rewrite Hp. destruct H as [I1 I2 I3 I4 I5]. split; cbn.
      * intros ? ? ? ? [<- _]%lookup_singleton_Some [<- _]%lookup_singleton_Some. done.
      * intros ? ? [<- <-]%lookup_singleton_Some. rewrite lookup_insert_eq. eexists. split; [done |]. split; [done | by apply (I5 tid t)].
      * eapply flag_goto; try done. by left; rewrite E.
      * eapply flag_unique; try done. by left; rewrite E.
      * intros u k [[<- <-] | [Hne Hu]]%lookup_insert_Some; [done | by eapply I5].
    + eapply inv_goto; try done; [| by left; rewrite E]. intros id Hid. by eapply not_pending in Hid; rewrite ?E.
  - eapply inv_goto; try done; [intros id Hid; by eapply not_pending in Hid; rewrite ?E | |].
    + left. rewrite E. unfold to_socket. by case_match.
    + unfold to_socket. by case_match.
Qed.

Lemma inv_send_failed y tid t id :
  bk_inv y -> b_tasks y !! tid = Some t -> t_pc t = PSendFailed id ->
  bk_inv (goto tid (PDone false) (close_rx (default t (b_tasks (unregister_gui y) !! tid))) (unregister_gui y)).
Proof.
  intros H Ht E. pose proof (inv_unregister y H) as Hu. destruct (unregister_state y) as (Es & _).
  destruct (b_tasks (unregister_gui y) !! tid) as [k |] eqn:Ek; cbn [default].
  - pose proof Ek as (k0 & Hk0 & (_ & Hc & _) & _)%unregister_task. simplify_eq.
    destruct (unregister_gui y) as [st ch ts now rt] eqn:Eu. cbn in *.
    eapply (inv_goto _ tid k (close_rx k) _ st ch Hu); try done; [| left; by rewrite Hc, E].
    intros id'. rewrite Es. cbn. by rewrite lookup_empty.
  - pose proof (unregister_pc y tid) as Hp. by rewrite Ek, Ht in Hp.
Qed.

Lemma inv_poll y tid i t y' : bk_inv y -> b_tasks y !! tid = Some t -> poll_task tid i t y = Some y' -> bk_inv y'.
Proof.
  intros H Ht. unfold poll_task.
  assert (Hn : forall p, waiting (t_pc t) = None -> forall id, pending (b_state y) !! id = Some tid -> waiting p = waiting (t_pc t)).
  { intros p Hw id Hid. by eapply not_pending in Hid. }
  destruct (t_pc t) as [| id g | id | id d | id | p | p d | f | d | b | b] eqn:E; cbn [waiting] in Hn.
  - intros <-%(inj Some). by apply inv_enter.
  - destruct (b_chans y !! g) as [ch |]; [destruct (c_rx ch); [destruct (decide _); [| done] |] |]; intros <-%(inj Some);
      (eapply inv_goto; try done; [by rewrite E | by left; rewrite E]).
  - intros <-%(inj Some). by eapply inv_send_failed.
  - destruct (t_slot t) as [b |] eqn:Es.
    + intros <-%(inj Some). eapply inv_goto; try done; [| by left; rewrite E]. intros id' Hid.
      destruct (inv_pending _ H _ _ Hid) as (k & Hk & _ & Hs). congruence.
    + destruct (d <=? b_now y); [| done]. intros <-%(inj Some). eapply inv_goto; try done; [by rewrite E | by left; rewrite E].
  - intros <-%(inj Some). eapply inv_goto; try done; [apply delete_subseteq | | by left; rewrite E]. cbn.
    intros id' (Hne & Hid)%lookup_delete_Some. destruct (inv_pending _ H _ _ Hid) as (k & Hk & Hw & _).
    simplify_eq. rewrite E in Hw. by injection Hw.
  - destruct (socket_active (b_state y)) eqn:Ea.
    + intros <-%(inj Some). eapply inv_goto; try done; [rewrite E; by apply Hn | left; by rewrite E].
    + destruct (pairing_confirmation_socket _); intros <-%(inj Some);
        (eapply inv_goto; try done; [rewrite E; by apply Hn | right; left; by rewrite Ea]).
  - destruct i; try destruct (d <=? b_now y); try done; try (destruct (broker_frame p) eqn:Ef);
      intros <-%(inj Some); (eapply inv_goto; try done; [rewrite E; by apply Hn | left; by rewrite E]).
  - destruct i; try done; intros <-%(inj Some); try destruct (expect_response (t_event t));
      (eapply inv_goto; try done; [rewrite E; by apply Hn | left; by rewrite E]).
  - destruct i; try destruct (d <=? b_now y); try done;
      intros <-%(inj Some); (eapply inv_goto; try done; [rewrite E; by apply Hn | left; by rewrite E]).
  - intros <-%(inj Some). eapply inv_goto; try done; [rewrite E; by apply Hn | right; right; by rewrite E].
  - done.
Qed.

Lemma inv_start y tid ev : bk_inv y -> b_tasks y !! tid = None ->
  bk_inv (set_tasks (<[tid := mkTask ev (start_pc ev) true true None []]> (b_tasks y)) y).
Proof.
  intros [I1 I2 I3 I4 I5] E. assert (Hs : at_socket (start_pc ev) = false) by (destruct ev; cbn; try done; unfold to_socket; by case_match).
  split; cbn.
  - done.
  - intros id t Hp. destruct (I2 _ _ Hp) as (k & Hk & Hu). exists k. by rewrite lookup_insert_ne by congruence.
  - rewrite I3. split; intros (u & k & Hu & Ha).
    + exists u, k. by rewrite lookup_insert_ne by congruence.
    + apply lookup_insert_Some in Hu as [[<- <-] | [_ Hu]]; [cbn in Ha; by rewrite Hs in Ha | eauto].
  - intros t1 t2 k1 k2 [[<- <-] | [_ H1]]%lookup_insert_Some [[<- <-] | [_ H2]]%lookup_insert_Some; cbn; try congruence.
    by apply I4.
  - intros t k [[<- <-] | [_ Hk]]%lookup_insert_Some; [done | by apply (I5 t)].
Qed.

Lemma inv_tasks y y' : bk_inv y -> b_state y' = b_state y -> b_tasks y' = b_tasks y -> bk_inv y'.
Proof. intros [I1 I2 I3 I4 I5] Es Et. by split; rewrite ?Es, ?Et. Qed.

Lemma bk_inv_step y e y' : bk_inv y -> bk_step y e = Some y' -> bk_inv y'.
Proof.
  intros H. destruct e as [tid ev | tid i | tid | c | | c | c | id b | ms]; cbn [bk_step].
  - destruct (b_tasks y !! tid) eqn:E; [done |]. intros [= <-]. by apply inv_start.
  - destruct (b_tasks y !! tid) as [t |] eqn:E; [| done]. destruct (t_live t); [| done]. by apply inv_poll.
  - destruct (b_tasks y !! tid) as [t |] eqn:E; [| done]. intros [= <-].
    assert (Hl : forall u, let k := <[tid := mkTask (t_event t) (t_pc t) false false (t_slot t) (t_sent t)]> (b_tasks y) !! u in
      option_map t_pc k = option_map t_pc (b_tasks y !! u) /\ option_map t_slot k = option_map t_slot (b_tasks y !! u)).
    { intros u. destruct (decide (u = tid)) as [-> |]; cbn; [by rewrite lookup_insert_eq, E | by rewrite lookup_insert_ne]. }
    eapply inv_same_code; [exact H | done | done | apply Hl | intros; apply Hl |].
    cbn. intros u k [[<- <-] | [_ Hu]]%lookup_insert_Some; [apply (inv_fresh _ H tid t E) | by apply (inv_fresh _ H u)].
  - destruct (b_chans y !! c); [done |]. intros [= <-]. unfold register_gui. destruct (gui (b_state y)); [done |].
    destruct H. by split.
  - intros [= <-]. by apply inv_unregister.
  - destruct (b_chans y !! c); [| done]. intros [= <-]. by eapply inv_tasks.
  - destruct (b_chans y !! c); [| done]. intros [= <-]. by eapply inv_tasks.
  - intros [= <-]. by apply inv_respond.
  - destruct (0 <=? ms); [| done]. intros [= <-]. by eapply inv_tasks.
Qed.

Lemma bk_inv_run y es y' : bk_inv y -> bk_run y es = Some y' -> bk_inv y'.
Proof.
  revert y. induction es as [| e es IH]; intros y H; cbn; [by intros [= <-] |].
  intros (y1 & H1 & H2)%bind_Some. eapply IH; [by eapply bk_inv_step | done].
Qed.

Lemma inv_init runtime : bk_inv (bk_init runtime).
Proof.
  split; cbn; [| | split; [done |] | |]; try (intros *; by rewrite lookup_empty).
  intros (t & k & Hk & _). by rewrite lookup_empty in Hk.
Qed.

(** ** Every request ends *)

(** The polls a task can still make. *)
Definition rank (p : point) : nat :=
  match p with
  | PGui => 6
  | PExchange _ => 5
  | PConnect _ _ => 4
  | PWrite _ | PSend _ _ => 3
  | PRead _ | PWait _ _ => 2
  | PRelease _ | PTimedOut _ | PSendFailed _ => 1
  | PDone _ => 0
  end.

Lemma moves_rank now t i p : moves now t i p -> (rank p < rank (t_pc t))%nat.
Proof. intros H. destruct H as [? ? ? E | ? E | ? E | | | | | | | | | | | | | | | | |]; rewrite ?E, ?H; cbn; try lia. unfold to_socket. case_match; cbn; lia. Qed.

Fixpoint polls_of (t : nat) (es : list bk_event) : nat :=
  match es with
  | [] => 0
  | BPoll u _ :: es => (if decide (u = t) then 1 else 0) + polls_of t es
  | _ :: es => polls_of t es
  end.

(** A task keeps its place under every step but its own polls. *)
Lemma step_keeps y e y' t k :
  bk_step y e = Some y' -> b_tasks y !! t = Some k ->
  exists k', b_tasks y' !! t = Some k' /\
    (t_pc k' = t_pc k \/ exists i, e = BPoll t i /\ (rank (t_pc k') < rank (t_pc k))%nat).
Proof.
  intros Hs Hk.
  assert (Hsame : option_map t_pc (b_tasks y' !! t) = option_map t_pc (b_tasks y !! t) ->
    exists k', b_tasks y' !! t = Some k' /\
    (t_pc k' = t_pc k \/ exists i, e = BPoll t i /\ (rank (t_pc k') < rank (t_pc k))%nat)).
  { rewrite Hk. destruct (b_tasks y' !! t) as [k' |]; [| done]. intros [= ?]. by eauto. }
  destruct e as [tid ev | tid i | tid | c | | c | c | id b | ms]; cbn [bk_step] in Hs.
  - destruct (b_tasks y !! tid) eqn:E; [done |]. injection Hs as <-. apply Hsame. cbn. by rewrite lookup_insert_ne by congruence.
  - destruct (b_tasks y !! tid) as [u |] eqn:E; [| done]. destruct (t_live u); [| done].
    apply poll_task_moved in Hs as [(u' & Hu' & _ & _ & Hm%moves_rank & _) Ho]; [| done].
    destruct (decide (t = tid)) as [-> | Hne]; [simplify_eq; by eauto 10 | by apply Hsame, Ho].
  - destruct (b_tasks y !! tid) as [u |] eqn:E; [| done]. injection Hs as <-. apply Hsame. cbn.
    destruct (decide (t = tid)) as [-> |]; [by rewrite lookup_insert_eq, E | by rewrite lookup_insert_ne].
  - destruct (b_chans y !! c); [done |]. injection Hs as <-. apply Hsame. unfold register_gui. by destruct (gui (b_state y)).
  - injection Hs as <-. apply Hsame, unregister_pc.
  - destruct (b_chans y !! c); [| done]. injection Hs as <-. by apply Hsame.
  - destruct (b_chans y !! c); [| done]. injection Hs as <-. by apply Hsame.
  - injection Hs as <-. apply Hsame. unfold respond. case_match; [| done]. cbn. by rewrite oneshot_send_pc.
  - destruct (0 <=? ms); [| done]. injection Hs as <-. by apply Hsame.
Qed.

Lemma task_polls_bounded y es y' t k :
  bk_run y es = Some y' -> b_tasks y !! t = Some k ->
  exists k', b_tasks y' !! t = Some k' /\ (rank (t_pc k') + polls_of t es <= rank (t_pc k))%nat.
Proof.
  revert y k. induction es as [| e es IH]; intros y k; cbn [bk_run].
  { intros [= <-] Hk. exists k. split; [done |]. cbn. lia. }
  intros (y1 & H1 & H2)%bind_Some Hk. pose proof H1 as Hs. eapply step_keeps in Hs as (k1 & Hk1 & Hr); [| exact Hk].
  destruct (IH _ _ H2 Hk1) as (k' & Hk' & Hle). exists k'. split; [done |].
  assert (rank (t_pc k1) <= rank (t_pc k))%nat by (destruct Hr as [-> | (i & _ & ?)]; lia).
  destruct e as [| u i | | | | | | |]; cbn [polls_of]; try lia. case_decide as Hu; [subst u | lia].
  cbn [bk_step] in H1. rewrite Hk in H1. destruct (t_live k); [| done].
  apply poll_task_moved in H1 as [(u' & Hu' & _ & _ & Hm%moves_rank & _) _]; [| done]. simplify_eq. lia.
Qed.

(** There is room in the channel of GUI session [g], or the session is gone. *)
Definition room (y : Broker) (g : nat) : bool :=
  match b_chans y !! g with
  | Some ch => if c_rx ch then bool_decide (c_queue ch = []) else true
  | None => true
  end.

(** The task is not, and will not be, held up by a full channel. *)
Definition unblocked (y : Broker) (t : Task) : bool :=
  match t_pc t with
  | PGui => match gui (b_state y) with Some g => room y g | None => true end
  | PSend _ g => room y g
  | _ => true
  end.

(** An answer of yes has reached the task. *)
Definition has_yes (t : Task) : Prop := t_slot t = Some true \/ t_pc t = PRelease true \/ t_pc t = PDone true.

(** A poll that finds no answer, and a write that the kernel completes. *)
Definition own (t : nat) (e : bk_event) : Prop :=
  match e with
  | BPoll u i => u = t /\ (i = INone \/ i = IOk)
  | BTick _ => True
  | _ => False
  end.

Definition patience (now : Z) (p : point) : Z :=
  match p with
  | PWait _ d | PConnect _ d | PRead d => Z.max 0 (d - now)
  | _ => 0
  end.

Definition silent (p : point) : input := match p with PWrite _ => IOk | _ => INone end.

Lemma unblocked_goto tid p t y t' :
  match p with PGui => False | PSend _ g => room y g = true | _ => True end ->
  b_tasks (goto tid p t y) !! tid = Some t' -> unblocked (goto tid p t y) t' = true.
Proof. intros Hp. unfold goto. cbn. rewrite lookup_insert_eq. intros [= <-]. unfold unblocked. cbn. by destruct p. Qed.

Lemma alone_polls y tid t :
  b_tasks y !! tid = Some t -> rank (t_pc t) <> O -> unblocked y t = true ->
  exists y', poll_task tid (silent (t_pc t)) t (set_now (b_now y + patience (b_now y) (t_pc t)) y) = Some y' /\
    forall t', b_tasks y' !! tid = Some t' -> unblocked y' t' = true.
Proof.
  intros Ht Hr Hu. unfold poll_task. unfold unblocked in Hu.
  destruct (t_pc t) as [| id g | id | id d | id | p | p d | f | d | b | b] eqn:E; cbn [silent patience b_state b_chans b_now set_now] in *.
  - eexists. split; [done |]. unfold enter_gui. cbn [set_now b_state]. destruct (gui (b_state y)) as [g |] eqn:Eg.
    + destruct (decide (pending (b_state y) = ∅)); intros t'; by apply unblocked_goto.
    + intros t'. apply unblocked_goto. unfold to_socket. by destruct (event_encode (t_event t)).
  - unfold room in Hu. destruct (b_chans y !! g) as [ch |]; [destruct (c_rx ch) |].
    + apply bool_decide_eq_true in Hu. destruct (decide (c_queue ch = [])); [| done].
      eexists. split; [done |]. intros t'. by apply unblocked_goto.
    + eexists. split; [done |]. intros t'. by apply unblocked_goto.
    + eexists. split; [done |]. intros t'. by apply unblocked_goto.
  - eexists. split; [done |]. intros t'. by apply unblocked_goto.
  - destruct (t_slot t); [| rewrite (proj2 (Z.leb_le _ _)) by lia];
      (eexists; split; [done |]; intros t'; by apply unblocked_goto).
  - eexists. split; [done |]. intros t'. by apply unblocked_goto.
  - destruct (socket_active _); [| destruct (pairing_confirmation_socket _)];
      (eexists; split; [done |]; intros t'; by apply unblocked_goto).
  - rewrite (proj2 (Z.leb_le _ _)) by lia. eexists. split; [done |]. intros t'. by apply unblocked_goto.
  - eexists. split; [done |]. intros t'. apply unblocked_goto. by destruct (expect_response (t_event t)).
  - rewrite (proj2 (Z.leb_le _ _)) by lia. eexists. split; [done |]. intros t'. by apply unblocked_goto.
  - eexists. split; [done |]. intros t'. by apply unblocked_goto.
  - done.
Qed.

Lemma silent_keeps_no now t p t' :
  moves now t (silent (t_pc t)) p -> expect_response (t_event t) = true -> ~ has_yes t -> t_pc t' = p ->
  t_slot t' = t_slot t \/ t_slot t' = Some false -> ~ has_yes t'.
Proof.
  intros Hm He Hn Hp Hs. unfold has_yes in *. rewrite Hp.
  assert (t_slot t' <> Some true) by (destruct Hs as [-> | ->]; [tauto | done]).
  assert (p <> PRelease true /\ p <> PDone true); [| tauto].
  remember (silent (t_pc t)) as i eqn:Ei.
  destruct Hm as [? ? ? E | ? E | ? E | | | | | | | | | | | | | | | ? ? E | | ? b E]; try done; try (split; congruence).
  - unfold to_socket. by case_match.
  - split; [done |]. intros [= ->]. tauto.
  - by rewrite E in Ei.
  - rewrite E in Hn. by destruct b; naive_solver.
Qed.

(** A task that is not held up ends alone, without an answer from anyone: it then refuses. *)
Lemma ends_alone n y tid t :
  (rank (t_pc t) <= n)%nat -> b_tasks y !! tid = Some t -> t_live t = true -> unblocked y t = true ->
  exists es y' t' b, Forall (own tid) es /\ (length es <= 2 * n)%nat /\ bk_run y es = Some y' /\
    b_tasks y' !! tid = Some t' /\ t_pc t' = PDone b /\
    (expect_response (t_event t) = true -> ~ has_yes t -> b = false).
Proof.
  revert y t. induction n as [| n IH]; intros y t Hn Ht Hl Hu.
  { exists [], y, t. destruct (t_pc t) eqn:E; cbn in Hn; try lia. exists accepted0. split_and!; try done.
    intros _ Hy. destruct accepted0; [| done]. destruct Hy. unfold has_yes. auto. }
  destruct (decide (rank (t_pc t) = O)) as [E0 | Hr].
  { destruct (IH y t) as (es & y' & t' & b & H1 & H2 & H3); [lia | done.. |]. exists es, y', t', b. split_and!; [done | lia | apply H3..]. }
  destruct (alone_polls y tid t Ht Hr Hu) as (y1 & Hp & Hu1).
  pose proof Hp as [(t1 & Ht1 & He1 & Hl1 & Hm & _ & _ & Hs) _]%poll_task_moved; [| done].
  pose proof (moves_rank _ _ _ _ Hm) as Hlt.
  destruct (IH y1 t1) as (es & y' & t' & b & Hf & Hlen & Hrun & Ht' & Hb & Hno); [lia | done | congruence | by apply Hu1 |].
  exists (BTick (patience (b_now y) (t_pc t)) :: BPoll tid (silent (t_pc t)) :: es), y', t', b.
  assert (Hpat : 0 <= patience (b_now y) (t_pc t)) by (unfold patience; case_match; lia).
  split_and!; [| cbn [length]; lia | | done | done |].
  - constructor; [done |]. constructor; [| done]. split; [done |]. destruct (t_pc t); cbn; auto.
  - cbn [bk_run bk_step]. rewrite (proj2 (Z.leb_le _ _)) by done. cbn [mbind option_bind b_tasks set_now]. by rewrite Ht, Hl, Hp.
  - intros He Hn'. apply Hno; [congruence |]. by eapply silent_keeps_no.
Qed.

(** ** What wedges the broker *)

(** A dropped task stays where it was dropped. *)
Lemma dead_stays y es y' t k :
  bk_run y es = Some y' -> b_tasks y !! t = Some k -> t_live k = false ->
  exists k', b_tasks y' !! t = Some k' /\ t_pc k' = t_pc k /\ t_live k' = false.
Proof.
  revert y k. induction es as [| e es IH]; intros y k; cbn [bk_run]; [intros [= <-]; eauto |].
  intros (y1 & H1 & H2)%bind_Some Hk Hl.
  assert (exists k1, b_tasks y1 !! t = Some k1 /\ t_pc k1 = t_pc k /\ t_live k1 = false) as (k1 & Hk1 & Hp & Hl1).
  { pose proof H1 as (k1 & Hk1 & Hr)%(fun H => step_keeps _ _ _ _ _ H Hk). exists k1. split; [done |].
    destruct e as [tid ev | tid i | tid | c | | c | c | id b | ms]; cbn [bk_step] in H1.
    - destruct (b_tasks y !! tid) eqn:E; [done |]. injection H1 as <-. cbn in Hk1. rewrite lookup_insert_ne in Hk1 by congruence.
      by simplify_eq.
    - destruct (b_tasks y !! tid) as [u |] eqn:E; [| done]. destruct (decide (tid = t)) as [-> | Hne].
      + simplify_eq. by rewrite Hl in H1.
      + destruct (t_live u); [| done]. apply poll_task_moved in H1 as [_ Ho]; [| done].
        destruct (proj1 (Ho t (not_eq_sym Hne)) _ Hk1) as (k0 & Hk0 & (_ & Hc & _) & Hv & _). split; congruence.
    - destruct (b_tasks y !! tid) as [u |] eqn:E; [| done]. injection H1 as <-. cbn in Hk1.
      apply lookup_insert_Some in Hk1 as [[<- <-] | [_ Hk1]]; cbn; split; congruence.
    - destruct (b_chans y !! c); [done |]. injection H1 as <-. unfold register_gui in Hk1. by case_match; cbn in Hk1; simplify_eq.
    - injection H1 as <-. apply unregister_task in Hk1 as (k0 & Hk0 & (_ & Hc & _) & Hv & _). split; congruence.
    - destruct (b_chans y !! c); [| done]. injection H1 as <-. cbn in Hk1. by simplify_eq.
    - destruct (b_chans y !! c); [| done]. injection H1 as <-. cbn in Hk1. by simplify_eq.
    - injection H1 as <-. apply respond_task in Hk1 as (k0 & Hk0 & (_ & Hc & _) & Hv & _). split; congruence.
    - destruct (0 <=? ms); [| done]. injection H1 as <-. cbn in Hk1. by simplify_eq. }
  destruct (IH _ _ H2 Hk1 Hl1) as (k' & Hk' & Hp' & Hl'). exists k'. split_and!; congruence.
Qed.

(** Only the session can make room in its channel. *)
Lemma full_step y e y' g :
  bk_step y e = Some y' -> room y g = false -> e <> BReceive g -> e <> BHangUp g -> b_chans y' !! g = b_chans y !! g.
Proof.
  intros H1 Hf Hr Hh. unfold room in Hf. destruct (b_chans y !! g) as [ch |] eqn:Eg; [| done].
  destruct e as [tid ev | tid i | tid | c | | c | c | id b | ms]; cbn [bk_step] in H1.
  - destruct (b_tasks y !! tid); [done |]. by injection H1 as <-.
  - destruct (b_tasks y !! tid) as [u |]; [| done]. destruct (t_live u); [| done]. unfold poll_task in H1.
    destruct (t_pc u) as [| id1 g1 | | | | | | | | |] eqn:Eu; repeat case_match; try done; injection H1 as <-; cbn; try done.
    + unfold enter_gui. by repeat case_match.
    + destruct (decide (g1 = g)) as [-> | Hne]; [| by rewrite lookup_insert_ne]. simplify_eq.
      by rewrite bool_decide_true in Hf.
    + by destruct (unregister_state y) as (_ & _ & ->).
  - destruct (b_tasks y !! tid); [| done]. by injection H1 as <-.
  - destruct (b_chans y !! c) eqn:Ec; [done |]. injection H1 as <-. unfold register_gui. destruct (gui (b_state y)); [done |].
    cbn. rewrite lookup_insert_ne; congruence.
  - injection H1 as <-. by destruct (unregister_state y) as (_ & _ & ->).
  - destruct (b_chans y !! c); [| done]. injection H1 as <-. cbn. rewrite lookup_insert_ne; congruence.
  - destruct (b_chans y !! c); [| done]. injection H1 as <-. cbn. rewrite lookup_insert_ne; congruence.
  - injection H1 as <-. unfold respond. destruct (pending (b_state y) !! id) as [tid |]; [| done]. by destruct (oneshot_send_state tid b
      (set_state (with_pending (delete id (pending (b_state y))) (b_state y)) y)) as (_ & _ & ->).
  - destruct (0 <=? ms); [| done]. by injection H1 as <-.
Qed.

Lemma full_stays y es y' t k id g :
  bk_run y es = Some y' -> b_tasks y !! t = Some k -> t_pc k = PSend id g -> room y g = false ->
  BReceive g ∉ es -> BHangUp g ∉ es -> exists k', b_tasks y' !! t = Some k' /\ t_pc k' = PSend id g.
Proof.
  revert y k. induction es as [| e es IH]; intros y k; cbn [bk_run]; [intros [= <-]; eauto |].
  intros (y1 & H1 & H2)%bind_Some Hk Hp Hf [Hr1 Hr2]%not_elem_of_cons [Hh1 Hh2]%not_elem_of_cons.
  assert (Hf1 : room y1 g = false).
  { unfold room. rewrite (full_step _ _ _ _ H1 Hf); [exact Hf | congruence..]. }
  pose proof H1 as (k1 & Hk1 & Hr)%(fun H => step_keeps _ _ _ _ _ H Hk).
  destruct Hr as [Hc | (i & -> & _)]; [eapply IH; try done; congruence |].
  exfalso. cbn [bk_step] in H1. rewrite Hk in H1. destruct (t_live k); [| done]. unfold poll_task in H1. rewrite Hp in H1.
  unfold room in Hf. repeat case_match; try done. by rewrite bool_decide_true in Hf.
Qed.

(** ** Theorems *)

(** Bytes decode as one of the three local messages exactly if they are the encoding of a
    well-formed message; so a numeric comparison, an OOB request and a bonded notice are
    never taken for one another. *)
Theorem broker_messages_exact (bytes : list Z) (e : GuiEvent) (Hb : bytes_ok bytes) :
  event_decode bytes = Some e <-> event_wf e /\ event_encode e = Some bytes.
Proof. by apply event_decode_exact. Qed.

Definition sample_oob : GuiEvent := GOob (mkOob 7 (lit "AA:BB") (replicate 32 17) (replicate 32 34)).

Lemma broker_messages_exact_witness :
  let bytes := default [] (event_encode sample_oob) in
  event_decode bytes = Some sample_oob <-> event_wf sample_oob /\ event_encode sample_oob = Some bytes.
Proof. apply (broker_messages_exact (default [] (event_encode sample_oob)) sample_oob). decide_now. Defined.

(** Every well-formed message has a frame, which is at most 338 bytes and therefore never
    refused by the 4096-byte limit, and reading a stream that starts with it gives the message back. *)
Theorem broker_frame_roundtrip (e : GuiEvent) (rest : list Z) (fin : option ErrorKind) (He : event_wf e) :
  exists b f, event_encode e = Some b /\ broker_frame b = Some f /\ len f <= 338 /\
    broker_read_frame (mkReader (f ++ rest) fin) = Ready (Some b, mkReader rest fin) /\ event_decode b = Some e.
Proof.
  destruct (event_encode_some e He) as (b & Hb & Ho & Hl). unfold MAX_PEER_BYTES, PAIR_PUBKEY_LEN in Hl.
  exists b, (to_be_bytes 4 (len b) ++ b). pose proof (broker_frame_some b ltac:(unfold MAX_FRAME_BYTES; lia)) as Hw.
  split_and!; [done | done | rewrite len_app, len_to_be_bytes; lia | by apply broker_read_frame_app | by apply event_decode_exact].
Qed.

Lemma broker_frame_roundtrip_witness :
  exists b f, event_encode sample_oob = Some b /\ broker_frame b = Some f /\ len f <= 338 /\
    broker_read_frame (mkReader (f ++ [1]) None) = Ready (Some b, mkReader [1] None) /\ event_decode b = Some sample_oob.
Proof. apply (broker_frame_roundtrip sample_oob [1] None). decide_now. Defined.

(** C37: Whatever bytes arrive on the socket, a message read from them has the types of the source (a
    64-bit identifier, a 32-bit passkey, a UTF-8 label of at most 256 bytes, keys of 32 bytes), and
    what was consumed is exactly the frame of that message. *)
Theorem broker_stream_typed (r r' : Reader) (payload : list Z) (e : GuiEvent)
  (Hr : bytes_ok (r_bytes r)) (Hf : broker_read_frame r = Ready (Some payload, r')) (He : event_decode payload = Some e) :
  event_wf e /\ exists f, event_encode e = Some payload /\ broker_frame payload = Some f /\ r_bytes r = f ++ r_bytes r'.
Proof.
  destruct (broker_read_frame_inv _ _ _ Hr Hf) as (f & Hw & Hs & Ho). apply event_decode_exact in He as [H1 H2]; [| done].
  split; [done |]. by exists f.
Qed.

Definition sample_notice : GuiEvent := GBonded (mkNotice (lit "phone")).
Definition notice_stream : Reader := mkReader ([0; 0; 0; 11] ++ lit "SYPN" ++ [0; 5] ++ lit "phone" ++ [9]) None.

Lemma broker_stream_typed_witness :
  event_wf sample_notice /\ exists f, event_encode sample_notice = Some (lit "SYPN" ++ [0; 5] ++ lit "phone") /\
    broker_frame (lit "SYPN" ++ [0; 5] ++ lit "phone") = Some f /\ r_bytes notice_stream = f ++ [9].
Proof.
  apply (broker_stream_typed notice_stream (mkReader [9] None) (lit "SYPN" ++ [0; 5] ++ lit "phone") sample_notice);
    [decide_now | by vm_compute | by vm_compute].
Defined.

(** C7: On every schedule of requests, polls, drops, GUI actions and delays, a numeric comparison or an
    OOB request ends with yes only if the GUI session answered yes to the very identifier under which
    this request was pending, or the byte 1 was read from the socket after this request had
    sent the frame of its own message. *)
Theorem broker_yes_is_answered (runtime : option str) (es : list bk_event) (y : Broker) (t : nat) (task : Task)
  (Hrun : bk_run (bk_init runtime) es = Some y) (Ht : b_tasks y !! t = Some task)
  (Hdone : t_pc task = PDone true) (Hask : expect_response (t_event task) = true) :
  gui_accepted runtime es t \/ socket_accepted runtime es t (t_event task).
Proof.
  destruct (bk_run_honest runtime es y t task Hrun Ht) as [_ H]. rewrite Hdone in H. by destruct (t_event task).
Qed.

Definition run_dir : option str := Some (lit "/run/user/1000").
Definition ask_oob (tid : nat) : bk_event := BStart tid (GOob (mkOob 0 (lit "AA:BB") (replicate 32 17) (replicate 32 34))).
Definition socket_session : list bk_event :=
  [ask_oob 0; BPoll 0 INone; BPoll 0 INone; BPoll 0 IOk; BPoll 0 IOk; BPoll 0 (IByte 1); BPoll 0 INone].
Definition after (es : list bk_event) : Broker := default (bk_init run_dir) (bk_run (bk_init run_dir) es).
Definition task_after (es : list bk_event) (t : nat) : Task :=
  default (mkTask sample_notice PGui true true None []) (b_tasks (after es) !! t).

Lemma broker_yes_is_answered_witness :
  gui_accepted run_dir socket_session 0 \/ socket_accepted run_dir socket_session 0 (t_event (task_after socket_session 0)).
Proof. by apply (broker_yes_is_answered run_dir socket_session (after socket_session) 0 (task_after socket_session 0)); vm_compute. Defined.

(** On every schedule at most one request is pending with the GUI session, and it is in the middle of
    its wait and unanswered; the flag of the socket is up exactly while one task is between
    taking it and giving it back, and no two tasks ever are. *)
Theorem broker_one_at_a_time (runtime : option str) (es : list bk_event) (y : Broker)
  (Hrun : bk_run (bk_init runtime) es = Some y) :
  (size (pending (b_state y)) <= 1)%nat /\
  (forall id t, pending (b_state y) !! id = Some t ->
     exists task, b_tasks y !! t = Some task /\ waiting (t_pc task) = Some id /\ t_slot task = None) /\
  (socket_active (b_state y) = true <-> exists t task, b_tasks y !! t = Some task /\ at_socket (t_pc task) = true) /\
  (forall t1 t2 k1 k2, b_tasks y !! t1 = Some k1 -> b_tasks y !! t2 = Some k2 ->
     at_socket (t_pc k1) = true -> at_socket (t_pc k2) = true -> t1 = t2).
Proof.
  pose proof (bk_inv_run _ _ _ (inv_init runtime) Hrun) as [I1 I2 I3 I4 _]. split_and!; [| exact I2 | exact I3 | exact I4].
  destruct (map_choose_or_empty (pending (b_state y))) as [(id & t & Hid) | ->]; [| by rewrite map_size_empty; lia].
  enough (delete id (pending (b_state y)) = ∅) as E.
  { rewrite <- (insert_delete_id _ _ _ Hid), E, insert_empty, map_size_singleton. done. }
  apply map_eq. intros id'. rewrite lookup_empty. destruct (delete id (pending (b_state y)) !! id') as [t' |] eqn:E; [| done].
  apply lookup_delete_Some in E as [Hne E]. destruct Hne. by eapply I1.
Qed.

Lemma broker_one_at_a_time_witness :
  (size (pending (b_state (after socket_session))) <= 1)%nat /\
  (forall id t, pending (b_state (after socket_session)) !! id = Some t ->
     exists task, b_tasks (after socket_session) !! t = Some task /\ waiting (t_pc task) = Some id /\ t_slot task = None) /\
  (socket_active (b_state (after socket_session)) = true <->
     exists t task, b_tasks (after socket_session) !! t = Some task /\ at_socket (t_pc task) = true) /\
  (forall t1 t2 k1 k2, b_tasks (after socket_session) !! t1 = Some k1 -> b_tasks (after socket_session) !! t2 = Some k2 ->
     at_socket (t_pc k1) = true -> at_socket (t_pc k2) = true -> t1 = t2).
Proof. apply (broker_one_at_a_time run_dir socket_session). by vm_compute. Defined.

(** C20: A request ends.  On every schedule it is polled at most six times; and as long as it is not
    held up by a full channel of the GUI session, it ends by itself after at most six
    polls and waits, with no answer from the GUI, the socket or any other task, and then it
    refuses (unless a yes had already reached it).  The one thing it needs from the kernel is that
    it completes the write of the request, one line, to a socket that was connected: that
    write has no timeout in the code. *)
Theorem broker_request_ends (runtime : option str) (es : list bk_event) (y : Broker) (t : nat) (task : Task)
  (Hrun : bk_run (bk_init runtime) es = Some y) (Ht : b_tasks y !! t = Some task) :
  (forall es' y', bk_run y es' = Some y' -> (polls_of t es' <= rank (t_pc task) <= 6)%nat) /\
  (t_live task = true -> unblocked y task = true ->
   exists es' y' task' b, Forall (own t) es' /\ (length es' <= 12)%nat /\ bk_run y es' = Some y' /\
     b_tasks y' !! t = Some task' /\ t_pc task' = PDone b /\
     (expect_response (t_event task) = true -> ~ has_yes task -> b = false)).
Proof.
  assert (Hr : (rank (t_pc task) <= 6)%nat) by (destruct (t_pc task); cbn; lia). split.
  - intros es' y' H. destruct (task_polls_bounded _ _ _ _ _ H Ht) as (k' & _ & Hk). lia.
  - intros Hl Hu. by apply (ends_alone 6).
Qed.

Definition connected_session : list bk_event := take 4 socket_session.

Lemma broker_request_ends_witness :
  (forall es' y', bk_run (after connected_session) es' = Some y' ->
     (polls_of 0 es' <= rank (t_pc (task_after connected_session 0)) <= 6)%nat) /\
  (t_live (task_after connected_session 0) = true -> unblocked (after connected_session) (task_after connected_session 0) = true ->
   exists es' y' task' b, Forall (own 0) es' /\ (length es' <= 12)%nat /\ bk_run (after connected_session) es' = Some y' /\
     b_tasks y' !! 0%nat = Some task' /\ t_pc task' = PDone b /\
     (expect_response (t_event (task_after connected_session 0)) = true -> ~ has_yes (task_after connected_session 0) -> b = false)).
Proof. by apply (broker_request_ends run_dir connected_session); vm_compute. Defined.

(** If a task is dropped while it holds the flag of the socket (the daemon aborts a pairing attempt when it
    rebuilds its GATT application), the flag stays up for the life of the broker: every later
    request over the socket is refused at once, without asking the operator. *)
Theorem dropped_exchange_wedges (runtime : option str) (es es' : list bk_event) (y y' : Broker) (t : nat) (task : Task)
  (Hrun : bk_run (bk_init runtime) es = Some y) (Ht : b_tasks y !! t = Some task)
  (Hat : at_socket (t_pc task) = true) (Hdead : t_live task = false) (Hrun' : bk_run y es' = Some y') :
  socket_active (b_state y') = true /\
  (forall u k payload i, b_tasks y' !! u = Some k -> t_live k = true -> t_pc k = PExchange payload ->
     bk_step y' (BPoll u i) = Some (goto u (PDone false) k y')).
Proof.
  destruct (dead_stays _ _ _ _ _ Hrun' Ht Hdead) as (k' & Hk' & Hp & _).
  assert (Ha : socket_active (b_state y') = true).
  { apply (inv_active _ (bk_inv_run _ _ _ (bk_inv_run _ _ _ (inv_init runtime) Hrun) Hrun')). exists t, k'. split; congruence. }
  split; [done |]. intros u k payload i Hk Hl Hx. cbn [bk_step]. rewrite Hk, Hl. unfold poll_task. by rewrite Hx, Ha.
Qed.

Definition aborted_session : list bk_event := connected_session ++ [BDrop 0].
Definition later_request : list bk_event := [BTick 3600000; ask_oob 1; BPoll 1 INone].

Lemma dropped_exchange_wedges_witness :
  let y' := after (aborted_session ++ later_request) in
  socket_active (b_state y') = true /\
  (forall u k payload i, b_tasks y' !! u = Some k -> t_live k = true -> t_pc k = PExchange payload ->
     bk_step y' (BPoll u i) = Some (goto u (PDone false) k y')).
Proof.
  by apply (dropped_exchange_wedges run_dir aborted_session later_request (after aborted_session)
    (after (aborted_session ++ later_request)) 0 (task_after aborted_session 0)); vm_compute.
Defined.

(** A request whose GUI session does not take events from its channel (the event of an earlier request that
    timed out is still in it) waits in the send without a deadline: whatever else happens,
    however late it is, it does not end until the session receives or hangs up. *)
Theorem full_channel_wedges (runtime : option str) (es es' : list bk_event) (y y' : Broker) (t : nat) (task : Task) (id : Z) (g : nat)
  (Hrun : bk_run (bk_init runtime) es = Some y) (Ht : b_tasks y !! t = Some task) (Hsend : t_pc task = PSend id g)
  (Hfull : room y g = false) (Hrun' : bk_run y es' = Some y') (Hr : BReceive g ∉ es') (Hh : BHangUp g ∉ es') :
  exists task', b_tasks y' !! t = Some task' /\ t_pc task' = PSend id g.
Proof. by eapply full_stays. Qed.

Definition stale_session : list bk_event :=
  [BRegister 0; ask_oob 0; BPoll 0 INone; BPoll 0 INone; BTick 180000; BPoll 0 INone; BPoll 0 INone; ask_oob 1; BPoll 1 INone].

Lemma full_channel_wedges_witness :
  exists task', b_tasks (after (stale_session ++ [BTick 3600000])) !! 1%nat = Some task' /\ t_pc task' = PSend 1 0.
Proof.
  apply (full_channel_wedges run_dir stale_session [BTick 3600000] (after stale_session) (after (stale_session ++ [BTick 3600000]))
    1 (task_after stale_session 1) 1 0); first [by vm_compute | set_solver].
Defined.
