(* ===== verification/PairCli.v ===== *)
(** * The pairing command

    Models crates/syauth-cli/src/pair.rs: the decisions of the [pair] command (pairing variants,
    candidates, the operator's answer) and [run_pair_with_io], which stages a bond, lets the
    backend carry out the exchange with the phone and writes the bond into the
    active store.

    The radio is the trait [PairBackend], a record of its calls.  [coordinate_v2] is a program of its
    own: other processes (the daemon, [syauth revoke]) may change the bond directory while
    it runs.  A line written to the terminal is a call that may fail; its text is not modelled. *)

From stdpp Require Import prelude list gmap strings.
From Stdlib Require Import ZArith Lia.
From S2P Require Import Prelude WireFrame Fs Bond PairTransaction PairRecovery PairCommit Reconcile PamService.

Definition PAM_BOND_KEY_FILE_MODE : Z := 384.
Definition OOB_BOND_KEY_BYTES : Z := 32.

Record PairOpts := mkPairOpts {
  po_adapter : str;
  po_peer : option str;
  po_timeout_secs : Z;
  po_bond_dir : path;
  po_yes : bool;
  po_force : bool;
  po_gui : bool;
  po_scripted_oob : option str;
}.

Record PairCandidate := mkCandidate { cand_name : str; cand_address : str }.

#[global] Instance PairCandidate_eq_dec : EqDecision PairCandidate.
Proof. solve_decision. Defined.

Record LescOutcome := mkLesc { lesc_peer_pubkey : list Z; lesc_bond_key : list Z; lesc_numeric_code : Z }.

Record AdapterInfo := mkAdapter { ad_name : str; ad_supports_lesc : bool }.

Inductive RevokeReason := RevTimeout | OperatorReject | OperatorCancel.

Inductive PairingVariant := PasskeyConfirmation | JustWorks | LegacyPin | PasskeyEntry | OobOnly.

Inductive PairError :=
| AdapterMissing (name : str)
| LescUnsupported (adapter : str)
| NoPeers
| AmbiguousPeer (matches : list str)
| PeerNotFound
| PairRevoked (reason : RevokeReason)
| PairBond (e : BondError)
| PeerAlreadyBonded (id : str)
| ProtocolUnsupported
| ProtocolTimeout
| RemoteAbort
| ProtocolUncertain
| PairBackendError
| DowngradeBlocked (actual : PairingVariant)
| UnsupportedPairingVariant (actual : PairingVariant)
| PairIo (k : ErrorKind).

(** The result of the command; the other phases of [PairingPhase] are never returned. *)
Inductive PairingPhase := PhaseBonded.

(** ** Decisions *)

Definition decide_pairing (variant : PairingVariant) : result unit PairError :=
  match variant with
  | PasskeyConfirmation => Ok tt
  | JustWorks => Err (DowngradeBlocked variant)
  | LegacyPin | PasskeyEntry | OobOnly => Err (UnsupportedPairingVariant variant)
  end.

Inductive OobConfirmation := OobAccept | OobReject.

#[global] Instance OobConfirmation_eq_dec : EqDecision OobConfirmation.
Proof. solve_decision. Defined.

(** [str::trim] *)
Definition trim (s : str) : str := concat (rev (drop_whitespace (rev (drop_whitespace (chars s))))).

(** [str::to_ascii_lowercase] *)
Definition to_ascii_lowercase (s : str) : str := map (fun b => if (65 <=? b) && (b <=? 90) then b + 32 else b) s.

Definition parse_yes_no (line : str) : OobConfirmation :=
  let trimmed := to_ascii_lowercase (trim line) in
  if bool_decide (trimmed = lit "y") then OobAccept
  else if bool_decide (trimmed = lit "yes") then OobAccept
  else OobReject.

Inductive GuiDecision := GuiConfirm | GuiReject | GuiCancel.

#[global] Instance GuiDecision_eq_dec : EqDecision GuiDecision.
Proof. solve_decision. Defined.

(** [serde_json]: the string member ["command"] of a line that is a JSON document. *)
Class SerdeJson := { json_command : str -> option str }.

(** [let mut line = String::new(); reader.read_line(&mut line)?]: [line] is what comes up to the
    next newline; bytes that are not UTF-8 are an error. *)
Definition read_line (line : list Z) : io (result str ErrorKind) :=
  syscall (fun g => (if utf8 line then Ok line else Err InvalidData, g)).

(** [writeln!(writer, ..)?] and [writer.flush()?] *)
Definition writeln : io (result unit PairError) := imap_err PairIo (syscall (fun g => (Ok tt, g))).

Definition gui_decision `{SerdeJson} (line : str) : GuiDecision :=
  match json_command line with
  | Some command =>
      if bool_decide (command = lit "confirm") then GuiConfirm
      else if bool_decide (command = lit "reject") then GuiReject
      else if bool_decide (command = lit "cancel") then GuiCancel
      else GuiReject
  | None => GuiReject
  end.

Definition read_gui_confirmation `{SerdeJson} (reader : list Z) : io (result GuiDecision PairError) :=
  let!? line := imap_err PairIo (read_line reader) in
  iret (Ok (gui_decision line)).

Definition read_oob_confirmation (reader : list Z) (auto_accept : bool) : io (result OobConfirmation PairError) :=
  let!? _ := writeln in
  let!? _ := writeln in
  let!? _ := writeln in
  let!? _ := writeln in
  if auto_accept then
    let!? _ := writeln in
    iret (Ok OobAccept)
  else
    let!? buf := imap_err PairIo (read_line reader) in
    iret (Ok (parse_yes_no buf)).

Definition filter_candidates (candidates : list PairCandidate) (peer_filter : option str) : list PairCandidate :=
  match peer_filter with
  | None => candidates
  | Some needle => List.filter (fun c => contains needle (cand_name c)) candidates
  end.

Definition pick_unambiguous (filtered : list PairCandidate) (auto_pick : bool) : result PairCandidate PairError :=
  match filtered with
  | [] => Err PeerNotFound
  | [p] => Ok p
  | _ => if auto_pick then Err (AmbiguousPeer (map cand_name filtered)) else Err PairBackendError
  end.

(** ** The driver *)

Section pair.
Context `{B3 : Blake3, CH : Chrono, TM : Toml, UM : Umask, TF : Tempfile, SJ : SerdeJson}.

(** The trait [PairBackend].  [initiate_lesc_with_peer] is [None] when it has not completed within the
    deadline it is given; the transaction identifier of [set_transaction_id] is its argument. *)
Record PairBackend := mkBackend {
  adapter_info : str -> result AdapterInfo PairError;
  scan_peers : result (list PairCandidate) PairError;
  initiate_lesc_with_peer : list Z -> Z -> PairCandidate -> option (result LescOutcome PairError);
  coordinate_v2 : list Z -> io (result unit PairError);
}.

Definition build_bond_with_time (outcome : LescOutcome) (peer : PairCandidate) (now : OffsetDateTime) : Bond :=
  mkBond (peer_id_from_pubkey (lesc_peer_pubkey outcome)) (lesc_peer_pubkey outcome) (cand_name peer) now StBonded.

Definition write_transaction_journal (d : path) (transaction : list Z) (id address : str) : io (result unit PairError) :=
  imap_err (fun e => match e with RIo k => PairIo k | _ => PairBackendError end)
    (write_journal d transaction id address JCommitPending).

Definition clear_transaction_journal (d : path) : io unit := discard_all d.

(** [pam_bond_key_path] is the path of an active key. *)
Definition write_pam_bond_key (d : path) (id : str) (bond_key : list Z) : io (result unit PairError) :=
  if negb (len bond_key =? OOB_BOND_KEY_BYTES) then iret (Err PairBackendError)
  else
    let!? _ := imap_err PairIo (fs_create_dir_all (keys_dir d)) in
    let! _ := fs_set_permissions (keys_dir d) 448 in
    let p := active_key_path d id in
    let!? _ := imap_err PairIo (fs_write p bond_key) in
    let!? _ := imap_err PairIo (fs_set_permissions p PAM_BOND_KEY_FILE_MODE) in
    iret (Ok tt).

Definition known_peer (active : BondStore) (id : str) : bool :=
  existsb (fun item => bool_decide (peer_id item = id)) (BondStore_list active).

(** The first half of [coordinate_staged_bond]: up to the journal. *)
Definition stage_pairing (opts : PairOpts) (transaction : list Z) (bond : Bond) (bond_key : list Z) (address : str)
  : io (result BondStore PairError) :=
  let d := po_bond_dir opts in
  let!? active := imap_err PairBond (BondStore_load (bonds_path d)) in
  if (if known_peer active (peer_id bond) then negb (po_force opts) else false)
  then iret (Err (PeerAlreadyBonded (peer_id bond)))
  else
    let '(pending, added) := BondStore_add BondStore_empty bond in
    let!? _ := imap_err PairBond (iret added) in
    let!? _ := imap_err PairBond (BondStore_save pending (pending_bond_path d)) in
    let staged_key := pending_key_path d (peer_id bond) in
    let!? p := iret (ok_or (parent staged_key) PairBackendError) in
    let!? _ := imap_err PairIo (fs_create_dir_all p) in
    let staged_tmp := staged_tmp_path d (peer_id bond) in
    let!? _ := imap_err PairIo (fs_write staged_tmp bond_key) in
    let!? _ := imap_err PairIo (fs_set_permissions staged_tmp 384) in
    let!? _ := imap_err PairIo (fs_rename staged_tmp staged_key) in
    let!? _ := write_transaction_journal d transaction (peer_id bond) address in
    iret (Ok active).

(** Put the bond into the store that was loaded before the exchange. *)
Definition replace_bond (active : BondStore) (bond : Bond) : result BondStore PairError :=
  let? committed :=
    if known_peer active (peer_id bond)
    then let '(c, r) := BondStore_remove active (peer_id bond) in let? _ := map_err PairBond r in Ok c
    else Ok active in
  let '(c, r) := BondStore_add committed bond in
  let? _ := map_err PairBond r in Ok c.

(** The second half: after the exchange succeeded. *)
Definition commit_pairing (opts : PairOpts) (active : BondStore) (bond : Bond) (bond_key : list Z) : io (result unit PairError) :=
  let d := po_bond_dir opts in
  let!? committed := iret (replace_bond active bond) in
  let! saved := BondStore_save committed (bonds_path d) in
  if negb (is_ok saved) then iret (Err ProtocolUncertain)
  else
    let! written := write_pam_bond_key d (peer_id bond) bond_key in
    if negb (is_ok written) then iret (Err ProtocolUncertain)
    else
      let! _ := clear_transaction_journal d in
      let!? _ := if known_peer active (peer_id bond) then writeln else iret (Ok tt) in
      let!? _ := writeln in
      iret (Ok tt).

Definition coordinate_staged_bond (opts : PairOpts) (backend : PairBackend) (transaction : list Z) (bond : Bond)
    (bond_key : list Z) (address : str) : io (result unit PairError) :=
  let!? active := stage_pairing opts transaction bond bond_key address in
  let! exchanged := coordinate_v2 backend transaction in
  match exchanged with
  | Err error =>
      let! _ := match error with
                | ProtocolUncertain => iret tt
                | _ => clear_transaction_journal (po_bond_dir opts)
                end in
      iret (Err error)
  | Ok _ => commit_pairing opts active bond bond_key
  end.

(** The operator's answer and what follows it. *)
Definition confirm_and_coordinate (opts : PairOpts) (backend : PairBackend) (transaction : list Z) (bond : Bond)
    (bond_key : list Z) (address : str) (reader : list Z) : io (result unit PairError) :=
  let scripted := bool_decide (is_Some (po_scripted_oob opts)) in
  let!? _ := if scripted then writeln else iret (Ok tt) in
  let auto_accept := po_yes opts || scripted in
  if po_gui opts then
    let!? _ := writeln in
    let!? decision := read_gui_confirmation reader in
    match decision with
    | GuiConfirm => coordinate_staged_bond opts backend transaction bond bond_key address
    | GuiReject => iret (Err (PairRevoked OperatorReject))
    | GuiCancel => iret (Err (PairRevoked OperatorCancel))
    end
  else
    let!? answer := read_oob_confirmation reader auto_accept in
    match answer with
    | OobAccept => coordinate_staged_bond opts backend transaction bond bond_key address
    | OobReject => iret (Err (PairRevoked OperatorReject))
    end.

(** [transaction] is what [new_transaction_id] draws, [now] the clock, [reader] the next line of the
    standard input. *)
Definition run_pair_with_io (opts : PairOpts) (backend : PairBackend) (reader : list Z) (transaction : list Z)
    (now : OffsetDateTime) : io (result PairingPhase PairError) :=
  let!? info := iret (adapter_info backend (po_adapter opts)) in
  let!? _ := if po_gui opts then (let!? _ := writeln in writeln) else writeln in
  if negb (ad_supports_lesc info) then iret (Err (LescUnsupported (ad_name info)))
  else
    let!? _ := if po_gui opts then writeln else iret (Ok tt) in
    let!? candidates := iret (scan_peers backend) in
    match candidates with
    | [] => iret (Err NoPeers)
    | _ =>
        let filtered := filter_candidates candidates (po_peer opts) in
        let!? chosen := iret (pick_unambiguous filtered (po_yes opts)) in
        let!? _ := writeln in
        let!? _ := if po_gui opts then iret (Ok tt) else writeln in
        match initiate_lesc_with_peer backend transaction (po_timeout_secs opts * 1000) chosen with
        | None => iret (Err (PairRevoked RevTimeout))
        | Some (Err e) => iret (Err e)
        | Some (Ok outcome) =>
            let!? _ := writeln in
            let bond := build_bond_with_time outcome chosen now in
            let!? _ := confirm_and_coordinate opts backend transaction bond (lesc_bond_key outcome) (cand_address chosen) reader in
            let!? _ := writeln in
            iret (Ok PhaseBonded)
        end
    end.
End pair.

(** ** What changes the disk *)

(** Some path of [P] is not what it was. *)
Definition changed (P : path -> Prop) (g g' : fs) : Prop := exists q, P q /\ g' !! q <> g !! q.

Section changes.
Context {S P : path -> Prop} (Hout : forall q, P q -> ~ S q).

(** What keeps clear of [P] leaves a change to what follows. *)
Lemma changed_bind {A B} (m : io A) (k : A -> io B) w :
  touches S m -> changed P (files w) (files (ibind m k w).2) ->
  exists a w', m w = (Ret a, w') /\ changed P (files w') (files (k a w').2).
Proof using Hout.
  intros Ht (q & Hq & Hc). pose proof (Ht w q (Hout q Hq)) as E. unfold ibind in Hc.
  destruct (m w) as [[a | |] w'] eqn:Em; cbn in *; [| congruence | congruence].
  exists a, w'. split; [done |]. exists q. split; [done |]. congruence.
Qed.

Lemma changed_try {A B E} (m : io (result A E)) (k : A -> io (result B E)) w :
  touches S m -> changed P (files w) (files (itry m k w).2) ->
  exists a w', m w = (Ret (Ok a), w') /\ changed P (files w') (files (k a w').2).
Proof using Hout.
  intros Ht Hc. apply changed_bind in Hc as (r & w' & Hm & Hc); [| done].
  destruct r as [a | e]; [by exists a, w' |]. by destruct Hc as (q & _ & []).
Qed.

Lemma changed_ret {A} (a : A) w : ~ changed P (files w) (files (iret a w).2).
Proof using. by intros (q & _ & []). Qed.
End changes.

Section safety.
Context `{B3 : Blake3, CH : Chrono, TM : Toml, UM : Umask, TF : Tempfile, SJ : SerdeJson}.

Lemma touches_writeln S : touches S writeln.
Proof. apply touches_map_err, touches_syscall. intros g p _. done. Qed.

Lemma touches_read_line S l : touches S (read_line l).
Proof. apply touches_syscall. intros g p _. done. Qed.

Lemma touches_gui S l : touches S (read_gui_confirmation l).
Proof. apply touches_try; [apply touches_map_err, touches_read_line | intros; apply touches_ret]. Qed.

Lemma touches_oob S l b : touches S (read_oob_confirmation l b).
Proof.
  unfold read_oob_confirmation. do 4 (apply touches_try; [apply touches_writeln | intros _]).
  destruct b; apply touches_try; [apply touches_writeln | | apply touches_map_err, touches_read_line |]; intros; apply touches_ret.
Qed.

Lemma touches_journal d tx id addr : touches (staging d) (write_transaction_journal d tx id addr).
Proof. apply touches_map_err, touches_write_journal. Qed.

Lemma touches_bond_load S p : touches S (BondStore_load p).
Proof. intros w q _. pose proof (load_stored p (files w) w eq_refl) as H. destruct (BondStore_load p w) as [[r | |] w']; cbn in *; [by destruct H as [-> _] | by rewrite H | by rewrite H]. Qed.

Lemma touches_stage_pairing opts tx bond key addr : touches (staging (po_bond_dir opts)) (stage_pairing opts tx bond key addr).
Proof.
  unfold stage_pairing. apply touches_try; [apply touches_map_err, touches_bond_load |]. intros active.
  destruct (if known_peer active (peer_id bond) then negb (po_force opts) else false); [apply touches_ret |].
  cbn [BondStore_add BondStore_empty find_index bonds position app].
  apply touches_try; [apply touches_map_err, touches_ret | intros _].
  apply touches_try; [apply touches_map_err; eapply touches_weaken; [apply touches_save | apply staging_save] | intros _].
  unfold pending_key_path at 1. rewrite parent_join. cbn [ok_or]. apply touches_try_ok.
  apply touches_try; [apply touches_map_err; eapply touches_weaken; [apply touches_create_dir_all |]; intros q Hq; by right; left | intros _].
  apply touches_try; [apply touches_map_err; eapply touches_weaken; [apply touches_write |]; intros q <-; unfold staging; eauto 10 | intros _].
  apply touches_try; [apply touches_map_err; eapply touches_weaken; [apply touches_set_permissions |]; intros q <-; unfold staging; eauto 10 | intros _].
  apply touches_try; [apply touches_map_err; eapply touches_weaken; [apply touches_rename |]; intros q [-> | ->]; unfold staging; eauto 10 | intros _].
  apply touches_try; [apply touches_journal | intros _; apply touches_ret].
Qed.

(** The operator said yes, or the command was told to assume so. *)
Definition confirmed (opts : PairOpts) (reader : list Z) : Prop :=
  if po_gui opts then utf8 reader = true /\ gui_decision reader = GuiConfirm
  else po_yes opts = true \/ is_Some (po_scripted_oob opts) \/ utf8 reader = true /\ parse_yes_no reader = OobAccept.

Lemma read_line_ok l w line w' : read_line l w = (Ret (Ok line), w') -> line = l /\ utf8 l = true.
Proof.
  unfold read_line, syscall. destruct (next_fault w) as [[| k p | [n |]] w1]; try done. destruct (utf8 l); [| done]. by intros [= <-].
Qed.

Lemma read_gui_ok l w x w' : read_gui_confirmation l w = (Ret (Ok x), w') -> utf8 l = true /\ x = gui_decision l.
Proof.
  unfold read_gui_confirmation, itry, imap_err, ibind. destruct (read_line l w) as [[[line | e] | |] w1] eqn:E; try done.
  apply read_line_ok in E as [-> Hu]. by intros [= <-].
Qed.

Lemma writeln_ok_files w : files (writeln w).2 = files w.
Proof.
  unfold writeln, imap_err, ibind, syscall. rewrite <- (next_fault_files w). by destruct (next_fault w) as [[| k p | [n |]] w1].
Qed.

Lemma read_oob_ok l b w x w' :
  read_oob_confirmation l b w = (Ret (Ok x), w') -> b = true /\ x = OobAccept \/ utf8 l = true /\ x = parse_yes_no l.
Proof.
  unfold read_oob_confirmation, itry, ibind. destruct (writeln w) as [[[[] | e] | |] w1]; try done.
  destruct (writeln w1) as [[[[] | e] | |] w2]; try done. destruct (writeln w2) as [[[[] | e] | |] w3]; try done.
  destruct (writeln w3) as [[[[] | e] | |] w4]; try done. destruct b.
  - destruct (writeln w4) as [[[[] | e] | |] w5]; try done. intros [= <-]. auto.
  - unfold imap_err, ibind. destruct (read_line l w4) as [[[line | e] | |] w5] eqn:E; try done.
    apply read_line_ok in E as [-> Hu]. intros [= <-]. auto.
Qed.

(** Outside the active trust. *)
Definition elsewhere (d q : path) : Prop := ~ active_trust d q.

Lemma elsewhere_out d q : active_trust d q -> ~ elsewhere d q.
Proof. unfold elsewhere. tauto. Qed.

Lemma staging_elsewhere {A} d (m : io A) : touches (staging d) m -> touches (elsewhere d) m.
Proof. intros Hm. eapply touches_weaken; [exact Hm |]. intros q Hq Ha. by apply trust_not_staging in Ha. Qed.

Section gate.
Context (opts : PairOpts) (backend : PairBackend) (reader tx : list Z).
Let d := po_bond_dir opts.

(** The active trust changes only after a successful exchange. *)
Lemma coordinate_changed bond key addr w :
  touches (elsewhere d) (coordinate_v2 backend tx) ->
  changed (active_trust d) (files w) (files (coordinate_staged_bond opts backend tx bond key addr w).2) ->
  exists w2 w3 active, stage_pairing opts tx bond key addr w = (Ret (Ok active), w2) /\
    coordinate_v2 backend tx w2 = (Ret (Ok tt), w3).
Proof using.
  intros Hquiet. unfold coordinate_staged_bond. intros H.
  apply (changed_try (elsewhere_out d)) in H as (active & w2 & Hs & H); [| apply staging_elsewhere, touches_stage_pairing].
  apply (changed_bind (elsewhere_out d)) in H as ([[] | e] & w3 & Hc & H); [by exists w2, w3, active | | done].
  exfalso. apply (changed_bind (elsewhere_out d)) in H as (? & ? & _ & H); [by apply changed_ret in H |].
  destruct e; try apply touches_ret; apply staging_elsewhere, touches_discard_all.
Qed.

Context (P : path -> Prop).

Lemma nowhere q : P q -> ~ (fun _ : path => False) q.
Proof using. tauto. Qed.

Lemma confirm_changed bond key addr w :
  changed P (files w) (files (confirm_and_coordinate opts backend tx bond key addr reader w).2) ->
  confirmed opts reader /\ exists w', changed P (files w') (files (coordinate_staged_bond opts backend tx bond key addr w').2).
Proof using.
  unfold confirm_and_coordinate, confirmed. intros H.
  apply (changed_try nowhere) in H as (u & w1 & _ & H);
    [| destruct (bool_decide _); [apply touches_writeln | apply touches_ret]].
  destruct (po_gui opts).
  - apply (changed_try nowhere) in H as (u' & w2 & _ & H); [| apply touches_writeln].
    apply (changed_try nowhere) in H as (x & w3 & Hx & H); [| apply touches_gui].
    apply read_gui_ok in Hx as [Hu ->]. destruct (gui_decision reader); [| by apply changed_ret in H | by apply changed_ret in H].
    by eauto.
  - apply (changed_try nowhere) in H as (x & w3 & Hx & H); [| apply touches_oob].
    apply read_oob_ok in Hx. destruct x; [| by apply changed_ret in H]. split; [| by eauto].
    destruct Hx as [[Ha _] | [Hu Hp]]; [| auto]. apply orb_true_iff in Ha as [Ha | Ha%bool_decide_eq_true]; auto.
Qed.

(** What the command has been through before it writes anything to the disk. *)
Definition gates_passed (chosen : PairCandidate) (outcome : LescOutcome) : Prop :=
  exists info candidates, adapter_info backend (po_adapter opts) = Ok info /\ ad_supports_lesc info = true /\
    scan_peers backend = Ok candidates /\ pick_unambiguous (filter_candidates candidates (po_peer opts)) (po_yes opts) = Ok chosen /\
    initiate_lesc_with_peer backend tx (po_timeout_secs opts * 1000) chosen = Some (Ok outcome) /\ confirmed opts reader.

Lemma run_changed now w :
  changed P (files w) (files (run_pair_with_io opts backend reader tx now w).2) ->
  exists chosen outcome, gates_passed chosen outcome /\ exists w', changed P (files w')
    (files (coordinate_staged_bond opts backend tx (build_bond_with_time outcome chosen now) (lesc_bond_key outcome) (cand_address chosen) w').2).
Proof using.
  unfold run_pair_with_io. intros H. pose proof (fun x => touches_writeln (fun _ => False) x) as Hw.
  apply (changed_try nowhere) in H as (info & w1 & Hi & H); [| apply touches_ret]. injection Hi as Hi ->.
  apply (changed_try nowhere) in H as (u & w2 & _ & H);
    [| destruct (po_gui opts); [apply touches_try; [exact Hw | intros _; exact Hw] | exact Hw]].
  destruct (ad_supports_lesc info) eqn:El; cbn [negb] in H; [| by apply changed_ret in H].
  apply (changed_try nowhere) in H as (u' & w3 & _ & H); [| destruct (po_gui opts); [exact Hw | apply touches_ret]].
  apply (changed_try nowhere) in H as (candidates & w4 & Hs & H); [| apply touches_ret]. injection Hs as Hs ->.
  destruct candidates as [| c cs]; [by apply changed_ret in H |].
  apply (changed_try nowhere) in H as (chosen & w5 & Hp & H); [| apply touches_ret]. injection Hp as Hp ->.
  apply (changed_try nowhere) in H as (u2 & w6 & _ & H); [| exact Hw].
  apply (changed_try nowhere) in H as (u3 & w7 & _ & H); [| destruct (po_gui opts); [apply touches_ret | exact Hw]].
  destruct (initiate_lesc_with_peer backend tx (po_timeout_secs opts * 1000) chosen) as [[outcome | e] |] eqn:Eo;
    [| by apply changed_ret in H | by apply changed_ret in H].
  apply (changed_try nowhere) in H as (u4 & w8 & _ & H); [| exact Hw].
  assert (Hc : changed P (files w8) (files (confirm_and_coordinate opts backend tx (build_bond_with_time outcome chosen now)
    (lesc_bond_key outcome) (cand_address chosen) reader w8).2)).
  { destruct H as (q & Hq & Hne). exists q. split; [done |]. intros E. apply Hne. rewrite <- E. unfold itry, ibind.
    destruct (confirm_and_coordinate _ _ _ _ _ _ _ _) as [[[[] | e] | |] w9]; cbn; try done.
    pose proof (writeln_ok_files w9) as Ew. by destruct (writeln w9) as [[[[] | e] | |] w10]; cbn in *; rewrite Ew. }
  apply confirm_changed in Hc as [Hconf Hrest]. exists chosen, outcome. split; [| done]. exists info, (c :: cs). by split_and!.
Qed.
End gate.

Lemma itry_inv {A B E} (m : io (result A E)) (k : A -> io (result B E)) w b w' :
  itry m k w = (Ret (Ok b), w') -> exists a w1, m w = (Ret (Ok a), w1) /\ k a w1 = (Ret (Ok b), w').
Proof. unfold itry, ibind. destruct (m w) as [[[a | e] | |] w1]; try done. by eauto. Qed.

(** The store that is carried through the exchange is the one on the disk before it. *)
Lemma stage_pairing_read opts tx bond key addr w active w1 :
  stage_pairing opts tx bond key addr w = (Ret (Ok active), w1) -> stored (files w !! bonds_path (po_bond_dir opts)) active.
Proof.
  unfold stage_pairing. intros (st & w0 & Hload & H)%itry_inv.
  assert (Hst : stored (files w !! bonds_path (po_bond_dir opts)) st).
  { pose proof (load_stored (bonds_path (po_bond_dir opts)) (files w) w eq_refl) as Hl. unfold imap_err, ibind in Hload.
    destruct (BondStore_load (bonds_path (po_bond_dir opts)) w) as [[[st' | e] | |] w2]; try done.
    injection Hload as <- <-. by apply Hl. }
  destruct (if known_peer st (peer_id bond) then negb (po_force opts) else false); [done |].
  cbn [BondStore_add BondStore_empty find_index bonds position app] in H.
  repeat (apply itry_inv in H as (? & ? & _ & H)). by injection H as <-.
Qed.

(** ** Crashes during the commit *)

Section commit.
Context (opts : PairOpts) (active : BondStore) (bond : Bond) (key : list Z) (Hplain : plain (peer_id bond)).
Let d := po_bond_dir opts.
Let id := peer_id bond.

(** The bonds file is completely the new store and the key is in place. *)
Definition pairing_active (g : fs) : Prop :=
  exists new bytes, replace_bond active bond = Ok new /\ serialize_to_toml new = Ok bytes /\
    g !! bonds_path d = Some (File bytes BOND_FILE_MODE) /\ g !! active_key_path d id = Some (File key PAM_BOND_KEY_FILE_MODE).

Definition bond_active (g : fs) : Prop :=
  exists new bytes, replace_bond active bond = Ok new /\ serialize_to_toml new = Ok bytes /\
    g !! bonds_path d = Some (File bytes BOND_FILE_MODE).

Lemma active_ne_staged p : In p [journal_path d; pending_bond_path d; pending_key_path d id] -> p <> active_key_path d id.
Proof using Hplain. intros Hp. apply (intact_ne_tmp d id Hplain p). cbn in *. tauto. Qed.

Lemma bonds_ne_key : bonds_path d <> active_key_path d id.
Proof using. apply not_eq_sym, key_ne_file. Qed.

(** The directory of the keys holds neither the bonds file nor the staging. *)
Lemma stable_keys_dir g0 :
  stable (fun q => ancestor (keys_dir d) q \/ q = keys_dir d) (fun g => staged_kept d id g0 g /\ bond_active g).
Proof using.
  intros g g' Hg. unfold staged_kept, bond_active.
  assert (Hf : forall n, n <> KEYS_DIR_NAME -> ~ (ancestor (keys_dir d) (join d n) \/ join d n = keys_dir d)).
  { intros n Hn [Ha | E]; [by apply file_not_keys_ancestor in Ha | by apply join_inj in E as [_ E]]. }
  assert (Hk : forall n, ~ (ancestor (keys_dir d) (join (keys_dir d) n) \/ join (keys_dir d) n = keys_dir d)).
  { intros n [Ha | E]; [by apply final_not_ancestor in Ha | by apply join_ne_dir in E]. }
  unfold pending_key_path, journal_path, pending_bond_path, bonds_path. rewrite (Hg _ (Hk _)), !Hg by (by apply Hf). done.
Qed.

Lemma stable_key g0 : stable (eq (active_key_path d id)) (fun g => staged_kept d id g0 g /\ bond_active g).
Proof using Hplain.
  intros g g' Hg. unfold staged_kept, bond_active.
  rewrite !Hg; [done | ..]; first [apply not_eq_sym, active_ne_staged; cbn; tauto | apply not_eq_sym, bonds_ne_key].
Qed.

Lemma write_key_triple g0 :
  ctriple (fun g => staged_kept d id g0 g /\ bond_active g) (fs_write (active_key_path d id) key)
    (fun r g => (staged_kept d id g0 g /\ bond_active g) /\ (is_ok r = true -> exists m, g !! active_key_path d id = Some (File key m)))
    (staged_kept d id g0).
Proof using Hplain.
  apply ctriple_write. intros g Hg.
  assert (Hw : forall x, staged_kept d id g0 (write_op (active_key_path d id) x g).2 /\ bond_active (write_op (active_key_path d id) x g).2).
  { intros x. apply (stable_key g0 g); [intros q Hq; by apply write_op_other | done]. }
  split; [| split; [by intros k | split; [apply Hg | intros n; split; [apply Hw | intros k; split; [apply Hw | done]]]]].
  split; [apply Hw |]. unfold write_op. destruct (resolve_parent g (active_key_path d id)); [| done].
  destruct (g !! active_key_path d id) as [[c m | m] |]; cbn; [| done |]; rewrite lookup_insert_eq; eauto.
Qed.

Lemma chmod_key_triple g0 :
  ctriple (fun g => (staged_kept d id g0 g /\ bond_active g) /\ exists m, g !! active_key_path d id = Some (File key m))
    (fs_set_permissions (active_key_path d id) PAM_BOND_KEY_FILE_MODE)
    (fun r g => staged_kept d id g0 g /\ (is_ok r = true -> pairing_active g)) (staged_kept d id g0).
Proof using Hplain.
  apply ctriple_syscall. intros g [Hg [m Hm]]. unfold set_permissions_op.
  destruct (resolve_parent g (active_key_path d id)); cbn; [| destruct Hg as [Hg _]; by split_and!]. rewrite Hm. cbn.
  assert (Hk : staged_kept d id g0 (<[active_key_path d id := File key PAM_BOND_KEY_FILE_MODE]> g)).
  { apply (stable_key g0 g); [| done]. intros q Hq. by rewrite lookup_insert_ne. }
  split; [split; [done |] | split; [intros k; by split; [apply Hg |] | by split; [apply Hg |]]]. intros _.
  destruct Hg as [_ (new & bytes & H1 & H2 & H3)]. exists new, bytes. split_and!; [done | done | | apply lookup_insert_eq].
  rewrite lookup_insert_ne by apply not_eq_sym, bonds_ne_key. done.
Qed.

Lemma key_written_triple g0 :
  ctriple (fun g => staged_kept d id g0 g /\ bond_active g) (write_pam_bond_key d id key)
    (fun r g => staged_kept d id g0 g /\ (is_ok r = true -> pairing_active g)) (staged_kept d id g0).
Proof using Hplain.
  unfold write_pam_bond_key. destruct (negb _); [apply ctriple_ret; by intros g [] |].
  eapply ctriple_stable_try; [apply touches_map_err, touches_create_dir_all | | by intros g [] | by intros g e [] |].
  { intros g g' Hg. apply stable_keys_dir. intros q Hq. apply Hg. tauto. }
  intros _. eapply ctriple_bind.
  { eapply ctriple_conseq; [apply (ctriple_stable (eq (keys_dir d)) (fun g => staged_kept d id g0 g /\ bond_active g))
      | done | intros a g Hg; exact Hg | by intros g []]; [apply touches_set_permissions |].
    intros g g' Hg. apply stable_keys_dir. intros q Hq. apply Hg. intros <-. tauto. }
  intros v. eapply (ctriple_try _ _ _ (fun _ g => (staged_kept d id g0 g /\ bond_active g) /\
    exists m, g !! active_key_path d id = Some (File key m))).
  { apply ctriple_map_err. eapply ctriple_conseq; [apply (write_key_triple g0) | done | | done].
    intros [u | e] g [[Hs Hb] Hm]; cbn; [by auto | by split]. }
  intros _. eapply (ctriple_try _ _ _ (fun _ g => staged_kept d id g0 g /\ pairing_active g)).
  { apply ctriple_map_err. eapply ctriple_conseq; [apply (chmod_key_triple g0) | done | | done].
    intros [u | e] g [Hs Hm]; cbn; [by auto | by split]. }
  intros _. apply ctriple_ret. intros g []. by split.
Qed.

Lemma stable_clear : stable (staging d) pairing_active.
Proof using Hplain.
  intros g g' Hg. unfold pairing_active. rewrite !Hg; [done | |]; apply trust_not_staging; [right; by exists id | by left].
Qed.

Lemma writeln_triple (F : fs -> Prop) : ctriple F writeln (fun _ => F) F.
Proof using. intros w HF. pose proof (writeln_ok_files w) as E. destruct (writeln w) as [[r | |] w']; cbn in *; by rewrite E. Qed.

Lemma commit_triple g0 :
  ctriple (eq g0) (commit_pairing opts active bond key)
    (fun r g => (staged_kept d id g0 g \/ pairing_active g) /\ (is_ok r = true -> pairing_active g))
    (fun g => staged_kept d id g0 g \/ pairing_active g).
Proof using Hplain.
  unfold commit_pairing. fold d id.
  eapply (ctriple_try _ _ _ (fun new g => replace_bond active bond = Ok new /\ g0 = g)).
  { apply ctriple_ret. intros g <-. destruct (replace_bond active bond); [done |]. split; [by left | done]. }
  intros new. apply ctriple_pure. intros Hnew.
  eapply (ctriple_bind _ _ _ (fun r g => staged_kept d id g0 g /\ (is_ok r = true -> bond_active g))).
  { eapply ctriple_conseq.
    - eapply (ctriple_keep _ _ _ _ _ _ (touches_save new d BONDS_FILE_NAME) (stable_save_staged d id g0)).
      apply (save_triple_any new d BONDS_FILE_NAME (g0 !! bonds_path d)), bonds_not_tmp_name.
    - by intros g <-.
    - intros [u | e] g [Hg Hk]; cbn in *; (split; [done |]); [| done]. intros _. destruct Hg as (bytes & Hs & Hf). by exists new, bytes.
    - intros g [_ Hk]. by left. }
  intros saved. destruct (is_ok saved); cbn [negb]; [| apply ctriple_ret; intros g [Hg _]; by split; [left |]].
  eapply (ctriple_bind _ _ _ (fun r g => staged_kept d id g0 g /\ (is_ok r = true -> pairing_active g))).
  { eapply ctriple_conseq; [apply (key_written_triple g0) | intros g [? Hb]; split; [done | by apply Hb] | done | by left]. }
  intros written. destruct (is_ok written); cbn [negb]; [| apply ctriple_ret; intros g [Hg _]; by split; [left |]].
  eapply (ctriple_bind _ _ _ (fun _ => pairing_active)).
  { eapply ctriple_conseq; [apply (ctriple_stable _ _ _ (touches_discard_all d) stable_clear) | intros g [_ Hb]; by apply Hb | done | by right]. }
  intros u. eapply (ctriple_try _ _ _ (fun _ => pairing_active)).
  { eapply ctriple_conseq; [| intros g Hg; exact Hg | | intros g Hg; right; exact Hg].
    - instantiate (1 := fun _ => pairing_active).
      destruct (known_peer active id); [apply writeln_triple | by apply ctriple_ret].
    - intros [v | e] g Hg; cbn; auto. }
  intros v. eapply (ctriple_try _ _ _ (fun _ => pairing_active)).
  { eapply ctriple_conseq; [apply (writeln_triple pairing_active) | done | | by right]. intros [x | e] g Hg; cbn; auto. }
  intros x. apply ctriple_ret. auto.
Qed.
End commit.

(** ** A pairing without faults *)

Section calm_pairing.
Context `{!TempfileLaws TF}.

Lemma writeln_calm g : writeln (calm g) = (Ret (Ok tt), calm g).
Proof using. done. Qed.

Lemma stage_pairing_calm opts tx bond key addr g active pbytes :
  let d := po_bond_dir opts in
  site g d -> ready g d -> stored (g !! bonds_path d) active -> serialize_to_toml (mkStore [bond]) = Ok pbytes ->
  (known_peer active (peer_id bond) = true -> po_force opts = true) ->
  exists g' m, stage_pairing opts tx bond key addr (calm g) = (Ret (Ok active), calm g') /\ site g' d /\
    g' !! d = Some (Dir 448) /\
    g' !! bonds_path d = g !! bonds_path d /\
    g' !! pending_bond_path d = Some (File pbytes BOND_FILE_MODE) /\
    g' !! pending_key_path d (peer_id bond) = Some (File key 384) /\
    g' !! journal_path d = Some (File (journal_text tx (peer_id bond) addr JCommitPending) m).
Proof using All.
  intros d Hs Hr Hst Hb Hf.
  assert (Np : not_dir (g !! pending_bond_path d)) by (by apply (site_files _ _ Hs)).
  set (g2 := <[pending_bond_path d := File pbytes BOND_FILE_MODE]> g).
  assert (Hs2 : site g2 d) by (by apply site_insert).
  set (g4 := <[pending_key_path d (peer_id bond) := File key 384]> (delete (staged_tmp_path d (peer_id bond)) g2)).
  assert (Hs4 : site g4 d).
  { apply site_insert; [apply site_delete; [done |] | apply not_dir_delete]; apply (site_key_files _ _ Hs2). }
  destruct (write_journal_calm g4 d tx (peer_id bond) addr JCommitPending Hs4) as [m Hw].
  destruct (dir_chmod_calm g4 d 448 Hs4) as [_ Hs5].
  exists (<[journal_path d := File (journal_text tx (peer_id bond) addr JCommitPending) m]> (<[d := Dir 448]> g4)), m.
  split_and!.
  - unfold stage_pairing. fold d. erewrite itry_map_ok by (apply load_calm; [exact Hst |];
      intros _; unfold bonds_path; rewrite resolve_parent_join; by apply site_dir).
    replace (if known_peer active (peer_id bond) then negb (po_force opts) else false) with false
      by (destruct (known_peer active (peer_id bond)); [by rewrite Hf | done]).
    cbn [BondStore_add BondStore_empty find_index bonds position app]. erewrite itry_map_ok by reflexivity.
    erewrite itry_map_ok by (apply (save_ready _ g d PENDING_BOND_FILE_NAME pbytes); done || by intros [s [=]]).
    fold (pending_bond_path d) g2. erewrite itry_ok by (unfold pending_key_path; by rewrite parent_join).
    erewrite itry_map_ok by (by apply create_keys_calm).
    erewrite (install_calm_then PairIo);
      [| apply (install_calm g2 (keys_dir d)); auto using site_keys, site_key_files, staged_names_ne].
    erewrite itry_ok; [reflexivity |]. unfold write_transaction_journal, imap_err, ibind.
    fold (pending_key_path d (peer_id bond)) (staged_tmp_path d (peer_id bond)) g4. by rewrite Hw.
  - apply site_insert; [done |]. by apply (site_files _ _ Hs5).
  - rewrite lookup_insert_ne by apply join_ne_dir. apply lookup_insert_eq.
  - unfold g4, g2, journal_path, bonds_path, pending_bond_path, pending_key_path, staged_tmp_path. by fs_lookup.
  - unfold g4, g2, journal_path, pending_bond_path, pending_key_path, staged_tmp_path. by fs_lookup.
  - unfold g4, journal_path, pending_key_path. by fs_lookup.
  - by fs_lookup.
Qed.
Lemma discard_all_calm g d bond j mj p mp k mk :
  site g d -> g !! journal_path d = Some (File j mj) -> g !! pending_bond_path d = Some (File p mp) ->
  stored (g !! pending_bond_path d) (mkStore [bond]) -> g !! pending_key_path d (peer_id bond) = Some (File k mk) ->
  discard_all d (calm g) = (Ret tt, calm (delete (pending_bond_path d) (delete (journal_path d)
    (delete (pending_key_path d (peer_id bond)) g)))).
Proof using.
  intros Hs Hj Hp Hst Hk. unfold discard_all, ibind. rewrite (load_calm _ g (mkStore [bond])) by (done || by rewrite Hp).
  cbn [BondStore_list bonds remove_pending_keys]. unfold ibind, journal_path, pending_bond_path, pending_key_path in *.
  rewrite (remove_quietly_calm g (keys_dir d) _ k mk) by (done || by apply Hs). cbn [iret].
  assert (Hs1 : site (delete (join (keys_dir d) (PENDING_KEY_PREFIX ++ peer_id bond ++ KEY_FILE_EXT)) g) d)
    by (apply site_delete; [done | by rewrite Hk]).
  rewrite (remove_quietly_calm _ d _ j mj) by (by fs_lookup || by apply site_dir).
  rewrite (remove_quietly_calm _ d _ p mp); [done | | by fs_lookup].
  apply site_dir, site_delete; [done |]. fs_lookup. by rewrite Hj.
Qed.

Lemma write_pam_bond_key_calm g d id key :
  site g d -> len key = OOB_BOND_KEY_BYTES ->
  write_pam_bond_key d id key (calm g) =
    (Ret (Ok tt), calm (<[active_key_path d id := File key PAM_BOND_KEY_FILE_MODE]> (<[keys_dir d := Dir 448]> g))) /\
  site (<[active_key_path d id := File key PAM_BOND_KEY_FILE_MODE]> (<[keys_dir d := Dir 448]> g)) d.
Proof using.
  intros Hs Hl. destruct (keys_chmod_calm g d 448 Hs) as [Hc Hs1]. set (g1 := <[keys_dir d := Dir 448]> g) in *.
  assert (Hn : not_dir (g1 !! active_key_path d id)) by apply (site_key_files _ _ Hs1).
  split; [| by apply site_insert]. unfold write_pam_bond_key. rewrite Hl, Z.eqb_refl. cbn [negb].
  erewrite itry_map_ok by (by apply create_keys_calm). unfold ibind. rewrite Hc.
  assert (Hw : exists m, fs_write (active_key_path d id) key (calm g1) = (Ret (Ok tt), calm (<[active_key_path d id := File key m]> g1))).
  { rewrite write_calm. unfold active_key_path in *. rewrite (write_op_ready g1 (keys_dir d) (site_keys _ _ Hs1)) by done. cbn. by eexists. }
  destruct Hw as [m Hw]. rewrite (itry_map_ok _ _ _ _ _ _ Hw).
  assert (Hp : fs_set_permissions (active_key_path d id) PAM_BOND_KEY_FILE_MODE (calm (<[active_key_path d id := File key m]> g1)) =
    (Ret (Ok tt), calm (<[active_key_path d id := File key PAM_BOND_KEY_FILE_MODE]> g1))).
  { assert (Hr : resolve_parent (<[active_key_path d id := File key m]> g1) (active_key_path d id) = Ok tt).
    { unfold active_key_path at 2. rewrite resolve_parent_join. by apply site_keys, site_insert. }
    unfold fs_set_permissions. rewrite syscall_calm. unfold set_permissions_op.
    rewrite Hr, lookup_insert_eq. cbn. by rewrite insert_insert_eq. }
  rewrite (itry_map_ok _ _ _ _ _ _ Hp). done.
Qed.

Lemma commit_pairing_calm `{!TomlLaws TM, !ChronoLaws CH} opts active bond key g new bytes p mp j mj mk :
  let d := po_bond_dir opts in
  site g d -> g !! d = Some (Dir 448) -> plain (peer_id bond) -> len key = OOB_BOND_KEY_BYTES ->
  replace_bond active bond = Ok new -> serialize_to_toml new = Ok bytes ->
  g !! journal_path d = Some (File j mj) -> g !! pending_bond_path d = Some (File p mp) ->
  stored (g !! pending_bond_path d) (mkStore [bond]) -> g !! pending_key_path d (peer_id bond) = Some (File key mk) ->
  exists g', commit_pairing opts active bond key (calm g) = (Ret (Ok tt), calm g') /\
    g' !! bonds_path d = Some (File bytes BOND_FILE_MODE) /\
    g' !! active_key_path d (peer_id bond) = Some (File key PAM_BOND_KEY_FILE_MODE) /\
    g' !! journal_path d = None /\ g' !! pending_bond_path d = None /\ g' !! pending_key_path d (peer_id bond) = None.
Proof using All.
  intros d Hs Hd Hpl Hl Hnew Hser Hj Hp Hst Hk.
  assert (Hn : not_dir (g !! bonds_path d)) by (by apply (site_files _ _ Hs)).
  set (g1 := <[bonds_path d := File bytes BOND_FILE_MODE]> g). assert (Hs1 : site g1 d) by (by apply site_insert).
  destruct (write_pam_bond_key_calm g1 d (peer_id bond) key Hs1 Hl) as [Hw Hs2].
  set (g2 := <[active_key_path d (peer_id bond) := File key PAM_BOND_KEY_FILE_MODE]> (<[keys_dir d := Dir 448]> g1)) in *.
  pose proof (plain_ne_pending (peer_id bond) (peer_id bond ++ KEY_FILE_EXT) Hpl) as Hne.
  assert (L1 : g2 !! journal_path d = g !! journal_path d) by (unfold g2, g1, journal_path, active_key_path, bonds_path, keys_dir; by fs_lookup).
  assert (L2 : g2 !! pending_bond_path d = g !! pending_bond_path d) by (unfold g2, g1, pending_bond_path, active_key_path, bonds_path, keys_dir; by fs_lookup).
  assert (L3 : g2 !! pending_key_path d (peer_id bond) = g !! pending_key_path d (peer_id bond))
    by (unfold g2, g1, pending_key_path, active_key_path, bonds_path; by fs_lookup).
  set (g3 := delete (pending_bond_path d) (delete (journal_path d) (delete (pending_key_path d (peer_id bond)) g2))).
  exists g3. split_and!.
  - unfold commit_pairing. fold d. erewrite itry_ok by (by rewrite Hnew). unfold ibind.
    rewrite (save_ready new g d BONDS_FILE_NAME bytes); [| | by apply (site_files _ _ Hs) | by intros [s [=]] | done].
    2: { split; [apply Hs |]. split; [by apply site_dir |]. by exists 448. }
    fold (bonds_path d) g1. cbn [is_ok negb]. rewrite Hw. cbn [is_ok negb]. unfold clear_transaction_journal.
    rewrite (discard_all_calm g2 d bond j mj p mp key mk) by congruence.
    fold g3. destruct (known_peer active (peer_id bond));
      [rewrite (itry_ok _ _ _ _ _ (writeln_calm g3)) | erewrite itry_ok by reflexivity]; by rewrite (itry_ok _ _ _ _ _ (writeln_calm g3)).
  - unfold g3, g2, g1, journal_path, pending_bond_path, pending_key_path, active_key_path, bonds_path, keys_dir. by fs_lookup.
  - unfold g3, g2, journal_path, pending_bond_path, pending_key_path, active_key_path. by fs_lookup.
  - unfold g3, journal_path, pending_bond_path. by fs_lookup.
  - unfold g3. by fs_lookup.
  - unfold g3, journal_path, pending_bond_path, pending_key_path. by fs_lookup.
Qed.
End calm_pairing.

Lemma replace_bond_activate active bond new : replace_bond active bond = Ok new <-> activate active bond = Ok new.
Proof.
  unfold replace_bond, activate, known_peer. destruct (existsb _ _).
  - destruct (BondStore_remove active (peer_id bond)) as [a [u | e]]; cbn; [| by split].
    destruct (BondStore_add a bond) as [c [v | e]]; cbn; naive_solver.
  - cbn. destruct (BondStore_add active bond) as [c [v | e]]; cbn; naive_solver.
Qed.

Lemma confirm_calm opts backend tx bond key addr reader g :
  confirmed opts reader ->
  confirm_and_coordinate opts backend tx bond key addr reader (calm g) = coordinate_staged_bond opts backend tx bond key addr (calm g).
Proof.
  unfold confirmed, confirm_and_coordinate. intros Hc.
  assert (E : forall k : unit -> io (result unit PairError),
    itry (if bool_decide (is_Some (po_scripted_oob opts)) then writeln else iret (Ok tt)) k (calm g) = k tt (calm g)).
  { intros k. by destruct (bool_decide _). }
  rewrite E. destruct (po_gui opts).
  - destruct Hc as [Hu Hd]. rewrite (itry_ok _ _ _ _ _ (writeln_calm g)).
    assert (Er : read_gui_confirmation reader (calm g) = (Ret (Ok GuiConfirm), calm g)).
    { unfold read_gui_confirmation, itry, imap_err, ibind, read_line. rewrite syscall_calm, Hu. cbn. by rewrite Hd. }
    by rewrite (itry_ok _ _ _ _ _ Er).
  - assert (Er : read_oob_confirmation reader (po_yes opts || bool_decide (is_Some (po_scripted_oob opts))) (calm g) = (Ret (Ok OobAccept), calm g)).
    { unfold read_oob_confirmation. do 4 rewrite (itry_ok _ _ _ _ _ (writeln_calm g)).
      destruct (po_yes opts || bool_decide (is_Some (po_scripted_oob opts))) eqn:Ea; [by rewrite (itry_ok _ _ _ _ _ (writeln_calm g)) |].
      apply orb_false_iff in Ea as [Ey Es%bool_decide_eq_false]. destruct Hc as [Hc | [Hc | [Hu Hp]]]; [congruence | done |].
      unfold itry, imap_err, ibind, read_line. rewrite syscall_calm, Hu. cbn. by rewrite Hp. }
    by rewrite (itry_ok _ _ _ _ _ Er).
Qed.

Lemma run_calm opts backend reader tx now g info candidates chosen outcome g' :
  adapter_info backend (po_adapter opts) = Ok info -> ad_supports_lesc info = true -> scan_peers backend = Ok candidates ->
  pick_unambiguous (filter_candidates candidates (po_peer opts)) (po_yes opts) = Ok chosen ->
  initiate_lesc_with_peer backend tx (po_timeout_secs opts * 1000) chosen = Some (Ok outcome) -> confirmed opts reader ->
  coordinate_staged_bond opts backend tx (build_bond_with_time outcome chosen now) (lesc_bond_key outcome) (cand_address chosen) (calm g)
    = (Ret (Ok tt), calm g') ->
  run_pair_with_io opts backend reader tx now (calm g) = (Ret (Ok PhaseBonded), calm g').
Proof.
  intros Hi Hl Hs Hp Ho Hc Hx. unfold run_pair_with_io. rewrite Hi. erewrite itry_ok by reflexivity.
  assert (E : forall {A} (b : bool) (x y : io (result unit PairError)) (k : unit -> io (result A PairError)),
    x (calm g) = (Ret (Ok tt), calm g) -> y (calm g) = (Ret (Ok tt), calm g) -> itry (if b then x else y) k (calm g) = k tt (calm g)).
  { intros A b x y k Hx' Hy. destruct b; by erewrite itry_ok. }
  rewrite E by (done || by rewrite (itry_ok _ _ _ _ _ (writeln_calm g))). rewrite Hl. cbn [negb].
  rewrite E by done. rewrite Hs. erewrite itry_ok by reflexivity.
  destruct candidates as [| c cs]; [by destruct (po_peer opts) |]. rewrite Hp. erewrite itry_ok by reflexivity.
  rewrite (itry_ok _ _ _ _ _ (writeln_calm g)), E by done. rewrite Ho, (itry_ok _ _ _ _ _ (writeln_calm g)).
  rewrite (itry_ok _ _ _ _ _ (eq_trans (confirm_calm _ _ _ _ _ _ _ _ Hc) Hx)). by rewrite (itry_ok _ _ _ _ _ (writeln_calm g')).
Qed.

(** ** Theorems *)

(** C6: Pairing is gated, on every fault script.  If the command changes any file, the adapter supports LE
    Secure Connections, exactly one candidate was picked, the numeric comparison completed within the
    deadline and the operator confirmed the code (or asked not to be asked); and if, with an exchange
    that itself writes no trust, it changes the bonds file or an active key, then the bilateral exchange
    with the phone succeeded as well. *)
Theorem pair_is_gated (opts : PairOpts) (backend : PairBackend) (reader tx : list Z) (now : OffsetDateTime) (w : world) (q : path)
  (Hq : files (run_pair_with_io opts backend reader tx now w).2 !! q <> files w !! q) :
  exists chosen outcome, gates_passed opts backend reader tx chosen outcome /\
    (active_trust (po_bond_dir opts) q -> touches (elsewhere (po_bond_dir opts)) (coordinate_v2 backend tx) ->
     exists w1 w2, coordinate_v2 backend tx w1 = (Ret (Ok tt), w2)).
Proof.
  assert (Hc : changed (eq q) (files w) (files (run_pair_with_io opts backend reader tx now w).2)) by (by exists q).
  apply run_changed in Hc as (chosen & outcome & Hg & w1 & (q' & <- & Hne)). exists chosen, outcome. split; [done |].
  intros Ha Hquiet. destruct (coordinate_changed opts backend tx (build_bond_with_time outcome chosen now)
    (lesc_bond_key outcome) (cand_address chosen) w1 Hquiet) as (w2 & w3 & active & _ & Hx); [by exists q |]. by eauto.
Qed.

(** C15: Once the exchange with the phone has succeeded, no fault loses the pairing: at whatever call the
    command then fails or dies, either the journal, the staged bond and the staged key are all as the
    exchange left them, so that the recovery command can complete the pairing, or the bonds file is
    completely the new store and the key is in place with mode 0600; it returns success only in the second case. *)
Theorem pair_commit_recoverable (opts : PairOpts) (backend : PairBackend) (tx : list Z) (bond : Bond) (key : list Z) (addr : str)
    (active : BondStore) (w w1 w2 : world)
  (Hplain : plain (peer_id bond)) (Hstage : stage_pairing opts tx bond key addr w = (Ret (Ok active), w1))
  (Hexchange : coordinate_v2 backend tx w1 = (Ret (Ok tt), w2)) :
  let '(o, w3) := coordinate_staged_bond opts backend tx bond key addr w in
  (staged_kept (po_bond_dir opts) (peer_id bond) (files w2) (files w3) \/ pairing_active opts active bond key (files w3)) /\
  (o = Ret (Ok tt) -> pairing_active opts active bond key (files w3)).
Proof.
  unfold coordinate_staged_bond. rewrite (itry_ok _ _ _ _ _ Hstage). unfold ibind. rewrite Hexchange.
  pose proof (commit_triple opts active bond key Hplain (files w2) w2 eq_refl) as Ht.
  destruct (commit_pairing opts active bond key w2) as [[[[] | e] | |] w3]; cbn in *; [| | by split | by split];
    (destruct Ht as [Ht Hok]; split; [done |]); [by auto | done].
Qed.

(** C24: A pairing that passes its gates and meets no fault ends bonded: the bonds file reads as the store in which the
    peer is the new bond and every other peer is as before, the key file holds the key of the comparison with mode
    0600, and nothing of the staging is left. *)
Theorem pair_completes `{!TempfileLaws TF, !TomlLaws TM, !ChronoLaws CH, !Blake3Laws B3} (opts : PairOpts) (backend : PairBackend)
    (reader tx : list Z) (now : OffsetDateTime) (g : fs) (active new : BondStore) (pbytes bytes : list Z)
    (chosen : PairCandidate) (outcome : LescOutcome)
  (Hgates : gates_passed opts backend reader tx chosen outcome)
  (Hx : forall g', coordinate_v2 backend tx (calm g') = (Ret (Ok tt), calm g'))
  (Hsite : site g (po_bond_dir opts)) (Hready : ready g (po_bond_dir opts))
  (Hact : stored (g !! bonds_path (po_bond_dir opts)) active) (Hnd : NoDup (ids active))
  (Hforce : known_peer active (peer_id_from_pubkey (lesc_peer_pubkey outcome)) = true -> po_force opts = true)
  (Hpk : arr PUBKEY_LEN (lesc_peer_pubkey outcome)) (Hlen : len (lesc_bond_key outcome) = OOB_BOND_KEY_BYTES)
  (Hpb : serialize_to_toml (mkStore [build_bond_with_time outcome chosen now]) = Ok pbytes)
  (Hnew : replace_bond active (build_bond_with_time outcome chosen now) = Ok new)
  (Hser : serialize_to_toml new = Ok bytes) (Hwf : Forall bond_wf (bonds new)) :
  let d := po_bond_dir opts in
  let bond := build_bond_with_time outcome chosen now in
  exists g', run_pair_with_io opts backend reader tx now (calm g) = (Ret (Ok PhaseBonded), calm g') /\
    stored (g' !! bonds_path d) new /\ view new = <[peer_id bond := bond]> (view active) /\
    g' !! active_key_path d (peer_id bond) = Some (File (lesc_bond_key outcome) PAM_BOND_KEY_FILE_MODE) /\
    g' !! journal_path d = None /\ g' !! pending_bond_path d = None /\ g' !! pending_key_path d (peer_id bond) = None.
Proof.
  intros d bond. destruct Hgates as (info & candidates & Hi & Hl & Hs & Hp & Ho & Hc).
  destruct (stage_pairing_calm opts tx bond (lesc_bond_key outcome) (cand_address chosen) g active pbytes)
    as (g1 & m & E1 & Hs1 & Hd1 & _ & Lp & Lk & Lj); try done.
  destruct (commit_pairing_calm opts active bond (lesc_bond_key outcome) g1 new bytes pbytes BOND_FILE_MODE
    (journal_text tx (peer_id bond) (cand_address chosen) JCommitPending) m 384) as (g2 & E2 & R1 & R2); try done.
  { apply peer_id_plain. }
  { rewrite Lp. apply saved_stored; [constructor; [by split | constructor] | done]. }
  exists g2. split; [| split; [unfold d; rewrite R1; by apply saved_stored | split; [| done]]].
  - apply (run_calm _ _ _ _ _ _ info candidates chosen outcome); try done. fold bond. unfold coordinate_staged_bond.
    rewrite (itry_ok _ _ _ _ _ E1). unfold ibind. by rewrite Hx.
  - apply replace_bond_activate in Hnew. fold bond in Hnew. destruct (activate_view active bond Hnd) as (new' & E & _ & Hv). congruence.
Qed.

(** The command writes back the store it read before the exchange: if it succeeds, the bonds file is that store with
    the new bond in it, whatever other processes wrote to the file while the exchange was running. *)
Theorem pair_overwrites_concurrent_changes (opts : PairOpts) (backend : PairBackend) (tx : list Z) (bond : Bond) (key : list Z)
    (addr : str) (w w' : world)
  (Hplain : plain (peer_id bond)) (Hok : coordinate_staged_bond opts backend tx bond key addr w = (Ret (Ok tt), w')) :
  exists active new bytes, stored (files w !! bonds_path (po_bond_dir opts)) active /\ replace_bond active bond = Ok new /\
    serialize_to_toml new = Ok bytes /\ files w' !! bonds_path (po_bond_dir opts) = Some (File bytes BOND_FILE_MODE).
Proof.
  revert Hok. unfold coordinate_staged_bond, itry, ibind.
  destruct (stage_pairing opts tx bond key addr w) as [[[active | e] | |] w1] eqn:Es; try done.
  destruct (coordinate_v2 backend tx w1) as [[[[] | e] | |] w2]; try done; [| by destruct e; repeat case_match].
  intros Hc. pose proof (commit_triple opts active bond key Hplain (files w2) w2 eq_refl) as Ht. rewrite Hc in Ht. cbn in Ht.
  destruct Ht as [_ Ht]. destruct (Ht eq_refl) as (new & bytes & H1 & H2 & H3 & _). exists active, new, bytes. split_and!; try done.
  by eapply stage_pairing_read.
Qed.
End safety.

(** ** The properties on a concrete directory *)

Import ToyCrypto ToyCrates ToyTempfile.

(** A line is its own command. *)
#[local] Instance toy_json : SerdeJson := { json_command l := Some l }.

Definition sample_outcome : LescOutcome := mkLesc sample_pubkey sample_key 123456.
Definition sample_candidate : PairCandidate := mkCandidate (lit "Pixel") sample_addr.
Definition sample_now : OffsetDateTime := lit "2026-01-01T00:00:00Z".

Definition sample_backend (x : io (result unit PairError)) : PairBackend :=
  mkBackend (fun _ => Ok (mkAdapter (lit "hci0") true)) (Ok [mkCandidate (lit "Other") (lit "11"); sample_candidate])
    (fun _ _ _ => Some (Ok sample_outcome)) (fun _ => x).

Definition sample_opts (force : bool) : PairOpts :=
  mkPairOpts (lit "hci0") (Some (lit "ixe")) 60 sample_dir false force false None.

Definition quiet : PairBackend := sample_backend (iret (Ok tt)).
Definition answer : list Z := lit " Yes" ++ [10].

Lemma sample_gates force x : gates_passed (sample_opts force) (sample_backend x) answer sample_tx sample_candidate sample_outcome.
Proof.
  exists (mkAdapter (lit "hci0") true), [mkCandidate (lit "Other") (lit "11"); sample_candidate].
  split_and!; try (by vm_compute). right. right. split; by vm_compute.
Qed.

Definition paired : world := (run_pair_with_io (sample_opts false) quiet answer sample_tx sample_now (calm sample_site)).2.

Lemma pair_is_gated_witness :
  exists chosen outcome, gates_passed (sample_opts false) quiet answer sample_tx chosen outcome /\
    (active_trust sample_dir (bonds_path sample_dir) -> touches (elsewhere sample_dir) (coordinate_v2 quiet sample_tx) ->
     exists w1 w2, coordinate_v2 quiet sample_tx w1 = (Ret (Ok tt), w2)).
Proof.
  apply (pair_is_gated (sample_opts false) quiet answer sample_tx sample_now (calm sample_site) (bonds_path sample_dir)).
  vm_compute. discriminate.
Defined.

(** The process dies while the key is being written. *)
Definition dying : world := mkWorld sample_site (replicate 27 Fine ++ [Dies (Some 5%nat)]).

Lemma pair_commit_recoverable_witness :
  let w1 := (stage_pairing (sample_opts false) sample_tx sample_bond sample_key sample_addr dying).2 in
  let '(o, w3) := coordinate_staged_bond (sample_opts false) quiet sample_tx sample_bond sample_key sample_addr dying in
  (staged_kept sample_dir (peer_id sample_bond) (files w1) (files w3) \/
   pairing_active (sample_opts false) (mkStore []) sample_bond sample_key (files w3)) /\
  (o = Ret (Ok tt) -> pairing_active (sample_opts false) (mkStore []) sample_bond sample_key (files w3)).
Proof.
  cbv zeta. set (w1 := (stage_pairing (sample_opts false) sample_tx sample_bond sample_key sample_addr dying).2).
  assert (Hp : plain (peer_id sample_bond)) by (by vm_compute).
  assert (Hs : stage_pairing (sample_opts false) sample_tx sample_bond sample_key sample_addr dying = (Ret (Ok (mkStore [])), w1))
    by (vm_compute; reflexivity).
  exact (pair_commit_recoverable (sample_opts false) quiet sample_tx sample_bond sample_key sample_addr (mkStore []) dying w1 w1
    Hp Hs eq_refl).
Defined.

Lemma pair_completes_witness :
  let bond := build_bond_with_time sample_outcome sample_candidate sample_now in
  exists g', run_pair_with_io (sample_opts false) quiet answer sample_tx sample_now (calm sample_site) = (Ret (Ok PhaseBonded), calm g') /\
    stored (g' !! bonds_path sample_dir) sample_store /\ view sample_store = <[peer_id bond := bond]> (view (mkStore [])) /\
    g' !! active_key_path sample_dir (peer_id bond) = Some (File sample_key PAM_BOND_KEY_FILE_MODE) /\
    g' !! journal_path sample_dir = None /\ g' !! pending_bond_path sample_dir = None /\
    g' !! pending_key_path sample_dir (peer_id bond) = None.
Proof.
  assert (Hr : ready sample_site sample_dir) by (split; [done |]; split; [by vm_compute |]; exists 448; by vm_compute).
  assert (Ha : stored (sample_site !! bonds_path sample_dir) (mkStore [])) by (vm_compute; reflexivity).
  assert (Hf : known_peer (mkStore []) (peer_id_from_pubkey sample_pubkey) = true -> false = true) by (vm_compute; discriminate).
  assert (Hk : arr PUBKEY_LEN sample_pubkey) by decide_now.
  assert (Hl : len sample_key = OOB_BOND_KEY_BYTES) by (vm_compute; reflexivity).
  assert (Hp : serialize_to_toml (mkStore [build_bond_with_time sample_outcome sample_candidate sample_now]) = Ok sample_bytes)
    by (vm_compute; reflexivity).
  assert (Hn : replace_bond (mkStore []) (build_bond_with_time sample_outcome sample_candidate sample_now) = Ok sample_store)
    by (vm_compute; reflexivity).
  assert (Hw : Forall bond_wf (bonds sample_store)) by (constructor; [split; [decide_now | reflexivity] | constructor]).
  exact (pair_completes (TempfileLaws0 := toy_tempfile_laws) (TomlLaws0 := toy_toml_laws) (ChronoLaws0 := toy_chrono_laws)
    (Blake3Laws0 := toy_blake3_laws) (sample_opts false) quiet answer sample_tx sample_now sample_site (mkStore []) sample_store
    sample_bytes sample_bytes sample_candidate sample_outcome (sample_gates false _) (fun g' => eq_refl) site_sample_site Hr Ha
    NoDup_nil_2 Hf Hk Hl Hp Hn sample_serializes Hw).
Defined.

(** Another phone, and a directory in which it is bonded. *)
Definition other_pubkey : list Z := replicate 31 7 ++ [8].
Definition other_bond : Bond := mkBond (peer_id_from_pubkey other_pubkey) other_pubkey (lit "Lost") sample_now StBonded.
Definition other_bytes : list Z := match serialize_to_toml (mkStore [other_bond]) with Ok b => b | Err _ => [] end.
Definition other_site : fs := <[bonds_path sample_dir := File other_bytes BOND_FILE_MODE]> sample_site.

(** The owner revokes the lost phone while the new one is being paired. *)
Definition revoking : PairBackend :=
  sample_backend (let! _ := run_revoke sample_dir (peer_id other_bond) (lit "lost") in iret (Ok tt)).

Lemma pair_overwrites_concurrent_changes_witness :
  let w1 := (stage_pairing (sample_opts false) sample_tx sample_bond sample_key sample_addr (calm other_site)).2 in
  let w2 := (coordinate_v2 revoking sample_tx w1).2 in
  let w' := (coordinate_staged_bond (sample_opts false) revoking sample_tx sample_bond sample_key sample_addr (calm other_site)).2 in
  (BondStore_load (bonds_path sample_dir) w2).1 = Ret (Ok (mkStore [set_status (StRevoked (lit "lost")) other_bond])) /\
  (BondStore_load (bonds_path sample_dir) w').1 = Ret (Ok (mkStore [other_bond; sample_bond])) /\
  exists active new bytes, stored (other_site !! bonds_path sample_dir) active /\ replace_bond active sample_bond = Ok new /\
    serialize_to_toml new = Ok bytes /\ files w' !! bonds_path sample_dir = Some (File bytes BOND_FILE_MODE).
Proof.
  cbv zeta. split; [vm_compute; reflexivity |]. split; [vm_compute; reflexivity |].
  set (w' := (coordinate_staged_bond (sample_opts false) revoking sample_tx sample_bond sample_key sample_addr (calm other_site)).2).
  assert (Hp : plain (peer_id sample_bond)) by (by vm_compute).
  assert (Hs : coordinate_staged_bond (sample_opts false) revoking sample_tx sample_bond sample_key sample_addr (calm other_site) = (Ret (Ok tt), w'))
    by (vm_compute; reflexivity).
  exact (pair_overwrites_concurrent_changes (sample_opts false) revoking sample_tx sample_bond sample_key sample_addr (calm other_site) w' Hp Hs).
Defined.
