(* ===== verification/PairSession.v ===== *)
(** * Pair sessions: the desktop dialog and the Bluetooth agent

    Models the two ends of a pair session.  From crates/syauth-cli/src/pair_backend.rs the client
    [run_daemon_gui_confirmation], which listens for the broker's messages (PairBroker.v), shows them to the operator and
    answers.  From crates/syauth-transport/src/peripheral.rs the acquisition and the release of the
    BlueZ default agent ([PairAgentSession], [ensure_pairable_with], [acquire_pair_agent_with],
    [release_pair_agent_with]), and from crates/syauth-presenced/src/runtime.rs the listener that
    scopes the agent to the connections of the clients ([spawn_pair_session_listener]). *)

From stdpp Require Import prelude list gmap strings.
From Stdlib Require Import ZArith Lia.
From S2P Require Import Prelude WireFrame Fs Bond PairRecovery Peripheral Rpc Server Mobile PairBroker PairCli.

(** ** The dialog *)

(** The JSON lines the dialog reads. *)
Inductive GuiOut :=
| OutPreparing
| OutDeviceFound (name : str)
| OutLescCode (code : Z)
| OutWaitingLesc
| OutOobReady (code : str)
| OutBonded (device : str).

#[global] Instance GuiOut_eq_dec : EqDecision GuiOut.
Proof. solve_decision. Defined.

(** A connection of the daemon: what [accept] gives, the line the operator would enter for it ([None]: the
    blocking task panicked), and the outcome of writing the answer. *)
Record GuiConn := mkGuiConn {
  gc_accept : result Reader ErrorKind;
  gc_line : option (result str ErrorKind);
  gc_write : result unit ErrorKind;
}.

Section dialog.
Context `{HK : Hkdf, SJ : SerdeJson}.

Definition read_operator_decision (line : option (result str ErrorKind)) : result bool PairError :=
  match line with
  | None => Err PairBackendError
  | Some (Err _) => Ok false
  | Some (Ok line) => Ok (bool_decide (json_command line = Some (lit "confirm")))
  end.

(** How a round of the loop ends. *)
Inductive round := Continue | Return (r : result unit PairError) | Waiting.

(** The operator's decision as the byte of the answer. *)
Definition answer_request (c : GuiConn) : list Z * round :=
  match read_operator_decision (gc_line c) with
  | Err e => ([], Return (Err e))
  | Ok accepted =>
      match gc_write c with
      | Err _ => ([], Return (Err PairBackendError))
      | Ok _ => ([if accepted then 1 else 0],
                 if accepted then Continue else Return (Err (PairRevoked OperatorReject)))
      end
  end.

(** One round: what is printed, the bytes written to the connection, and how it ends. *)
Definition gui_round (c : GuiConn) : list GuiOut * list Z * round :=
  match gc_accept c with
  | Err _ => ([], [], Return (Err PairBackendError))
  | Ok stream =>
      match broker_read_frame stream with
      | Pending => ([], [], Waiting)
      | Ready (None, _) => ([], [], Return (Err PairBackendError))
      | Ready (Some bytes, _) =>
          match PairingRequest_decode bytes with
          | Some request =>
              let '(reply, r) := answer_request c in
              ([OutDeviceFound (pr_peer request); OutLescCode (pr_passkey request); OutWaitingLesc], reply, r)
          | None =>
              match OobRequest_decode bytes with
              | Some request =>
                  let words := cli_oob_code_for_bond (bond_key_from_pubkeys (or_host_pubkey request) (or_phone_pubkey request)) in
                  let '(reply, r) := answer_request c in
                  ([OutDeviceFound (or_peer request); OutOobReady words], reply, r)
              | None =>
                  match BondedNotice_decode bytes with
                  | Some notice => ([OutBonded (bn_peer notice)], [], Return (Ok tt))
                  | None => ([], [], Continue)
                  end
              end
          end
      end
  end.

(** The loop over the connections, as they are accepted: per connection what was printed and
    written, and the result ([None]: it is waiting). *)
Fixpoint gui_loop (cs : list GuiConn) : list (list GuiOut * list Z) * option (result unit PairError) :=
  match cs with
  | [] => ([], None)
  | c :: cs =>
      let '(out, reply, r) := gui_round c in
      match r with
      | Continue => let '(log, res) := gui_loop cs in ((out, reply) :: log, res)
      | Return res => ([(out, reply)], Some res)
      | Waiting => ([(out, reply)], None)
      end
  end.
End dialog.

Section dialog_socket.
Context `{HK : Hkdf, SJ : SerdeJson, UM : Umask}.

Definition set_private_socket (p : path) : io (result unit PairError) :=
  imap_err (fun _ => PairBackendError) (fs_set_permissions p 384).

(** [socket] is [pairing_confirmation_socket()] as a path; the log begins with the line "preparing". *)
Definition run_daemon_gui_confirmation (socket : option path) (cs : list GuiConn)
  : io (result (list (list GuiOut * list Z) * option (result unit PairError)) PairError) :=
  let!? p := iret (ok_or socket PairBackendError) in
  let!? _ := match parent p with
             | Some d => imap_err (fun _ => PairBackendError) (fs_create_dir_all d)
             | None => iret (Ok tt)
             end in
  let! _ := fs_remove_file p in
  let!? _ := imap_err (fun _ => PairBackendError) (syscall (bind_op p)) in
  let!? _ := set_private_socket p in
  let '(log, res) := gui_loop cs in
  let log := ([OutPreparing], []) :: log in
  match res with
  | None => iret (Ok (log, None))
  | Some res => let! _ := fs_remove_file p in iret (Ok (log, Some res))
  end.
End dialog_socket.

Section dialog_lemmas.
Context `{HK : Hkdf, SJ : SerdeJson}.

(** What the dialog shows of a message, and how it ends the round. *)
Definition shown (e : GuiEvent) : list GuiOut :=
  match e with
  | GLesc r => [OutDeviceFound (pr_peer r); OutLescCode (pr_passkey r); OutWaitingLesc]
  | GOob r => [OutDeviceFound (or_peer r);
               OutOobReady (cli_oob_code_for_bond (bond_key_from_pubkeys (or_host_pubkey r) (or_phone_pubkey r)))]
  | GBonded n => [OutBonded (bn_peer n)]
  end.

Definition served (c : GuiConn) (e : GuiEvent) : list GuiOut * list Z * round :=
  match e with
  | GBonded _ => (shown e, [], Return (Ok tt))
  | _ => (shown e, (answer_request c).1, (answer_request c).2)
  end.

(** The messages of the connection [c] begin with [e]. *)
Definition asks (c : GuiConn) (e : GuiEvent) : Prop :=
  exists stream payload f rest, gc_accept c = Ok stream /\ event_encode e = Some payload /\ broker_frame payload = Some f /\
    r_bytes stream = f ++ rest.

Lemma gui_round_decoded c stream bytes rest e :
  gc_accept c = Ok stream -> broker_read_frame stream = Ready (Some bytes, rest) -> event_decode bytes = Some e ->
  gui_round c = served c e.
Proof.
  intros Ha Hr. unfold gui_round, event_decode. rewrite Ha, Hr. destruct (PairingRequest_decode bytes) as [r |].
  { intros [= <-]. cbn. by destruct (answer_request c). }
  destruct (OobRequest_decode bytes) as [r |]. { intros [= <-]. cbn. by destruct (answer_request c). }
  destruct (BondedNotice_decode bytes); [by intros [= <-] | done].
Qed.

Lemma gui_round_asked c e : event_wf e -> asks c e -> gui_round c = served c e.
Proof.
  intros Hw ([bytes fin] & payload & f & rest & Ha & He & Hf & Hs). cbn in Hs. subst bytes.
  eapply gui_round_decoded; [done | by apply broker_read_frame_app |].
  apply event_decode_exact; [| done]. destruct (event_encode_some e Hw) as (b & Hb & Ho & _). by simplify_eq.
Qed.

(** A round prints or writes something only for a message. *)
Lemma gui_round_inv c out reply r :
  (forall stream, gc_accept c = Ok stream -> bytes_ok (r_bytes stream)) -> gui_round c = (out, reply, r) ->
  (out = [] /\ reply = []) \/ exists e, event_wf e /\ asks c e /\ (out, reply, r) = served c e.
Proof.
  intros Hb H. pose proof H as H'. unfold gui_round in H. destruct (gc_accept c) as [stream | k] eqn:Ea; [| left; by simplify_eq].
  specialize (Hb stream eq_refl). destruct (broker_read_frame stream) as [| [[bytes |] rest]] eqn:Er; try (left; by simplify_eq).
  destruct (broker_read_frame_inv _ _ _ Hb Er) as (f & Hf & Hs & Ho).
  destruct (event_decode bytes) as [e |] eqn:Ed.
  - right. exists e. pose proof (gui_round_decoded c stream bytes rest e Ea Er Ed) as E. rewrite H' in E.
    apply event_decode_exact in Ed as [Hw He]; [| done]. split; [done |]. split; [| done]. by exists stream, bytes, f, (r_bytes rest).
  - left. unfold event_decode in Ed. repeat case_match; simplify_eq; done.
Qed.

Lemma gui_loop_at cs i x :
  (gui_loop cs).1 !! i = Some x -> exists c r, cs !! i = Some c /\ gui_round c = (x.1, x.2, r).
Proof.
  revert i. induction cs as [| c cs IH]; intros i; cbn [gui_loop]; [done |].
  destruct (gui_round c) as [[out reply] r] eqn:E. destruct r as [| res |].
  - destruct (gui_loop cs) as [log res]. destruct i as [| i]; cbn; [intros [= <-]; by eauto | apply IH].
  - destruct i as [| i]; cbn; [intros [= <-]; by eauto | done].
  - destruct i as [| i]; cbn; [intros [= <-]; by eauto | done].
Qed.

Lemma answer_yes c r : answer_request c = ([1], r) -> exists line, gc_line c = Some (Ok line) /\ json_command line = Some (lit "confirm").
Proof.
  unfold answer_request, read_operator_decision. destruct (gc_line c) as [[line | k] |]; [| | done].
  - destruct (gc_write c); [| done]. case_bool_decide; [by eauto | done].
  - by destruct (gc_write c).
Qed.
End dialog_lemmas.

Section dialog_theorems.
Context `{HK : Hkdf, !HkdfLaws HK, SJ : SerdeJson}.

Lemma same_code_on_phone h p : len (bond_key_from_pubkeys h p) = BOND_KEY_BYTES /\
  oob_code_for_bond (bond_key_from_pubkeys h p) = Ok (cli_oob_code_for_bond (bond_key_from_pubkeys h p)).
Proof.
  assert (Hl : len (bond_key_from_pubkeys h p) = BOND_KEY_BYTES).
  { unfold bond_key_from_pubkeys. destruct (hkdf_expands None (h ++ p) BOND_HKDF_INFO_V1 BOND_KEY_DERIVED_BYTES) as (o & -> & Ho);
      [by vm_compute |]. by apply arr_len in Ho. }
  split; [done |]. unfold oob_code_for_bond, cli_oob_code_for_bond, bond_key_array. rewrite Hl, Z.eqb_refl. cbn [negb rbind].
  change (lit "syauth-oob-v1") with HKDF_INFO_OOB_V1. change OOB_HKDF_BYTES with OOB_CODE_BYTES.
  by destruct (hkdf_expands None (bond_key_from_pubkeys h p) HKDF_INFO_OOB_V1 OOB_CODE_BYTES) as (o & -> & _).
Qed.

(** The dialog is honest with the daemon and with the operator.  Whatever arrives on its connections, a yes goes back on a
    connection only if the operator answered "confirm" to it and the connection carried a numeric comparison or an OOB
    request, whose passkey or code had just been shown; the code is the one the phone shows for these two
    keys; and "bonded" is shown only for a bonded notice of that name. *)
Theorem dialog_honest (cs : list GuiConn) (i : nat) (out : list GuiOut) (reply : list Z)
  (Hb : forall c stream, In c cs -> gc_accept c = Ok stream -> bytes_ok (r_bytes stream))
  (Hi : (gui_loop cs).1 !! i = Some (out, reply)) :
  exists c, cs !! i = Some c /\
    (reply = [1] -> (exists line, gc_line c = Some (Ok line) /\ json_command line = Some (lit "confirm")) /\
       exists e, event_wf e /\ asks c e /\ out = shown e /\ expect_response e = true) /\
    (forall name, OutBonded name ∈ out -> asks c (GBonded (mkNotice name))) /\
    (forall code, OutOobReady code ∈ out -> exists r, asks c (GOob r) /\
       oob_code_for_bond (bond_key_from_pubkeys (or_host_pubkey r) (or_phone_pubkey r)) = Ok code).
Proof.
  apply gui_loop_at in Hi as (c & r & Hc & Hr). exists c. split; [done |].
  apply gui_round_inv in Hr as [[E1 E2] | (e & Hw & Ha & E)];
    [| | intros stream; apply Hb; by apply list_elem_of_In, list_elem_of_lookup; eauto].
  { cbn in E1, E2. subst out reply. split_and!; [done | set_solver | set_solver]. }
  cbn [fst snd] in E. destruct e as [q | q | q]; cbn [served] in E; injection E as -> -> ->; split_and!.
  - intros E. split; [apply (answer_yes c (answer_request c).2); by rewrite <- E, <- surjective_pairing | by eexists].
  - intros name. cbn. set_solver.
  - intros code. cbn. set_solver.
  - intros E. split; [apply (answer_yes c (answer_request c).2); by rewrite <- E, <- surjective_pairing | by eexists].
  - intros name. cbn. set_solver.
  - intros code Hin. exists q. split; [done |]. cbn in Hin. assert (code = cli_oob_code_for_bond (bond_key_from_pubkeys (or_host_pubkey q) (or_phone_pubkey q))) as -> by set_solver.
    apply same_code_on_phone.
  - done.
  - intros name Hin. cbn in Hin. destruct q as [peer]. assert (name = peer) as -> by set_solver. done.
  - intros code. cbn. set_solver.
Qed.

(** The dialog serves every message: a well-formed request that arrives on a connection is shown, and the byte that goes back is
    1 exactly if the operator's line is the command "confirm" (a read error or any other line refuses and ends the dialog);
    a bonded notice is shown and ends it. *)
Theorem dialog_serves (c : GuiConn) (cs : list GuiConn) (e : GuiEvent) (line : result str ErrorKind)
  (Hw : event_wf e) (Ha : asks c e) (Hline : gc_line c = Some line) (Hwrite : gc_write c = Ok tt) :
  let yes := match line with Ok l => bool_decide (json_command l = Some (lit "confirm")) | Err _ => false end in
  gui_loop (c :: cs) =
    if expect_response e then
      if yes then let '(log, res) := gui_loop cs in ((shown e, [1]) :: log, res)
      else ([(shown e, [0])], Some (Err (PairRevoked OperatorReject)))
    else ([(shown e, [])], Some (Ok tt)).
Proof.
  intros yes. cbn [gui_loop]. rewrite (gui_round_asked c e Hw Ha). unfold served, answer_request, read_operator_decision.
  rewrite Hline, Hwrite. unfold yes. destruct e, line as [l | k]; cbn [expect_response fst snd]; try case_bool_decide; done.
Qed.
End dialog_theorems.

(** ** The Bluetooth agent *)

Module Agent.

Definition ADAPTER_MODE_RETRIES : nat := 10.

(** A call that sets the flag may fail before or after it took effect. *)
Inductive set_fault := SetFine | SetFails | SetFailsDone.

(** The adapter: its flag [Pairable], and how the next calls go ([reads]: whether a read answers). *)
Record Adapter := mkPairable { flag : bool; reads : list bool; sets : list set_fault }.

(** [PairableControl] *)
Definition pairable (a : Adapter) : result bool unit * Adapter :=
  match reads a with
  | false :: rs => (Err tt, mkPairable (flag a) rs (sets a))
  | true :: rs => (Ok (flag a), mkPairable (flag a) rs (sets a))
  | [] => (Ok (flag a), a)
  end.

Definition set_pairable (value : bool) (a : Adapter) : result unit unit * Adapter :=
  match sets a with
  | [] => (Ok tt, mkPairable value (reads a) [])
  | SetFine :: ss => (Ok tt, mkPairable value (reads a) ss)
  | SetFails :: ss => (Err tt, mkPairable (flag a) (reads a) ss)
  | SetFailsDone :: ss => (Err tt, mkPairable value (reads a) ss)
  end.

(** [.unwrap_or(false)] *)
Definition unwrap_or_false (r : result bool unit) : bool := match r with Ok b => b | Err _ => false end.

(** [PairAgentRestore] is the previous value, if this session changed it. *)
Record PairAgentSession := mkAgentSession { handle : option nat; restore : option (option bool) }.

Definition is_held (s : PairAgentSession) : bool := match handle s with Some _ => true | None => false end.

Definition from_pairable (changed previous : bool) : option bool := if changed then Some previous else None.

Definition begin (h : nat) (r : option bool) (s : PairAgentSession) : PairAgentSession := mkAgentSession (Some h) (Some r).

Definition end_ (s : PairAgentSession) : option (option bool) * PairAgentSession :=
  match handle s with
  | None => (None, s)
  | Some _ => (restore s, mkAgentSession None None)
  end.

(** The loop of [ensure_pairable_with]. *)
Fixpoint retry_pairable (retries : nat) (a : Adapter) : result bool unit * Adapter :=
  match retries with
  | O => (Err tt, a)
  | S retries =>
      let '(_, a) := set_pairable true a in
      let '(r, a) := pairable a in
      if unwrap_or_false r then (Ok true, a) else retry_pairable retries a
  end.

Definition ensure_pairable_with (retries : nat) (a : Adapter) : result bool unit * Adapter :=
  let '(r, a) := pairable a in
  if unwrap_or_false r then (Ok false, a) else retry_pairable retries a.

(** [register] is the outcome of registering the agent: its handle, or a failure. *)
Definition acquire_pair_agent_with (register : option nat) (s : PairAgentSession) (a : Adapter)
  : result unit unit * PairAgentSession * Adapter :=
  if is_held s then (Ok tt, s, a)
  else
    let '(r, a) := pairable a in
    let previous_pairable := unwrap_or_false r in
    match ensure_pairable_with ADAPTER_MODE_RETRIES a with
    | (Err e, a) => (Err e, s, a)
    | (Ok pairable_changed, a) =>
        match register with
        | None =>
            let a := if pairable_changed then (set_pairable previous_pairable a).2 else a in
            (Err tt, s, a)
        | Some h => (Ok tt, begin h (from_pairable pairable_changed previous_pairable) s, a)
        end
    end.

Definition release_pair_agent_with (s : PairAgentSession) (a : Adapter) : PairAgentSession * Adapter :=
  let '(r, s) := end_ s in
  match r with
  | None => (s, a)
  | Some None => (s, a)
  | Some (Some previous_pairable) => (s, (set_pairable previous_pairable a).2)
  end.

Definition acquire_pair_agent := acquire_pair_agent_with.

Definition release_pair_agent (s : PairAgentSession) (a : Adapter) : PairAgentSession * Adapter :=
  if is_held s then release_pair_agent_with s a else (s, a).

(** *** The listener *)

(** The connections whose task acquired the agent and now waits for the client to hang up. *)
Record Sessions := mkSessions { s_agent : PairAgentSession; s_adapter : Adapter; s_open : gset nat }.

Inductive ls_event :=
| LAccept (cid : nat) (register : option nat) (* a client connects and its task asks for the agent *)
| LHangUp (cid : nat) (* the read of the task returns *).

Definition ls_step (y : Sessions) (e : ls_event) : option Sessions :=
  match e with
  | LAccept cid register =>
      if decide (cid ∈ s_open y) then None
      else
        match acquire_pair_agent register (s_agent y) (s_adapter y) with
        | (Ok _, s, a) => Some (mkSessions s a ({[cid]} ∪ s_open y))
        | (Err _, s, a) => Some (mkSessions s a (s_open y))
        end
  | LHangUp cid =>
      if decide (cid ∈ s_open y)
      then let '(s, a) := release_pair_agent (s_agent y) (s_adapter y) in Some (mkSessions s a (s_open y ∖ {[cid]}))
      else None
  end.

Fixpoint ls_run (y : Sessions) (es : list ls_event) : option Sessions :=
  match es with
  | [] => Some y
  | e :: es => y ← ls_step y e; ls_run y es
  end.

Definition ls_init (a : Adapter) : Sessions := mkSessions (mkAgentSession None None) a ∅.

(** *** Lemmas *)

Definition reliable (a : Adapter) : Prop := reads a = [].

Lemma pairable_reliable a : reliable a -> pairable a = (Ok (flag a), a).
Proof. intros H. unfold pairable. by rewrite H. Qed.

Lemma set_pairable_reads v a : reads (set_pairable v a).2 = reads a.
Proof. unfold set_pairable. destruct (sets a) as [| [] ss]; done. Qed.

Lemma retry_reliable n a r a' :
  reliable a -> retry_pairable n a = (r, a') -> reliable a' /\ (forall c, r = Ok c -> c = true /\ flag a' = true).
Proof.
  unfold reliable. revert a. induction n as [| n IH]; intros a Ha; cbn [retry_pairable]; [by intros [= <- <-] |].
  pose proof (set_pairable_reads true a) as Hr. destruct (set_pairable true a) as [x a1]. cbn in Hr. rewrite Ha in Hr.
  rewrite (pairable_reliable a1) by done. cbn. destruct (flag a1) eqn:E; [intros [= <- <-]; naive_solver | by apply IH].
Qed.

Lemma ensure_reliable n a r a' :
  reliable a -> ensure_pairable_with n a = (r, a') ->
  reliable a' /\ (flag a = true -> r = Ok false /\ a' = a) /\ (forall c, r = Ok c -> flag a' = true /\ c = negb (flag a)).
Proof.
  intros Ha. unfold ensure_pairable_with. rewrite (pairable_reliable a Ha). cbn. destruct (flag a) eqn:E.
  - intros [= <- <-]. split_and!; [done | done |]. by intros c [= <-].
  - intros H. destruct (retry_reliable _ _ _ _ Ha H) as [H1 H2]. split_and!; [done | done |]. intros c Hc. by destruct (H2 c Hc) as [-> ->].
Qed.

(** An adapter that answers every read, and on which setting the flag may fail. *)
Record pairable_inv (was : bool) (y : Sessions) : Prop := {
  pi_reads : reliable (s_adapter y);
  pi_held : is_held (s_agent y) = true -> flag (s_adapter y) = true;
  pi_kept : was = true -> flag (s_adapter y) = true /\ (is_held (s_agent y) = true -> restore (s_agent y) = Some None);
}.

Lemma pairable_step was y e y' : pairable_inv was y -> ls_step y e = Some y' -> pairable_inv was y'.
Proof.
  intros [Hr Hh Hk]. destruct e as [cid register | cid]; cbn [ls_step].
  - destruct (decide (cid ∈ s_open y)); [done |]. unfold acquire_pair_agent, acquire_pair_agent_with.
    destruct (is_held (s_agent y)) eqn:Eh; [intros [= <-]; split; cbn; rewrite ?Eh; auto |].
    rewrite (pairable_reliable _ Hr). cbn [unwrap_or_false].
    destruct (ensure_pairable_with ADAPTER_MODE_RETRIES (s_adapter y)) as [r a'] eqn:Ee.
    destruct (ensure_reliable _ _ _ _ Hr Ee) as (Hr' & Ht & Hc). destruct r as [c | u].
    + destruct (Hc c eq_refl) as [Hf ->]. destruct register as [h |]; intros [= <-]; split; cbn; try done.
      * intros Hw. destruct (Hk Hw) as [-> _]. done.
      * unfold reliable. destruct (negb _); [by rewrite set_pairable_reads | done].
      * by rewrite Eh.
      * intros Hw. destruct (Hk Hw) as [Ef _]. rewrite Ef. cbn. by rewrite Eh.
    + intros [= <-]. split; cbn; [done | by rewrite Eh |]. intros Hw. destruct (Hk Hw) as [Ef _]. by destruct (Ht Ef).
  - destruct (decide (cid ∈ s_open y)); [| done]. unfold release_pair_agent, release_pair_agent_with, end_.
    destruct (is_held (s_agent y)) eqn:Eh; [| intros [= <-]; split; cbn; rewrite ?Eh; auto].
    unfold is_held in Eh. destruct (handle (s_agent y)) as [h |]; [| done].
    destruct (restore (s_agent y)) as [[p |] |] eqn:Er; intros [= <-]; split; cbn; try done; try (intros Hw; by destruct (Hk Hw)).
    + unfold reliable. by rewrite set_pairable_reads.
    + intros Hw. destruct (Hk Hw) as [_ Hp]. by specialize (Hp eq_refl).
Qed.

(** An adapter on which every call succeeds. *)
Record faultless_inv (was : bool) (y : Sessions) : Prop := {
  fi_reads : reliable (s_adapter y);
  fi_sets : sets (s_adapter y) = [];
  fi_flag : flag (s_adapter y) = (if is_held (s_agent y) then true else was);
  fi_plan : is_held (s_agent y) = true -> restore (s_agent y) = Some (if was then None else Some false);
}.

Lemma set_pairable_fine v a : sets a = [] -> set_pairable v a = (Ok tt, mkPairable v (reads a) []).
Proof. intros H. unfold set_pairable. by rewrite H. Qed.

Lemma faultless_step was y e y' : faultless_inv was y -> ls_step y e = Some y' -> faultless_inv was y'.
Proof.
  intros [Hr Hs Hf Hp]. destruct e as [cid register | cid]; cbn [ls_step].
  - destruct (decide (cid ∈ s_open y)); [done |]. unfold acquire_pair_agent, acquire_pair_agent_with.
    destruct (is_held (s_agent y)) eqn:Eh; [intros [= <-]; split; cbn; rewrite ?Eh; auto |].
    rewrite (pairable_reliable _ Hr). unfold ensure_pairable_with. rewrite (pairable_reliable _ Hr), Hf. cbn [unwrap_or_false].
    destruct was.
    + destruct register as [h |]; intros [= <-]; split; cbn; rewrite ?Eh; auto.
    + cbn [retry_pairable ADAPTER_MODE_RETRIES]. rewrite (set_pairable_fine _ _ Hs), pairable_reliable by exact Hr.
      cbn. destruct register as [h |]; intros [= <-]; split; cbn; rewrite ?Eh; auto.
  - destruct (decide (cid ∈ s_open y)); [| done]. unfold release_pair_agent, release_pair_agent_with, end_.
    destruct (is_held (s_agent y)) eqn:Eh; [| intros [= <-]; split; cbn; rewrite ?Eh; auto].
    rewrite (Hp eq_refl). unfold is_held in Eh. destruct (handle (s_agent y)) as [h |]; [| done].
    destruct was; [intros [= <-]; by split |]. rewrite (set_pairable_fine _ _ Hs). intros [= <-]. by split.
Qed.

Lemma held_step y e y' :
  (is_held (s_agent y) = true -> s_open y <> ∅) -> ls_step y e = Some y' -> is_held (s_agent y') = true -> s_open y' <> ∅.
Proof.
  intros H. destruct e as [cid register | cid]; cbn [ls_step].
  - destruct (decide (cid ∈ s_open y)); [done |].
    destruct (acquire_pair_agent register (s_agent y) (s_adapter y)) as [[[[] | u] s] a] eqn:E; intros [= <-]; cbn; [set_solver |].
    intros Hh. exfalso. unfold acquire_pair_agent, acquire_pair_agent_with in E. destruct (is_held (s_agent y)) eqn:Eh; [done |].
    repeat case_match; simplify_eq; congruence.
  - destruct (decide (cid ∈ s_open y)); [| done]. unfold release_pair_agent, release_pair_agent_with, end_.
    destruct (is_held (s_agent y)) eqn:Eh; [| intros [= <-]; cbn; congruence].
    unfold is_held in Eh. destruct (handle (s_agent y)); [| done]. by destruct (restore (s_agent y)) as [[p |] |]; intros [= <-].
Qed.

Lemma ls_run_inv (I : Sessions -> Prop) y es y' :
  (forall y e y', I y -> ls_step y e = Some y' -> I y') -> I y -> ls_run y es = Some y' -> I y'.
Proof.
  intros Hstep. revert y. induction es as [| e es IH]; intros y HI; cbn [ls_run]; [by intros [= <-] |].
  intros (y1 & H1 & H2)%bind_Some. by eapply IH, H2; eapply Hstep.
Qed.

(** C21: DeskUnlock is the Bluetooth pairing agent only during a pair session.  On every sequence of clients that connect and hang
    up, and however the calls of the adapter fail, the agent is held only while a client is connected; if the adapter
    answers reads, it is pairable while the agent is held, and an adapter that was pairable stays so; and if no call
    fails, whenever the agent is not held the adapter is as it was before the first session. *)
Theorem agent_scoped_to_sessions (a : Adapter) (es : list ls_event) (y : Sessions) (Hrun : ls_run (ls_init a) es = Some y) :
  (is_held (s_agent y) = true -> s_open y <> ∅) /\
  (reads a = [] -> (is_held (s_agent y) = true -> flag (s_adapter y) = true) /\ (flag a = true -> flag (s_adapter y) = true)) /\
  (reads a = [] -> sets a = [] -> is_held (s_agent y) = false -> flag (s_adapter y) = flag a).
Proof.
  split_and!.
  - by eapply (ls_run_inv (fun y => is_held (s_agent y) = true -> s_open y <> ∅)), Hrun; [apply held_step |].
  - intros Hr. assert (Hi : pairable_inv (flag a) y).
    { eapply (ls_run_inv (pairable_inv (flag a))), Hrun; [apply pairable_step |]. by split. }
    split; [apply Hi | by apply Hi].
  - intros Hr Hs Hh. assert (Hi : faultless_inv (flag a) y).
    { eapply (ls_run_inv (faultless_inv (flag a))), Hrun; [apply faultless_step |]. by split. }
    rewrite (fi_flag _ _ Hi). by rewrite Hh.
Qed.

Definition two_clients : list ls_event := [LAccept 1 (Some 10%nat); LAccept 2 (Some 11%nat); LHangUp 1].
Definition busy_adapter : Adapter := mkPairable false [] [SetFails; SetFine].
Definition sessions_after (a : Adapter) (es : list ls_event) : Sessions := default (ls_init a) (ls_run (ls_init a) es).

Lemma agent_scoped_to_sessions_witness :
  let y := sessions_after busy_adapter two_clients in
  (is_held (s_agent y) = true -> s_open y <> ∅) /\
  (reads busy_adapter = [] -> (is_held (s_agent y) = true -> flag (s_adapter y) = true) /\
     (flag busy_adapter = true -> flag (s_adapter y) = true)) /\
  (reads busy_adapter = [] -> sets busy_adapter = [] -> is_held (s_agent y) = false -> flag (s_adapter y) = flag busy_adapter).
Proof. apply (agent_scoped_to_sessions busy_adapter two_clients). by vm_compute. Defined.

(** Sessions share one agent: when two clients are connected and one hangs up, the agent is gone although the other is
    still connected. *)
Theorem first_hangup_drops_agent (a : Adapter) (h1 h2 : nat) (Hr : reads a = []) (Hs : sets a = []) :
  exists y, ls_run (ls_init a) [LAccept 1 (Some h1); LAccept 2 (Some h2); LHangUp 1] = Some y /\
    s_open y = {[2%nat]} /\ is_held (s_agent y) = false.
Proof.
  destruct a as [[] rs ss]; cbn in Hr, Hs; subst; eexists; (split; [vm_compute; reflexivity |]); split; done.
Qed.

Lemma first_hangup_drops_agent_witness :
  exists y, ls_run (ls_init (mkPairable false [] [])) two_clients = Some y /\ s_open y = {[2%nat]} /\ is_held (s_agent y) = false.
Proof. by apply (first_hangup_drops_agent (mkPairable false [] []) 10 11). Defined.

(** Two ways in which failed reads of the adapter's flag leave it changed: a failed acquisition can leave a desktop
    pairable that was not, although the documentation says it leaves nothing behind; and a session can turn off a flag that was on before it. *)
Theorem unread_flag_not_restored :
  (let a := mkPairable false (replicate 12 false) [] in
   let '(r, s, a') := acquire_pair_agent_with (Some 1%nat) (mkAgentSession None None) a in
   r = Err tt /\ is_held s = false /\ flag a' = true) /\
  (let a := mkPairable true [false; false] [] in
   let '(r, s, a') := acquire_pair_agent_with (Some 1%nat) (mkAgentSession None None) a in
   r = Ok tt /\ flag (release_pair_agent_with s a').2 = false).
Proof. vm_compute. split_and!; reflexivity. Qed.

End Agent.

(** ** The dialog on concrete connections *)

Import ToyCrypto ToyCrates.

#[local] Existing Instance toy_json.

Definition stream_of (e : GuiEvent) : Reader :=
  mkReader (default [] (payload ← event_encode e; broker_frame payload)) None.

Definition ask (e : GuiEvent) (line : str) : GuiConn := mkGuiConn (Ok (stream_of e)) (Some (Ok line)) (Ok tt).

Definition pairing_dialog : list GuiConn := [ask sample_oob (lit "confirm"); ask sample_notice []].

Lemma dialog_honest_witness :
  exists c, pairing_dialog !! 0%nat = Some c /\
    ([1] = [1] -> (exists line, gc_line c = Some (Ok line) /\ json_command line = Some (lit "confirm")) /\
       exists e, event_wf e /\ asks c e /\ (default ([], []) ((gui_loop pairing_dialog).1 !! 0%nat)).1 = shown e /\ expect_response e = true) /\
    (forall name, OutBonded name ∈ (default ([], []) ((gui_loop pairing_dialog).1 !! 0%nat)).1 -> asks c (GBonded (mkNotice name))) /\
    (forall code, OutOobReady code ∈ (default ([], []) ((gui_loop pairing_dialog).1 !! 0%nat)).1 -> exists r, asks c (GOob r) /\
       oob_code_for_bond (bond_key_from_pubkeys (or_host_pubkey r) (or_phone_pubkey r)) = Ok code).
Proof.
  apply (dialog_honest (HkdfLaws0 := toy_hkdf_laws) pairing_dialog 0); [| by vm_compute].
  intros c stream [<- | [<- | []]] [= <-]; decide_now.
Defined.

Lemma dialog_serves_witness :
  gui_loop pairing_dialog = let '(log, res) := gui_loop [ask sample_notice []] in ((shown sample_oob, [1]) :: log, res).
Proof.
  etransitivity; [apply (dialog_serves (ask sample_oob (lit "confirm")) [ask sample_notice []] sample_oob (Ok (lit "confirm")));
    [decide_now | | done | done] | by vm_compute].
  eexists (stream_of sample_oob), _, _, []. split; [done |]. split; [by vm_compute |]. split; by vm_compute.
Defined.
