(* ===== verification/UnlockRequest.v ===== *)
(** * The unlock request of the lock screen

    Models crates/syauth-cli/src/unlock_request.rs: the command that asks the daemon for a challenge outside PAM and
    unlocks the caller's session if the phone approved, at the other end of the connections of Server.v. *)

From stdpp Require Import prelude list gmap strings.
From Stdlib Require Import ZArith Lia.
From S2P Require Import Prelude WireFrame Fs Bond PairRecovery PairTransaction Peripheral AuditTrail Orchestrator Challenge Rpc Server Pam Unlock.

(** In milliseconds. *)
Definition CONNECT_TIMEOUT : Z := 500.
Definition DEFAULT_TIMEOUT_SECS : Z := 60.

Record UnlockRequestOpts := mkUnlockOpts {
  uo_socket : option str;
  uo_bond_dir : path;
  uo_peer_id : option str;
  uo_timeout_secs : Z;
  uo_dry_run : bool;
}.

Inductive UnlockRequestError :=
| NoBondedPeer
| UConnect (path : str) (source : ErrorKind)
| Exchange
| Refused
| UUnlock (source : ErrorKind)
| UnlockStatus.

#[global] Instance UnlockRequestError_eq_dec : EqDecision UnlockRequestError.
Proof. solve_decision. Defined.

(** [xdg] is the variable XDG_RUNTIME_DIR. *)
Definition default_socket_path (xdg : option str) (euid : Z) : str :=
  let base := match xdg with
              | None => DEFAULT_RUNTIME_FALLBACK_PREFIX ++ decimal euid
              | Some dir => dir
              end in
  path_join (path_join base (lit "syauth")) (lit "auth.sock").

Section unlock_request.
Context `{B3 : Blake3, CH : Chrono, CO : !ChronoOrd, TM : Toml, CB : Ciborium}.

Definition newest_bonded_peer (d : path) : io (result str UnlockRequestError) :=
  let!? store := imap_err (fun _ => NoBondedPeer) (BondStore_load (bonds_path d)) in
  iret (ok_or (peer_id <$> max_by (fun a b => datetime_cmp (created_at a) (created_at b))
                 (filter (fun b => status b = StBonded) (BondStore_list store))) NoBondedPeer).

(** One round trip; also what went to the daemon.  [clone] is the outcome of [try_clone].  A deadline of zero is
    refused by [set_read_timeout]. *)
Definition challenge (socket : str) (k : Socket) (clone : result unit ErrorKind) (id : str) (n : list Z) (timeout : Z)
  : outcome (result Response UnlockRequestError) * list Z :=
  match k_connect k with
  | Err source => (Ret (Err (UConnect socket source)), [])
  | Ok _ =>
      match (if timeout =? 0 then Err InvalidInput else k_read_timeout k), k_write_timeout k, clone with
      | Ok _, Ok _, Ok _ =>
          let request := ReqChallenge id n in
          match write_frame_blocking request (k_out k CONNECT_TIMEOUT) with
          | (Err _, w) => (Ret (Err Exchange), w_bytes w)
          | (Ok _, w) =>
              match read_frame_blocking (blocking (k_in k timeout)) with
              | Ready (Ret r, _) => (Ret (map_err (fun _ => Exchange) r), w_bytes w)
              | Ready (Killed, _) => (Killed, w_bytes w)
              | Ready (Panicked, _) => (Panicked, w_bytes w)
              | Pending => (Ret (Err Exchange), w_bytes w)
              end
          end
      | _, _, _ => (Ret (Err Exchange), [])
      end
  end.

(** [spawn] is the outcome of running the program: whether its exit status is success. *)
Definition unlock_session (spawn : result bool ErrorKind) : result unit UnlockRequestError :=
  match spawn with
  | Err source => Err (UUnlock source)
  | Ok success => if success then Ok tt else Err UnlockStatus
  end.

(** What the command finds outside: the sockets by their path, the random nonce, the environment and the
    outcome of running [loginctl unlock-session]. *)
Record UnlockEnv := mkUnlockEnv {
  ue_sockets : str -> Socket;
  ue_clone : result unit ErrorKind;
  ue_nonce : list Z;
  ue_xdg : option str;
  ue_euid : Z;
  ue_loginctl : result bool ErrorKind;
}.

(** The result, and whether [loginctl unlock-session] was run. *)
Definition run_unlock_request (opts : UnlockRequestOpts) (e : UnlockEnv) : io (result unit UnlockRequestError * bool) :=
  let! peer := match uo_peer_id opts with
               | Some id => iret (Ok id)
               | None => newest_bonded_peer (uo_bond_dir opts)
               end in
  match peer with
  | Err err => iret (Err err, false)
  | Ok id =>
      let socket := default (default_socket_path (ue_xdg e) (ue_euid e)) (uo_socket opts) in
      let timeout := uo_timeout_secs opts * 1000 in
      let! response := lift (challenge socket (ue_sockets e socket) (ue_clone e) id (ue_nonce e) timeout).1 in
      iret match response with
           | Err err => (Err err, false)
           | Ok (RespChallenge ok _ _) =>
               if negb ok then (Err Refused, false)
               else if uo_dry_run opts then (Ok tt, false)
               else (unlock_session (ue_loginctl e), true)
           | Ok _ => (Err Refused, false)
           end
  end.

(** The peer a call challenges, and the deadline and socket it uses. *)
Definition asked_peer (opts : UnlockRequestOpts) (w : world) : option str :=
  match uo_peer_id opts with
  | Some id => Some id
  | None => match (newest_bonded_peer (uo_bond_dir opts) w).1 with Ret (Ok id) => Some id | _ => None end
  end.

Definition asked_socket (opts : UnlockRequestOpts) (e : UnlockEnv) : Socket :=
  ue_sockets e (default (default_socket_path (ue_xdg e) (ue_euid e)) (uo_socket opts)).

(** ** Lemmas *)

Lemma challenge_ok socket k clone id n timeout r w :
  challenge socket k clone id n timeout = (Ret (Ok r), w) ->
  exists framed rest, encode_frame (ReqChallenge id n) = Ok framed /\ w = w_bytes (k_out k CONNECT_TIMEOUT) ++ framed /\
    read_frame (blocking (k_in k timeout)) = Ready (Ret (Ok r), rest).
Proof.
  unfold challenge. destruct (k_connect k); [| done]. destruct (if timeout =? 0 then _ else _), (k_write_timeout k), clone; try done.
  rewrite read_frame_blocking_same.
  destruct (write_frame_blocking (ReqChallenge id n) (k_out k CONNECT_TIMEOUT)) as [[[] | e] w1] eqn:Ew; [| done].
  destruct (read_frame (blocking (k_in k timeout))) as [| [[[resp | e] | |] rest]] eqn:Er; try done. intros [= <- <-].
  apply write_frame_ok in Ew as (framed & Hf & Hw%write_all_ok). exists framed, rest. by split_and!.
Qed.

Lemma challenge_error socket k clone id n timeout err :
  (challenge socket k clone id n timeout).1 = Ret (Err err) -> err = Exchange \/ exists source, err = UConnect socket source.
Proof.
  unfold challenge. destruct (k_connect k) as [u | source]; [| intros [= <-]; by eauto].
  destruct (if timeout =? 0 then _ else _), (k_write_timeout k), clone; try (intros [= <-]; by auto).
  destruct (write_frame_blocking _ _) as [[v | x] w1]; [| intros [= <-]; by auto].
  destruct (read_frame_blocking _) as [| [[[resp | x] | |] rest]]; cbn; intros [= <-]; by auto.
Qed.

(** The command runs the program only after a positive verdict on the peer it asked for. *)
Lemma ran_parts opts e w r w' :
  run_unlock_request opts e w = (Ret (r, true), w') ->
  exists id sig reason framed rest, asked_peer opts w = Some id /\ uo_dry_run opts = false /\
    encode_frame (ReqChallenge id (ue_nonce e)) = Ok framed /\
    (challenge (default (default_socket_path (ue_xdg e) (ue_euid e)) (uo_socket opts)) (asked_socket opts e) (ue_clone e) id (ue_nonce e)
       (uo_timeout_secs opts * 1000)).2 = w_bytes (k_out (asked_socket opts e) CONNECT_TIMEOUT) ++ framed /\
    read_frame (blocking (k_in (asked_socket opts e) (uo_timeout_secs opts * 1000))) = Ready (Ret (Ok (RespChallenge true sig reason)), rest).
Proof.
  unfold run_unlock_request, asked_peer, asked_socket. intros H.
  set (socket := default _ (uo_socket opts)) in *. set (k := ue_sockets e socket) in *.
  assert (exists id w1, (match uo_peer_id opts with Some id => Some id | None =>
      match (newest_bonded_peer (uo_bond_dir opts) w).1 with Ret (Ok id) => Some id | _ => None end end) = Some id /\
    (let! response := lift (challenge socket k (ue_clone e) id (ue_nonce e) (uo_timeout_secs opts * 1000)).1 in
      iret match response with
           | Err err => (Err err, false)
           | Ok (RespChallenge ok _ _) =>
               if negb ok then (Err Refused, false) else if uo_dry_run opts then (Ok tt, false) else (unlock_session (ue_loginctl e), true)
           | Ok _ => (Err Refused, false)
           end) w1 = (Ret (r, true), w')) as (id & w1 & Hid & Hrun).
  { revert H. unfold ibind at 1. destruct (uo_peer_id opts) as [id |]; [intros H; by exists id, w |].
    destruct (newest_bonded_peer (uo_bond_dir opts) w) as [[[id | err] | |] w1]; [intros H; by exists id, w1 | done..]. }
  exists id. rewrite Hid. revert Hrun. unfold ibind, lift.
  destruct (challenge socket k (ue_clone e) id (ue_nonce e) (uo_timeout_secs opts * 1000)) as [[[resp | err] | |] sent] eqn:Ec; try done.
  destruct resp as [ok sig reason | |]; [| done..]. destruct ok; [| done]. destruct (uo_dry_run opts); [done |]. intros _.
  apply challenge_ok in Ec as (framed & rest & Hf & -> & Hr). by exists sig, reason, framed, rest.
Qed.
End unlock_request.

Section theorems.
Context `{B3 : Blake3, ED : Ed25519, HK : Hkdf, CH : Chrono, CO : !ChronoOrd, TM : Toml, HX : Hex, HO : HashOrder,
  PP : Peripheral, CB : Ciborium, UM : Umask}.
Context `{!Ed25519Laws ED, !CiboriumLaws CB}.
Context (bonds_file keys : path).

(** Both ends of one connection. *)
Definition request_wired (c : Conn) (opts : UnlockRequestOpts) (e : UnlockEnv) (w : world) : Prop :=
  let k := asked_socket opts e in
  w_bytes (k_out k CONNECT_TIMEOUT) = [] /\
  (forall id, asked_peer opts w = Some id ->
     c_fed c `prefix_of` (challenge (default (default_socket_path (ue_xdg e) (ue_euid e)) (uo_socket opts)) k (ue_clone e) id (ue_nonce e)
                            (uo_timeout_secs opts * 1000)).2) /\
  r_bytes (k_in k (uo_timeout_secs opts * 1000)) `prefix_of` w_bytes (c_out c).

Lemma asked_peer_utf8 opts w id :
  (forall id, uo_peer_id opts = Some id -> utf8 id = true) -> asked_peer opts w = Some id -> utf8 id = true.
Proof using.
  intros Hu. unfold asked_peer. destruct (uo_peer_id opts) as [id' |]; [intros [= <-]; by apply Hu |].
  unfold newest_bonded_peer, itry, imap_err, ibind.
  destruct (BondStore_load (bonds_path (uo_bond_dir opts)) w) as [[[store | err] | |] w1] eqn:El; try done. cbn.
  fold (first_bonded store). destruct (first_bonded store) as [bond |] eqn:Eb; [| done]. intros [= <-].
  apply (f_equal fst) in El. cbn in El. pose proof (load_ids _ _ _ El) as Hids. rewrite List.Forall_forall in Hids.
  rewrite (Hids bond); [apply utf8_peer_id |]. by apply first_bonded_spec in Eb as [].
Qed.

(** C8: The lock screen's request unlocks the session only on the phone's word: if the command, connected to the daemon, runs
    [loginctl unlock-session], then it was not a dry run and the daemon ran a challenge over this connection for the very peer
    the command asked for (the one given, or the newest bonded one) which ended with [COk]: that peer's registered key signed
    the very frame that was sent. *)
Theorem unlock_request_authentic p peers w0 audit now b started fixed es cid c (opts : UnlockRequestOpts) (e : UnlockEnv) w w' r
  (Hpeers : Forall (fun x => peer_id x.1 = peer_id_from_pubkey (pubkey x.1)) peers)
  (Hconn : v_conns (sv_run bonds_file keys (sv_start (with_peers_and_audit p peers w0 audit now) b started fixed) es) !! cid = Some c)
  (Hwired : request_wired c opts e w) (Hnonce : bytes_ok (ue_nonce e))
  (Hpeer : forall id, uo_peer_id opts = Some id -> utf8 id = true)
  (Hran : run_unlock_request opts e w = (Ret (r, true), w')) :
  exists t sig id, asked_peer opts w = Some id /\ uo_dry_run opts = false /\
    y_tasks (v_sys (sv_run bonds_file keys (sv_start (with_peers_and_audit p peers w0 audit now) b started fixed) es)) !! cid = Some t /\
    t_prog t = Done (COk sig) /\ authentic t sig /\ t_peer t = id.
Proof.
  apply ran_parts in Hran as (id & sig & reason & framed & rest & Hid & Hdry & Hf & Hs & Hr).
  destruct Hwired as (Hout & Hfed & Hin). specialize (Hfed id Hid). rewrite Hs, Hout in Hfed.
  destruct (challenge_reply_core bonds_file keys p peers w0 audit now b started fixed es cid c id (ue_nonce e) framed
    (k_in (asked_socket opts e) (uo_timeout_secs opts * 1000)) rest (RespChallenge true sig reason))
    as [(t & out & Ht & Hd & Hp & Hresp & Ha) | Hstub]; try done; [by split; [eapply asked_peer_utf8 |] |].
  destruct out as [sg| | | | | | |]; try done. exists t, sg, id. by split_and!; auto.
Qed.

(** The command follows the PAM module: on every disk it challenges the very peer the module would, or reports that there is
    none exactly when the module does; and it uses the same socket, unless XDG_RUNTIME_DIR is set to the empty string, which
    the module takes for unset and the command for the current directory. *)
Theorem unlock_request_follows_pam (d : path) (cfg : Config) (w : world) (xdg : option str) (euid : Z)
  (Hd : bonds_file_path cfg = bonds_path d) :
  (newest_bonded_peer d w).1 =
    match (resolve_peer_id cfg w).1 with
    | Ret (Ok id) => Ret (Ok id)
    | Ret (Err _) => Ret (Err NoBondedPeer)
    | Killed => Killed
    | Panicked => Panicked
    end /\
  (newest_bonded_peer d w).2 = (resolve_peer_id cfg w).2 /\
  (xdg <> Some [] -> default_socket_path xdg euid = resolve_socket_path xdg euid None) /\
  default_socket_path (Some []) euid = lit "syauth/auth.sock".
Proof.
  unfold newest_bonded_peer, resolve_peer_id, itry, imap_err, ibind. rewrite Hd.
  split_and!.
  - destruct (BondStore_load (bonds_path d) w) as [[[store | err] | |] w1]; cbn; try done. fold (first_bonded store).
    by destruct (first_bonded store).
  - destruct (BondStore_load (bonds_path d) w) as [[[store | err] | |] w1]; cbn; done.
  - intros Hx. destruct xdg as [[| c dir] |]; done.
  - done.
Qed.

(** A refusal leaves the session alone: the command reports an error without having run [loginctl] for every error but the two of
    [loginctl] itself, which it reports only after running it; and it succeeds without running it only for a dry run. *)
Theorem unlock_request_refusals (opts : UnlockRequestOpts) (e : UnlockEnv) (w w' : world) r ran
  (Hrun : run_unlock_request opts e w = (Ret (r, ran), w')) :
  match r with
  | Err (UUnlock _) | Err UnlockStatus => ran = true
  | Err _ => ran = false
  | Ok _ => ran = negb (uo_dry_run opts)
  end.
Proof.
  revert Hrun. unfold run_unlock_request, ibind at 1.
  set (peer := match uo_peer_id opts with Some id => iret (Ok id) | None => newest_bonded_peer (uo_bond_dir opts) end).
  assert (Hpeer : forall err w1, peer w = (Ret (Err err), w1) -> err = NoBondedPeer).
  { intros err w1. unfold peer. destruct (uo_peer_id opts); [done |]. unfold newest_bonded_peer, itry, imap_err, ibind.
    destruct (BondStore_load _ w) as [[[store | k] | |] w2]; cbn; try done; [| by intros [= <-]].
    destruct (max_by _ _); cbn; [done | by intros [= <-]]. }
  destruct (peer w) as [[[id | err] | |] w1]; try done.
  2: { intros [= <- <- _]. by rewrite (Hpeer err w1 eq_refl). }
  unfold ibind, lift. clear Hpeer peer.
  destruct (challenge _ _ _ _ _ _) as [[[resp | err] | |] sent] eqn:Ec; cbn -[unlock_session]; [.. | discriminate | discriminate].
  - clear Ec. destruct resp as [[] sig reason | |]; cbn -[unlock_session]; [| by intros [= <- <- _]..].
    destruct (uo_dry_run opts); intros [= <- <- _]; [reflexivity |]. destruct (ue_loginctl e) as [[] |]; reflexivity.
  - intros [= <- <- _]. apply (f_equal fst), challenge_error in Ec as [-> | (source & ->)]; reflexivity.
Qed.
End theorems.

(** ** A sample request: the lock screen's request reaches the daemon, the phone signs, the session is unlocked. *)

Section samples.
Import ToyCrypto ToyCrates ToyTempfile ToyDaemon Fake ToyCbor.
#[local] Existing Instance toy_chrono_ord.

Notation request_frame :=
  (match encode_frame (ReqChallenge (peer_id phone_bond) pam_nonce) with Ok f => f | Err _ => [] end).
Notation lock_run :=
  ([Accept 0; Permit None; Publish (mkBackend true true); Start 0 (Ok 0); Receive 0 request_frame; Poll 0 false] ++
   replicate 12 (Daemon (Step 0 (mkChoice (Some phone_nonce) false false))) ++ [Poll 0 false]).
Notation lock_server :=
  (sv_run (PP := FakePeripheral) [] []
    (sv_start (with_peers_and_audit (PP := FakePeripheral) phone_radio [(phone_bond, phone_key)] (calm ∅) (Some (opened [])) 1700000000000000000)
      (mkBackend false false) 0 None) lock_run).
Notation lock_conn := (default (new_conn None) (v_conns lock_server !! 0%nat)).

Definition lock_opts : UnlockRequestOpts := mkUnlockOpts None DEFAULT_BOND_DIR None DEFAULT_TIMEOUT_SECS false.
Notation lock_env :=
  (mkUnlockEnv (daemon_at (w_bytes (c_out lock_conn))) (Ok tt) pam_nonce (Some (lit "/run/user/1000")) 1000 (Ok true)).

Lemma unlock_request_authentic_witness :
  exists t sig id, asked_peer lock_opts (calm pam_fs) = Some id /\ uo_dry_run lock_opts = false /\
    y_tasks (v_sys lock_server) !! 0%nat = Some t /\ t_prog t = Done (COk sig) /\ authentic t sig /\ t_peer t = id.
Proof.
  apply (unlock_request_authentic (ED := toy_ed25519) (PP := FakePeripheral) (CB := toy_cbor) (Ed25519Laws0 := toy_ed25519_laws) [] [] phone_radio
    [(phone_bond, phone_key)] (calm ∅) (Some (opened [])) 1700000000000000000 (mkBackend false false) 0 None lock_run 0
    lock_conn lock_opts lock_env (calm pam_fs) (calm pam_fs) (Ok tt)).
  - exact phone_ids.
  - vm_compute. reflexivity.
  - split; [reflexivity |]. split; [intros id Hid; vm_compute in Hid; injection Hid as <- |]; exists []; vm_compute; reflexivity.
  - decide_now.
  - done.
  - vm_compute. reflexivity.
Defined.

Lemma unlock_request_follows_pam_witness :
  let cfg := mkConfig DEFAULT_BOND_DIR (lit "s") 1000 in
  (newest_bonded_peer DEFAULT_BOND_DIR (calm pam_fs)).1 =
    match (resolve_peer_id cfg (calm pam_fs)).1 with
    | Ret (Ok id) => Ret (Ok id)
    | Ret (Err _) => Ret (Err NoBondedPeer)
    | Killed => Killed
    | Panicked => Panicked
    end /\
  (newest_bonded_peer DEFAULT_BOND_DIR (calm pam_fs)).2 = (resolve_peer_id cfg (calm pam_fs)).2 /\
  (Some (lit "/run/user/7") <> Some [] ->
   default_socket_path (Some (lit "/run/user/7")) 7 = resolve_socket_path (Some (lit "/run/user/7")) 7 None) /\
  default_socket_path (Some []) 7 = lit "syauth/auth.sock".
Proof. apply (unlock_request_follows_pam DEFAULT_BOND_DIR (mkConfig DEFAULT_BOND_DIR (lit "s") 1000)). reflexivity. Defined.

Lemma unlock_request_refusals_witness :
  match Err (A := unit) UnlockStatus with
  | Err (UUnlock _) | Err UnlockStatus => true = true
  | Err _ => true = false
  | Ok _ => true = negb (uo_dry_run lock_opts)
  end.
Proof.
  apply (unlock_request_refusals (CB := toy_cbor) lock_opts
    (mkUnlockEnv (daemon_at (w_bytes (c_out lock_conn))) (Ok tt) pam_nonce (Some (lit "/run/user/1000")) 1000 (Ok false))
    (calm pam_fs) (calm pam_fs) (Err UnlockStatus) true).
  vm_compute. reflexivity.
Defined.
End samples.
