(* ===== verification/BluerPair.v ===== *)
(** * The BlueZ backend of the terminal's pairing command

    Models crates/syauth-cli/src/pair_backend.rs: [BluerPairBackend], the desktop's side of a pairing that [syauth pair] runs
    without the daemon.  The desktop advertises the pair service, the phone writes its public key
    ([scan_peers]), the bond key is derived ([initiate_lesc_with_peer]) and the two-phase commit of
    PairTransaction.v is driven over two GATT characteristics ([coordinate_v2]): the phone writes
    control messages, which a task of its own files in an inbox, and reads the desktop's latest message from the status characteristic.

    A session is a state machine: [bs_step] is one step of the scan loop, of the control task or of the
    future of [coordinate_v2], or the passing of time; an event that is not possible changes nothing.  The steps are
    the critical sections of the code: each takes its locks once.  The locks are never
    poisoned, since nothing that runs under them panics. *)

From stdpp Require Import prelude list gmap strings.
From Stdlib Require Import ZArith Lia.
From S2P Require Import Prelude WireFrame Fs Bond PairTransaction PairRecovery PairEngine Peripheral Orchestrator Reconcile PairBroker PairCli.

Definition PAIR_ADVERTISE_ACCEPT_WINDOW : Z := 300000.
Definition PAIR_CONNECTED_PEER_NAME : str := lit "Telefono Android".
(** [tokio::time::sleep(Duration::from_millis(50))] and [bytes.len() <= 64] *)
Definition PROTOCOL_POLL : Z := 50.
Definition MAX_CONTROL_BYTES : Z := 64.

(** ** The backend *)

Record BluerPairBackend := mkBluer {
  host_pubkey : list Z;
  phone_pubkey_mailbox : option (list Z);
  protocol_inbox : list (list Z);
  protocol_peer_address : option str;
  protocol_status : list Z;
  transaction_id : option (list Z);
  protocol_transaction : option Transaction;
}.

Definition set_mailbox (m : option (list Z)) (b : BluerPairBackend) : BluerPairBackend :=
  mkBluer (host_pubkey b) m (protocol_inbox b) (protocol_peer_address b) (protocol_status b) (transaction_id b) (protocol_transaction b).
Definition with_inbox (i : list (list Z)) (b : BluerPairBackend) : BluerPairBackend :=
  mkBluer (host_pubkey b) (phone_pubkey_mailbox b) i (protocol_peer_address b) (protocol_status b) (transaction_id b) (protocol_transaction b).
Definition set_address (a : option str) (b : BluerPairBackend) : BluerPairBackend :=
  mkBluer (host_pubkey b) (phone_pubkey_mailbox b) (protocol_inbox b) a (protocol_status b) (transaction_id b) (protocol_transaction b).
Definition with_status (s : list Z) (b : BluerPairBackend) : BluerPairBackend :=
  mkBluer (host_pubkey b) (phone_pubkey_mailbox b) (protocol_inbox b) (protocol_peer_address b) s (transaction_id b) (protocol_transaction b).
Definition set_transaction (t : option Transaction) (b : BluerPairBackend) : BluerPairBackend :=
  mkBluer (host_pubkey b) (phone_pubkey_mailbox b) (protocol_inbox b) (protocol_peer_address b) (protocol_status b) (transaction_id b) t.

Definition BluerPairBackend_new `{Ed25519} (signing_key : SigningKey) : BluerPairBackend :=
  mkBluer (VerifyingKey_to_bytes (verifying_key signing_key)) None [] None [] None None.

(** ** The characteristics *)

(** The phone's reads; [offset] is of a long read. *)
Definition read_host_name (host_name : list Z) (offset : Z) : option (list Z) :=
  let payload := host_name_payload host_name in
  if offset <=? len payload then Some (drop (Z.to_nat offset) payload) else None.

Definition read_host_pubkey (b : BluerPairBackend) : list Z := host_pubkey b.

Definition read_status (b : BluerPairBackend) (offset : Z) : list Z := drop (Z.to_nat offset) (protocol_status b).

Definition publish_protocol (message : Message) (b : BluerPairBackend) : BluerPairBackend :=
  with_status (Message_encode message) b.

Definition publish_status (transaction : list Z) (b : BluerPairBackend) : BluerPairBackend :=
  let state := from_option Transaction_status SUnknown (protocol_transaction b) in
  with_status (StatusMessage_encode (StatusMessage_response transaction 0 state)) b.

Definition set_transaction_id (transaction : list Z) (b : BluerPairBackend) : BluerPairBackend :=
  publish_status transaction
    (mkBluer (host_pubkey b) (phone_pubkey_mailbox b) (protocol_inbox b) (protocol_peer_address b) (protocol_status b)
       (Some transaction) (Some (Transaction_new transaction Coordinator))).

(** [Message::decode(bytes).map(|m| m.transaction == transaction).unwrap_or(false)] *)
Definition is_for (transaction bytes : list Z) : bool :=
  match Message_decode bytes with
  | Ok m => bool_decide (m_transaction m = transaction)
  | Err _ => false
  end.

(** Split an inbox at its first message for the transaction. *)
Fixpoint take_first (transaction : list Z) (inbox : list (list Z)) : option (list Z) * list (list Z) :=
  match inbox with
  | [] => (None, [])
  | bytes :: inbox =>
      if is_for transaction bytes then (Some bytes, inbox)
      else let '(found, rest) := take_first transaction inbox in (found, bytes :: rest)
  end.

Definition take_protocol (transaction : list Z) (b : BluerPairBackend) : option Operation * BluerPairBackend :=
  match take_first transaction (protocol_inbox b) with
  | (None, _) => (None, b)
  | (Some bytes, rest) =>
      (match Message_decode bytes with Ok m => Some (m_operation m) | Err _ => None end, with_inbox rest b)
  end.

Definition apply_local (event : LocalEvent) (b : BluerPairBackend) : result unit PairError * BluerPairBackend :=
  match protocol_transaction b with
  | None => (Err PairBackendError, b)
  | Some t => let '(t, r) := Transaction_local t event in
              (map_err (fun _ => PairBackendError) r, set_transaction (Some t) b)
  end.

Definition apply_remote (transaction : list Z) (operation : Operation) (b : BluerPairBackend) : result unit PairError * BluerPairBackend :=
  match protocol_transaction b with
  | None => (Err PairBackendError, b)
  | Some t => let '(t, r) := Transaction_remote t (mkMessage transaction operation) in
              (map_err (fun _ => PairBackendError) r, set_transaction (Some t) b)
  end.

(** A write to the control characteristic: the device, whether the request was accepted, and what was read. *)
Record ControlWrite := mkWrite { cw_address : str; cw_accept : bool; cw_bytes : option (list Z) }.

(** The control task on a write: an answer to publish next, or a message for the inbox. *)
Definition control_write (w : ControlWrite) (b : BluerPairBackend) : option (list Z) * BluerPairBackend :=
  match (if cw_accept w then cw_bytes w else None) with
  | None => (None, b)
  | Some bytes =>
      if negb (len bytes <=? MAX_CONTROL_BYTES) then (None, b)
      else if negb (bool_decide (protocol_peer_address b = Some (cw_address w))) then (None, b)
      else
        match StatusMessage_decode bytes with
        | Ok query =>
            match s_state query with
            | Some _ => (None, b)
            | None =>
                if bool_decide (transaction_id b = Some (s_transaction query)) then
                  let state := from_option Transaction_status SUnknown (protocol_transaction b) in
                  (Some (StatusMessage_encode (StatusMessage_response (s_transaction query) (s_nonce query) state)), b)
                else (None, b)
            end
        | Err _ => (None, with_inbox (protocol_inbox b ++ [bytes]) b)
        end
  end.

(** ** The scan *)

Definition friendly_peer_name (name : list Z) (address : str) : str :=
  let display := map (fun c => if is_control c then 32 else c) (take 128 name) in
  let display := utf8_bytes (str_trim display) in
  if bool_decide (display = []) || bool_decide (to_ascii_lowercase display = to_ascii_lowercase address)
  then PAIR_CONNECTED_PEER_NAME
  else display.

Definition pair_discovery_uuid `{Hkdf} (minute : Z) : list Z := session_uuid_for PAIR_MODE_ZERO_BOND_KEY minute.

(** The phone's write of its key: the device and its alias, whether the request was accepted, the bytes
    read ([None]: an error) and whether the device is known to the adapter. *)
Record PhoneWrite := mkPhone {
  pw_address : str;
  pw_accept : bool;
  pw_bytes : option (list Z);
  pw_device : bool;
  pw_alias : list Z;
}.

(** The [Write] branch of the loop; the buffer holds a key. *)
Definition phone_write (w : PhoneWrite) (b : BluerPairBackend) : result PairCandidate PairError * BluerPairBackend :=
  match (if pw_accept w then pw_bytes w else None) with
  | None => (Err PairBackendError, b)
  | Some bytes =>
      let buf := take (Z.to_nat PAIR_PUBKEY_LEN) bytes in
      if negb (len buf =? PAIR_PUBKEY_LEN) then (Err PairBackendError, b)
      else
        let b := set_address (Some (pw_address w)) (set_mailbox (Some buf) b) in
        if pw_device w then (Ok (mkCandidate (friendly_peer_name (pw_alias w) (pw_address w)) (pw_address w)), b)
        else (Err PairBackendError, b)
  end.

Definition bluer_initiate_lesc `{Hkdf} (b : BluerPairBackend) : result LescOutcome PairError * BluerPairBackend :=
  match phone_pubkey_mailbox b with
  | None => (Err NoPeers, b)
  | Some phone_pubkey =>
      let b := set_mailbox None b in
      let bond_key := bond_key_from_pubkeys (host_pubkey b) phone_pubkey in
      let transaction := default (replicate 16 0) (transaction_id b) in
      let b := with_status (Message_encode (mkMessage transaction OpCapability)) b in
      let '(r, b) := apply_local LCapability b in
      match r with
      | Err e => (Err e, b)
      | Ok _ => (Ok (mkLesc phone_pubkey bond_key 0), b)
      end
  end.

(** ** The exchange *)

(** The statements of [coordinate_v2]. *)
Inductive stmt :=
| Publish (operation : Operation) (* self.publish_protocol(Message { transaction, operation })? *)
| WaitFor (wanted : Operation) (* self.wait_protocol(transaction, wanted).await? *)
| WaitOrUncertain (wanted : Operation) (* ...; on an error apply Disconnected and return ProtocolUncertain *)
| Remote (operation : Operation) (* self.apply_remote(transaction, operation)? *)
| Local (event : LocalEvent). (* self.apply_local(event)? *)

Definition coordinate_v2_body : list stmt :=
  [Publish OpCapability; WaitFor OpCapability; Remote OpCapability;
   Local LCapability; Local LVerifiedExchange; Local LConfirm;
   Publish OpConfirm; WaitFor OpConfirm; Remote OpConfirm; Local LPrepared;
   Publish OpPrepared; WaitFor OpPrepared; Remote OpPrepared; Local LCommit;
   Publish OpCommit; WaitOrUncertain OpCommitAck; Remote OpCommitAck;
   Publish OpCommitted; WaitOrUncertain OpCommitted; Remote OpCommitted; Local LCommitted].

(** Where the command is.  A wait has its deadline and the time the loop's sleep ends. *)
Inductive Stage :=
| Scanning (minute deadline : Z)
| ScanDone (r : result PairCandidate PairError)
| LescDone (r : result LescOutcome PairError)
| Running (code : list stmt)
| Waiting (wanted : Operation) (critical : bool) (deadline wake : Z) (code : list stmt)
| Finished (r : result unit PairError).

Record Session := mkSession {
  bs_backend : BluerPairBackend;
  bs_stage : Stage;
  bs_answer : option (list Z); (* of the control task *)
  bs_now : Z;
}.

Definition stay (b : BluerPairBackend) (st : Stage) (y : Session) : Session := mkSession b st (bs_answer y) (bs_now y).

(** The end of a wait with an error. *)
Definition wait_failed (critical : bool) (e : PairError) (b : BluerPairBackend) : Stage * BluerPairBackend :=
  if critical then (Finished (Err ProtocolUncertain), (apply_local LDisconnected b).2) else (Finished (Err e), b).

Definition wait_timeout (critical : bool) (b : BluerPairBackend) : Stage * BluerPairBackend :=
  wait_failed critical ProtocolTimeout (apply_local LDisconnected b).2.

(** A turn of the loop of [wait_protocol], as the future is polled: the inner future first, then the timeout. *)
Definition poll_wait (tx : list Z) (wanted : Operation) (critical : bool) (deadline wake : Z) (code : list stmt) (y : Session)
  : option Session :=
  let b := bs_backend y in
  let now := bs_now y in
  let timed_out := let '(st, b) := wait_timeout critical b in Some (stay b st y) in
  if now <? wake then if deadline <=? now then timed_out else None
  else
    match take_protocol tx b with
    | (None, b) =>
        if deadline <=? now then timed_out else Some (stay b (Waiting wanted critical deadline (now + PROTOCOL_POLL) code) y)
    | (Some operation, b) =>
        if bool_decide (operation = OpStatusQuery)
        then Some (stay (publish_status tx b) (Waiting wanted critical deadline wake code) y)
        else if bool_decide (operation = wanted) then Some (stay b (Running code) y)
        else if is_abort_op operation
        then let '(st, b) := wait_failed critical RemoteAbort (apply_remote tx operation b).2 in Some (stay b st y)
        else let '(st, b) := wait_failed critical PairBackendError b in Some (stay b st y)
    end.

(** [r?] in the middle of the code. *)
Definition continue_or (r : result unit PairError * BluerPairBackend) (code : list stmt) (y : Session) : Session :=
  match r with
  | (Ok _, b) => stay b (Running code) y
  | (Err e, b) => stay b (Finished (Err e)) y
  end.

Definition poll_coordinate (tx : list Z) (y : Session) : option Session :=
  let b := bs_backend y in
  match bs_stage y with
  | Running [] => Some (stay b (Finished (Ok tt)) y)
  | Running (Publish op :: code) => Some (stay (publish_protocol (mkMessage tx op) b) (Running code) y)
  | Running (WaitFor op :: code) => Some (stay b (Waiting op false (bs_now y + PAIR_ADVERTISE_ACCEPT_WINDOW) (bs_now y) code) y)
  | Running (WaitOrUncertain op :: code) => Some (stay b (Waiting op true (bs_now y + PAIR_ADVERTISE_ACCEPT_WINDOW) (bs_now y) code) y)
  | Running (Remote op :: code) => Some (continue_or (apply_remote tx op b) code y)
  | Running (Local e :: code) => Some (continue_or (apply_local e b) code y)
  | Waiting wanted critical deadline wake code => poll_wait tx wanted critical deadline wake code y
  | _ => None
  end.

(** What happens to a session. *)
Inductive bs_event :=
| EvPhone (w : PhoneWrite)
| EvClosed (* the control stream of the scan ends *)
| EvRotate (minute : Z) (advertised : bool) (* the ticker of the scan *)
| EvInitiate
| EvCoordinate
| EvControl (w : ControlWrite)
| EvAnswer (* the control task publishes its answer *)
| EvPoll (* the command's future is polled *)
| EvTick (ms : Z).

Section session.
Context `{ED : Ed25519, HK : Hkdf}.

Definition bluer_adapter_info (adapter_id : str) (found powered : bool) : result AdapterInfo PairError :=
  if negb found then Err (AdapterMissing adapter_id)
  else if negb powered then Err PairBackendError
  else Ok (mkAdapter adapter_id true).

(** A scan that has begun: the transaction is set, the application served, the first advertisement up. *)
Definition bs_start (signing_key : SigningKey) (tx : list Z) (minute now : Z) : Session :=
  mkSession (set_transaction_id tx (BluerPairBackend_new signing_key)) (Scanning minute (now + PAIR_ADVERTISE_ACCEPT_WINDOW)) None now.

Definition scan_step (minute deadline : Z) (e : bs_event) (y : Session) : option Session :=
  let b := bs_backend y in
  match e with
  | EvPhone w => let '(r, b) := phone_write w b in Some (stay b (ScanDone r) y)
  | EvClosed => Some (stay b (ScanDone (Err NoPeers)) y)
  | EvRotate new_minute advertised =>
      if new_minute =? minute then None
      else if advertised then Some (stay b (Scanning new_minute deadline) y) else None
  | EvPoll => if deadline <=? bs_now y then Some (stay b (ScanDone (Err NoPeers)) y) else None
  | _ => None
  end.

Definition bs_step (tx : list Z) (y : Session) (e : bs_event) : option Session :=
  let b := bs_backend y in
  match e with
  | EvTick ms => if 0 <=? ms then Some (mkSession b (bs_stage y) (bs_answer y) (bs_now y + ms)) else None
  | EvControl w =>
      match bs_answer y with
      | Some _ => None
      | None => let '(answer, b) := control_write w b in Some (mkSession b (bs_stage y) answer (bs_now y))
      end
  | EvAnswer =>
      match bs_answer y with
      | Some answer => Some (mkSession (with_status answer b) (bs_stage y) None (bs_now y))
      | None => None
      end
  | _ =>
      match bs_stage y, e with
      | Scanning minute deadline, _ => scan_step minute deadline e y
      | ScanDone (Ok _), EvInitiate => let '(r, b) := bluer_initiate_lesc b in Some (stay b (LescDone r) y)
      | LescDone (Ok _), EvCoordinate => Some (stay b (Running coordinate_v2_body) y)
      | _, EvPoll => poll_coordinate tx y
      | _, _ => None
      end
  end.

Fixpoint bs_run (tx : list Z) (y : Session) (es : list bs_event) : Session :=
  match es with
  | [] => y
  | e :: es => bs_run tx (default y (bs_step tx y e)) es
  end.

(** ** What an exchange has been through *)

(** The transaction after the statements [pre], if they all succeed. *)
Fixpoint exec_stmts (tx : list Z) (t : Transaction) (pre : list stmt) : option Transaction :=
  match pre with
  | [] => Some t
  | Remote op :: pre =>
      match Transaction_remote t (mkMessage tx op) with (t, Ok _) => exec_stmts tx t pre | _ => None end
  | Local e :: pre =>
      match Transaction_local t e with (t, Ok _) => exec_stmts tx t pre | _ => None end
  | _ :: pre => exec_stmts tx t pre
  end.

(** The messages the statements [pre] have waited for. *)
Definition awaited (pre : list stmt) : list Operation :=
  omap (fun s => match s with WaitFor op | WaitOrUncertain op => Some op | _ => None end) pre.

(** The operations of the messages for the transaction, in order. *)
Definition ops (tx : list Z) (l : list (list Z)) : list Operation :=
  omap (fun bytes => match Message_decode bytes with
                     | Ok m => if bool_decide (m_transaction m = tx) then Some (m_operation m) else None
                     | Err _ => None
                     end) l.

Definition no_query (l : list Operation) : list Operation := List.filter (fun o => negb (bool_decide (o = OpStatusQuery))) l.

(** What the control task files on an event: a message the bound phone wrote. *)
Definition files_message (y : Session) (e : bs_event) : list (list Z) :=
  match e, bs_answer y with
  | EvControl w, None =>
      match (if cw_accept w then cw_bytes w else None) with
      | Some bytes =>
          if (len bytes <=? MAX_CONTROL_BYTES) && bool_decide (protocol_peer_address (bs_backend y) = Some (cw_address w))
          then match StatusMessage_decode bytes with Ok _ => [] | Err _ => [bytes] end
          else []
      | None => []
      end
  | _, _ => []
  end.

(** Everything filed in a run. *)
Fixpoint heard (tx : list Z) (y : Session) (es : list bs_event) : list (list Z) :=
  match es with
  | [] => []
  | e :: es => files_message y e ++ heard tx (default y (bs_step tx y e)) es
  end.

Lemma ops_app tx l k : ops tx (l ++ k) = ops tx l ++ ops tx k.
Proof using. apply omap_app. Qed.

Lemma exec_app tx t pre post : exec_stmts tx t (pre ++ post) = t' ← exec_stmts tx t pre; exec_stmts tx t' post.
Proof using.
  revert t. induction pre as [| [] pre IH]; intros t; cbn; auto.
  - destruct (Transaction_remote _ _) as [t' [] ]; cbn; auto.
  - destruct (Transaction_local _ _) as [t' [] ]; cbn; auto.
Qed.

Lemma ops_cons tx bytes l :
  ops tx (bytes :: l) = match Message_decode bytes with
                        | Ok m => if bool_decide (m_transaction m = tx) then m_operation m :: ops tx l else ops tx l
                        | Err _ => ops tx l
                        end.
Proof using. unfold ops. cbn. destruct (Message_decode bytes) as [m |]; [| done]. by case_bool_decide. Qed.

Lemma take_first_ops tx inbox :
  match take_first tx inbox with
  | (Some bytes, rest) => exists op, Message_decode bytes = Ok (mkMessage tx op) /\ ops tx inbox = op :: ops tx rest
  | (None, _) => ops tx inbox = []
  end.
Proof using.
  induction inbox as [| bytes inbox IH]; [done |]. cbn [take_first]. rewrite ops_cons. unfold is_for.
  destruct (Message_decode bytes) as [[i op] | e] eqn:Ed; cbn.
  - case_bool_decide as Hi; [subst i; by exists op |]. destruct (take_first tx inbox) as [[] ?]; [| done].
    rewrite ops_cons, Ed. cbn. by rewrite bool_decide_false.
  - destruct (take_first tx inbox) as [[] ?]; [by rewrite ops_cons, Ed | done].
Qed.

Lemma take_protocol_ops tx b o b' :
  take_protocol tx b = (o, b') ->
  (exists inbox, b' = with_inbox inbox b) /\
  match o with
  | Some op => ops tx (protocol_inbox b) = op :: ops tx (protocol_inbox b')
  | None => b' = b /\ ops tx (protocol_inbox b) = []
  end.
Proof using.
  unfold take_protocol. pose proof (take_first_ops tx (protocol_inbox b)) as H.
  destruct (take_first tx (protocol_inbox b)) as [[bytes |] rest].
  - destruct H as (op & -> & Ho). intros [= <- <-]. split; [by eexists | done].
  - intros [= <- <-]. split; [exists (protocol_inbox b); by destruct b | done].
Qed.

Lemma control_write_files w b answer b' y :
  bs_backend y = b -> bs_answer y = None -> control_write w b = (answer, b') ->
  b' = with_inbox (protocol_inbox b ++ files_message y (EvControl w)) b /\
  (forall bytes, answer = Some bytes -> exists tx nonce state, transaction_id b = Some tx /\
     bytes = StatusMessage_encode (StatusMessage_response tx nonce state)).
Proof using.
  intros Hb Ha. unfold control_write, files_message. rewrite Hb, Ha.
  assert (Hsame : with_inbox (protocol_inbox b ++ []) b = b) by (rewrite app_nil_r; by destruct b).
  destruct (if cw_accept w then cw_bytes w else None) as [bytes |]; [| intros [= <- <-]; split; [by rewrite Hsame | done]].
  destruct (len bytes <=? MAX_CONTROL_BYTES); cbn; [| intros [= <- <-]; split; [by rewrite Hsame | done]].
  case_bool_decide as Hp; cbn; [| intros [= <- <-]; split; [by rewrite Hsame | done]].
  destruct (StatusMessage_decode bytes) as [query | e]; [| by intros [= <- <-]].
  destruct (s_state query); [intros [= <- <-]; split; [by rewrite Hsame | done] |].
  case_bool_decide as Ht; intros [= <- <-]; (split; [by rewrite Hsame | try done]).
  intros x [= <-]. by eexists _, _, _.
Qed.

Definition wait_stmt (critical : bool) (op : Operation) : stmt := if critical then WaitOrUncertain op else WaitFor op.

(** [pre] has been executed from the transaction [t0], with the messages [total] received. *)
Definition progress_to (tx : list Z) (t0 : Transaction) (total : list Operation) (b : BluerPairBackend) (pre : list stmt) : Prop :=
  protocol_transaction b = exec_stmts tx t0 pre /\ is_Some (exec_stmts tx t0 pre) /\
  exists consumed, total = consumed ++ ops tx (protocol_inbox b) /\ no_query consumed = awaited pre.

Definition stage_ok (tx : list Z) (t0 : Transaction) (total : list Operation) (b : BluerPairBackend) (st : Stage) : Prop :=
  match st with
  | Running code => exists pre, coordinate_v2_body = pre ++ code /\ progress_to tx t0 total b pre
  | Waiting wanted critical _ _ code =>
      exists pre, coordinate_v2_body = pre ++ wait_stmt critical wanted :: code /\ progress_to tx t0 total b pre
  | Finished (Ok _) => progress_to tx t0 total b coordinate_v2_body
  | Finished (Err _) => True
  | _ => False
  end.

Record exchange_inv (tx : list Z) (t0 : Transaction) (total : list Operation) (y : Session) : Prop := {
  x_id : transaction_id (bs_backend y) = Some tx;
  x_answer : forall bytes, bs_answer y = Some bytes -> exists nonce state, bytes = StatusMessage_encode (StatusMessage_response tx nonce state);
  x_stage : stage_ok tx t0 total (bs_backend y) (bs_stage y);
}.

Lemma progress_same tx t0 total b b' pre :
  protocol_transaction b' = protocol_transaction b -> protocol_inbox b' = protocol_inbox b ->
  progress_to tx t0 total b pre -> progress_to tx t0 total b' pre.
Proof using. unfold progress_to. by intros -> ->. Qed.

Lemma stage_ok_same tx t0 total b b' st :
  protocol_transaction b' = protocol_transaction b -> protocol_inbox b' = protocol_inbox b ->
  stage_ok tx t0 total b st -> stage_ok tx t0 total b' st.
Proof using.
  intros Ht Hi. destruct st as [| | | code | w c dl wk code | [] ]; cbn; try done; [| | by apply progress_same];
    intros (pre & Hb & Hp); exists pre; (split; [done | by eapply progress_same]).
Qed.

(** A message filed. *)
Lemma progress_filed tx t0 total b pre l :
  progress_to tx t0 total b pre -> progress_to tx t0 (total ++ ops tx l) (with_inbox (protocol_inbox b ++ l) b) pre.
Proof using.
  intros (Ht & Hs & consumed & -> & Hc). split; [done |]. split; [done |]. exists consumed. cbn [protocol_inbox with_inbox]. by rewrite ops_app, app_assoc.
Qed.

Lemma stage_ok_filed tx t0 total b st l :
  stage_ok tx t0 total b st -> stage_ok tx t0 (total ++ ops tx l) (with_inbox (protocol_inbox b ++ l) b) st.
Proof using.
  destruct st as [| | | code | w c dl wk code | [] ]; cbn; try done; [| | by apply progress_filed];
    intros (pre & Hb & Hp); exists pre; (split; [done | by apply progress_filed]).
Qed.

(** A statement that takes no message. *)
Lemma progress_stmt tx t0 total b b' pre s :
  progress_to tx t0 total b pre -> awaited [s] = [] -> protocol_inbox b' = protocol_inbox b ->
  (forall t, protocol_transaction b = Some t -> protocol_transaction b' = exec_stmts tx t [s] /\ is_Some (exec_stmts tx t [s])) ->
  progress_to tx t0 total b' (pre ++ [s]).
Proof using.
  intros (Ht & [t Hs] & consumed & Hl & Hc) Hw Hi Hx. rewrite Hs in Ht. destruct (Hx t Ht) as [Ht' Hs'].
  unfold progress_to. rewrite exec_app, Hs. cbn [mbind option_bind]. split; [done |]. split; [done |].
  exists consumed. rewrite Hi. split; [done |]. unfold awaited in *. by rewrite omap_app, Hc, Hw, app_nil_r.
Qed.

(** A message taken: a status query, or the one that is awaited. *)
Lemma progress_take tx t0 total b b' inbox op pre :
  progress_to tx t0 total b pre -> b' = with_inbox inbox b -> ops tx (protocol_inbox b) = op :: ops tx inbox ->
  if bool_decide (op = OpStatusQuery) then progress_to tx t0 total b' pre
  else forall critical, progress_to tx t0 total b' (pre ++ [wait_stmt critical op]).
Proof using.
  intros (Ht & Hs & consumed & Hl & Hc) -> Ho.
  assert (Hl' : total = (consumed ++ [op]) ++ ops tx inbox) by (by rewrite <- app_assoc, Hl, Ho).
  assert (Hq : no_query (consumed ++ [op]) = no_query consumed ++ (if bool_decide (op = OpStatusQuery) then [] else [op])).
  { unfold no_query. rewrite List.filter_app. cbn. by case_bool_decide. }
  case_bool_decide as Eq.
  - split; [done |]. split; [done |]. exists (consumed ++ [op]). split; [done |]. by rewrite Hq, app_nil_r.
  - intros critical. assert (Hx : exec_stmts tx t0 (pre ++ [wait_stmt critical op]) = exec_stmts tx t0 pre).
    { rewrite exec_app. destruct Hs as [t ->]. by destruct critical. }
    unfold progress_to. rewrite Hx. split; [done |]. split; [done |]. exists (consumed ++ [op]). split; [done |].
    unfold awaited in *. rewrite Hq, omap_app, Hc. by destruct critical.
Qed.

Lemma apply_local_keeps e b : protocol_inbox (apply_local e b).2 = protocol_inbox b /\ transaction_id (apply_local e b).2 = transaction_id b.
Proof using. unfold apply_local. destruct (protocol_transaction b); [| done]. by destruct (Transaction_local _ _). Qed.

Lemma apply_remote_keeps tx op b :
  protocol_inbox (apply_remote tx op b).2 = protocol_inbox b /\ transaction_id (apply_remote tx op b).2 = transaction_id b.
Proof using. unfold apply_remote. destruct (protocol_transaction b); [| done]. by destruct (Transaction_remote _ _). Qed.

(** A failing wait ends the exchange, and keeps the identifier of the transaction. *)
Lemma wait_failed_ends critical e b :
  exists e' b', wait_failed critical e b = (Finished (Err e'), b') /\ transaction_id b' = transaction_id b /\
    (critical = true -> e' = ProtocolUncertain) /\ protocol_status b' = protocol_status b.
Proof using.
  unfold wait_failed. destruct critical; eexists _, _; (split; [reflexivity |]); [| done].
  split; [apply apply_local_keeps |]. split; [done |].
  unfold apply_local. destruct (protocol_transaction b); [| done]. by destruct (Transaction_local _ _).
Qed.

Lemma poll_wait_cases tx wanted critical deadline wake code y y' :
  poll_wait tx wanted critical deadline wake code y = Some y' ->
  bs_answer y' = bs_answer y /\ bs_now y' = bs_now y /\ transaction_id (bs_backend y') = transaction_id (bs_backend y) /\
  let b := bs_backend y in let b' := bs_backend y' in
  (b' = b /\ ops tx (protocol_inbox b) = [] /\ wake <= bs_now y < deadline /\
     bs_stage y' = Waiting wanted critical deadline (bs_now y + PROTOCOL_POLL) code \/
   (exists inbox, ops tx (protocol_inbox b) = OpStatusQuery :: ops tx inbox /\ b' = publish_status tx (with_inbox inbox b) /\
     bs_stage y' = Waiting wanted critical deadline wake code) \/
   (exists inbox, ops tx (protocol_inbox b) = wanted :: ops tx inbox /\ wanted <> OpStatusQuery /\ b' = with_inbox inbox b /\
     bs_stage y' = Running code) \/
   (exists e, bs_stage y' = Finished (Err e) /\ (critical = true -> e = ProtocolUncertain) /\ protocol_status b' = protocol_status b)).
Proof using.
  unfold poll_wait.
  assert (Hfail : forall e b0, transaction_id b0 = transaction_id (bs_backend y) -> protocol_status b0 = protocol_status (bs_backend y) ->
    (let '(st, b) := wait_failed critical e b0 in Some (stay b st y)) = Some y' ->
    bs_answer y' = bs_answer y /\ bs_now y' = bs_now y /\ transaction_id (bs_backend y') = transaction_id (bs_backend y) /\
    exists e', bs_stage y' = Finished (Err e') /\ (critical = true -> e' = ProtocolUncertain) /\
      protocol_status (bs_backend y') = protocol_status (bs_backend y)).
  { intros e b0 Hid Hst. destruct (wait_failed_ends critical e b0) as (e' & b' & -> & Hb' & Hc & Hs). intros [= <-]. cbn.
    split_and!; try done; [congruence |]. exists e'. split_and!; try done. congruence. }
  assert (Hout : (let '(st, b) := wait_timeout critical (bs_backend y) in Some (stay b st y)) = Some y' ->
    bs_answer y' = bs_answer y /\ bs_now y' = bs_now y /\ transaction_id (bs_backend y') = transaction_id (bs_backend y) /\
    exists e', bs_stage y' = Finished (Err e') /\ (critical = true -> e' = ProtocolUncertain) /\
      protocol_status (bs_backend y') = protocol_status (bs_backend y)).
  { unfold wait_timeout. apply Hfail; [apply apply_local_keeps |]. unfold apply_local.
    destruct (protocol_transaction _); [| done]. by destruct (Transaction_local _ _). }
  destruct (Z.ltb_spec (bs_now y) wake).
  { destruct (deadline <=? bs_now y); [| done]. intros H'. apply Hout in H' as (? & ? & ? & ?). split_and!; auto. }
  destruct (take_protocol tx (bs_backend y)) as [[op |] b] eqn:Et; apply take_protocol_ops in Et as [[inbox ->] Ho].
  - case_bool_decide as Eq; [subst op; intros [= <-]; cbn; split_and!; try done; right; left; by exists inbox |].
    case_bool_decide as Ew; [subst op; intros [= <-]; cbn; split_and!; try done; right; right; left; by exists inbox |].
    destruct (is_abort_op op); intros H'; apply Hfail in H' as (? & ? & ? & ?); try done; [split_and!; auto | | | split_and!; auto].
    + by destruct (apply_remote_keeps tx op (with_inbox inbox (bs_backend y))) as [_ ->].
    + unfold apply_remote. cbn. destruct (protocol_transaction _); [| done]. by destruct (Transaction_remote _ _).
  - destruct Ho as [Hb Ho]. rewrite Hb. destruct (Z.leb_spec deadline (bs_now y)).
    + intros H'. apply Hout in H' as (? & ? & ? & ?). split_and!; auto.
    + intros [= <-]. cbn. split_and!; try done. left. split_and!; try done; lia.
Qed.

(** The steps of a session in its exchange. *)
Lemma exchange_step_cases tx y e y' :
  (match bs_stage y with Running _ | Waiting _ _ _ _ _ | Finished _ => True | _ => False end) -> bs_step tx y e = Some y' ->
  bs_stage y' = bs_stage y /\ (exists ms, 0 <= ms /\ e = EvTick ms /\ y' = mkSession (bs_backend y) (bs_stage y) (bs_answer y) (bs_now y + ms)) \/
  (exists w, e = EvControl w /\ bs_answer y = None /\ bs_stage y' = bs_stage y /\ bs_now y' = bs_now y /\
     control_write w (bs_backend y) = (bs_answer y', bs_backend y')) \/
  (exists answer, e = EvAnswer /\ bs_answer y = Some answer /\
     y' = mkSession (with_status answer (bs_backend y)) (bs_stage y) None (bs_now y)) \/
  e = EvPoll /\ poll_coordinate tx y = Some y'.
Proof using.
  intros Hst. unfold bs_step. destruct e as [| | | | | w | | | ms];
    try (destruct (bs_stage y) as [? ? | [] | [] | ? | ? ? ? ? ? | []]; done).
  - destruct (bs_answer y) as [answer |] eqn:Ea; [done |]. destruct (control_write w (bs_backend y)) as [answer b'] eqn:Ec.
    intros [= <-]. right. left. by exists w.
  - destruct (bs_answer y) as [answer |] eqn:Ea; [| done]. intros [= <-]. do 2 right. left. by exists answer.
  - destruct (bs_stage y) as [? ? | [] | [] | ? | ? ? ? ? ? | []]; try done; auto.
  - destruct (Z.leb_spec 0 ms); [| done]. intros [= <-]. left. split; [done |]. by exists ms.
Qed.

Lemma continue_or_cases r code y y' :
  continue_or r code y = y' ->
  bs_answer y' = bs_answer y /\ bs_now y' = bs_now y /\ bs_backend y' = r.2 /\
  bs_stage y' = match r.1 with Ok _ => Running code | Err e => Finished (Err e) end.
Proof using. intros <-. by destruct r as [[] b]. Qed.

Lemma local_exec tx t0 total y pre e code :
  coordinate_v2_body = pre ++ Local e :: code -> progress_to tx t0 total (bs_backend y) pre ->
  stage_ok tx t0 total (apply_local e (bs_backend y)).2
    (match (apply_local e (bs_backend y)).1 with Ok _ => Running code | Err err => Finished (Err err) end).
Proof using.
  intros Hb Hp. destruct (apply_local e (bs_backend y)) as [[u | err] b'] eqn:Ea; [| done]. exists (pre ++ [Local e]).
  split; [by rewrite <- app_assoc |]. pose proof (apply_local_keeps e (bs_backend y)) as [Hi _]. rewrite Ea in Hi.
  eapply progress_stmt; [exact Hp | done | exact Hi |]. intros t Ht. revert Ea. unfold apply_local. rewrite Ht. cbn.
  destruct (Transaction_local t e) as [t' [v | err]]; [| done]. intros [= _ <-]. split; [done | by eexists].
Qed.

Lemma remote_exec tx t0 total y pre op code :
  coordinate_v2_body = pre ++ Remote op :: code -> progress_to tx t0 total (bs_backend y) pre ->
  stage_ok tx t0 total (apply_remote tx op (bs_backend y)).2
    (match (apply_remote tx op (bs_backend y)).1 with Ok _ => Running code | Err err => Finished (Err err) end).
Proof using.
  intros Hb Hp. destruct (apply_remote tx op (bs_backend y)) as [[u | err] b'] eqn:Ea; [| done]. exists (pre ++ [Remote op]).
  split; [by rewrite <- app_assoc |]. pose proof (apply_remote_keeps tx op (bs_backend y)) as [Hi _]. rewrite Ea in Hi.
  eapply progress_stmt; [exact Hp | done | exact Hi |]. intros t Ht. revert Ea. unfold apply_remote. rewrite Ht. cbn.
  destruct (Transaction_remote t (mkMessage tx op)) as [t' [v | err]]; [| done]. intros [= _ <-]. split; [done | by eexists].
Qed.

Lemma exchange_poll tx t0 total y y' :
  exchange_inv tx t0 total y -> poll_coordinate tx y = Some y' -> exchange_inv tx t0 total y'.
Proof using.
  intros [Hid Ha Hst]. unfold poll_coordinate. destruct (bs_stage y) as [| | | [| s code] | wanted critical dl wk code |] eqn:Es; try done.
  - intros [= <-]. split; [done | done |]. destruct Hst as (pre & Hb & Hp). rewrite app_nil_r in Hb. cbn. by rewrite Hb.
  - destruct Hst as (pre & Hb & Hp). destruct s as [op | op | op | op | e]; intros [= Hy].
    + subst y'. split; [done | done |]. exists (pre ++ [Publish op]). split; [by rewrite <- app_assoc |].
      eapply progress_stmt; [exact Hp | done | done |]. intros t Ht. split; [done | by eexists].
    + subst y'. split; [done | done |]. by exists pre.
    + subst y'. split; [done | done |]. by exists pre.
    + apply continue_or_cases in Hy as (Hya & _ & Hyb & Hys). pose proof (apply_remote_keeps tx op (bs_backend y)) as [_ Hk].
      split; [by rewrite Hyb, Hk | by rewrite Hya |]. rewrite Hyb, Hys. by apply (remote_exec tx t0 total y pre op code).
    + apply continue_or_cases in Hy as (Hya & _ & Hyb & Hys). pose proof (apply_local_keeps e (bs_backend y)) as [_ Hk].
      split; [by rewrite Hyb, Hk | by rewrite Hya |]. rewrite Hyb, Hys. by apply (local_exec tx t0 total y pre e code).
  - intros Hy. apply poll_wait_cases in Hy as (Hya & _ & Hyi & Hy). destruct Hst as (pre & Hb & Hp).
    split; [by rewrite Hyi | by rewrite Hya |].
    destruct Hy as [(-> & Ho & _ & ->) | [(inbox & Ho & -> & ->) | [(inbox & Ho & Hq & -> & ->) | (err & -> & _ & _)]]].
    + by exists pre.
    + exists pre. split; [done |]. pose proof (progress_take _ _ _ _ _ inbox _ _ Hp eq_refl Ho) as Ht.
      eapply progress_same; [| | exact Ht]; done.
    + exists (pre ++ [wait_stmt critical wanted]). split; [by rewrite <- app_assoc |].
      pose proof (progress_take _ _ _ _ _ inbox _ _ Hp eq_refl Ho) as Ht. rewrite bool_decide_false in Ht by done. apply Ht.
    + done.
Qed.

Lemma exchange_step tx t0 total y e y' :
  exchange_inv tx t0 total y -> bs_step tx y e = Some y' -> exchange_inv tx t0 (total ++ ops tx (files_message y e)) y'.
Proof using.
  intros Hinv Hy. pose proof Hinv as [Hid Ha Hst].
  apply exchange_step_cases in Hy as [[_ (ms & _ & -> & ->)] | [(w & -> & Hn & Hs & _ & Hc) | [(answer & -> & He & ->) | [-> Hp]]]].
  - cbn. rewrite app_nil_r. by split.
  - apply (control_write_files _ _ _ _ y eq_refl Hn) in Hc as [Hb Hans]. split.
    + by rewrite Hb.
    + intros bytes Hbytes. destruct (Hans bytes Hbytes) as (tx' & nonce & state & Ht & ->). rewrite Hid in Ht. injection Ht as <-. eauto.
    + rewrite Hb, Hs. by apply stage_ok_filed.
  - cbn. rewrite app_nil_r. split; [done | done |]. cbn. eapply stage_ok_same; [| | exact Hst]; done.
  - cbn. rewrite app_nil_r. by eapply exchange_poll.
  - revert Hst. destruct (bs_stage y) as [| | | | | [] ]; cbn; auto.
Qed.

Lemma exchange_run tx t0 total y es :
  exchange_inv tx t0 total y -> exchange_inv tx t0 (total ++ ops tx (heard tx y es)) (bs_run tx y es).
Proof using.
  revert total y. induction es as [| e es IH]; intros total y Hinv; [cbn; by rewrite app_nil_r |]. cbn [heard bs_run].
  rewrite ops_app, app_assoc. apply IH. destruct (bs_step tx y e) as [y' |] eqn:Ey; [by eapply exchange_step |]. cbn.
  assert (Hf : ops tx (files_message y e) = []); [| by rewrite Hf, app_nil_r].
  destruct e; try done. cbn in *. destruct (bs_answer y); [done |]. by destruct (control_write w (bs_backend y)).
Qed.

(** ** The transaction of an exchange *)

(** As [set_transaction_id] leaves it, and as [initiate_lesc_with_peer] does. *)
Definition fresh (tx : list Z) : Transaction := Transaction_new tx Coordinator.
Definition offered (tx : list Z) : Transaction := set_capabilities (true, false) (fresh tx).
Definition started (tx : list Z) (t0 : Transaction) : Prop := t0 = fresh tx \/ t0 = offered tx.

Definition bonded_tx (tx : list Z) : Transaction := mkTransaction tx Coordinator Bonded all_set all_set all_set all_set.

(** [Transaction_remote] on a message of the transaction. *)
Definition remote_op (t : Transaction) (op : Operation) : Transaction * result unit TransactionError :=
  Transaction_remote (mkTransaction [] (role t) (phase t) (capabilities t) (PairTransaction.confirmed t) (prepared t) (committed t))
    (mkMessage [] op).

Definition retag (i : list Z) (t : Transaction) : Transaction :=
  mkTransaction i (role t) (phase t) (capabilities t) (PairTransaction.confirmed t) (prepared t) (committed t).

Lemma remote_own t op :
  Transaction_remote t (mkMessage (PairTransaction.id t) op) = (retag (PairTransaction.id t) (remote_op t op).1, (remote_op t op).2).
Proof using.
  destruct t as [i r p caps conf prep comm]. unfold remote_op, Transaction_remote. cbn [m_transaction PairTransaction.id m_operation].
  rewrite !bool_decide_true by done. cbn [negb].
  destruct op; cbn; unfold Transaction_confirm, Transaction_prepare, Transaction_record_committed, Transaction_abort;
    cbn; repeat case_match; done.
Qed.

(** Execute the statements on a transaction whose identifier is a variable. *)
Ltac exec_step :=
  cbn [exec_stmts];
  match goal with
  | |- context [Transaction_remote ?t (mkMessage ?i ?op)] =>
      change (Transaction_remote t (mkMessage i op)) with (Transaction_remote t (mkMessage (PairTransaction.id t) op));
      rewrite (remote_own t op);
      let v := eval vm_compute in (remote_op t op) in change (remote_op t op) with v;
      let w := eval vm_compute in (PairTransaction.id t) in change (PairTransaction.id t) with w;
      cbn [fst snd retag role phase capabilities PairTransaction.confirmed prepared committed]
  | |- context [Transaction_local ?t ?e] =>
      let v := eval vm_compute in (Transaction_local t e) in change (Transaction_local t e) with v; cbn iota
  end.

Lemma exec_fresh tx : exec_stmts tx (fresh tx) coordinate_v2_body = Some (bonded_tx tx).
Proof using. unfold coordinate_v2_body. repeat exec_step. reflexivity. Qed.

(** The capability has been announced by then: the second time it is refused. *)
Lemma exec_offered tx pre : (4 <= length pre)%nat -> pre `prefix_of` coordinate_v2_body -> exec_stmts tx (offered tx) pre = None.
Proof using.
  intros Hl [post Hb]. assert (Hx : pre = take 4 coordinate_v2_body ++ drop 4 pre).
  { rewrite <- (take_drop 4 pre) at 1. f_equal. rewrite Hb, take_app_le by lia. done. }
  assert (H4 : exec_stmts tx (offered tx) (take 4 coordinate_v2_body) = None).
  { cbn [take coordinate_v2_body]. repeat exec_step. reflexivity. }
  by rewrite Hx, exec_app, H4.
Qed.

Lemma exec_prefix tx t0 pre post : is_Some (exec_stmts tx t0 (pre ++ post)) -> is_Some (exec_stmts tx t0 pre).
Proof using. rewrite exec_app. destruct (exec_stmts tx t0 pre); [done | by intros [? [=]]]. Qed.

(** Past the commit point no statement fails. *)
Lemma exec_past tx t0 pre s code :
  started tx t0 -> coordinate_v2_body = pre ++ s :: code -> (length code <= 6)%nat -> is_Some (exec_stmts tx t0 pre) ->
  is_Some (exec_stmts tx t0 (pre ++ [s])).
Proof using.
  intros [-> | ->] Hb Hl Hs.
  - apply (exec_prefix tx (fresh tx) (pre ++ [s]) code). rewrite <- app_assoc. cbn. rewrite <- Hb, exec_fresh. by eexists.
  - rewrite exec_offered in Hs; [by destruct Hs | | by eexists]. apply (f_equal length) in Hb. rewrite length_app in Hb. cbn in Hb. lia.
Qed.

(** The desktop has let the phone commit. *)
Definition past_commit (st : Stage) : Prop :=
  match st with
  | Running code | Waiting _ _ _ _ code => (length code <= 6)%nat
  | Finished (Ok _) => True
  | Finished (Err e) => e = ProtocolUncertain
  | _ => False
  end.

Definition commit_message (tx : list Z) : list Z := Message_encode (mkMessage tx OpCommit).

Record commit_inv (tx : list Z) (t0 : Transaction) (y : Session) : Prop := {
  c_exchange : exists total, exchange_inv tx t0 total y;
  c_shown : protocol_status (bs_backend y) = commit_message tx -> past_commit (bs_stage y);
}.

Lemma status_not_commit tx tx' nonce state :
  length tx' = length tx -> StatusMessage_encode (StatusMessage_response tx' nonce state) <> commit_message tx.
Proof using.
  intros Hl He. apply (f_equal length) in He. unfold StatusMessage_encode, commit_message, Message_encode in He.
  cbn in He. rewrite !length_app in He. cbn in He. lia.
Qed.

(** What the status shows after a poll. *)
Lemma nth_body pre s code :
  coordinate_v2_body = pre ++ s :: code -> coordinate_v2_body !! length pre = Some s /\ length code = (20 - length pre)%nat.
Proof using.
  intros Hb. split; [rewrite Hb, lookup_app_r, Nat.sub_diag by lia; done |].
  apply (f_equal length) in Hb. rewrite length_app in Hb. cbn in Hb. lia.
Qed.

Lemma publish_commit_at pre code : coordinate_v2_body = pre ++ Publish OpCommit :: code -> length code = 6%nat.
Proof using.
  intros [Hn Hl]%nth_body. rewrite Hl. revert Hn. generalize (length pre). intros k. do 21 (destruct k as [| k]; [done |]). done.
Qed.

Lemma wait_critical_at pre critical w code :
  coordinate_v2_body = pre ++ wait_stmt critical w :: code -> (length code <= 6)%nat -> critical = true.
Proof using.
  intros [Hn Hl]%nth_body Hle. rewrite Hl in Hle. destruct critical; [done |]. exfalso. revert Hn Hle. generalize (length pre). intros k.
  do 14 (destruct k as [| k]; [cbn; lia |]). do 7 (destruct k as [| k]; [done |]). done.
Qed.

(** A statement past the commit point succeeds, a wait there fails with [ProtocolUncertain] only. *)
Lemma past_poll tx t0 total y y' :
  started tx t0 -> exchange_inv tx t0 total y -> poll_coordinate tx y = Some y' -> past_commit (bs_stage y) -> past_commit (bs_stage y').
Proof using.
  intros Ht0 [Hid Ha Hst]. unfold poll_coordinate. destruct (bs_stage y) as [| | | [| s code] | wanted critical dl wk code |]; try done.
  - by intros [= <-].
  - destruct Hst as (pre & Hb & Hp). pose proof Hp as (Ht & [t Hs] & _). rewrite Hs in Ht. intros Hy Hpast. cbn in Hpast.
    assert (Hok : is_Some (exec_stmts tx t [s])).
    { assert (H : is_Some (exec_stmts tx t0 (pre ++ [s]))) by (eapply exec_past; [done | exact Hb | lia | by eexists]).
      by rewrite exec_app, Hs in H. }
    destruct s as [op | op | op | op | e]; injection Hy as Hy; try (subst y'; cbn; lia);
      apply continue_or_cases in Hy as (_ & _ & _ & ->).
    + unfold apply_remote. rewrite Ht. cbn in Hok. destruct (Transaction_remote t _) as [t' [u | err]]; cbn; [lia | by destruct Hok].
    + unfold apply_local. rewrite Ht. cbn in Hok. destruct (Transaction_local t e) as [t' [u | err]]; cbn; [lia | by destruct Hok].
  - intros Hy Hpast. destruct Hst as (pre & Hb & _). pose proof (wait_critical_at _ _ _ _ Hb Hpast) as Hc.
    apply poll_wait_cases in Hy as (_ & _ & _ & Hy).
    destruct Hy as [(_ & _ & _ & ->) | [(inbox & _ & _ & ->) | [(inbox & _ & _ & _ & ->) | (err & -> & He & _)]]]; cbn; auto.
Qed.

(** Only [Publish OpCommit] shows the commit message. *)
Lemma shown_poll tx t0 total y y' :
  exchange_inv tx t0 total y -> poll_coordinate tx y = Some y' -> protocol_status (bs_backend y') = commit_message tx ->
  protocol_status (bs_backend y) = commit_message tx \/
  exists code, bs_stage y = Running (Publish OpCommit :: code) /\ bs_stage y' = Running code.
Proof using.
  intros [Hid Ha Hst]. unfold poll_coordinate. destruct (bs_stage y) as [| | | [| s code] | wanted critical dl wk code |]; try done.
  - intros [= <-]. by left.
  - destruct Hst as (pre & Hb & _). destruct s as [op | op | op | op | e]; intros [= Hy].
    + subst y'. cbn. unfold commit_message, Message_encode. cbn. intros [= H]. apply app_inj_tail in H as [_ H]. right.
      destruct op; try done. by exists code.
    + subst y'. by left.
    + subst y'. by left.
    + apply continue_or_cases in Hy as (_ & _ & -> & _). left. revert H. unfold apply_remote.
      destruct (protocol_transaction _); [| done]. by destruct (Transaction_remote _ _).
    + apply continue_or_cases in Hy as (_ & _ & -> & _). left. revert H. unfold apply_local.
      destruct (protocol_transaction _); [| done]. by destruct (Transaction_local _ _).
  - intros Hy Hs. apply poll_wait_cases in Hy as (_ & _ & _ & Hy).
    destruct Hy as [(Hb & _) | [(inbox & _ & Hb & _) | [(inbox & _ & _ & Hb & _) | (err & _ & _ & Hb)]]]; rewrite Hb in Hs; auto.
    by apply status_not_commit in Hs.
Qed.

Lemma commit_step tx t0 y e y' : started tx t0 -> commit_inv tx t0 y -> bs_step tx y e = Some y' -> commit_inv tx t0 y'.
Proof using.
  intros Ht0 [[total Hinv] Hsh] Hy. split; [eexists; by eapply exchange_step |]. pose proof Hinv as [Hid Ha Hst].
  apply exchange_step_cases in Hy as [[_ (ms & _ & -> & ->)] | [(w & -> & Hn & Hs & _ & Hc) | [(answer & -> & He & ->) | [-> Hp]]]].
  - done.
  - apply (control_write_files _ _ _ _ y eq_refl Hn) in Hc as [Hb _]. rewrite Hb, Hs. done.
  - cbn. intros H. destruct (Ha answer He) as (nonce & state & ->). by apply status_not_commit in H.
  - intros H. destruct (shown_poll _ _ _ _ _ Hinv Hp H) as [H' | (code & Es & ->)]; [eapply past_poll; eauto |].
    rewrite Es in Hst. destruct Hst as (pre & Hb & _). apply publish_commit_at in Hb. cbn. lia.
  - revert Hst. destruct (bs_stage y) as [| | | | | [] ]; cbn; auto.
Qed.

Lemma past_step tx t0 y e y' : started tx t0 -> commit_inv tx t0 y -> bs_step tx y e = Some y' -> past_commit (bs_stage y) -> past_commit (bs_stage y').
Proof using.
  intros Ht0 [[total Hinv] _] Hy. pose proof Hinv as [_ _ Hst].
  apply exchange_step_cases in Hy as [[-> _] | [(w & -> & Hn & -> & _) | [(answer & -> & He & ->) | [-> Hp]]]]; try done.
  - by eapply past_poll.
  - revert Hst. destruct (bs_stage y) as [| | | | | [] ]; cbn; auto.
Qed.

Lemma commit_run tx t0 y es : started tx t0 -> commit_inv tx t0 y -> commit_inv tx t0 (bs_run tx y es).
Proof using.
  intros Ht0. revert y. induction es as [| e es IH]; intros y Hinv; [done |]. apply IH.
  destruct (bs_step tx y e) as [y' |] eqn:Ey; [by eapply commit_step | done].
Qed.

Lemma past_run tx t0 y es :
  started tx t0 -> commit_inv tx t0 y -> past_commit (bs_stage y) -> past_commit (bs_stage (bs_run tx y es)).
Proof using.
  intros Ht0. revert y. induction es as [| e es IH]; intros y Hinv Hp; [done |]. cbn.
  destruct (bs_step tx y e) as [y' |] eqn:Ey; [| by apply IH]. apply IH; [by eapply commit_step | by eapply past_step].
Qed.

Lemma bs_run_app tx y es1 es2 : bs_run tx y (es1 ++ es2) = bs_run tx (bs_run tx y es1) es2.
Proof using. revert y. induction es1 as [| e es1 IH]; intros y; [done |]. apply IH. Qed.

(** An exchange that begins: [coordinate_v2] is called with the transaction that was set.  The
    contracts of [coordinate_v2] below are for every transaction it may be called with; the
    command calls it with one that already announced the capability, with which no
    exchange ends bonded ([terminal_pairing_never_bonds]). *)
Record exchanging (tx : list Z) (t0 : Transaction) (y : Session) : Prop := {
  e_stage : bs_stage y = Running coordinate_v2_body;
  e_id : transaction_id (bs_backend y) = Some tx;
  e_transaction : protocol_transaction (bs_backend y) = Some t0;
  e_answer : forall bytes, bs_answer y = Some bytes -> exists nonce state, bytes = StatusMessage_encode (StatusMessage_response tx nonce state);
  e_status : protocol_status (bs_backend y) <> commit_message tx;
}.

Lemma exchanging_inv tx t0 y : exchanging tx t0 y -> exchange_inv tx t0 (ops tx (protocol_inbox (bs_backend y))) y.
Proof using.
  intros [Hs Hi Ht Ha Hst]. split; [done | done |]. rewrite Hs. exists []. split; [done |]. split; [by rewrite Ht |]. split; [by eexists |].
  by exists [].
Qed.

Lemma exchanging_commit tx t0 y : exchanging tx t0 y -> commit_inv tx t0 y.
Proof using. intros H. split; [eexists; by apply exchanging_inv |]. intros Hc. by apply (e_status _ _ _ H) in Hc. Qed.

(** ** Sessions from their start *)

Definition session_ok (tx : list Z) (y : Session) : Prop :=
  transaction_id (bs_backend y) = Some tx /\
  (forall bytes, bs_answer y = Some bytes -> exists nonce state, bytes = StatusMessage_encode (StatusMessage_response tx nonce state)) /\
  protocol_status (bs_backend y) <> commit_message tx /\
  match bs_stage y with
  | Scanning _ _ | ScanDone _ => protocol_transaction (bs_backend y) = Some (fresh tx)
  | LescDone (Ok _) => protocol_transaction (bs_backend y) = Some (offered tx)
  | LescDone (Err _) => True
  | _ => False
  end.

(** Before the exchange, or in it with the capability already announced. *)
Definition session_inv (tx : list Z) (y : Session) : Prop :=
  session_ok tx y \/ (exists total, exchange_inv tx (offered tx) total y) /\ protocol_status (bs_backend y) <> commit_message tx.

Lemma phone_write_keeps w b :
  transaction_id (phone_write w b).2 = transaction_id b /\ protocol_status (phone_write w b).2 = protocol_status b /\
  protocol_transaction (phone_write w b).2 = protocol_transaction b.
Proof using.
  unfold phone_write. destruct (if pw_accept w then pw_bytes w else None); [| done]. destruct (negb _); [done |]. by destruct (pw_device w).
Qed.

Lemma initiate_offers tx b :
  transaction_id b = Some tx -> protocol_status b <> commit_message tx -> protocol_transaction b = Some (fresh tx) ->
  let '(r, b') := bluer_initiate_lesc b in
  transaction_id b' = Some tx /\ protocol_status b' <> commit_message tx /\
  match r with Ok _ => protocol_transaction b' = Some (offered tx) | Err _ => True end.
Proof using.
  intros Hi Hs Ht. unfold bluer_initiate_lesc. destruct (phone_pubkey_mailbox b); [| done].
  unfold apply_local. cbn [protocol_transaction with_status set_mailbox transaction_id]. rewrite Hi, Ht. cbn. split_and!; try done.
  unfold commit_message, Message_encode. cbn. intros [= H]. by apply app_inj_tail in H as [_ [=]].
Qed.

Lemma offered_short tx total b pre post :
  coordinate_v2_body = pre ++ post -> progress_to tx (offered tx) total b pre -> (17 < length post)%nat.
Proof using.
  intros Hb (_ & Hsome & _). destruct (decide (17 < length post)%nat) as [| Hl]; [done |]. exfalso.
  rewrite exec_offered in Hsome; [by destruct Hsome | | by eexists]. apply (f_equal length) in Hb. rewrite length_app in Hb. cbn in Hb. lia.
Qed.

Lemma offered_step tx total y e y' :
  exchange_inv tx (offered tx) total y -> bs_step tx y e = Some y' -> protocol_status (bs_backend y) <> commit_message tx ->
  protocol_status (bs_backend y') <> commit_message tx.
Proof using.
  intros Hinv Hy Hs. pose proof Hinv as [_ Ha Hst].
  apply exchange_step_cases in Hy as [[_ (ms & _ & -> & ->)] | [(w & -> & Hn & _ & _ & Hc) | [(answer & -> & He & ->) | [-> Hp]]]].
  - done.
  - apply (control_write_files _ _ _ _ y eq_refl Hn) in Hc as [-> _]. done.
  - cbn. destruct (Ha answer He) as (nonce & state & ->). by apply status_not_commit.
  - intros H. destruct (shown_poll _ _ _ _ _ Hinv Hp H) as [H' | (code & Es & _)]; [done |]. rewrite Es in Hst.
    destruct Hst as (pre & Hb & Hpr). pose proof (publish_commit_at _ _ Hb). apply (offered_short _ _ _ _ _ Hb) in Hpr. cbn in Hpr. lia.
  - revert Hst. destruct (bs_stage y) as [| | | | | [] ]; cbn; auto.
Qed.

Lemma session_step tx y e y' : session_inv tx y -> bs_step tx y e = Some y' -> session_inv tx y'.
Proof using.
  intros [Hok | [[total Hx] Hc]] Hy; [| right; split; [eexists; by eapply exchange_step | by eapply offered_step]].
  destruct Hok as (Hi & Ha & Hs & Hst). unfold bs_step in Hy. destruct e as [w | | m ok | | | w | | | ms].
  6: { left. destruct (bs_answer y) eqn:Ea; [done |]. destruct (control_write w (bs_backend y)) as [answer b'] eqn:Ec. injection Hy as <-.
    apply (control_write_files _ _ _ _ y eq_refl Ea) in Ec as [-> Hans]. split_and!; try done. cbn. intros bytes Hb.
    destruct (Hans bytes Hb) as (tx' & nonce & state & Ht & ->). rewrite Hi in Ht. injection Ht as <-. eauto. }
  6: { left. destruct (bs_answer y) as [answer |] eqn:Ea; [| done]. injection Hy as <-. split_and!; try done. cbn.
    destruct (Ha answer eq_refl) as (nonce & state & ->). by apply status_not_commit. }
  7: { left. destruct (0 <=? ms); [| done]. injection Hy as <-. by split_and!. }
  all: destruct (bs_stage y) as [minute dl | [c | err] | [o | err] | | |] eqn:Es; try done.
  - left. cbn in Hy. pose proof (phone_write_keeps w (bs_backend y)) as (Hk1 & Hk2 & Hk3).
    destruct (phone_write w (bs_backend y)) as [r b']. injection Hy as <-. cbn in *. split_and!; cbn; [congruence | done | congruence | congruence].
  - left. injection Hy as <-. by split_and!.
  - left. cbn in Hy. destruct (m =? minute); [done |]. destruct ok; [| done]. injection Hy as <-. by split_and!.
  - left. pose proof (initiate_offers tx (bs_backend y) Hi Hs Hst) as H. destruct (bluer_initiate_lesc (bs_backend y)) as [r b'].
    injection Hy as <-. destruct H as (Hi' & Hs' & Ht'). by split_and!.
  - right. injection Hy as <-. split; [| done]. eexists. apply exchanging_inv. by split.
  - left. cbn in Hy. destruct (dl <=? bs_now y); [| done]. injection Hy as <-. by split_and!.
  - by destruct (poll_coordinate tx y) eqn:Ep; unfold poll_coordinate in Ep; rewrite Es in Ep.
  - by destruct (poll_coordinate tx y) eqn:Ep; unfold poll_coordinate in Ep; rewrite Es in Ep.
  - by destruct (poll_coordinate tx y) eqn:Ep; unfold poll_coordinate in Ep; rewrite Es in Ep.
  - by destruct (poll_coordinate tx y) eqn:Ep; unfold poll_coordinate in Ep; rewrite Es in Ep.
Qed.

Lemma session_start key tx minute now : session_inv tx (bs_start key tx minute now).
Proof using. left. split_and!; try done. by apply status_not_commit. Qed.

Lemma session_run tx y es : session_inv tx y -> session_inv tx (bs_run tx y es).
Proof using.
  revert y. induction es as [| e es IH]; intros y Hinv; [done |]. apply IH. destruct (bs_step tx y e) eqn:Ey; [by eapply session_step | done].
Qed.

(** With the capability announced, an exchange neither succeeds nor lets the phone commit. *)
Lemma session_never_bonds tx y : session_inv tx y -> bs_stage y <> Finished (Ok tt) /\ protocol_status (bs_backend y) <> commit_message tx.
Proof using.
  intros [(_ & _ & Hs & Hst) | [[total [_ _ Hst]] Hs]]; (split; [| done]); intros E; rewrite E in Hst; [done |].
  eapply (offered_short tx total _ _ []) in Hst; [cbn in Hst; lia | by rewrite app_nil_r].
Qed.

(** ** Termination *)

(** A wait looks at the inbox every [PROTOCOL_POLL] for the length of its window, and once on either end. *)
Definition weight (s : stmt) : nat :=
  match s with
  | WaitFor _ | WaitOrUncertain _ => Z.to_nat (PAIR_ADVERTISE_ACCEPT_WINDOW / PROTOCOL_POLL + 3)
  | _ => 1
  end.

Definition cost (code : list stmt) : nat := S (sum_list_with weight code).

(** The polls that an exchange has left. *)
Definition polls_left (tx : list Z) (y : Session) : nat :=
  let messages := length (ops tx (protocol_inbox (bs_backend y))) in
  match bs_stage y with
  | Running code => cost code + messages
  | Waiting _ _ deadline wake code => Z.to_nat ((deadline - wake) / PROTOCOL_POLL + 2) + cost code + messages
  | _ => 0
  end.

(** The polls of a run that find something to do, and the writes to the control characteristic. *)
Fixpoint polls (tx : list Z) (y : Session) (es : list bs_event) : nat :=
  match es with
  | [] => 0
  | e :: es =>
      (if bool_decide (is_Some (bs_step tx y e)) then match e with EvPoll => 1 | _ => 0 end else 0) +
      polls tx (default y (bs_step tx y e)) es
  end.

Definition controls (es : list bs_event) : nat := length (List.filter (fun e => match e with EvControl _ => true | _ => false end) es).

Definition exchange_stage (y : Session) : Prop :=
  match bs_stage y with
  | Running _ | Finished _ => True
  | Waiting _ _ deadline _ _ => deadline <= bs_now y + PAIR_ADVERTISE_ACCEPT_WINDOW
  | _ => False
  end.

Lemma exchange_stage_cases y :
  exchange_stage y -> match bs_stage y with Running _ | Waiting _ _ _ _ _ | Finished _ => True | _ => False end.
Proof using. unfold exchange_stage. by destruct (bs_stage y). Qed.

Lemma apply_ops tx b b' : protocol_inbox b' = protocol_inbox b -> ops tx (protocol_inbox b') = ops tx (protocol_inbox b).
Proof using. by intros ->. Qed.

Lemma sleep_shrinks deadline wake now :
  wake <= now < deadline ->
  (Z.to_nat ((deadline - (now + PROTOCOL_POLL)) / PROTOCOL_POLL + 2) < Z.to_nat ((deadline - wake) / PROTOCOL_POLL + 2))%nat.
Proof using.
  unfold PROTOCOL_POLL. intros H. replace (deadline - (now + 50)) with ((deadline - now) + (-1) * 50) by lia. rewrite Z.div_add by lia.
  assert (0 <= (deadline - now) / 50) by (apply Z.div_pos; lia).
  assert ((deadline - now) / 50 <= (deadline - wake) / 50) by (apply Z.div_le_mono; lia). lia.
Qed.

Lemma poll_shrinks tx y y' :
  exchange_stage y -> poll_coordinate tx y = Some y' -> (polls_left tx y' < polls_left tx y)%nat /\ exchange_stage y'.
Proof using.
  unfold exchange_stage, poll_coordinate, polls_left. intros Hst. destruct (bs_stage y) as [| | | [| s code] | wanted critical dl wk code |]; try done.
  - intros [= <-]. cbn -[ops]. split; [lia | done].
  - assert (Hw : forall r, protocol_inbox r.2 = protocol_inbox (bs_backend y) -> weight s = 1%nat -> Some (continue_or r code y) = Some y' ->
      (polls_left tx y' < cost (s :: code) + length (ops tx (protocol_inbox (bs_backend y))))%nat /\ exchange_stage y').
    { intros [[u | err] b] Hi Hs [= <-]; unfold polls_left, exchange_stage; cbn -[ops] in *; [| split; [lia | done]]. rewrite Hi, Hs. split; [lia | done]. }
    destruct s as [op | op | op | op | e].
    + intros [= <-]. cbn -[ops]. split; [lia | done].
    + intros [= <-]. cbn [bs_stage bs_now bs_backend stay]. replace (bs_now y + _ - bs_now y) with PAIR_ADVERTISE_ACCEPT_WINDOW by lia.
      unfold cost. cbn [sum_list_with weight]. split; [vm_compute (PAIR_ADVERTISE_ACCEPT_WINDOW / _); lia | lia].
    + intros [= <-]. cbn [bs_stage bs_now bs_backend stay]. replace (bs_now y + _ - bs_now y) with PAIR_ADVERTISE_ACCEPT_WINDOW by lia.
      unfold cost. cbn [sum_list_with weight]. split; [vm_compute (PAIR_ADVERTISE_ACCEPT_WINDOW / _); lia | lia].
    + apply Hw; [apply apply_remote_keeps | done].
    + apply Hw; [apply apply_local_keeps | done].
  - intros Hy. apply poll_wait_cases in Hy as (_ & Hn & _ & Hy). rewrite Hn.
    destruct Hy as [(-> & _ & Ht & ->) | [(inbox & Ho & -> & ->) | [(inbox & Ho & _ & -> & ->) | (err & -> & _)]]].
    + pose proof (sleep_shrinks dl wk (bs_now y) Ht). split; [lia | done].
    + rewrite Ho. cbn -[ops]. split; [lia | done].
    + rewrite Ho. unfold cost. cbn -[ops]. split; [lia | done].
    + unfold cost. split; [lia | done].
Qed.

Lemma step_shrinks tx y e y' :
  exchange_stage y -> bs_step tx y e = Some y' ->
  ((match e with EvPoll => 1 | _ => 0 end) + polls_left tx y' <= polls_left tx y + (match e with EvControl _ => 1 | _ => 0 end))%nat /\
  exchange_stage y'.
Proof using.
  intros Hst Hy. apply exchange_step_cases in Hy; [| by apply exchange_stage_cases].
  destruct Hy as [[_ (ms & Hms & -> & ->)] | [(w & -> & Hn & Hs & Hnow & Hc) | [(answer & -> & He & ->) | [-> Hp]]]].
  - split; [unfold polls_left; cbn; lia |]. unfold exchange_stage in *. cbn. destruct (bs_stage y); try done. lia.
  - apply (control_write_files _ _ _ _ y eq_refl Hn) in Hc as [Hb _]. unfold polls_left, exchange_stage in *. rewrite Hb, Hs, Hnow.
    split; [| done]. cbn [protocol_inbox with_inbox]. rewrite ops_app, length_app.
    assert (length (ops tx (files_message y (EvControl w))) <= 1)%nat; [| destruct (bs_stage y); lia].
    unfold files_message. rewrite Hn. destruct (if cw_accept w then cw_bytes w else None) as [bytes |]; [| cbn; lia].
    destruct (_ && _); [| cbn; lia]. destruct (StatusMessage_decode bytes); [cbn; lia |]. rewrite ops_cons.
    destruct (Message_decode bytes); [| cbn; lia]. case_bool_decide; cbn; lia.
  - split; [unfold polls_left; cbn -[ops]; lia | done].
  - apply poll_shrinks in Hp as [? ?]; [| done]. split; [lia | done].
Qed.

Lemma polls_bounded tx y es : exchange_stage y -> (polls tx y es <= polls_left tx y + controls es)%nat /\ exchange_stage (bs_run tx y es).
Proof using.
  revert y. induction es as [| e es IH]; intros y Hst; [cbn; split; [lia | done] |]. cbn [polls bs_run].
  destruct (bs_step tx y e) as [y' |] eqn:Ey; cbn -[polls polls_left bs_run].
  - apply step_shrinks in Ey as [Hle Hst']; [| done]. destruct (IH y' Hst') as [Hp Hr]. split; [| done].
    unfold controls in *. destruct e; cbn -[polls polls_left bs_run] in *; lia.
  - destruct (IH y Hst) as [Hp Hr]. split; [| done]. unfold controls in *. destruct e; cbn -[polls polls_left bs_run] in *; lia.
Qed.

(** After the window of a wait there is always something to do. *)
Lemma poll_ready tx y :
  exchange_stage y -> (forall r, bs_stage y <> Finished r) ->
  exists y', poll_coordinate tx (mkSession (bs_backend y) (bs_stage y) (bs_answer y) (bs_now y + PAIR_ADVERTISE_ACCEPT_WINDOW)) = Some y'.
Proof using.
  unfold exchange_stage, poll_coordinate. cbn. intros Hst Hne. destruct (bs_stage y) as [| | | [| [] code] | wanted critical dl wk code |]; try done; eauto.
  - unfold poll_wait. cbn. assert ((dl <=? bs_now y + PAIR_ADVERTISE_ACCEPT_WINDOW) = true) as -> by lia.
    destruct (wait_timeout critical (bs_backend y)) as [st b]. destruct (_ <? _); [eauto |].
    destruct (take_protocol tx (bs_backend y)) as [[op |] b'']; [| eauto]. repeat case_match; eauto.
  - by destruct (Hne r).
Qed.

Lemma exchange_finishes tx y : exchange_stage y -> exists n r, (n <= polls_left tx y)%nat /\
  bs_stage (bs_run tx y (concat (replicate n [EvTick PAIR_ADVERTISE_ACCEPT_WINDOW; EvPoll]))) = Finished r.
Proof using.
  remember (polls_left tx y) as k eqn:Ek. revert y Ek. induction (lt_wf k) as [k _ IH]. intros y -> Hst.
  destruct (bs_stage y) as [| | | code | wanted critical dl wk code | r] eqn:Es;
    try (unfold exchange_stage in Hst; rewrite Es in Hst; done).
  3: { exists 0%nat, r. split; [lia |]. done. }
  all: destruct (poll_ready tx y Hst) as [y' Hp]; [intros r; by rewrite Es |].
  all: set (y1 := mkSession _ _ _ _) in Hp; assert (Hst1 : exchange_stage y1)
    by (revert Hst; unfold exchange_stage, y1; cbn; rewrite Es; try done; unfold PAIR_ADVERTISE_ACCEPT_WINDOW; lia).
  all: assert (Ep : polls_left tx y1 = polls_left tx y) by done.
  all: pose proof (poll_shrinks tx y1 y' Hst1 Hp) as [Hlt Hst']; rewrite Ep in Hlt.
  all: destruct (IH _ Hlt y' eq_refl Hst') as (n & r & Hn & Hr); exists (S n), r; (split; [lia |]).
  all: cbn [replicate concat]; rewrite bs_run_app; rewrite <- Hr; f_equal; f_equal; cbn [bs_run bs_step]; cbn -[bs_step poll_coordinate];
    fold y1; cbn [bs_step bs_stage y1]; rewrite Es; fold y1.
  all: try (by rewrite Hp).
Qed.

(** ** The properties *)

(** C14: The commit point: once the desktop has shown the phone its [Commit], the only error [coordinate_v2] ends with is
    [ProtocolUncertain], the one error after which the command keeps the staged bond and its journal for
    recovery; whatever the phone writes and however long it takes. *)
Theorem coordinator_commit_point (tx : list Z) (t0 : Transaction) (y : Session) (es1 es2 : list bs_event) (e : PairError)
  (Ht0 : started tx t0) (Hy : exchanging tx t0 y)
  (Hshown : protocol_status (bs_backend (bs_run tx y es1)) = commit_message tx)
  (Hend : bs_stage (bs_run tx y (es1 ++ es2)) = Finished (Err e)) :
  e = ProtocolUncertain.
Proof using.
  rewrite bs_run_app in Hend. pose proof (commit_run tx t0 y es1 Ht0 (exchanging_commit _ _ _ Hy)) as Hc.
  pose proof (past_run tx t0 _ es2 Ht0 Hc (c_shown _ _ _ Hc Hshown)) as Hp. by rewrite Hend in Hp.
Qed.

(** A transaction on which the last two statements succeed is bonded. *)
Lemma exec_committed tx t t' : exec_stmts tx t [Remote OpCommitted; Local LCommitted] = Some t' ->
  PairTransaction.id t' = tx /\ phase t' = Bonded /\ committed t' = all_set.
Proof using.
  cbn [exec_stmts]. unfold Transaction_remote. cbn [m_transaction m_operation]. case_bool_decide as Hid; [| done]. cbn [negb].
  destruct t as [i r p caps conf prep comm]. cbn in Hid. subst i. cbn [Transaction_local].
  unfold Transaction_record_committed. destruct comm as [[] []], p; cbn; intros; repeat case_match; by simplify_eq.
Qed.

Lemma body_bonds tx t0 t : exec_stmts tx t0 coordinate_v2_body = Some t -> PairTransaction.id t = tx /\ phase t = Bonded /\ committed t = all_set.
Proof using.
  change coordinate_v2_body with (take 19 coordinate_v2_body ++ [Remote OpCommitted; Local LCommitted]). rewrite exec_app.
  destruct (exec_stmts tx t0 (take 19 coordinate_v2_body)) as [t1 |]; [apply exec_committed | done].
Qed.

(** C19: [coordinate_v2] succeeds only with the phone's part of the protocol, from whatever transaction it started: the messages for this transaction that the
    bound phone wrote begin, status queries aside, with its capability, its confirmation, its [Prepared], its
    acknowledgement of the commit and its [Committed], in this order; and the desktop's transaction after the run is this one, bonded, with both sides' commits
    recorded (and started anew, it is the transaction with every mark set). *)
Theorem coordinator_honest (tx : list Z) (t0 : Transaction) (y : Session) (es : list bs_event)
  (Hy : exchanging tx t0 y) (Hend : bs_stage (bs_run tx y es) = Finished (Ok tt)) :
  exists consumed rest t, ops tx (protocol_inbox (bs_backend y) ++ heard tx y es) = consumed ++ rest /\
    no_query consumed = [OpCapability; OpConfirm; OpPrepared; OpCommitAck; OpCommitted] /\
    protocol_transaction (bs_backend (bs_run tx y es)) = Some t /\
    PairTransaction.id t = tx /\ phase t = Bonded /\ committed t = all_set /\ (t0 = fresh tx -> t = bonded_tx tx).
Proof using.
  pose proof (exchange_run tx t0 _ y es (exchanging_inv _ _ _ Hy)) as [_ _ Hst]. rewrite Hend in Hst.
  destruct Hst as (Ht & [t Hx] & consumed & Hl & Hq). exists consumed, (ops tx (protocol_inbox (bs_backend (bs_run tx y es)))), t.
  rewrite ops_app. destruct (body_bonds tx t0 t Hx) as (Hi & Hp & Hc). split_and!; try done; [by rewrite Ht |].
  intros ->. rewrite exec_fresh in Hx. by injection Hx.
Qed.

(** An exchange ends: the polls of [coordinate_v2] that find something to do are bounded by 30,032, the messages in
    the inbox and the writes of the phone; and from every state of it, as many rounds of waiting and polling as are left bring a result. *)
Theorem coordinator_ends (tx : list Z) (y : Session) (es : list bs_event) (Hy : bs_stage y = Running coordinate_v2_body) :
  Z.of_nat (polls tx y es) <= 30032 + len (ops tx (protocol_inbox (bs_backend y))) + Z.of_nat (controls es) /\
  exists n r, (n <= polls_left tx (bs_run tx y es))%nat /\
    bs_stage (bs_run tx (bs_run tx y es) (concat (replicate n [EvTick PAIR_ADVERTISE_ACCEPT_WINDOW; EvPoll]))) = Finished r.
Proof using.
  assert (Hst : exchange_stage y) by (by unfold exchange_stage; rewrite Hy). destruct (polls_bounded tx y es Hst) as [Hp Hr].
  split; [| by apply exchange_finishes]. unfold polls_left in Hp. rewrite Hy in Hp.
  unfold cost, coordinate_v2_body in Hp. cbn [sum_list_with weight] in Hp.
  change (PAIR_ADVERTISE_ACCEPT_WINDOW / PROTOCOL_POLL + 3) with 6003 in Hp. unfold len. lia.
Qed.
End session.

Section terminal.
Context `{ED : Ed25519, HK : Hkdf, B3 : Blake3, CH : Chrono, TM : Toml, UM : Umask, TF : Tempfile, SJ : SerdeJson}.

(** What a session makes of [coordinate_v2]; a session that has not finished is one whose process was killed. *)
Definition session_outcome (y : Session) : io (result unit PairError) :=
  match bs_stage y with
  | Finished r => iret r
  | _ => fun w => (Killed, w)
  end.

Lemma touches_outcome S y : touches S (session_outcome y).
Proof using. unfold session_outcome. destruct (bs_stage y); try (by apply touches_ret); by intros w q _. Qed.

(** C34: The terminal's pairing command cannot pair: [initiate_lesc_with_peer] has already announced the capability which [coordinate_v2]
    announces again, and the transaction refuses it.  However the phone answers, the session never shows it a [Commit],
    and the command leaves the bonds and the keys as they were. *)
Theorem terminal_pairing_never_bonds (key : SigningKey) (tx : list Z) (minute start : Z) (es : list bs_event)
    (opts : PairOpts) (backend : PairBackend) (reader : list Z) (now : OffsetDateTime) (w : world)
  (Hcoord : coordinate_v2 backend tx = session_outcome (bs_run tx (bs_start key tx minute start) es)) :
  protocol_status (bs_backend (bs_run tx (bs_start key tx minute start) es)) <> commit_message tx /\
  ~ changed (active_trust (po_bond_dir opts)) (files w) (files (run_pair_with_io opts backend reader tx now w).2).
Proof.
  pose proof (session_never_bonds tx _ (session_run tx _ es (session_start key tx minute start))) as [Hne Hs]. split; [exact Hs |].
  intros Hch. apply run_changed in Hch as (chosen & outcome & _ & w' & Hch).
  apply coordinate_changed in Hch as (w2 & w3 & active & _ & Hc); [| rewrite Hcoord; apply touches_outcome].
  rewrite Hcoord in Hc. unfold session_outcome in Hc. destruct (bs_stage _) as [| | | | | r]; try done.
  injection Hc as -> _. by apply Hne.
Qed.
End terminal.

(** ** Sample sessions *)

Section samples.
Import ToyCrypto ToyCrates ToyTempfile.
#[local] Existing Instance toy_json.

Definition phone_addr : str := lit "AA:BB:CC:DD:EE:FF".
Definition says (op : Operation) : bs_event :=
  EvControl (mkWrite phone_addr true (Some (Message_encode (mkMessage sample_tx op)))).

(** An exchange on a transaction as it was set. *)
Definition fresh_exchange : Session :=
  mkSession (mkBluer sample_pubkey None [] (Some phone_addr) [] (Some sample_tx) (Some (fresh sample_tx))) (Running coordinate_v2_body) None 0.

Lemma fresh_exchanging : exchanging sample_tx (fresh sample_tx) fresh_exchange.
Proof using. by split. Qed.

Definition to_commit : list bs_event := map says [OpCapability; OpConfirm; OpPrepared] ++ replicate 18 EvPoll.
Definition silence : list bs_event := [EvPoll; EvTick PAIR_ADVERTISE_ACCEPT_WINDOW; EvPoll].

Lemma coordinator_commit_point_witness :
  ProtocolUncertain = ProtocolUncertain /\ bs_stage (bs_run sample_tx fresh_exchange (to_commit ++ silence)) = Finished (Err ProtocolUncertain).
Proof using.
  assert (Hend : bs_stage (bs_run sample_tx fresh_exchange (to_commit ++ silence)) = Finished (Err ProtocolUncertain)) by (vm_compute; reflexivity).
  split; [| exact Hend].
  apply (coordinator_commit_point sample_tx (fresh sample_tx) fresh_exchange to_commit silence ProtocolUncertain (or_introl eq_refl)
    fresh_exchanging); [vm_compute; reflexivity | exact Hend].
Defined.

(** The phone asks for the status in between. *)
Definition whole_exchange : list bs_event :=
  map says [OpCapability; OpStatusQuery; OpConfirm; OpPrepared; OpCommitAck; OpCommitted] ++ replicate 28 EvPoll.

Lemma coordinator_honest_witness :
  bs_stage (bs_run sample_tx fresh_exchange whole_exchange) = Finished (Ok tt) /\
  exists t, protocol_transaction (bs_backend (bs_run sample_tx fresh_exchange whole_exchange)) = Some t /\ phase t = Bonded /\ t = bonded_tx sample_tx.
Proof using.
  assert (Hend : bs_stage (bs_run sample_tx fresh_exchange whole_exchange) = Finished (Ok tt)) by (vm_compute; reflexivity).
  split; [exact Hend |].
  destruct (coordinator_honest sample_tx (fresh sample_tx) fresh_exchange whole_exchange fresh_exchanging Hend)
    as (consumed & rest & t & _ & _ & Ht & _ & Hp & _ & Hf). exists t. split; [exact Ht |]. split; [exact Hp | by apply Hf].
Defined.

Lemma coordinator_ends_witness :
  Z.of_nat (polls sample_tx fresh_exchange whole_exchange) <=
    30032 + len (ops sample_tx (protocol_inbox (bs_backend fresh_exchange))) + Z.of_nat (controls whole_exchange).
Proof using. apply (coordinator_ends sample_tx fresh_exchange whole_exchange). reflexivity. Defined.

(** The phone writes its key and offers its capability. *)
Definition terminal_session : list bs_event :=
  [EvRotate 2 true; EvPhone (mkPhone phone_addr true (Some sample_pubkey) true (lit "Pixel")); EvInitiate; says OpCapability; EvCoordinate] ++
  replicate 5 EvPoll.
Definition terminal_backend : PairBackend :=
  sample_backend (session_outcome (bs_run sample_tx (bs_start (ED := toy_ed25519) true sample_tx 1 0) terminal_session)).

Lemma terminal_pairing_never_bonds_witness :
  bs_stage (bs_run sample_tx (bs_start (ED := toy_ed25519) true sample_tx 1 0) terminal_session) = Finished (Err PairBackendError) /\
  protocol_status (bs_backend (bs_run sample_tx (bs_start (ED := toy_ed25519) true sample_tx 1 0) terminal_session)) <> commit_message sample_tx /\
  ~ changed (active_trust (po_bond_dir (sample_opts false))) (files (calm sample_site))
      (files (run_pair_with_io (sample_opts false) terminal_backend answer sample_tx sample_now (calm sample_site)).2).
Proof using.
  split; [vm_compute; reflexivity |].
  exact (terminal_pairing_never_bonds (ED := toy_ed25519) true sample_tx 1 0 terminal_session (sample_opts false) terminal_backend answer sample_now
    (calm sample_site) eq_refl).
Defined.
End samples.
