(* ===== verification/Persistent.v ===== *)
(** * The production peripheral

    Models [PersistentPeripheral] of crates/syauth-transport/src/peripheral.rs, the BlueZ implementation of the trait
    [Peripheral] (Peripheral.v): the GATT application it keeps registered, its advertisement, and for every peer the
    task that serves the peer's two characteristics.

    BlueZ and the phones are a script in the state: the outcomes of the registrations, advertisements and
    writes to come, and what the phones do in every tick of [TICK] milliseconds.  A method runs to its end while the ticks it
    waits for pass; the peers' tasks run at the beginning of a tick.  Only the sleeps and the wait for a response let ticks pass: how long writes, D-Bus calls
    and locks take is not modelled, so no bound on the duration of a method follows.  The links that a rebuild drops ([kick_connected_peers]) are part of what
    the phones do in the following ticks.  At most one application is registered at a time, and
    dropping it ends the streams of its characteristics.  The files other tools read (the challenge-ready token, the
    presence mark, the RSSI sample) are modelled by the existence of the first; the filtered RSSI value is not modelled. *)

From stdpp Require Import prelude list gmap strings.
From Stdlib Require Import ZArith Lia.
From S2P Require Import Prelude WireFrame Fs Bond PairTransaction PairEngine Peripheral PamService.

Definition TICK : Z := 10.
Definition PRESENCE_HEARTBEAT : list Z := lit "SYAUTH-PRESENCE-v1".
Definition RSSI_TELEMETRY_PREFIX : list Z := lit "SYAUTH-RSSI-v1:".
Definition RESPONSE_READ_BUF_BYTES : Z := 512.
Definition RESPONSE_BUFFER_DEPTH : Z := 8.
(** [Duration::from_secs(20)] and [Duration::from_millis(250)] of [notify_challenge] *)
Definition SUBSCRIPTION_WAIT : Z := 20000.
Definition SUBSCRIPTION_POLL : Z := 250.

(** ** Telemetry *)

Fixpoint digits_value (acc : Z) (s : str) : option Z :=
  match s with
  | [] => Some acc
  | c :: s => if (48 <=? c) && (c <=? 57) then digits_value (acc * 10 + (c - 48)) s else None
  end.

(** [str::parse::<i32>()] *)
Definition parse_i32 (s : str) : option Z :=
  let '(negative, ds) :=
    match s with
    | 45 :: ds => (true, ds)
    | 43 :: ds => (false, ds)
    | _ => (false, s)
    end in
  match ds with
  | [] => None
  | _ =>
      v ← digits_value 0 ds;
      let v := if negative then - v else v in
      if (- 2 ^ 31 <=? v) && (v <? 2 ^ 31) then Some v else None
  end.

Definition parse_rssi (bytes : list Z) : option Z :=
  text ← strip_prefix RSSI_TELEMETRY_PREFIX bytes;
  if negb (utf8 text) then None
  else
    value ← parse_i32 (concat (rev (drop_whitespace (rev (drop_whitespace (chars text))))));
    if (-127 <=? value) && (value <=? 0) then Some value else None.

(** ** The state *)

(** What the phone does to the characteristics of a peer's service. *)
Inductive phone_io :=
| Subscribes (marked : bool) (* to the challenge; whether the token could be written *)
| Unexpected (* a write to the challenge, a subscription to the response *)
| WriteRequest (accepted : bool)
| Bytes (r : option (list Z)) (room : bool). (* a read of the response's reader; room in the commit channel *)

Record PeerCharSet := mkChars {
  response_rx : list (list Z);
  notifier_slot : bool; (* a writer is cached *)
  task : bool;
  reader : bool;
  backlog : list phone_io; (* what the task has not taken from its streams *)
  pc_bond_key : list Z;
}.

Inductive service := PairService | PeerService (uuid : list Z).

#[global] Instance service_eq_dec : EqDecision service.
Proof. solve_decision. Defined.

(** What the radio will do. *)
Record Radio := mkRadio {
  serves : list bool;
  advertises : list bool;
  writes : list bool;
  ticks : list (list (str * phone_io));
}.

Record PersistentPeripheral := mkPersistent {
  app_handle : option (list service);
  adv_slot : option (gset (list Z));
  pair_watcher : bool;
  peers : gmap (list Z) PeerCharSet;
  revokes : list PairCommitRequest; (* sent into the commit channel *)
  notified : list (str * list Z); (* the frames written to a phone *)
  challenge_ready : bool;
  radio : Radio;
}.

Definition set_app (a : option (list service)) (s : PersistentPeripheral) : PersistentPeripheral :=
  mkPersistent a (adv_slot s) (pair_watcher s) (peers s) (revokes s) (notified s) (challenge_ready s) (radio s).
Definition set_adv (a : option (gset (list Z))) (s : PersistentPeripheral) : PersistentPeripheral :=
  mkPersistent (app_handle s) a (pair_watcher s) (peers s) (revokes s) (notified s) (challenge_ready s) (radio s).
Definition set_watcher (w : bool) (s : PersistentPeripheral) : PersistentPeripheral :=
  mkPersistent (app_handle s) (adv_slot s) w (peers s) (revokes s) (notified s) (challenge_ready s) (radio s).
Definition set_peers (p : gmap (list Z) PeerCharSet) (s : PersistentPeripheral) : PersistentPeripheral :=
  mkPersistent (app_handle s) (adv_slot s) (pair_watcher s) p (revokes s) (notified s) (challenge_ready s) (radio s).
Definition set_revokes (l : list PairCommitRequest) (s : PersistentPeripheral) : PersistentPeripheral :=
  mkPersistent (app_handle s) (adv_slot s) (pair_watcher s) (peers s) l (notified s) (challenge_ready s) (radio s).
Definition set_notified (l : list (str * list Z)) (s : PersistentPeripheral) : PersistentPeripheral :=
  mkPersistent (app_handle s) (adv_slot s) (pair_watcher s) (peers s) (revokes s) l (challenge_ready s) (radio s).
Definition set_ready (b : bool) (s : PersistentPeripheral) : PersistentPeripheral :=
  mkPersistent (app_handle s) (adv_slot s) (pair_watcher s) (peers s) (revokes s) (notified s) b (radio s).
Definition set_radio (r : Radio) (s : PersistentPeripheral) : PersistentPeripheral :=
  mkPersistent (app_handle s) (adv_slot s) (pair_watcher s) (peers s) (revokes s) (notified s) (challenge_ready s) r.

Definition set_entry (id : str) (e : PeerCharSet) (s : PersistentPeripheral) : PersistentPeripheral :=
  set_peers (<[id := e]> (peers s)) s.

(** The next outcome of a script; a script that has ended is all success. *)
Definition next_outcome (l : list bool) : bool * list bool :=
  match l with
  | [] => (true, [])
  | b :: l => (b, l)
  end.

Definition remove_challenge_ready_marker (s : PersistentPeripheral) : PersistentPeripheral := set_ready false s.

(** ** The task of a peer *)

(** A non-empty read of the response characteristic that belongs to the challenges. *)
Definition is_response (bytes : list Z) : bool :=
  negb (bool_decide (bytes = PRESENCE_HEARTBEAT)) && bool_decide (revoke_peer_id bytes = None) && bool_decide (parse_rssi bytes = None).

(** What one read returns of what was written. *)
Definition one_read (bytes : list Z) : list Z := take (Z.to_nat RESPONSE_READ_BUF_BYTES) bytes.

(** The task waits in [response_tx.send]: the buffer is full. *)
Definition blocked (e : PeerCharSet) (i : phone_io) : bool :=
  match i with
  | Bytes (Some bytes) _ =>
      reader e && negb (bool_decide (bytes = [])) && is_response (one_read bytes) && (RESPONSE_BUFFER_DEPTH <=? len (response_rx e))
  | _ => false
  end.

Definition revoke_request (id : list Z) : PairCommitRequest :=
  mkRequest Revoke id (replicate (Z.to_nat PAIR_PUBKEY_LEN) 0) (replicate (Z.to_nat PAIR_PUBKEY_LEN) 0) [].

(** A turn of the task's loop. *)
Definition handle_io (id : str) (e : PeerCharSet) (i : phone_io) (s : PersistentPeripheral) : PersistentPeripheral :=
  let keep r n rd := set_entry id (mkChars r n (task e) rd (tail (backlog e)) (pc_bond_key e)) s in
  match i with
  | Subscribes marked => set_ready marked (keep (response_rx e) true (reader e))
  | Unexpected => keep (response_rx e) (notifier_slot e) (reader e)
  | WriteRequest accepted => keep (response_rx e) (notifier_slot e) (if accepted then true else reader e)
  | Bytes r room =>
      if negb (reader e) then keep (response_rx e) (notifier_slot e) (reader e)
      else
        match r with
        | None | Some [] => keep (response_rx e) (notifier_slot e) false
        | Some bytes =>
            let bytes := one_read bytes in
            if bool_decide (bytes = PRESENCE_HEARTBEAT) then keep (response_rx e) (notifier_slot e) (reader e)
            else
              match revoke_peer_id bytes with
              | Some revoked =>
                  let s := keep (response_rx e) (notifier_slot e) (reader e) in
                  if room then set_revokes (revokes s ++ [revoke_request revoked]) s else s
              | None =>
                  match parse_rssi bytes with
                  | Some _ => keep (response_rx e) (notifier_slot e) (reader e)
                  | None => keep (response_rx e ++ [bytes]) (notifier_slot e) (reader e)
                  end
              end
        end
  end.

(** The streams of the service are open. *)
Definition served (uuid : list Z) (s : PersistentPeripheral) : bool :=
  match app_handle s with
  | Some services => bool_decide (PeerService uuid ∈ services)
  | None => false
  end.

Section peripheral.
Context `{HK : Hkdf}.

(** The task takes what is in its streams, until it waits for room. *)
Fixpoint run_task (fuel : nat) (id : str) (s : PersistentPeripheral) : PersistentPeripheral :=
  match fuel, peers s !! id with
  | S fuel, Some e =>
      match task e, backlog e with
      | true, i :: _ => if blocked e i then s else run_task fuel id (handle_io id e i s)
      | _, _ => s
      end
  | _, _ => s
  end.

(** The task at the end of its streams. *)
Definition end_task (id : str) (s : PersistentPeripheral) : PersistentPeripheral :=
  match peers s !! id with
  | Some e =>
      if task e && bool_decide (backlog e = []) && negb (served (peer_service_uuid (pc_bond_key e)) s)
      then remove_challenge_ready_marker (set_entry id (mkChars (response_rx e) false false false [] (pc_bond_key e)) s)
      else s
  | None => s
  end.

Definition task_turn (s : PersistentPeripheral) (id : str) : PersistentPeripheral :=
  end_task id (run_task (match peers s !! id with Some e => length (backlog e) | None => 0 end) id s).

(** What a phone does reaches the task whose service is registered. *)
Definition deliver (s : PersistentPeripheral) (x : str * phone_io) : PersistentPeripheral :=
  match peers s !! x.1 with
  | Some e =>
      if task e && served (peer_service_uuid (pc_bond_key e)) s
      then set_entry x.1 (mkChars (response_rx e) (notifier_slot e) (task e) (reader e) (backlog e ++ [x.2]) (pc_bond_key e)) s
      else s
  | None => s
  end.

Definition tick (s : PersistentPeripheral) : PersistentPeripheral :=
  let r := radio s in
  let s := set_radio (mkRadio (serves r) (advertises r) (writes r) (tail (ticks r))) s in
  let s := foldl deliver s (default [] (head (ticks r))) in
  foldl task_turn s (map_to_list (peers s)).*1.

Definition elapse (n : nat) (s : PersistentPeripheral) : PersistentPeripheral := Nat.iter n tick s.

(** ** Registration *)

Definition serve_gatt_application (services : list service) (s : PersistentPeripheral) : bool * PersistentPeripheral :=
  let r := radio s in
  let '(ok, rest) := next_outcome (serves r) in
  let s := set_radio (mkRadio rest (advertises r) (writes r) (ticks r)) s in
  (ok, if ok then set_app (Some services) s else s).

Definition rebuild_application (peer_services : list service) (s : PersistentPeripheral) : result unit PeripheralError * PersistentPeripheral :=
  let s := set_watcher false s in
  let s := set_app None s in
  let '(ok, s) := serve_gatt_application (PairService :: peer_services) s in
  if ok then (Ok tt, set_watcher true s) else (Err Backend, s).

(** A BlueZ that can be opened and powered, and a random generator that works. *)
Definition PersistentPeripheral_new (r : Radio) : result unit PeripheralError * PersistentPeripheral :=
  rebuild_application [] (mkPersistent None None false ∅ [] [] false r).

Definition build_and_register_peer (bond_key : list Z) (s : PersistentPeripheral) : result PeerCharSet PeripheralError * PersistentPeripheral :=
  let '(ok, s) := serve_gatt_application [PeerService (peer_service_uuid bond_key)] s in
  if ok then (Ok (mkChars [] false true false [] bond_key), s) else (Err Backend, s).

(** [abort] of the task of an entry *)
Definition abort_task (e : PeerCharSet) : PeerCharSet :=
  mkChars (response_rx e) (notifier_slot e) false (reader e) (backlog e) (pc_bond_key e).

Definition rebuild_peer_registration (id : str) (s : PersistentPeripheral) : result unit PeripheralError * PersistentPeripheral :=
  let s := remove_challenge_ready_marker s in
  match peers s !! id with
  | None => (Err (PUnknownPeer id), s)
  | Some e =>
      let s := set_entry id (abort_task e) s in
      let s := set_app None s in
      match build_and_register_peer (pc_bond_key e) s with
      | (Err err, s) => (Err err, s)
      | (Ok fresh, s) => (Ok tt, set_entry id fresh s)
      end
  end.

(** ** The methods of the trait *)

Definition persistent_add_peer (id : str) (bond_key : list Z) (s : PersistentPeripheral) : result unit PeripheralError * PersistentPeripheral :=
  match peers s !! id with
  | Some _ => (Err (PeerAlreadyAdded id), s)
  | None =>
      let s := set_app None s in
      match build_and_register_peer bond_key s with
      | (Err err, s) => (Err err, s)
      | (Ok fresh, s) => (Ok tt, set_entry id fresh s)
      end
  end.

Definition persistent_remove_peer (id : str) (s : PersistentPeripheral) : result unit PeripheralError * PersistentPeripheral :=
  match peers s !! id with
  | None => (Err (PUnknownPeer id), s)
  | Some _ => (Ok tt, set_app None (set_peers (delete id (peers s)) s))
  end.

Definition persistent_set_session_uuids (uuids : gset (list Z)) (s : PersistentPeripheral) : result unit PeripheralError * PersistentPeripheral :=
  let s := set_adv None s in
  let r := radio s in
  let '(ok, rest) := next_outcome (advertises r) in
  let s := set_radio (mkRadio (serves r) rest (writes r) (ticks r)) s in
  if ok then (Ok tt, set_adv (Some uuids) s) else (Err Backend, s).

(** [writer.write_all(frame)] *)
Definition write_frame_to (id : str) (frame : list Z) (s : PersistentPeripheral) : bool * PersistentPeripheral :=
  let r := radio s in
  let '(ok, rest) := next_outcome (writes r) in
  let s := set_radio (mkRadio (serves r) (advertises r) rest (ticks r)) s in
  (ok, if ok then set_notified (notified s ++ [(id, frame)]) s else s).

(** The wait for a new subscription: a look at the slot, and one after every sleep until the deadline. *)
Fixpoint await_subscription (polls : nat) (id : str) (s : PersistentPeripheral) : result unit PeripheralError * PersistentPeripheral :=
  match peers s !! id with
  | None => (Err (PUnknownPeer id), s)
  | Some e =>
      if notifier_slot e then (Ok tt, s)
      else
        match polls with
        | O => (Err Backend, s)
        | S polls => await_subscription polls id (elapse (Z.to_nat (SUBSCRIPTION_POLL / TICK)) s)
        end
  end.

(** The second attempt, after the application was registered anew. *)
Definition retry_challenge (id : str) (frame : list Z) (s : PersistentPeripheral) : result unit PeripheralError * PersistentPeripheral :=
  match rebuild_peer_registration id s with
  | (Err err, s) => (Err err, s)
  | (Ok _, s) =>
      match await_subscription (Z.to_nat (SUBSCRIPTION_WAIT / SUBSCRIPTION_POLL)) id s with
      | (Err err, s) => (Err err, s)
      | (Ok _, s) =>
          match peers s !! id with
          | None => (Err (PUnknownPeer id), s)
          | Some e =>
              if notifier_slot e
              then let '(ok, s) := write_frame_to id frame s in if ok then (Ok tt, s) else (Err Backend, s)
              else (Err Backend, s)
          end
      end
  end.

Definition persistent_notify_challenge (id : str) (frame : list Z) (s : PersistentPeripheral) : result unit PeripheralError * PersistentPeripheral :=
  match peers s !! id with
  | None => (Err (PUnknownPeer id), s)
  | Some e =>
      let e := mkChars [] (notifier_slot e) (task e) (reader e) (backlog e) (pc_bond_key e) in
      let s := set_entry id e s in
      if notifier_slot e then
        let '(ok, s) := write_frame_to id frame s in
        if ok then (Ok tt, s)
        else
          let s := remove_challenge_ready_marker s in
          retry_challenge id frame (set_entry id (mkChars [] false (task e) (reader e) (backlog e) (pc_bond_key e)) s)
      else retry_challenge id frame (remove_challenge_ready_marker s)
  end.

(** [rx.recv()] until the deadline; the sender of the entry keeps the channel open. *)
Fixpoint await_response (polls : nat) (id : str) (s : PersistentPeripheral) : option (list Z) * PersistentPeripheral :=
  match peers s !! id with
  | None => (None, s)
  | Some e =>
      match response_rx e, polls with
      | bytes :: rx, _ => (Some bytes, set_entry id (mkChars rx (notifier_slot e) (task e) (reader e) (backlog e) (pc_bond_key e)) s)
      | [], O => (None, s)
      | [], S polls => await_response polls id (tick s)
      end
  end.

Definition persistent_wait_for_response (id : str) (deadline : Z) (s : PersistentPeripheral) : result (list Z) PeripheralError * PersistentPeripheral :=
  match peers s !! id with
  | None => (Err (PUnknownPeer id), s)
  | Some _ =>
      match await_response (Z.to_nat (deadline / TICK)) id s with
      | (Some bytes, s) => (Ok bytes, s)
      | (None, s) => (Err (ResponseTimeout id deadline), s)
      end
  end.

(** The keys of the peers, as the trait speaks of them. *)
Definition peer_keys (s : PersistentPeripheral) : gmap (list Z) (list Z) := pc_bond_key <$> peers s.

#[export] Instance Persistent : Peripheral := {|
  PState := PersistentPeripheral;
  add_peer := persistent_add_peer;
  remove_peer := persistent_remove_peer;
  set_session_uuids := persistent_set_session_uuids;
  notify_challenge := persistent_notify_challenge;
  wait_for_response := persistent_wait_for_response;
  registered := peer_keys;
  on_air s := default ∅ (adv_slot s);
|}.

(** ** What the tasks leave alone *)

Record calmly (s s' : PersistentPeripheral) : Prop := {
  q_app : app_handle s' = app_handle s;
  q_adv : adv_slot s' = adv_slot s;
  q_watcher : pair_watcher s' = pair_watcher s;
  q_keys : peer_keys s' = peer_keys s;
  q_notified : notified s' = notified s;
}.

#[global] Instance calmly_preorder : PreOrder calmly.
Proof using.
  split; [by split |]. intros s1 s2 s3 [A1 B1 C1 D1 E1] [A2 B2 C2 D2 E2]. split; congruence.
Qed.

Lemma keys_entry id e e' s : peers s !! id = Some e -> pc_bond_key e' = pc_bond_key e -> peer_keys (set_entry id e' s) = peer_keys s.
Proof using.
  intros He Hk. unfold peer_keys. cbn. rewrite fmap_insert, Hk. apply insert_id. by rewrite lookup_fmap, He.
Qed.

Lemma calmly_entry id e e' s : peers s !! id = Some e -> pc_bond_key e' = pc_bond_key e -> calmly s (set_entry id e' s).
Proof using. intros He Hk. split; try done. by apply (keys_entry id e). Qed.

Lemma calmly_handle id e i s : peers s !! id = Some e -> calmly s (handle_io id e i s).
Proof using.
  intros He. unfold handle_io.
  assert (Hk : forall r n rd, calmly s (set_entry id (mkChars r n (task e) rd (tail (backlog e)) (pc_bond_key e)) s))
    by (intros; by apply (calmly_entry id e)).
  destruct i as [marked | | accepted | r room]; [| apply Hk | apply Hk |].
  - etrans; [apply (Hk (response_rx e) true (reader e)) | by split].
  - destruct (negb (reader e)); [apply Hk |]. destruct r as [[| b bytes] |]; [apply Hk | | apply Hk].
    destruct (bool_decide _); [apply Hk |]. destruct (revoke_peer_id _) as [revoked |].
    + destruct room; [| apply Hk]. etrans; [apply (Hk (response_rx e) (notifier_slot e) (reader e)) | by split].
    + destruct (parse_rssi _); apply Hk.
Qed.

Lemma calmly_run_task fuel id s : calmly s (run_task fuel id s).
Proof using.
  revert s. induction fuel as [| fuel IH]; intros s; [done |]. cbn [run_task]. destruct (peers s !! id) as [e |] eqn:He; [| done].
  destruct (task e); [| done]. destruct (backlog e) as [| i l]; [done |]. destruct (blocked e i); [done |].
  etrans; [by apply calmly_handle | apply IH].
Qed.

Lemma calmly_turn s id : calmly s (task_turn s id).
Proof using.
  unfold task_turn. set (fuel := match _ with Some e => _ | None => _ end). etrans; [apply (calmly_run_task fuel id) |].
  unfold end_task. destruct (peers (run_task fuel id s) !! id) as [e |] eqn:He; [| done].
  destruct (task e && _ && _); [| done]. etrans; [by apply (calmly_entry id e (mkChars (response_rx e) false false false [] (pc_bond_key e))) | by split].
Qed.

Lemma calmly_deliver s x : calmly s (deliver s x).
Proof using.
  unfold deliver. destruct (peers s !! x.1) as [e |] eqn:He; [| done]. destruct (task e && _); [| done]. by apply (calmly_entry x.1 e).
Qed.

Lemma calmly_foldl {A} (f : PersistentPeripheral -> A -> PersistentPeripheral) l s :
  (forall s x, calmly s (f s x)) -> calmly s (foldl f s l).
Proof using. intros Hf. revert s. induction l as [| x l IH]; intros s; [done |]. cbn. etrans; [apply Hf | apply IH]. Qed.

Lemma calmly_tick s : calmly s (tick s).
Proof using.
  unfold tick. etrans; [| apply calmly_foldl, calmly_turn]. etrans; [| apply calmly_foldl, calmly_deliver]. by split.
Qed.

Lemma calmly_elapse n s : calmly s (elapse n s).
Proof using. induction n as [| n IH]; [done |]. cbn. etrans; [exact IH | apply calmly_tick]. Qed.

Lemma calmly_await polls id s : calmly s (await_subscription polls id s).2.
Proof using.
  revert s. induction polls as [| polls IH]; intros s; cbn [await_subscription]; destruct (peers s !! id) as [e |]; try done;
    destruct (notifier_slot e); try done. etrans; [apply calmly_elapse | apply IH].
Qed.

Lemma calmly_response polls id s : calmly s (await_response polls id s).2.
Proof using.
  revert s. induction polls as [| polls IH]; intros s; cbn [await_response]; destruct (peers s !! id) as [e |] eqn:He; try done;
    destruct (response_rx e) as [| bytes rx]; try done; try (by apply (calmly_entry id e)). etrans; [apply calmly_tick | apply IH].
Qed.

(** ** Registrations and writes *)

Lemma serve_spec services s ok s' :
  serve_gatt_application services s = (ok, s') ->
  app_handle s' = (if ok then Some services else app_handle s) /\ peers s' = peers s /\ adv_slot s' = adv_slot s /\
  notified s' = notified s /\ ticks (radio s') = ticks (radio s).
Proof using. unfold serve_gatt_application. destruct (next_outcome _) as [[] rest]; intros [= <- <-]; done. Qed.

Lemma build_spec key s r s' :
  build_and_register_peer key s = (r, s') ->
  peers s' = peers s /\ adv_slot s' = adv_slot s /\ notified s' = notified s /\ ticks (radio s') = ticks (radio s) /\
  match r with
  | Ok fresh => fresh = mkChars [] false true false [] key /\ app_handle s' = Some [PeerService (peer_service_uuid key)]
  | Err e => e = Backend /\ app_handle s' = app_handle s
  end.
Proof using.
  unfold build_and_register_peer. destruct (serve_gatt_application _ s) as [ok s1] eqn:E. apply serve_spec in E as (Ha & Hp & Hd & Hn & Ht).
  destruct ok; intros [= <- <-]; done.
Qed.

Lemma write_spec id frame s ok s' :
  write_frame_to id frame s = (ok, s') ->
  peers s' = peers s /\ app_handle s' = app_handle s /\ adv_slot s' = adv_slot s /\ ticks (radio s') = ticks (radio s) /\
  notified s' = notified s ++ (if ok then [(id, frame)] else []).
Proof using.
  unfold write_frame_to. destruct (next_outcome _) as [[] rest]; intros [= <- <-]; cbn; split_and!; try done. by rewrite app_nil_r.
Qed.

(** The application holds the service of at most one peer, and nothing else. *)
Definition one_service (s : PersistentPeripheral) : Prop :=
  match app_handle s with
  | Some services => exists uuid, services = [PeerService uuid]
  | None => True
  end.

Lemma rebuild_peer_spec id s r s' :
  rebuild_peer_registration id s = (r, s') ->
  peer_keys s' = peer_keys s /\ adv_slot s' = adv_slot s /\ notified s' = notified s /\ ticks (radio s') = ticks (radio s) /\
  (peers s !! id <> None -> one_service s').
Proof using.
  unfold rebuild_peer_registration. cbn [remove_challenge_ready_marker set_ready peers].
  destruct (peers s !! id) as [e |] eqn:He; [| intros [= <- <-]; done].
  destruct (build_and_register_peer _ _) as [[fresh | err] s1] eqn:E; apply build_spec in E as (Hp & Hd & Hn & Ht & Hx); intros [= <- <-].
  - destruct Hx as [-> Ha]. split_and!; try done.
    + unfold peer_keys. cbn. rewrite Hp. cbn. rewrite insert_insert_eq, fmap_insert. apply insert_id. by rewrite lookup_fmap, He.
    + intros _. unfold one_service. cbn. rewrite Ha. by eexists.
  - destruct Hx as [-> Ha]. split_and!; try done.
    + unfold peer_keys. rewrite Hp. cbn. rewrite fmap_insert. apply insert_id. by rewrite lookup_fmap, He.
    + intros _. unfold one_service. by rewrite Ha.
Qed.

Lemma retry_spec id frame s r s' :
  retry_challenge id frame s = (r, s') ->
  peer_keys s' = peer_keys s /\ adv_slot s' = adv_slot s /\ notified s' = notified s ++ (if is_ok r then [(id, frame)] else []) /\
  (peers s !! id <> None -> one_service s').
Proof using.
  unfold retry_challenge. destruct (rebuild_peer_registration id s) as [[u | err] s1] eqn:Er; apply rebuild_peer_spec in Er as (Hk & Hd & Hn & _ & Ho).
  2: { intros [= <- <-]. split_and!; try done. by rewrite app_nil_r. }
  pose proof (calmly_await (Z.to_nat (SUBSCRIPTION_WAIT / SUBSCRIPTION_POLL)) id s1) as [Qa Qd _ Qk Qn].
  destruct (await_subscription _ id s1) as [r2 s2]. cbn in *. unfold one_service in *.
  assert (Hfail : forall err : PeripheralError, (Err err, s2) = (r, s') -> peer_keys s' = peer_keys s /\ adv_slot s' = adv_slot s /\
    notified s' = notified s ++ (if is_ok r then [(id, frame)] else []) /\ (peers s !! id <> None -> one_service s')).
  { intros err [= <- <-]. cbn. rewrite app_nil_r. split_and!; try congruence. unfold one_service. by rewrite Qa. }
  destruct r2 as [u2 | err]; [| apply Hfail]. destruct (peers s2 !! id) as [e |] eqn:He; [| apply Hfail].
  destruct (notifier_slot e); [| apply Hfail]. destruct (write_frame_to id frame s2) as [ok s3] eqn:Ew.
  apply write_spec in Ew as (Wp & Wa & Wd & _ & Wn). unfold one_service, peer_keys in *.
  destruct ok; intros [= <- <-]; cbn; rewrite Wp, Wa, Wd, Wn, Qa, Qd, Qk, Qn, Hd, Hn, Hk; by split_and!.
Qed.

Lemma notify_spec id frame s r s' :
  persistent_notify_challenge id frame s = (r, s') ->
  peer_keys s' = peer_keys s /\ adv_slot s' = adv_slot s /\ notified s' = notified s ++ (if is_ok r then [(id, frame)] else []) /\
  (peers s !! id = None -> r = Err (PUnknownPeer id)) /\ (one_service s -> one_service s').
Proof using.
  unfold persistent_notify_challenge. destruct (peers s !! id) as [e |] eqn:He; [| intros [= <- <-]; by rewrite app_nil_r].
  assert (Hk : forall e', pc_bond_key e' = pc_bond_key e -> peer_keys (set_entry id e' s) = peer_keys s) by (intros e'; by apply keys_entry).
  destruct (notifier_slot _) eqn:En.
  - destruct (write_frame_to id frame _) as [ok s1] eqn:Ew. apply write_spec in Ew as (Wp & Wa & Wd & _ & Wn).
    destruct ok.
    + intros [= <- <-]. unfold peer_keys, one_service. rewrite Wp, Wa, Wd, Wn. split_and!; try done. by apply Hk.
    + intros Hr. apply retry_spec in Hr as (Rk & Rd & Rn & Ro). cbn in Rd, Rn, Ro. rewrite Wn, app_nil_r in Rn. rewrite Rk, Rd, Wd.
      split_and!; try done.
      * unfold peer_keys. cbn. rewrite Wp. cbn. rewrite insert_insert_eq, fmap_insert. apply insert_id. by rewrite lookup_fmap, He.
      * intros _. apply Ro. by rewrite lookup_insert_eq.
  - intros Hr. apply retry_spec in Hr as (Rk & Rd & Rn & Ro). rewrite Rk, Rd. split_and!; try done; [by apply Hk |].
    intros _. apply Ro. cbn. by rewrite lookup_insert_eq.
Qed.

#[export] Instance Persistent_laws : PeripheralLaws Persistent.
Proof using.
  split; cbn [registered add_peer remove_peer set_session_uuids notify_challenge wait_for_response on_air Persistent PState].
  - intros id key s [k Hk]. unfold peer_keys in Hk. rewrite lookup_fmap in Hk. unfold persistent_add_peer. by destruct (peers s !! id).
  - intros id key s r s'. unfold persistent_add_peer. destruct (peers s !! id) eqn:He; [by intros [= <- <-] |].
    destruct (build_and_register_peer key _) as [[fresh | err] s1] eqn:E; apply build_spec in E as (Hp & _ & _ & _ & Hx); intros [= <- <-]; unfold peer_keys; cbn.
    + destruct Hx as [-> _]. by rewrite Hp, fmap_insert.
    + by rewrite Hp.
  - intros id s Hs. unfold peer_keys in Hs. rewrite lookup_fmap in Hs. unfold persistent_remove_peer. by destruct (peers s !! id).
  - intros id s r s'. unfold persistent_remove_peer. destruct (peers s !! id); intros [= <- <-]; [| done]. unfold peer_keys. cbn. by rewrite fmap_delete.
  - intros uuids s r s'. unfold persistent_set_session_uuids. destruct (next_outcome _) as [[] rest]; intros [= <- <-]; done.
  - intros id frame s r s' Hr. apply notify_spec in Hr as (Hk & _ & _ & Hu & _). split; [done |]. intros Hs. apply Hu.
    unfold peer_keys in Hs. rewrite lookup_fmap in Hs. by destruct (peers s !! id).
  - intros id deadline s r s'. unfold persistent_wait_for_response. pose proof (calmly_response (Z.to_nat (deadline / TICK)) id s) as [_ _ _ Qk _].
    unfold peer_keys at 3. rewrite lookup_fmap. destruct (peers s !! id) as [e |]; [| by intros [= <- <-]].
    destruct (await_response _ id s) as [[bytes |] s1]; intros [= <- <-]; done.
Qed.

(** ** Sequences of calls *)

Inductive call :=
| CAdd (id : str) (key : list Z)
| CRemove (id : str)
| CSession (uuids : gset (list Z))
| CNotify (id : str) (frame : list Z)
| CWait (id : str) (deadline : Z)
| CTick.

Definition perform (s : PersistentPeripheral) (c : call) : PersistentPeripheral :=
  match c with
  | CAdd id key => (persistent_add_peer id key s).2
  | CRemove id => (persistent_remove_peer id s).2
  | CSession uuids => (persistent_set_session_uuids uuids s).2
  | CNotify id frame => (persistent_notify_challenge id frame s).2
  | CWait id deadline => (persistent_wait_for_response id deadline s).2
  | CTick => tick s
  end.

Lemma one_service_add id key s : one_service s -> one_service (persistent_add_peer id key s).2.
Proof using.
  unfold persistent_add_peer. destruct (peers s !! id); [done |]. intros _.
  destruct (build_and_register_peer key _) as [[fresh | err] s1] eqn:E; apply build_spec in E as (_ & _ & _ & _ & _ & Ha); unfold one_service; cbn; rewrite Ha; cbn; eauto.
Qed.

Lemma one_service_perform s c : one_service s -> one_service (perform s c).
Proof using.
  intros Hs. destruct c as [id key | id | uuids | id frame | id deadline |]; cbn [perform].
  - by apply one_service_add.
  - unfold persistent_remove_peer. by destruct (peers s !! id).
  - unfold persistent_set_session_uuids. by destruct (next_outcome _) as [[] rest].
  - destruct (persistent_notify_challenge id frame s) as [r s'] eqn:E. apply notify_spec in E as (_ & _ & _ & _ & Ho). auto.
  - unfold persistent_wait_for_response. pose proof (calmly_response (Z.to_nat (deadline / TICK)) id s) as [Qa _ _ _ _].
    destruct (peers s !! id); [| done]. destruct (await_response _ id s) as [[bytes |] s1]; unfold one_service in *; cbn in *; by rewrite Qa.
  - unfold one_service. by rewrite (q_app _ _ (calmly_tick s)).
Qed.

(** ** The properties *)

(** A challenge is written to the phone exactly once: [notify_challenge] returns [Ok] after it wrote the frame to the peer's
    subscription once, the retry after a dead subscription included, and an error leaves nothing written; the peers, their keys and the advertisement stay as they were. *)
Theorem notify_writes_once (id : str) (frame : list Z) (s s' : PersistentPeripheral) (r : result unit PeripheralError)
  (Hr : persistent_notify_challenge id frame s = (r, s')) :
  notified s' = notified s ++ (if is_ok r then [(id, frame)] else []) /\ peer_keys s' = peer_keys s /\ adv_slot s' = adv_slot s /\
  (peers s !! id = None -> r = Err (PUnknownPeer id)).
Proof using. apply notify_spec in Hr as (Hk & Hd & Hn & Hu & _). by split_and!. Qed.

(** Only the peer that was registered last is served: after a peer has been added, whatever calls follow, the
    registered application holds the service of one peer or there is none; the pair service, which
    the daemon registers at its start, is never served again. *)
Theorem pair_service_lost (id : str) (key : list Z) (s s' : PersistentPeripheral) (calls : list call)
  (Hadd : persistent_add_peer id key s = (Ok tt, s')) :
  let s'' := foldl perform s' calls in
  one_service s'' /\ forall services, app_handle s'' = Some services -> PairService ∉ services.
Proof using.
  assert (H : one_service (foldl perform s' calls)).
  { assert (H0 : one_service s').
    { revert Hadd. unfold persistent_add_peer. destruct (peers s !! id); [done |].
      destruct (build_and_register_peer key _) as [[fresh | err] s1] eqn:E; [| done]. apply build_spec in E as (_ & _ & _ & _ & _ & Ha).
      intros [= <-]. unfold one_service. cbn. rewrite Ha. by eexists. }
    clear Hadd. revert s' H0. induction calls as [| c calls IH]; intros s' H0; [done |]. apply IH. by apply one_service_perform. }
  split; [exact H |]. intros services Hs. unfold one_service in H. rewrite Hs in H. destruct H as [uuid ->]. set_solver.
Qed.

(** A revocation is not bound to the phone that sends it: the task of any peer turns a [Revoke] frame for any identifier into a
    request to revoke that one. *)
Theorem revoke_for_any_peer (id : str) (victim : list Z) (e : PeerCharSet) (s : PersistentPeripheral)
  (Hv : arr 16 victim) (Hr : reader e = true) :
  revokes (handle_io id e (Bytes (Some (Message_encode (mkMessage victim OpRevoke))) true) s) = revokes s ++ [revoke_request victim].
Proof using.
  assert (Hl : len (Message_encode (mkMessage victim OpRevoke)) = 18) by (by apply len_Message_encode).
  assert (Ho : one_read (Message_encode (mkMessage victim OpRevoke)) = Message_encode (mkMessage victim OpRevoke)).
  { unfold one_read. apply take_ge. unfold len in Hl. unfold RESPONSE_READ_BUF_BYTES. lia. }
  assert (Hd : revoke_peer_id (Message_encode (mkMessage victim OpRevoke)) = Some victim).
  { unfold revoke_peer_id. by rewrite Message_decode_encode. }
  unfold handle_io. rewrite Hr. cbn [negb]. destruct (Message_encode (mkMessage victim OpRevoke)) as [| b bytes] eqn:Em; [done |].
  rewrite Ho. rewrite bool_decide_false; [by rewrite Hd |]. intros E. rewrite E in Em. by injection Em.
Qed.

(** A signature reaches the challenge that waits for it: 64 bytes that do not begin like an RSSI sample are taken for nothing else, and
    the next [wait_for_response] returns them if no response came before them. *)
Theorem signature_delivered (id : str) (sig : list Z) (room : bool) (deadline : Z) (e : PeerCharSet) (s : PersistentPeripheral)
  (Hl : len sig = SIGNATURE_LEN) (Hrssi : strip_prefix RSSI_TELEMETRY_PREFIX sig = None) (Hr : reader e = true) :
  let s' := handle_io id e (Bytes (Some sig) room) s in
  revokes s' = revokes s /\ (exists e', peers s' !! id = Some e' /\ response_rx e' = response_rx e ++ [sig]) /\
  (response_rx e = [] -> (persistent_wait_for_response id deadline s').1 = Ok sig).
Proof using.
  cbv zeta. unfold len, SIGNATURE_LEN in Hl.
  assert (Ho : one_read sig = sig) by (apply take_ge; unfold RESPONSE_READ_BUF_BYTES; lia).
  assert (Hp : sig <> PRESENCE_HEARTBEAT) by (intros ->; by vm_compute in Hl).
  assert (Hd : revoke_peer_id sig = None).
  { unfold revoke_peer_id, Message_decode. assert (len sig =? MESSAGE_LEN = false) as -> by (unfold len, MESSAGE_LEN; lia). done. }
  assert (Hs : parse_rssi sig = None) by (unfold parse_rssi; by rewrite Hrssi).
  unfold handle_io. rewrite Hr. cbn [negb]. destruct sig as [| b sig']; [done |]. rewrite Ho, bool_decide_false, Hd, Hs by done.
  set (e' := mkChars _ _ _ _ _ _). assert (He : peers (set_entry id e' s) !! id = Some e') by apply lookup_insert_eq.
  split; [done |]. split; [by exists e' |]. intros Hq. unfold persistent_wait_for_response. rewrite He.
  destruct (Z.to_nat (deadline / TICK)); cbn [await_response]; rewrite He; unfold e' at 1; cbn [response_rx]; by rewrite Hq.
Qed.
End peripheral.

(** ** A sample radio *)

Section samples.
Import ToyCrypto ToyCrates.

Definition desk_phone : str := lit "phone".
Definition desk_tablet : str := lit "tablet".
Definition desk_key : list Z := replicate 32 1.
Definition desk_sig : list Z := replicate 64 9.

(** The phone subscribes; later its subscription is dead, and it subscribes again after the application was registered anew; then
    it answers. *)
Definition desk_radio : Radio :=
  mkRadio [] [] [false] ([[(desk_phone, Subscribes true)]] ++ replicate 30 [] ++ [[(desk_phone, Subscribes true)]] ++ replicate 18 [] ++
    [[(desk_phone, WriteRequest true); (desk_phone, Bytes (Some desk_sig) true)]]).
Definition desk_start : PersistentPeripheral := (PersistentPeripheral_new desk_radio).2.
Definition desk_ready : PersistentPeripheral := foldl perform desk_start [CAdd desk_phone desk_key; CTick].
Definition desk_notified : PersistentPeripheral := perform desk_ready (CNotify desk_phone [1; 2; 3]).

Lemma notify_writes_once_witness :
  (persistent_notify_challenge desk_phone [1; 2; 3] desk_ready).1 = Ok tt /\
  notified desk_notified = notified desk_ready ++ [(desk_phone, [1; 2; 3])] /\
  (persistent_wait_for_response desk_phone 1000 desk_notified).1 = Ok desk_sig.
Proof using.
  assert (Hr : persistent_notify_challenge desk_phone [1; 2; 3] desk_ready = (Ok tt, desk_notified)) by (vm_compute; reflexivity).
  split; [by rewrite Hr |]. split; [| vm_compute; reflexivity].
  destruct (notify_writes_once desk_phone [1; 2; 3] desk_ready desk_notified (Ok tt) Hr) as [H _]. exact H.
Defined.

Lemma pair_service_lost_witness :
  app_handle desk_start = Some [PairService] /\
  let s'' := foldl perform (perform desk_start (CAdd desk_phone desk_key)) [CAdd desk_tablet (replicate 32 2); CRemove desk_phone] in
  one_service s'' /\ forall services, app_handle s'' = Some services -> PairService ∉ services.
Proof using.
  split; [vm_compute; reflexivity |].
  apply (pair_service_lost desk_phone desk_key desk_start (perform desk_start (CAdd desk_phone desk_key))
    [CAdd desk_tablet (replicate 32 2); CRemove desk_phone]). vm_compute. reflexivity.
Defined.

Definition desk_reader : PeerCharSet := mkChars [] true true true [] desk_key.

Lemma revoke_for_any_peer_witness :
  revokes (handle_io desk_phone desk_reader (Bytes (Some (Message_encode (mkMessage (replicate 16 5) OpRevoke))) true) desk_ready) =
  revokes desk_ready ++ [revoke_request (replicate 16 5)].
Proof using. apply (revoke_for_any_peer desk_phone (replicate 16 5) desk_reader desk_ready); [decide_now | reflexivity]. Defined.

Lemma signature_delivered_witness :
  let s' := handle_io desk_phone desk_reader (Bytes (Some desk_sig) true) desk_ready in
  revokes s' = revokes desk_ready /\ (exists e', peers s' !! desk_phone = Some e' /\ response_rx e' = response_rx desk_reader ++ [desk_sig]) /\
  (response_rx desk_reader = [] -> (persistent_wait_for_response desk_phone 20000 s').1 = Ok desk_sig).
Proof using. apply (signature_delivered desk_phone desk_sig true 20000 desk_reader desk_ready); reflexivity. Defined.
End samples.
