(* ===== verification/Diagnostics.v ===== *)
(** * The commands that only look

    Models what [syauth list], [syauth status] and [syauth doctor] read and decide: from crates/syauth-cli/src/list.rs the table of the
    bonds, from status.rs the reader of the PAM module's log, from doctor.rs the probes
    and their summary.  Nothing here writes to the disk.

    A log is read as a whole: an error in the middle of reading is an error of the read.  The texts that a
    failing probe of [doctor] adds to its reason are not modelled, nor is its JSON
    form.  What [status] prints and its watch loop are in StatusCmd.v. *)

From stdpp Require Import prelude list gmap strings sorting.
From Stdlib Require Import ZArith Lia.
From S2P Require Import Prelude WireFrame Fs Bond PairRecovery AuditTrail Rpc Server Pam Lock Mobile PamService PairCli UnlockRequest.

(** ** list.rs *)

Definition LIST_FIELD_SEP : Z := 9.
Definition LIST_EMPTY_HINT : str := lit "(no bonds; run `syauth pair` to add one)".

Definition render_status (status : BondStatus) : str :=
  match status with
  | StBonded => lit "bonded"
  | StRevoked reason => lit "revoked:" ++ reason
  end.

Section list.
Context `{CH : Chrono}.

Definition render_row (b : Bond) : str :=
  let when := default (lit "?") (rfc3339_format (created_at b)) in
  peer_id b ++ [LIST_FIELD_SEP] ++ name b ++ [LIST_FIELD_SEP] ++ render_status (status b) ++ [LIST_FIELD_SEP] ++ when ++ [10].

Definition render_list_to (store : BondStore) : str :=
  match BondStore_list store with
  | [] => LIST_EMPTY_HINT ++ [10]
  | bonds => concat (map render_row bonds)
  end.

Context `{B3 : Blake3, TM : Toml, UM : Umask}.

(** What the command prints. *)
Definition run_list (d : path) : io (result str PairError) :=
  let!? store := imap_err PairBond (BondStore_load (bonds_path d)) in
  iret (Ok (render_list_to store)).
End list.

(** ** status.rs *)

Definition LAST_UNLOCK_LOG_FILENAME : str := lit "last.log".

Record LastUnlockEntry := mkEntry { le_timestamp : str; le_outcome : str; le_peer_id : str }.

#[global] Instance LastUnlockEntry_eq_dec : EqDecision LastUnlockEntry.
Proof. solve_decision. Defined.

Inductive LastUnlockView :=
| NoEntries
| Entry (e : LastUnlockEntry)
| Unparseable (raw : str).

Inductive StatusError := SBond (e : BondError) | SIo (k : ErrorKind) | SJson (message : str).

(** [u8::is_ascii_whitespace] *)
Definition ascii_whitespace (c : Z) : bool := (c =? 32) || (c =? 9) || (c =? 10) || (c =? 12) || (c =? 13).

(** [str::split_ascii_whitespace] *)
Fixpoint words_from (cur : str) (s : str) : list str :=
  let flush := match cur with [] => [] | _ => [cur] end in
  match s with
  | [] => flush
  | c :: s => if ascii_whitespace c then flush ++ words_from [] s else words_from (cur ++ [c]) s
  end.

Definition split_ascii_whitespace (s : str) : list str := words_from [] s.

(** [line.trim_end_matches(['\n', '\r'])] *)
Fixpoint drop_newlines (s : str) : str :=
  match s with
  | c :: s' => if (c =? 10) || (c =? 13) then drop_newlines s' else s
  | [] => []
  end.

Definition trim_newlines (s : str) : str := rev (drop_newlines (rev s)).

Record StatusOpts := mkStatusOpts {
  so_adapter : str;
  so_bond_dir : path;
  so_last_log : option path;
  so_socket : option str;
  so_watch : bool;
  so_json : bool;
}.

Inductive AdapterState := Powered | AdapterDown | AdapterAbsent.

Record StatusSnapshot := mkSnapshot {
  sn_adapter : str;
  sn_adapter_state : AdapterState;
  sn_advertising : bool;
  sn_bonds_count : Z;
  sn_last_unlock : LastUnlockView;
  sn_last_successful_unlock : option LastUnlockEntry;
}.

Section status.
Context `{CH : Chrono}.

Definition parse_last_log_line (line : str) : option LastUnlockEntry :=
  match split_ascii_whitespace (trim_newlines line) with
  | [ts; outcome; peer] =>
      if negb (bool_decide (outcome = lit "success")) && negb (bool_decide (outcome = lit "failure")) then None
      else match rfc3339_parse ts with
           | Some _ => Some (mkEntry ts outcome peer)
           | None => None
           end
  | _ => None
  end.

(** The loops over [BufReader::lines], which fails at a line that is not UTF-8. *)
Fixpoint last_non_empty (latest : option str) (ls : list str) : result (option str) ErrorKind :=
  match ls with
  | [] => Ok latest
  | line :: ls =>
      if negb (utf8 line) then Err InvalidData
      else last_non_empty (if bool_decide (trim line = []) then latest else Some line) ls
  end.

Fixpoint last_success (latest : option LastUnlockEntry) (ls : list str) : result (option LastUnlockEntry) ErrorKind :=
  match ls with
  | [] => Ok latest
  | line :: ls =>
      if negb (utf8 line) then Err InvalidData
      else
        last_success
          match parse_last_log_line line with
          | Some entry => if bool_decide (le_outcome entry = lit "success") then Some entry else latest
          | None => latest
          end ls
  end.

Definition read_last_unlock (p : path) : io (result LastUnlockView StatusError) :=
  let! file := fs_read p in
  iret match file with
       | Err NotFound => Ok NoEntries
       | Err k => Err (SIo k)
       | Ok bytes =>
           match last_non_empty None (str_lines bytes) with
           | Err k => Err (SIo k)
           | Ok None => Ok NoEntries
           | Ok (Some raw) =>
               match parse_last_log_line raw with
               | Some entry => Ok (Entry entry)
               | None => Ok (Unparseable raw)
               end
           end
       end.

Definition read_last_successful_unlock (p : path) : io (result (option LastUnlockEntry) StatusError) :=
  let! file := fs_read p in
  iret match file with
       | Err NotFound => Ok None
       | Err k => Err (SIo k)
       | Ok bytes => map_err SIo (last_success None (str_lines bytes))
       end.

Definition effective_last_log_path (opts : StatusOpts) : path :=
  default (join (so_bond_dir opts) LAST_UNLOCK_LOG_FILENAME) (so_last_log opts).

Context `{B3 : Blake3, TM : Toml, UM : Umask}.

(** [probe] is what BlueZ says of the adapter. *)
Definition gather_status (opts : StatusOpts) (probe : str -> AdapterState) : io (result StatusSnapshot StatusError) :=
  let!? store := imap_err SBond (BondStore_load (bonds_path (so_bond_dir opts))) in
  let log_path := effective_last_log_path opts in
  let!? last_unlock := read_last_unlock log_path in
  let!? last_successful_unlock := read_last_successful_unlock log_path in
  iret (Ok (mkSnapshot (so_adapter opts) (probe (so_adapter opts)) false (len (BondStore_list store)) last_unlock last_successful_unlock)).
End status.

(** ** doctor.rs *)

Definition EXPECTED_KEYS_FILE_MODE : Z := 384.
Definition DOCTOR_LAST_LOG_TAIL : nat := 10.
Definition DOCTOR_LOG_MAX_READ_LINES : Z := 4096.
Definition DOCTOR_KEYS_FILE_CAP : Z := 1024.
Definition DAEMON_STATUS_READ_TIMEOUT : Z := 200.
Definition DAEMON_CONNECT_TIMEOUT : Z := 50.

Inductive DownReason :=
| Skipped | SocketMissing | ConnectRefused | ConnectDenied | ConnectTimeout | ConnectError (k : ErrorKind)
| ReadTimeoutSetup | WriteTimeoutSetup | FrameFault | UnexpectedResponse.

Inductive DaemonState := Up | Down (reason : DownReason).

#[global] Instance DownReason_eq_dec : EqDecision DownReason.
Proof. solve_decision. Defined.

Record BondsReport := mkBondsReport { br_path : path; br_exists : bool; br_count : Z; br_parseable : bool }.
Record KeyFileReport := mkKeyFile { kf_peer_id : str; kf_mode : str; kf_ok : bool }.
Record KeysReport := mkKeys { kr_dir : path; kr_files : list KeyFileReport }.
Record XdgRuntimeDirReport := mkXdg { xr_set : bool; xr_value : str }.

Definition SUMMARY_OK : str := lit "ok".
Definition SUMMARY_WARN : str := lit "warn".
Definition SUMMARY_FAIL : str := lit "fail".

Record DoctorOpts := mkDoctorOpts {
  do_socket : option str;
  do_bonds_file : path;
  do_keys_dir : path;
  do_audit_log : path;
  do_skip_bluez : bool;
  do_skip_systemctl : bool;
  do_skip_daemon : bool;
}.

Record DoctorReport := mkReport {
  dr_daemon_socket : str;
  dr_daemon : DaemonState;
  dr_bonds_file : BondsReport;
  dr_keys : KeysReport;
  dr_bluez_adapter : str;
  dr_systemctl : str;
  dr_last_log_tail : list str;
  dr_xdg_runtime_dir : XdgRuntimeDirReport;
  dr_summary : str;
}.

Definition probe_xdg_runtime_dir (xdg : option str) (euid : Z) : XdgRuntimeDirReport :=
  match xdg with
  | Some (c :: dir) => mkXdg true (c :: dir)
  | _ => mkXdg false (lit "/run/user/" ++ decimal euid)
  end.

Definition doctor_socket_path (xdg_runtime_dir : str) : str := path_join (path_join xdg_runtime_dir (lit "syauth")) (lit "auth.sock").

Definition probe_bluez_adapter : str := lit "unknown".

(** [out] is what [systemctl] printed, if it could be run. *)
Definition probe_systemctl (out : option str) : str :=
  match out with
  | Some stdout =>
      let s := trim stdout in
      if bool_decide (s = lit "active") then lit "active"
      else if bool_decide (s = lit "inactive") || bool_decide (s = lit "failed") || bool_decide (s = lit "unknown") then lit "inactive"
      else lit "unknown"
  | None => lit "unknown"
  end.

Definition connect_error_reason (k : ErrorKind) : DownReason :=
  match k with
  | NotFound => SocketMissing
  | ConnectionRefused => ConnectRefused
  | PermissionDenied => ConnectDenied
  | TimedOut => ConnectTimeout
  | other => ConnectError other
  end.

(** [{mode:04o}] of a mode of twelve bits *)
Definition octal4 (mode : Z) : str := map (fun i => 48 + (mode / 8 ^ i) mod 8) [3; 2; 1; 0].

(** [Ord] of strings is the order of their bytes. *)
Fixpoint str_le (a b : str) : bool :=
  match a, b with
  | [], _ => true
  | _ :: _, [] => false
  | x :: a, y :: b => (x <? y) || ((x =? y) && str_le a b)
  end.

Definition strip_suffix (suffix s : str) : option str :=
  match strip_prefix (rev suffix) (rev s) with Some r => Some (rev r) | None => None end.

Definition key_file_peer_id (name : str) : option str :=
  if negb (utf8 name) then None
  else
    match strip_suffix (lit ".bin") name with
    | Some [] => None
    | o => o
    end.

(** [fs::read_dir]: the order in which a directory's entries come. *)
Class ReadDir := { dir_entries : fs -> path -> list str }.

(** It yields the entries. *)
Class ReadDirLaws (R : ReadDir) : Prop :=
  { dir_entries_spec : forall (g : fs) d n, n ∈ dir_entries g d <-> is_Some (g !! join d n) }.

(** [Vec::sort_by], stable *)
Fixpoint insert_file (f : KeyFileReport) (l : list KeyFileReport) : list KeyFileReport :=
  match l with
  | [] => [f]
  | f' :: l' => if str_le (kf_peer_id f) (kf_peer_id f') then f :: l else f' :: insert_file f l'
  end.

Definition sort_files (l : list KeyFileReport) : list KeyFileReport := foldr insert_file [] l.

(** The tail of the log: the loop over the lines, [read] so far. *)
Fixpoint tail_loop (read : Z) (kept : list str) (ls : list str) : list str :=
  match ls with
  | [] => kept
  | line :: ls =>
      if DOCTOR_LOG_MAX_READ_LINES <=? read then kept
      else if negb (utf8 line) then kept
      else if bool_decide (trim line = []) then tail_loop (read + 1) kept ls
      else tail_loop (read + 1) ((if (length kept =? DOCTOR_LAST_LOG_TAIL)%nat then tail kept else kept) ++ [line]) ls
  end.

Section doctor.
Context `{B3 : Blake3, CH : Chrono, TM : Toml, UM : Umask, CB : Ciborium, RD : ReadDir}.

(** A probe over a socket that exists; [None]: the command hangs or dies in it. *)
Definition probe_daemon (exists_ : bool) (k : Socket) : outcome DaemonState :=
  if negb exists_ then Ret (Down SocketMissing)
  else
    match k_connect k with
    | Err e => Ret (Down (connect_error_reason e))
    | Ok _ =>
        match k_read_timeout k, k_write_timeout k with
        | Err _, _ => Ret (Down ReadTimeoutSetup)
        | _, Err _ => Ret (Down WriteTimeoutSetup)
        | Ok _, Ok _ =>
            match write_frame_blocking ReqStatus (k_out k DAEMON_CONNECT_TIMEOUT) with
            | (Err _, _) => Ret (Down FrameFault)
            | (Ok _, _) =>
                match read_frame_blocking (blocking (k_in k DAEMON_STATUS_READ_TIMEOUT)) with
                | Ready (Ret (Ok (RespStatus _ _)), _) => Ret Up
                | Ready (Ret (Ok _), _) => Ret (Down UnexpectedResponse)
                | Ready (Ret (Err _), _) => Ret (Down FrameFault)
                | Ready (Killed, _) => Killed
                | Ready (Panicked, _) => Panicked
                | Pending => Ret (Down FrameFault)
                end
            end
        end
    end.

Definition probe_bonds (p : path) : io BondsReport :=
  let! there := fs_exists p in
  if negb there then iret (mkBondsReport p false 0 true)
  else
    let! loaded := BondStore_load p in
    iret match loaded with
         | Ok store => mkBondsReport p true (len (BondStore_list store)) true
         | Err _ => mkBondsReport p true 0 false
         end.

Definition effective_file_mode (p : path) : io Z :=
  let! meta := fs_metadata p in
  iret match meta with Ok (_, m) => perm_bits m | Err _ => 0 end.

Fixpoint key_files (d : path) (entries : list str) : io (list KeyFileReport) :=
  match entries with
  | [] => iret []
  | n :: entries =>
      match key_file_peer_id n with
      | None => key_files d entries
      | Some id =>
          let! mode := effective_file_mode (join d n) in
          let! rest := key_files d entries in
          iret (mkKeyFile id (octal4 mode) (mode =? EXPECTED_KEYS_FILE_MODE) :: rest)
      end
  end.

(** The listing of a directory. *)
Definition fs_read_dir (d : path) : io (result (list str) ErrorKind) :=
  syscall (fun g =>
    (let? _ := resolve g [] d in Ok (dir_entries g d), g)).

Definition probe_keys (d : path) : io KeysReport :=
  let! entries := fs_read_dir d in
  match entries with
  | Err _ => iret (mkKeys d [])
  | Ok names =>
      let! files := key_files d (take (Z.to_nat DOCTOR_KEYS_FILE_CAP) names) in
      iret (mkKeys d (sort_files files))
  end.

Definition probe_audit_log_tail (p : path) : io (list str) :=
  let! file := fs_read p in
  iret match file with
       | Err _ => []
       | Ok bytes => tail_loop 0 [] (str_lines bytes)
       end.

Definition compute_summary (daemon : DaemonState) (bonds : BondsReport) (keys : KeysReport) (xdg : XdgRuntimeDirReport) : str :=
  if match daemon with Down reason => negb (bool_decide (reason = Skipped)) | Up => false end then SUMMARY_FAIL
  else
    let warn := (br_exists bonds && negb (br_parseable bonds)) || existsb (fun f => negb (kf_ok f)) (kr_files keys) || negb (xr_set xdg) in
    if warn then SUMMARY_WARN else SUMMARY_OK.

(** What the command finds outside the file system: the two environment values, the sockets by their path, with whether the path
    exists, and what [systemctl] prints. *)
Record DoctorHost := mkHost { h_xdg : option str; h_euid : Z; h_sockets : str -> bool * Socket; h_systemctl : option str }.

Definition build_report (opts : DoctorOpts) (h : DoctorHost) : io DoctorReport :=
  let xdg := probe_xdg_runtime_dir (h_xdg h) (h_euid h) in
  let daemon_socket := default (doctor_socket_path (xr_value xdg)) (do_socket opts) in
  let! daemon := if do_skip_daemon opts then iret (Down Skipped)
                 else lift (probe_daemon (h_sockets h daemon_socket).1 (h_sockets h daemon_socket).2) in
  let! bonds_file := probe_bonds (do_bonds_file opts) in
  let! keys := probe_keys (do_keys_dir opts) in
  let bluez_adapter := if do_skip_bluez opts then lit "unknown" else probe_bluez_adapter in
  let systemctl := if do_skip_systemctl opts then lit "unknown" else probe_systemctl (h_systemctl h) in
  let! last_log_tail := probe_audit_log_tail (do_audit_log opts) in
  iret (mkReport daemon_socket daemon bonds_file keys bluez_adapter systemctl last_log_tail xdg
          (compute_summary daemon bonds_file keys xdg)).
End doctor.

(** ** Lines and words *)

(** Printable ASCII without a space. *)
Definition word (s : str) : Prop := s <> [] /\ Forall (fun c => 33 <= c <= 126) s.

#[global] Instance word_dec s : Decision (word s).
Proof. unfold word. apply _. Defined.

(** Text that ends with its last line. *)
Definition ended (c : str) : Prop := c = [] \/ exists c', c = c' ++ [10].

Lemma lines_from_newline cur c rest : lines_from cur (c ++ 10 :: rest) = lines_from cur (c ++ [10]) ++ lines_from [] rest.
Proof.
  revert cur. induction c as [| x c IH]; intros cur; cbn; [done |]. destruct (x =? 10); [cbn; by rewrite IH | apply IH].
Qed.

Lemma str_lines_ended c rest : ended c -> str_lines (c ++ rest) = str_lines c ++ str_lines rest.
Proof. unfold str_lines. intros [-> | [c' ->]]; [done |]. rewrite <- app_assoc. apply lines_from_newline. Qed.

Lemma words_from_word cur w rest :
  Forall (fun c => 33 <= c <= 126) w -> words_from cur (w ++ rest) = words_from (cur ++ w) rest.
Proof.
  intros Hw. revert cur. induction Hw as [| c w Hc _ IH]; intros cur; cbn; [by rewrite app_nil_r |].
  assert (ascii_whitespace c = false) as -> by (unfold ascii_whitespace; lia). by rewrite IH, <- app_assoc.
Qed.

Lemma words_from_three a b c : word a -> word b -> word c -> split_ascii_whitespace (a ++ [32] ++ b ++ [32] ++ c) = [a; b; c].
Proof.
  intros [Ha Fa] [Hb Fb] [Hc Fc]. unfold split_ascii_whitespace. rewrite words_from_word by done. cbn.
  rewrite words_from_word by done. cbn. rewrite <- (app_nil_r c), words_from_word by done. cbn. rewrite app_nil_r.
  by destruct a, b, c.
Qed.

Lemma trim_newlines_word s c : 33 <= c <= 126 -> trim_newlines (s ++ [c]) = s ++ [c].
Proof.
  intros Hc. unfold trim_newlines. rewrite rev_app_distr. cbn. assert ((c =? 10) || (c =? 13) = false) as -> by lia. cbn.
  by rewrite rev_involutive.
Qed.

Lemma drop_whitespace_keeps x l : is_whitespace x = false -> x ∈ l -> x ∈ drop_whitespace l.
Proof.
  intros Hx. induction l as [| y l IH]; [done |]. cbn. destruct (is_whitespace y) eqn:Ey; [| done].
  intros [-> | Hin]%elem_of_cons; [congruence | auto].
Qed.

Lemma trim_word c s : 33 <= c <= 126 -> Forall (fun c => 32 <= c <= 126) s -> trim (c :: s) <> [].
Proof.
  intros Hc Hs. assert (Hin : [c] ∈ chars (c :: s)).
  { cbn. pose proof (chars_head s) as Hh. destruct (chars s) as [| [| d g] gs]; try set_solver.
    destruct s as [| d' s]; [done |]. injection Hh as ->. apply Forall_inv in Hs. assert (cont d = false) as -> by (unfold cont; lia). set_solver. }
  assert (Hn : is_whitespace [c] = false).
  { assert (E : (((9 <=? c) && (c <=? 13)) || (c =? 32)) = false) by lia. cbn. destruct c as [| q | q]; try exact E; repeat (destruct q as [q | q |]; try exact E). }
  intros E. unfold trim in E.
  assert (H : [c] ∈ rev (drop_whitespace (rev (drop_whitespace (chars (c :: s)))))).
  { rewrite list_elem_of_In, <- in_rev, <- list_elem_of_In. apply drop_whitespace_keeps; [done |].
    rewrite list_elem_of_In, <- in_rev, <- list_elem_of_In. by apply drop_whitespace_keeps. }
  apply list_elem_of_split in H as (l1 & l2 & H). rewrite H, concat_app in E. cbn in E. by destruct (concat l1).
Qed.

(** ** The log *)

Section log.
Context `{CH : Chrono, !ChronoLaws CH, UM : Umask}.

Definition entry_of (ts : str) (outcome : AuthOutcome) : LastUnlockEntry :=
  mkEntry ts (if is_success outcome then LAST_LOG_VERB_SUCCESS else LAST_LOG_VERB_FAILURE)
    (default LAST_LOG_UNKNOWN_PEER (AuthOutcome_peer_id outcome)).

(** The line without its newline. *)
Definition line_of (ts : str) (outcome : AuthOutcome) : str :=
  let e := entry_of ts outcome in le_timestamp e ++ [32] ++ le_outcome e ++ [32] ++ le_peer_id e.

Lemma last_log_line_of now ts outcome : rfc3339_format now = Some ts -> last_log_line now outcome = line_of ts outcome ++ [10].
Proof using. unfold last_log_line, line_of. intros ->. cbn [entry_of le_timestamp le_outcome le_peer_id from_option]. by rewrite <- !(app_assoc (A := Z)). Qed.

Definition named (outcome : AuthOutcome) : Prop := forall id, AuthOutcome_peer_id outcome = Some id -> word id.

Lemma entry_words ts outcome : word ts -> named outcome ->
  word (le_timestamp (entry_of ts outcome)) /\ word (le_outcome (entry_of ts outcome)) /\ word (le_peer_id (entry_of ts outcome)).
Proof using.
  intros Ht Hn. split; [done |]. split; [cbn; destruct (is_success outcome); decide_now |]. cbn.
  destruct (AuthOutcome_peer_id outcome) as [id |] eqn:E; [by apply Hn | decide_now].
Qed.

Lemma line_parses now ts outcome :
  rfc3339_format now = Some ts -> word ts -> named outcome -> parse_last_log_line (line_of ts outcome) = Some (entry_of ts outcome).
Proof using ChronoLaws0.
  intros Hf Ht Hn. destruct (entry_words ts outcome Ht Hn) as (W1 & W2 & W3). unfold parse_last_log_line, line_of.
  assert (E : trim_newlines (le_timestamp (entry_of ts outcome) ++ [32] ++ le_outcome (entry_of ts outcome) ++ [32] ++ le_peer_id (entry_of ts outcome)) =
              le_timestamp (entry_of ts outcome) ++ [32] ++ le_outcome (entry_of ts outcome) ++ [32] ++ le_peer_id (entry_of ts outcome)).
  { destruct W3 as [Hne Hf3]. destruct (exists_last Hne) as (p & c & Ep). rewrite Ep in *. rewrite !app_assoc. apply trim_newlines_word.
    by apply Forall_app in Hf3 as [_ Hc%Forall_inv]. }
  rewrite E, words_from_three by done. cbn [le_timestamp le_outcome le_peer_id entry_of]. rewrite (rfc3339_roundtrip _ _ Hf).
  unfold entry_of. destruct (is_success outcome); reflexivity.
Qed.

Lemma line_plain ts outcome : word ts -> named outcome -> printable (line_of ts outcome) /\ utf8 (line_of ts outcome) = true /\
  trim (line_of ts outcome) <> [].
Proof using.
  intros Ht Hn. destruct (entry_words ts outcome Ht Hn) as (W1 & W2 & W3).
  assert (Hp : Forall (fun c => 32 <= c <= 126) (line_of ts outcome)).
  { unfold line_of. repeat apply Forall_app_2; try (by repeat constructor; lia); (eapply Forall_impl; [first [apply W1 | apply W2 | apply W3] |]); cbn; lia. }
  split_and!.
  - eapply Forall_impl; [exact Hp |]. cbn. lia.
  - apply utf8_ascii. eapply Forall_impl; [exact Hp |]. cbn. lia.
  - revert Hp. unfold line_of. destruct W1 as [Hne Hf]. destruct (le_timestamp (entry_of ts outcome)) as [| c s]; [done |]. cbn.
    intros Hp. apply Forall_cons in Hp as [_ Hp]. apply Forall_inv in Hf. by apply trim_word.
Qed.

Lemma last_line ts outcome : word ts -> named outcome -> str_lines (line_of ts outcome ++ [10]) = [line_of ts outcome].
Proof using.
  intros Ht Hn. destruct (line_plain ts outcome Ht Hn) as (Hp & _ & _). unfold str_lines.
  change [10] with (newline ++ []). rewrite lines_from_printable by done. by rewrite strip_cr_printable.
Qed.

(** The loops at a last line. *)
Lemma last_non_empty_snoc acc ls line :
  Forall (fun l => utf8 l = true) ls -> utf8 line = true -> trim line <> [] -> last_non_empty acc (ls ++ [line]) = Ok (Some line).
Proof using.
  intros Hl Hu Ht. revert acc. induction Hl as [| l ls Hx _ IH]; intros acc; cbn.
  - rewrite Hu. cbn. by rewrite bool_decide_false.
  - rewrite Hx. cbn. apply IH.
Qed.

Lemma last_success_snoc acc ls line :
  Forall (fun l => utf8 l = true) ls -> utf8 line = true ->
  exists prev, last_success acc ls = Ok prev /\
    last_success acc (ls ++ [line]) =
      Ok match parse_last_log_line line with
         | Some entry => if bool_decide (le_outcome entry = lit "success") then Some entry else prev
         | None => prev
         end.
Proof using.
  intros Hl Hu. revert acc. induction Hl as [| l ls Hx _ IH]; intros acc; cbn.
  - rewrite Hu. cbn. by exists acc.
  - rewrite Hx. cbn. apply IH.
Qed.

Lemma append_calm g (cfg : Config) now outcome c m :
  resolve g [] (bond_dir cfg) = Ok tt -> g !! last_log_path cfg = Some (File c m) ->
  append_last_log cfg now outcome (calm g) = (Ret (Ok tt), calm (<[last_log_path cfg := File (c ++ last_log_line now outcome) m]> g)).
Proof using.
  intros Hr Hf. unfold append_last_log, last_log_path at 1. rewrite parent_join. unfold ibind, itry.
  unfold fs_create_dir_all. rewrite create_dirs_calm by done.
  unfold ibind, fs_append. cbn -[append_op last_log_path last_log_line]. unfold append_op. rewrite Hf. unfold last_log_path at 1. by rewrite resolve_parent_join, Hr.
Qed.

(** C39: [syauth status] shows what the PAM module logged: after a login attempt has been appended to a log of whole UTF-8 lines, the
    last unlock is that attempt, with its time, verdict and peer; and the last successful unlock is that attempt if it
    succeeded, and the one shown before if it did not. *)
Theorem last_login_shown (opts : StatusOpts) (cfg : Config) (now : OffsetDateTime) (ts : str) (outcome : AuthOutcome) (g : fs) (c : str) (m : Z)
  (Hdir : so_bond_dir opts = bond_dir cfg) (Hlog : so_last_log opts = None)
  (Hr : resolve g [] (bond_dir cfg) = Ok tt) (Hf : g !! last_log_path cfg = Some (File c m))
  (Hc : ended c) (Hu : Forall (fun l => utf8 l = true) (str_lines c))
  (Hts : rfc3339_format now = Some ts) (Hw : word ts) (Hn : named outcome) :
  let w' := (append_last_log cfg now outcome (calm g)).2 in
  let p := effective_last_log_path opts in
  read_last_unlock p w' = (Ret (Ok (Entry (entry_of ts outcome))), w') /\
  exists prev, read_last_successful_unlock p (calm g) = (Ret (Ok prev), calm g) /\
    read_last_successful_unlock p w' = (Ret (Ok (if is_success outcome then Some (entry_of ts outcome) else prev)), w').
Proof using ChronoLaws0.
  cbv zeta. assert (Hp : effective_last_log_path opts = last_log_path cfg) by (unfold effective_last_log_path; by rewrite Hlog, Hdir).
  rewrite Hp, (append_calm g cfg now outcome c m Hr Hf), (last_log_line_of now ts outcome Hts). cbn [snd].
  set (g' := <[_ := _]> g). assert (Hg' : g' !! last_log_path cfg = Some (File (c ++ line_of ts outcome ++ [10]) m)) by apply lookup_insert_eq.
  assert (Hread : forall h x, h !! last_log_path cfg = Some (File x m) -> fs_read (last_log_path cfg) (calm h) = (Ret (Ok x), calm h)).
  { intros h x Hx. unfold fs_read. rewrite syscall_calm. by rewrite (read_op_file h _ x m Hx). }
  assert (Hl : str_lines (c ++ line_of ts outcome ++ [10]) = str_lines c ++ [line_of ts outcome]) by (by rewrite str_lines_ended, last_line).
  destruct (line_plain ts outcome Hw Hn) as (_ & Hu' & Ht). pose proof (line_parses now ts outcome Hts Hw Hn) as Hparse.
  split.
  - unfold read_last_unlock, ibind. rewrite (Hread g' _ Hg'), Hl, last_non_empty_snoc by done. by rewrite Hparse.
  - destruct (last_success_snoc None (str_lines c) (line_of ts outcome) Hu Hu') as (prev & H1 & H2). exists prev.
    unfold read_last_successful_unlock, ibind. rewrite (Hread g c Hf), (Hread g' _ Hg'), H1. split; [done |].
    rewrite Hl. unfold str in *. rewrite H2, Hparse. cbn [le_outcome entry_of]. unfold entry_of. by destruct (is_success outcome).
Qed.
End log.

(** ** The tail of the log *)

Definition nonblank (l : str) : bool := negb (bool_decide (trim l = [])).

(** The lines before the first that is not UTF-8. *)
Fixpoint readable_lines (ls : list str) : list str :=
  match ls with
  | l :: ls => if utf8 l then l :: readable_lines ls else []
  | [] => []
  end.

Definition newest {A} (n : nat) (l : list A) : list A := drop (length l - n) l.

Lemma newest_short {A} n (l : list A) : (length l <= n)%nat -> newest n l = l.
Proof. intros Hl. unfold newest. by replace (length l - n)%nat with 0%nat by lia. Qed.

Lemma newest_evict {A} n (kept : list A) x r :
  (0 < n)%nat -> length kept = n -> newest n (kept ++ x :: r) = newest n ((tail kept ++ [x]) ++ r).
Proof.
  intros Hn Hk. destruct kept as [| y k]; cbn in Hk; [lia |]. unfold newest. cbn [tail app length].
  rewrite <- app_assoc. cbn [app]. rewrite !length_app. cbn [length].
  replace (S (length k + S (length r)) - n)%nat with (S (length r)) by lia.
  by replace (length k + S (length r) - n)%nat with (length r) by lia.
Qed.

Lemma tail_loop_newest ls : forall read kept, 0 <= read -> (length kept <= DOCTOR_LAST_LOG_TAIL)%nat ->
  tail_loop read kept ls =
  newest DOCTOR_LAST_LOG_TAIL (kept ++ List.filter nonblank (readable_lines (take (Z.to_nat (DOCTOR_LOG_MAX_READ_LINES - read)) ls))).
Proof.
  induction ls as [| line ls IH]; intros read kept Hr Hk; cbn [tail_loop].
  - rewrite take_nil. cbn. by rewrite app_nil_r, newest_short.
  - destruct (Z.leb_spec DOCTOR_LOG_MAX_READ_LINES read) as [Hm | Hm].
    { rewrite Z2Nat.nonpos by lia. cbn. by rewrite app_nil_r, newest_short. }
    replace (Z.to_nat (DOCTOR_LOG_MAX_READ_LINES - read)) with (S (Z.to_nat (DOCTOR_LOG_MAX_READ_LINES - (read + 1)))) by lia.
    cbn [take readable_lines]. destruct (utf8 line); cbn [negb]; [| cbn; by rewrite app_nil_r, newest_short].
    cbn [List.filter]. unfold nonblank at 1. destruct (bool_decide (trim line = [])); cbn [negb]; [apply IH; [lia | done] |].
    destruct (Nat.eqb_spec (length kept) DOCTOR_LAST_LOG_TAIL) as [He | He].
    + rewrite IH; [| lia | destruct kept; cbn in He |- *; unfold DOCTOR_LAST_LOG_TAIL in *; rewrite ?length_app; cbn; lia].
      rewrite <- newest_evict; [done | unfold DOCTOR_LAST_LOG_TAIL; lia | done].
    + rewrite IH; [by rewrite <- app_assoc | lia | rewrite length_app; cbn; lia].
Qed.

Lemma readable_lines_all ls : Forall (fun l => utf8 l = true) ls -> readable_lines ls = ls.
Proof. induction 1 as [| l ls Hl _ IH]; cbn; [done |]. by rewrite Hl, IH. Qed.

Section tail.
Context `{CH : Chrono, !ChronoLaws CH, UM : Umask}.

Lemma probe_tail_calm g p c m : g !! p = Some (File c m) -> Forall (fun l => utf8 l = true) (str_lines c) ->
  probe_audit_log_tail p (calm g) =
  (Ret (newest DOCTOR_LAST_LOG_TAIL (List.filter nonblank (take (Z.to_nat DOCTOR_LOG_MAX_READ_LINES) (str_lines c)))), calm g).
Proof using.
  intros Hf Hu. unfold probe_audit_log_tail, ibind, fs_read. rewrite syscall_calm, (read_op_file _ _ _ _ Hf). cbn [fst snd iret].
  rewrite tail_loop_newest by (unfold DOCTOR_LAST_LOG_TAIL; cbn; lia). rewrite Z.sub_0_r, readable_lines_all; [done |]. by apply Forall_take.
Qed.

(** The tail of [syauth doctor] ends with the newest login attempt for as long as the log has fewer than 4,096 lines: it is the ten
    newest lines that are not blank, the line that was just appended last.  From 4,096 lines on an appended line changes nothing
    in what the command shows. *)
Theorem doctor_tail_shown (cfg : Config) (now : OffsetDateTime) (ts : str) (outcome : AuthOutcome) (g : fs) (c : str) (m : Z)
  (Hr : resolve g [] (bond_dir cfg) = Ok tt) (Hf : g !! last_log_path cfg = Some (File c m))
  (Hc : ended c) (Hu : Forall (fun l => utf8 l = true) (str_lines c))
  (Hts : rfc3339_format now = Some ts) (Hw : word ts) (Hn : named outcome) :
  let w' := (append_last_log cfg now outcome (calm g)).2 in
  (probe_audit_log_tail (last_log_path cfg) w').1 =
    if bool_decide (len (str_lines c) < DOCTOR_LOG_MAX_READ_LINES)
    then Ret (newest DOCTOR_LAST_LOG_TAIL (List.filter nonblank (str_lines c) ++ [line_of ts outcome]))
    else (probe_audit_log_tail (last_log_path cfg) (calm g)).1.
Proof using.
  cbv zeta. rewrite (append_calm g cfg now outcome c m Hr Hf), (last_log_line_of now ts outcome Hts). cbn [snd].
  destruct (line_plain ts outcome Hw Hn) as (_ & Hu' & Ht).
  assert (Hl : str_lines (c ++ line_of ts outcome ++ [10]) = str_lines c ++ [line_of ts outcome]) by (by rewrite str_lines_ended, last_line).
  erewrite (probe_tail_calm (<[_ := _]> g)) by (first [apply lookup_insert_eq | rewrite Hl; apply Forall_app; split; [done | by constructor]]).
  rewrite (probe_tail_calm g _ c m Hf Hu), Hl. cbn [fst]. unfold len. case_bool_decide as Hlen.
  - rewrite (take_ge (str_lines c ++ _)) by (rewrite length_app; cbn; lia). rewrite List.filter_app. cbn [List.filter].
    unfold nonblank at 2. by rewrite bool_decide_false.
  - rewrite take_app_le by lia. done.
Qed.
End tail.

(** ** The verdict of [syauth doctor] *)

Section verdict.
Context `{B3 : Blake3, CH : Chrono, TM : Toml, UM : Umask, CB : Ciborium, RD : ReadDir, !ReadDirLaws RD}.

(** The daemon took a status request and answered it. *)
Definition daemon_answers (there : bool) (k : Socket) : Prop :=
  there = true /\ k_connect k = Ok tt /\ k_read_timeout k = Ok tt /\ k_write_timeout k = Ok tt /\
  (write_frame_blocking ReqStatus (k_out k DAEMON_CONNECT_TIMEOUT)).1 = Ok tt /\
  exists peers t rest, read_frame_blocking (blocking (k_in k DAEMON_STATUS_READ_TIMEOUT)) = Ready (Ret (Ok (RespStatus peers t)), rest).

Lemma probe_daemon_up there k : probe_daemon there k = Ret Up <-> daemon_answers there k.
Proof using.
  unfold probe_daemon, daemon_answers. split.
  - destruct there; cbn [negb]; [| done]. destruct (k_connect k) as [[] |]; [| done].
    destruct (k_read_timeout k) as [[] |], (k_write_timeout k) as [[] |]; try done. destruct (write_frame_blocking _ _) as [[[] |] ?]; [| done].
    destruct (read_frame_blocking _) as [| [[[[] |] | |] rest]]; try done. intros _. do 5 (split; [done |]). repeat eexists.
  - intros (-> & -> & -> & -> & Hw & peers & t & rest & ->). cbn [negb]. destruct (write_frame_blocking _ _) as [o ?]. cbn in Hw. by subst.
Qed.

Lemma probe_daemon_not_skipped there k : probe_daemon there k <> Ret (Down Skipped).
Proof using.
  unfold probe_daemon. destruct there; cbn [negb]; [| done]. destruct (k_connect k) as [| []]; try done.
  destruct (k_read_timeout k), (k_write_timeout k); try done. destruct (write_frame_blocking _ _) as [[] ?]; [| done].
  by destruct (read_frame_blocking _) as [| [[[[] |] | |] rest]].
Qed.

Lemma load_reads p g : (BondStore_load p (calm g)).2 = calm g.
Proof using.
  unfold BondStore_load, fs_read_to_string, ibind. rewrite syscall_calm. cbn [fst snd].
  destruct (_ : result str ErrorKind) as [raw | []]; cbn; try done. by rewrite load_document_world_free.
Qed.

(** The mode that a path has. *)
Definition node_mode (n : node) : Z := match n with File _ m => m | Dir m => m end.

Lemma effective_mode_calm g d n v : resolve g [] d = Ok tt -> g !! join d n = Some v ->
  effective_file_mode (join d n) (calm g) = (Ret (perm_bits (node_mode v)), calm g).
Proof using.
  intros Hr Hv. unfold effective_file_mode, fs_metadata, ibind. rewrite syscall_calm. cbn [fst snd].
  rewrite resolve_parent_join, Hr, Hv. cbn [rbind]. destruct (join d n) eqn:E; [by destruct d |]. by destruct v.
Qed.

Definition key_report (d : path) (g : fs) (n : str) : option KeyFileReport :=
  match key_file_peer_id n, g !! join d n with
  | Some id, Some v => Some (mkKeyFile id (octal4 (perm_bits (node_mode v))) (perm_bits (node_mode v) =? EXPECTED_KEYS_FILE_MODE))
  | _, _ => None
  end.

Lemma key_files_calm g d entries : resolve g [] d = Ok tt -> Forall (fun n => is_Some (g !! join d n)) entries ->
  key_files d entries (calm g) = (Ret (omap (key_report d g) entries), calm g).
Proof using.
  intros Hr. induction 1 as [| n entries [v Hv] _ IH]; [done |]. cbn [key_files omap list_omap]. unfold key_report at 1. rewrite Hv.
  destruct (key_file_peer_id n) as [id |]; [| done]. unfold ibind at 1. rewrite (effective_mode_calm g d n v Hr Hv).
  unfold ibind. by rewrite IH.
Qed.

Lemma insert_file_perm f l : insert_file f l ≡ₚ f :: l.
Proof using. induction l as [| x l IH]; [done |]. cbn. destruct (str_le _ _); [done |]. rewrite IH. apply Permutation_swap. Qed.

Lemma sort_files_perm l : sort_files l ≡ₚ l.
Proof using. induction l as [| f l IH]; [done |]. cbn. by rewrite insert_file_perm, IH. Qed.

(** What the command looked at in the directory of the keys. *)
Definition looked_at (g : fs) (d : path) : list str := take (Z.to_nat DOCTOR_KEYS_FILE_CAP) (dir_entries g d).

Lemma probe_keys_calm g d :
  probe_keys d (calm g) =
  (Ret (mkKeys d (if is_ok (resolve g [] d) then sort_files (omap (key_report d g) (looked_at g d)) else [])), calm g).
Proof using ReadDirLaws0.
  unfold probe_keys, fs_read_dir, ibind. rewrite syscall_calm. cbn [fst snd]. destruct (resolve g [] d) as [[] |] eqn:Hr; [| done].
  - cbn [rbind is_ok]. rewrite key_files_calm; [done | done |]. apply Forall_forall. intros n Hn.
    apply dir_entries_spec. by apply (subseteq_take (Z.to_nat DOCTOR_KEYS_FILE_CAP)).
Qed.

Lemma key_file_peer_id_spec n id : key_file_peer_id n = Some id <-> n = id ++ lit ".bin" /\ utf8 n = true /\ id <> [].
Proof using.
  unfold key_file_peer_id, strip_suffix. split.
  - destruct (utf8 n) eqn:Hu; cbn [negb]; [| done]. destruct (strip_prefix _ _) as [r |] eqn:E; [| done].
    apply strip_prefix_inv in E. intros H. assert (rev r = id /\ id <> []) as [<- Hne] by (destruct (rev r); [done |]; by injection H as <-).
    split; [| done]. by rewrite <- (rev_involutive n), E, rev_app_distr, rev_involutive.
  - intros (-> & -> & Hne). cbn [negb]. rewrite rev_app_distr, strip_prefix_app, rev_involutive. by destruct id.
Qed.

(** The key files [among] the names of a directory that can be listed have the mode 0600. *)
Definition private_among (among : list str) (g : fs) (d : path) : Prop :=
  resolve g [] d = Ok tt -> forall id v, id <> [] -> utf8 (id ++ lit ".bin") = true -> id ++ lit ".bin" ∈ among ->
    g !! join d (id ++ lit ".bin") = Some v -> perm_bits (node_mode v) = EXPECTED_KEYS_FILE_MODE.

(** Every key file that the directory holds has the mode 0600. *)
Definition keys_private (g : fs) (d : path) : Prop :=
  forall id v, id <> [] -> utf8 (id ++ lit ".bin") = true -> resolve g [] d = Ok tt ->
    g !! join d (id ++ lit ".bin") = Some v -> perm_bits (node_mode v) = EXPECTED_KEYS_FILE_MODE.

Lemma keys_ok_exact g d r : (probe_keys d (calm g)).1 = Ret r ->
  existsb (fun f => negb (kf_ok f)) (kr_files r) = false <-> private_among (looked_at g d) g d.
Proof using ReadDirLaws0.
  intros Hr. rewrite probe_keys_calm in Hr. injection Hr as <-. cbn [kr_files]. unfold private_among.
  destruct (resolve g [] d) as [[] |] eqn:Er; cbn [is_ok]; [| done]. rewrite <- not_true_iff_false, existsb_exists. split.
  - intros H _ id v Hne Hu Hin Hv. destruct (decide (perm_bits (node_mode v) = EXPECTED_KEYS_FILE_MODE)) as [| Hm]; [done |]. destruct H.
    assert (Hk : key_file_peer_id (id ++ lit ".bin") = Some id) by (by apply key_file_peer_id_spec).
    exists (mkKeyFile id (octal4 (perm_bits (node_mode v))) false). split; [| done]. apply list_elem_of_In. rewrite sort_files_perm.
    apply list_elem_of_omap. exists (id ++ lit ".bin"). split; [done |]. unfold key_report. rewrite Hk, Hv.
    repeat f_equal. by apply Z.eqb_neq.
  - intros H (f & Hin & Hf). apply list_elem_of_In in Hin. rewrite sort_files_perm in Hin. apply list_elem_of_omap in Hin as (n & Hlook & Hn).
    unfold key_report in Hn. destruct (key_file_peer_id n) as [id |] eqn:Hk; [| done]. destruct (g !! join d n) as [v |] eqn:Hv; [| done].
    injection Hn as <-. apply key_file_peer_id_spec in Hk as (-> & Hu & Hne). cbn in Hf. by rewrite (H eq_refl id v Hne Hu Hlook Hv) in Hf.
Qed.

(** A directory within the limit is looked at as a whole. *)
Lemma few_keys_looked_at g d : len (dir_entries g d) <= DOCTOR_KEYS_FILE_CAP -> private_among (looked_at g d) g d <-> keys_private g d.
Proof using ReadDirLaws0.
  intros Hfew. assert (Hl : looked_at g d = dir_entries g d) by (apply take_ge; unfold len in Hfew; lia). rewrite Hl. unfold private_among, keys_private.
  split; [| naive_solver]. intros H id v Hne Hu Hr Hv. apply (H Hr id v Hne Hu); [| done]. apply dir_entries_spec. by eexists.
Qed.

(** The file of the bonds is absent or loads. *)
Definition bonds_load (g : fs) (p : path) : Prop :=
  (fs_exists p (calm g)).1 = Ret false \/ exists st, (BondStore_load p (calm g)).1 = Ret (Ok st).

Lemma exists_reads p g : exists there, fs_exists p (calm g) = (Ret there, calm g).
Proof using. unfold fs_exists, fs_metadata, ibind. rewrite syscall_calm. cbn. by eexists. Qed.

Lemma probe_bonds_calm p g r : (probe_bonds p (calm g)).1 = Ret r ->
  probe_bonds p (calm g) = (Ret r, calm g) /\ (br_exists r && negb (br_parseable r) = false <-> bonds_load g p).
Proof using.
  unfold bonds_load. destruct (exists_reads p g) as [there E]. pose proof (load_reads p g) as Hl.
  unfold probe_bonds, ibind. rewrite E. cbn [fst]. destruct there; cbn [negb].
  - destruct (BondStore_load p (calm g)) as [[[st |] | |] w]; cbn in Hl |- *; subst w; intros H; simplify_eq; (split; [done |]); cbn; naive_solver.
  - cbn. intros H. simplify_eq. split; [done |]. cbn. naive_solver.
Qed.

Lemma audit_tail_reads p g : exists tail, probe_audit_log_tail p (calm g) = (Ret tail, calm g).
Proof using. unfold probe_audit_log_tail, fs_read, ibind. rewrite syscall_calm. cbn. by eexists. Qed.

Definition daemon_socket_of (opts : DoctorOpts) (h : DoctorHost) : str :=
  default (doctor_socket_path (xr_value (probe_xdg_runtime_dir (h_xdg h) (h_euid h)))) (do_socket opts).

Lemma build_report_calm opts h g r : (build_report opts h (calm g)).1 = Ret r ->
  exists daemon bonds keys,
    (if do_skip_daemon opts then daemon = Down Skipped
     else probe_daemon (h_sockets h (daemon_socket_of opts h)).1 (h_sockets h (daemon_socket_of opts h)).2 = Ret daemon) /\
    (probe_bonds (do_bonds_file opts) (calm g)).1 = Ret bonds /\
    (probe_keys (do_keys_dir opts) (calm g)).1 = Ret keys /\
    dr_summary r = compute_summary daemon bonds keys (probe_xdg_runtime_dir (h_xdg h) (h_euid h)).
Proof using ReadDirLaws0.
  unfold build_report. cbv zeta. fold (daemon_socket_of opts h). set (k := h_sockets h (daemon_socket_of opts h)).
  assert (Hd : exists od, (if do_skip_daemon opts then iret (Down Skipped) else lift (probe_daemon k.1 k.2)) (calm g) = (od, calm g) /\
    (forall d, od = Ret d -> if do_skip_daemon opts then d = Down Skipped else probe_daemon k.1 k.2 = Ret d)).
  { destruct (do_skip_daemon opts); eexists; (split; [reflexivity |]); naive_solver. }
  destruct Hd as (od & Ed & Hd). unfold ibind at 1. rewrite Ed. destruct od as [daemon | |]; [| done | done]. specialize (Hd _ eq_refl).
  unfold ibind at 1. destruct (probe_bonds _ _) as [[bonds | |] w1] eqn:Eb; [| done | done].
  destruct (probe_bonds_calm (do_bonds_file opts) g bonds) as [Hb _]; [by rewrite Eb |]. rewrite Eb in Hb. injection Hb as ->.
  unfold ibind at 1. rewrite probe_keys_calm. unfold ibind at 1. destruct (audit_tail_reads (do_audit_log opts) g) as [tail ->].
  cbn [fst iret]. intros H. injection H as <-. by exists daemon, bonds, (mkKeys (do_keys_dir opts) (if is_ok (resolve g [] (do_keys_dir opts)) then sort_files (omap (key_report (do_keys_dir opts) g) (looked_at g (do_keys_dir opts))) else [])).
Qed.

(** C40: What [doctor=ok] means, on a disk without faults: a report that the command finishes is "ok" exactly when the daemon took a
    status request and answered it (or the probe was skipped), the file of the bonds is absent or loads, the runtime directory is set, and,
    if the directory of the keys can be listed, every key file among its first 1024 entries has the mode 0600, which for a directory of
    at most 1024 entries is every key file in it.  Nothing else has a say: a directory of the keys that cannot be listed, an inactive systemd unit, an unknown
    adapter and an unreadable log leave the summary at "ok". *)
Theorem doctor_ok_exact (opts : DoctorOpts) (h : DoctorHost) (g : fs) (r : DoctorReport)
  (Hrun : (build_report opts h (calm g)).1 = Ret r) :
  (dr_summary r = SUMMARY_OK <->
   (do_skip_daemon opts = true \/
    daemon_answers (h_sockets h (daemon_socket_of opts h)).1 (h_sockets h (daemon_socket_of opts h)).2) /\
   bonds_load g (do_bonds_file opts) /\
   private_among (take 1024 (dir_entries g (do_keys_dir opts))) g (do_keys_dir opts) /\
   exists dir, h_xdg h = Some dir /\ dir <> []) /\
  (len (dir_entries g (do_keys_dir opts)) <= 1024 ->
   private_among (take 1024 (dir_entries g (do_keys_dir opts))) g (do_keys_dir opts) <-> keys_private g (do_keys_dir opts)).
Proof using ReadDirLaws0.
  change (take 1024 (dir_entries g (do_keys_dir opts))) with (looked_at g (do_keys_dir opts)). split; [| apply few_keys_looked_at].
  destruct (build_report_calm opts h g r Hrun) as (daemon & bonds & keys & Hd & Hb & Hk & ->).
  destruct (probe_bonds_calm _ _ _ Hb) as [_ <-]. rewrite <- (keys_ok_exact _ _ _ Hk), <- probe_daemon_up.
  assert (Hx : xr_set (probe_xdg_runtime_dir (h_xdg h) (h_euid h)) = true <-> exists dir, h_xdg h = Some dir /\ dir <> []).
  { unfold probe_xdg_runtime_dir. destruct (h_xdg h) as [[| c dir] |]; cbn; naive_solver. }
  rewrite <- Hx. unfold compute_summary.
  assert (Hdown : match daemon with Down reason => negb (bool_decide (reason = Skipped)) | Up => false end = false <->
    do_skip_daemon opts = true \/ probe_daemon (h_sockets h (daemon_socket_of opts h)).1 (h_sockets h (daemon_socket_of opts h)).2 = Ret Up).
  { destruct (do_skip_daemon opts).
    - subst daemon. rewrite bool_decide_true by done. naive_solver.
    - rewrite Hd. destruct daemon as [| reason]; [naive_solver |]. split; [| naive_solver].
      intros ->%negb_false_iff%bool_decide_eq_true. exfalso. revert Hd. apply probe_daemon_not_skipped. }
  rewrite <- Hdown. destruct (match daemon with Up => _ | Down _ => _ end); [naive_solver |].
  destruct (br_exists bonds && _), (existsb _ _), (xr_set _); cbn; naive_solver.
Qed.
End verdict.

(** ** A sample host *)

Section samples.
Import ToyCrypto ToyCrates ToyTempfile ToyCbor.

(** The entries in the order of the keys of the map. *)
#[local] Instance toy_read_dir : ReadDir := {|
  dir_entries g d := omap (fun '(p, _) => match rev p with n :: r => if decide (rev r = d) then Some n else None | [] => None end) (map_to_list g);
|}.

#[local] Instance toy_read_dir_laws : ReadDirLaws toy_read_dir.
Proof.
  split. intros g d n. cbn. rewrite list_elem_of_omap. split.
  - intros ([p v] & Hin & Hp). apply elem_of_map_to_list in Hin. destruct (rev p) as [| n' r] eqn:E; [done |].
    case_decide as Hd; [| done]. injection Hp as ->. exists v. unfold join. rewrite <- Hd.
    rewrite <- (rev_involutive p), E in Hin. exact Hin.
  - intros [v Hv]. exists (join d n, v). split; [by apply elem_of_map_to_list |]. unfold join. rewrite rev_app_distr. cbn.
    rewrite rev_involutive, decide_True by done. done.
Qed.

Definition seen_cfg : Config := mkConfig DEFAULT_BOND_DIR (lit "/run/user/1000/syauth/auth.sock") 20.
Definition seen_opts : StatusOpts := mkStatusOpts (lit "hci0") DEFAULT_BOND_DIR None None false false.
Definition seen_log : str := lit "monday failure unknown" ++ [10] ++ [10] ++ lit "tuesday success phone" ++ [10].
Definition seen_fs : fs :=
  <[join (join DEFAULT_BOND_DIR (lit "keys")) (lit "phone.bin") := File (replicate 32 1) 33152]>
    (<[join DEFAULT_BOND_DIR (lit "keys") := Dir 448]> (<[last_log_path seen_cfg := File seen_log 420]> pam_fs)).

Lemma seen_log_ended : ended seen_log.
Proof. right. by exists (lit "monday failure unknown" ++ [10] ++ [10] ++ lit "tuesday success phone"). Qed.

Lemma last_login_shown_witness :
  let w' := (append_last_log seen_cfg (lit "now") (AuthErr (lit "stale") (Some (lit "phone"))) (calm seen_fs)).2 in
  read_last_unlock (effective_last_log_path seen_opts) w' =
    (Ret (Ok (Entry (mkEntry (lit "now") (lit "failure") (lit "phone")))), w') /\
  read_last_successful_unlock (effective_last_log_path seen_opts) w' =
    (Ret (Ok (Some (mkEntry (lit "tuesday") (lit "success") (lit "phone")))), w').
Proof.
  destruct (last_login_shown (ChronoLaws0 := toy_chrono_laws) seen_opts seen_cfg (lit "now") (lit "now") (AuthErr (lit "stale") (Some (lit "phone"))) seen_fs
    seen_log 420) as [H1 (prev & Hp & H2)]; try reflexivity.
  - apply seen_log_ended.
  - decide_now.
  - decide_now.
  - intros id [= <-]. decide_now.
  - cbv zeta. split; [exact H1 |]. rewrite H2. cbn [is_success]. 
    assert (E : (read_last_successful_unlock (effective_last_log_path seen_opts) (calm seen_fs)).1 =
      Ret (Ok (Some (mkEntry (lit "tuesday") (lit "success") (lit "phone"))))) by (vm_compute; reflexivity).
    rewrite Hp in E. cbn [fst] in E. injection E as ->. reflexivity.
Defined.

Lemma doctor_tail_shown_witness :
  let w' := (append_last_log seen_cfg (lit "now") (AuthSuccess (lit "phone")) (calm seen_fs)).2 in
  (probe_audit_log_tail (last_log_path seen_cfg) w').1 =
  Ret [lit "monday failure unknown"; lit "tuesday success phone"; lit "now success phone"].
Proof.
  cbv zeta. rewrite (doctor_tail_shown (CH := toy_chrono) seen_cfg (lit "now") (lit "now") (AuthSuccess (lit "phone")) seen_fs seen_log 420); try reflexivity.
  - apply seen_log_ended.
  - decide_now.
  - decide_now.
  - intros id [= <-]. decide_now.
Defined.

Notation status_frame := (match encode_frame (RespStatus [] 0) with Ok f => f | Err _ => [] end).
Definition seen_host : DoctorHost :=
  mkHost (Some (lit "/run/user/1000")) 1000 (fun p => (true, daemon_at status_frame p)) (Some (lit "active")).
Definition seen_doctor : DoctorOpts :=
  mkDoctorOpts None (join DEFAULT_BOND_DIR (lit "bonds.toml")) (join DEFAULT_BOND_DIR (lit "keys")) (last_log_path seen_cfg) true true false.

Lemma doctor_ok_exact_witness :
  exists r, (build_report seen_doctor seen_host (calm seen_fs)).1 = Ret r /\ dr_summary r = SUMMARY_OK /\
    keys_private seen_fs (join DEFAULT_BOND_DIR (lit "keys")).
Proof.
  assert (E : exists r, (build_report seen_doctor seen_host (calm seen_fs)).1 = Ret r /\ dr_summary r = SUMMARY_OK).
  { eexists. split; [vm_compute; reflexivity | reflexivity]. }
  destruct E as (r & Hr & Hok). exists r. split; [exact Hr |]. split; [exact Hok |].
  destruct (doctor_ok_exact (CB := toy_cbor) seen_doctor seen_host seen_fs r Hr) as [H Hfew].
  apply Hfew; [vm_compute; discriminate |]. apply (proj1 H Hok).
Defined.
End samples.
