(* ===== verification/Secrets.v ===== *)
(** * The secret store

    Models crates/syauth-core/src/secrets.rs: the trait [KeyStore] with its documented contract, its three implementations (the
    map of the tests, the kernel keyring and the Secret Service) and the choice between them at the start of a process.

    The crates linux-keyutils and secret-service are classes, with laws for what their documentation says of a keyring and
    of a collection; every call of them may fail.  The wiping of buffers ([Zeroizing]) and the logger's
    sink are not modelled; a line that is logged is a value. *)

From stdpp Require Import prelude list gmap strings.
From Stdlib Require Import ZArith Lia.
From S2P Require Import Prelude Fs.

Definition KEYRING_ID_PREFIX : str := lit "syauth:".
Definition SECRET_SERVICE_COLLECTION : str := lit "syauth".
Definition SECRET_SERVICE_ATTR_KIND : str := lit "kind".
Definition SECRET_SERVICE_ATTR_KIND_VALUE : str := lit "syauth-bond".
Definition SECRET_SERVICE_ATTR_ID : str := lit "id".
Definition SECRET_SERVICE_CONTENT_TYPE : str := lit "application/octet-stream".
Definition LOG_LINE_KERNEL : str := lit "syauth: using kernel keyring backend".
Definition LOG_LINE_SECRET_SERVICE : str := lit "syauth: using libsecret (secret-service) backend".
Definition PROBE_DESCRIPTION : str := lit "syauth:__probe__".

Inductive SecretError :=
| SecretBackend (reason : str)
| SecretNotImplemented.

Notation secret := (list Z).

(** ** The trait *)

(** [view] is what the contract speaks of: the secret stored under an identifier.  [kwf] is what an implementation assumes of
    its state. *)
Class KeyStore := {
  KState : Type;
  put : str -> secret -> KState -> result unit SecretError * KState;
  get : str -> KState -> result (option secret) SecretError;
  remove : str -> KState -> result unit SecretError * KState;
  view : KState -> str -> option secret;
  kwf : KState -> Prop;
}.

(** The contract for implementors, with what a call that fails leaves behind. *)
Class KeyStoreLaws (S : KeyStore) : Prop := {
  put_spec : forall id s k r k', kwf k -> put id s k = (r, k') ->
    kwf k' /\ forall j, view k' j = if is_ok r && bool_decide (j = id) then Some s else view k j;
  get_spec : forall id k o, kwf k -> get id k = Ok o -> o = view k id;
  remove_spec : forall id k r k', kwf k -> remove id k = (r, k') ->
    kwf k' /\ forall j, view k' j = if is_ok r && bool_decide (j = id) then None else view k j;
}.

(** ** The map of the tests *)

Record InMemoryKeyStore := mkInMemory { inner : gmap str secret; poisoned : bool }.

Definition InMemoryKeyStore_new : InMemoryKeyStore := mkInMemory ∅ false.

Definition poison_error : SecretError := SecretBackend (lit "in-memory store mutex poisoned: poisoned lock: another task failed inside").

Definition in_memory_put (id : str) (s : secret) (k : InMemoryKeyStore) : result unit SecretError * InMemoryKeyStore :=
  if poisoned k then (Err poison_error, k) else (Ok tt, mkInMemory (<[id := s]> (inner k)) false).

Definition in_memory_get (id : str) (k : InMemoryKeyStore) : result (option secret) SecretError :=
  if poisoned k then Err poison_error else Ok (inner k !! id).

Definition in_memory_remove (id : str) (k : InMemoryKeyStore) : result unit SecretError * InMemoryKeyStore :=
  if poisoned k then (Err poison_error, k) else (Ok tt, mkInMemory (delete id (inner k)) false).

#[export] Instance InMemory : KeyStore := {|
  KState := InMemoryKeyStore;
  put := in_memory_put;
  get := in_memory_get;
  remove := in_memory_remove;
  view k id := inner k !! id;
  kwf _ := True;
|}.

(** ** The kernel keyring *)

Inductive KeyError := KeyDoesNotExist | KeyRevoked | KeyExpired | KeyFault (name : str).

(** The crate linux-keyutils: a keyring, the keys [search] finds in it, and what is live in it under a description. *)
Class Keyutils := {
  KeyRing : Type;
  Key : Type;
  add_key : str -> secret -> KeyRing -> result unit KeyError * KeyRing;
  search : str -> KeyRing -> result Key KeyError;
  read_to_vec : Key -> KeyRing -> result secret KeyError;
  invalidate : Key -> KeyRing -> result unit KeyError * KeyRing;
  key_error_text : KeyError -> str;
  live : KeyRing -> str -> option secret;
}.

(** The errors that say that there is no such key. *)
Definition gone (e : KeyError) : bool :=
  match e with KeyDoesNotExist | KeyRevoked | KeyExpired => true | KeyFault _ => false end.

(** keyctl(2): [add_key] adds or updates, a key that is found is the live one, an invalidated key is not live, a call that
    fails changes nothing. *)
Class KeyutilsLaws (K : Keyutils) : Prop := {
  add_key_spec : forall d s r o r', add_key d s r = (o, r') ->
    forall d', live r' d' = if is_ok o && bool_decide (d' = d) then Some s else live r d';
  search_gone : forall d r e, search d r = Err e -> gone e = true -> live r d = None;
  read_spec : forall d r k s, search d r = Ok k -> read_to_vec k r = Ok s -> live r d = Some s;
  read_gone : forall d r k e, search d r = Ok k -> read_to_vec k r = Err e -> gone e = true -> live r d = None;
  invalidate_spec : forall d r k o r', search d r = Ok k -> invalidate k r = (o, r') ->
    (forall d', live r' d' = if is_ok o && bool_decide (d' = d) then None else live r d') /\
    (forall e, o = Err e -> gone e = true -> live r d = None);
}.

Section kernel.
Context `{KU : Keyutils}.

Definition description_for (id : str) : str := KEYRING_ID_PREFIX ++ id.

Definition map_key_error (err : KeyError) : SecretError := SecretBackend (lit "kernel keyring: " ++ key_error_text err).

Definition kernel_probe (opened : result KeyRing KeyError) : bool :=
  match opened with
  | Err _ => false
  | Ok ring =>
      match search PROBE_DESCRIPTION ring with
      | Err KeyDoesNotExist => true
      | Err _ => false
      | Ok _ => true
      end
  end.

Definition kernel_open (opened : result KeyRing KeyError) : result KeyRing SecretError := map_err map_key_error opened.

Definition kernel_put (id : str) (s : secret) (ring : KeyRing) : result unit SecretError * KeyRing :=
  let '(o, ring) := add_key (description_for id) s ring in (map_err map_key_error o, ring).

Definition kernel_get (id : str) (ring : KeyRing) : result (option secret) SecretError :=
  match search (description_for id) ring with
  | Ok key =>
      match read_to_vec key ring with
      | Ok raw => Ok (Some raw)
      | Err err => if gone err then Ok None else Err (map_key_error err)
      end
  | Err err => if gone err then Ok None else Err (map_key_error err)
  end.

Definition kernel_remove (id : str) (ring : KeyRing) : result unit SecretError * KeyRing :=
  match search (description_for id) ring with
  | Ok key =>
      match invalidate key ring with
      | (Ok _, ring) => (Ok tt, ring)
      | (Err err, ring) => if gone err then (Ok tt, ring) else (Err (map_key_error err), ring)
      end
  | Err err => if gone err then (Ok tt, ring) else (Err (map_key_error err), ring)
  end.

#[export] Instance KernelKeyring : KeyStore := {|
  KState := KeyRing;
  put := kernel_put;
  get := kernel_get;
  remove := kernel_remove;
  view ring id := live ring (description_for id);
  kwf _ := True;
|}.
End kernel.

(** ** The Secret Service *)

Notation attributes := (gmap str str).

(** The crate secret-service: the collection is a finite map from items to their attributes and secret.  [connect] and the
    default collection may be missing. *)
Class SecretServiceApi := {
  Ss : Type;
  Item : Type;
  ss_connect : Ss -> result unit str;
  ss_default_collection : Ss -> result unit str;
  create_item : str -> attributes -> secret -> bool -> str -> Ss -> result unit str * Ss;
  search_items : attributes -> Ss -> result (list Item) str;
  get_secret : Item -> Ss -> result secret str;
  item_delete : Item -> Ss -> result unit str * Ss;
  #[global] item_eq_dec :: EqDecision Item;
  #[global] item_countable :: Countable Item;
  items : Ss -> gmap Item (attributes * secret);
}.

(** The Secret Service specification: a search finds the items that have all the attributes; [CreateItem] with [replace]
    replaces an item that has the same attributes; a call that fails changes nothing. *)
Class SecretServiceLaws (A : SecretServiceApi) : Prop := {
  create_spec : forall label a s ct x o x', create_item label a s true ct x = (o, x') ->
    if is_ok o
    then exists i, items x' = <[i := (a, s)]> (items x) /\
           match items x !! i with
           | Some (a', _) => a' = a
           | None => forall j a' s', items x !! j = Some (a', s') -> a' <> a
           end
    else items x' = items x;
  search_spec : forall a x l, search_items a x = Ok l ->
    NoDup l /\ forall i, i ∈ l <-> exists a' s, items x !! i = Some (a', s) /\ a ⊆ a';
  get_secret_spec : forall i x s, get_secret i x = Ok s -> exists a, items x !! i = Some (a, s);
  delete_spec : forall i x o x', item_delete i x = (o, x') -> items x' = if is_ok o then delete i (items x) else items x;
}.

Section service.
Context `{SA : SecretServiceApi}.

Definition attributes_for (id : str) : attributes :=
  <[SECRET_SERVICE_ATTR_ID := id]> (<[SECRET_SERVICE_ATTR_KIND := SECRET_SERVICE_ATTR_KIND_VALUE]> ∅).

Definition map_ss_error (err : str) : SecretError := SecretBackend (lit "libsecret: " ++ err).

Definition service_probe (x : Ss) : bool :=
  match ss_connect x with
  | Err _ => false
  | Ok _ => is_ok (ss_default_collection x)
  end.

(** The two calls every operation begins with. *)
Definition open_collection (x : Ss) : result unit SecretError :=
  let? _ := map_err map_ss_error (ss_connect x) in
  map_err map_ss_error (ss_default_collection x).

Definition service_put (id : str) (s : secret) (x : Ss) : result unit SecretError * Ss :=
  match open_collection x with
  | Err e => (Err e, x)
  | Ok _ =>
      let label := SECRET_SERVICE_COLLECTION ++ lit ": " ++ id in
      let '(o, x) := create_item label (attributes_for id) s true SECRET_SERVICE_CONTENT_TYPE x in
      (map_err map_ss_error o, x)
  end.

Definition service_get (id : str) (x : Ss) : result (option secret) SecretError :=
  let? _ := open_collection x in
  let? found := map_err map_ss_error (search_items (attributes_for id) x) in
  match found with
  | [] => Ok None
  | item :: _ => let? raw := map_err map_ss_error (get_secret item x) in Ok (Some raw)
  end.

Fixpoint delete_items (l : list Item) (x : Ss) : result unit SecretError * Ss :=
  match l with
  | [] => (Ok tt, x)
  | item :: l =>
      match item_delete item x with
      | (Err e, x) => (Err (map_ss_error e), x)
      | (Ok _, x) => delete_items l x
      end
  end.

Definition service_remove (id : str) (x : Ss) : result unit SecretError * Ss :=
  match open_collection x with
  | Err e => (Err e, x)
  | Ok _ =>
      match search_items (attributes_for id) x with
      | Err e => (Err (map_ss_error e), x)
      | Ok found => delete_items found x
      end
  end.

(** The items under an identifier. *)
Definition matching (x : Ss) (id : str) : list (Item * (attributes * secret)) :=
  filter (fun p => attributes_for id ⊆ p.2.1) (map_to_list (items x)).

Definition service_view (x : Ss) (id : str) : option secret :=
  match matching x id with p :: _ => Some p.2.2 | [] => None end.

(** Only this program gives items its attributes, and one item for an identifier. *)
Definition service_wf (x : Ss) : Prop :=
  forall id i a s, items x !! i = Some (a, s) -> attributes_for id ⊆ a ->
    a = attributes_for id /\ forall j s', items x !! j = Some (attributes_for id, s') -> j = i.

#[export] Instance SecretService : KeyStore := {|
  KState := Ss;
  put := service_put;
  get := service_get;
  remove := service_remove;
  view := service_view;
  kwf := service_wf;
|}.
End service.

(** ** The choice *)

Inductive BackendKind := BackendKernel | BackendSecretService | BackendInMemory.

Section detect.
Context `{KU : Keyutils, SA : SecretServiceApi}.

(** [Box<dyn KeyStore>] *)
Inductive DynStore := DynKernel (ring : KeyRing) | DynService (x : Ss) | DynMemory (k : InMemoryKeyStore).

Definition kind_of (d : DynStore) : BackendKind :=
  match d with DynKernel _ => BackendKernel | DynService _ => BackendSecretService | DynMemory _ => BackendInMemory end.

Definition dyn_put (id : str) (s : secret) (d : DynStore) : result unit SecretError * DynStore :=
  match d with
  | DynKernel ring => let '(o, ring) := put (KeyStore := KernelKeyring) id s ring in (o, DynKernel ring)
  | DynService x => let '(o, x) := put (KeyStore := SecretService) id s x in (o, DynService x)
  | DynMemory k => let '(o, k) := put (KeyStore := InMemory) id s k in (o, DynMemory k)
  end.

Definition dyn_get (id : str) (d : DynStore) : result (option secret) SecretError :=
  match d with
  | DynKernel ring => get (KeyStore := KernelKeyring) id ring
  | DynService x => get (KeyStore := SecretService) id x
  | DynMemory k => get (KeyStore := InMemory) id k
  end.

Definition dyn_remove (id : str) (d : DynStore) : result unit SecretError * DynStore :=
  match d with
  | DynKernel ring => let '(o, ring) := remove (KeyStore := KernelKeyring) id ring in (o, DynKernel ring)
  | DynService x => let '(o, x) := remove (KeyStore := SecretService) id x in (o, DynService x)
  | DynMemory k => let '(o, k) := remove (KeyStore := InMemory) id k in (o, DynMemory k)
  end.

#[export] Instance Dyn : KeyStore := {|
  KState := DynStore;
  put := dyn_put;
  get := dyn_get;
  remove := dyn_remove;
  view d id :=
    match d with
    | DynKernel ring => view (KeyStore := KernelKeyring) ring id
    | DynService x => view (KeyStore := SecretService) x id
    | DynMemory k => view (KeyStore := InMemory) k id
    end;
  kwf d :=
    match d with
    | DynKernel ring => kwf (KeyStore := KernelKeyring) ring
    | DynService x => kwf (KeyStore := SecretService) x
    | DynMemory k => kwf (KeyStore := InMemory) k
    end;
|}.

(** On Linux.  [probed] and [opened] are the two attempts to open the session keyring; the lines that are logged. *)
Definition detect_with_logger (probed opened : result KeyRing KeyError) (x : Ss) : result DynStore SecretError * list str :=
  if kernel_probe probed then
    match kernel_open opened with
    | Err e => (Err e, [])
    | Ok ring => (Ok (DynKernel ring), [LOG_LINE_KERNEL])
    end
  else if service_probe x then (Ok (DynService x), [LOG_LINE_SECRET_SERVICE])
  else (Err SecretNotImplemented, []).
End detect.

(** ** The implementations keep the contract *)

#[export] Instance InMemory_laws : KeyStoreLaws InMemory.
Proof.
  split; cbn; unfold in_memory_put, in_memory_get, in_memory_remove.
  - intros id s k r k' _. destruct (poisoned k); intros [= <- <-]; cbn; (split; [done |]); intros j; [done |].
    case_bool_decide; subst; [apply lookup_insert_eq | by apply lookup_insert_ne].
  - intros id k o _. destruct (poisoned k); [done | by intros [= <-]].
  - intros id k r k' _. destruct (poisoned k); intros [= <- <-]; cbn; (split; [done |]); intros j; [done |].
    case_bool_decide; subst; [apply lookup_delete_eq | by apply lookup_delete_ne].
Qed.

Section kernel_laws.
Context `{KU : Keyutils, !KeyutilsLaws KU}.

Lemma description_inj id j : description_for j = description_for id <-> j = id.
Proof using. unfold description_for. split; [apply app_inv_head | by intros ->]. Qed.

Lemma description_decide id j : bool_decide (description_for j = description_for id) = bool_decide (j = id).
Proof using. apply bool_decide_ext, description_inj. Qed.

Lemma is_ok_map_err {A E F} (f : E -> F) (r : result A E) : is_ok (map_err f r) = is_ok r.
Proof using. by destruct r. Qed.

#[export] Instance KernelKeyring_laws : KeyStoreLaws KernelKeyring.
Proof using KeyutilsLaws0.
  split; cbn -[description_for]; unfold kernel_put, kernel_get, kernel_remove.
  - intros id s k r k' _. destruct (add_key _ _ _) as [o ring] eqn:E. intros [= <- <-]. split; [done |]. intros j.
    by rewrite (add_key_spec _ _ _ _ _ E), is_ok_map_err, description_decide.
  - intros id k o _. destruct (search _ k) as [key | err] eqn:Es.
    + destruct (read_to_vec key k) as [raw | err] eqn:Er; [intros [= <-]; symmetry; by apply (read_spec _ _ _ _ Es) |].
      destruct (gone err) eqn:Eg; [| done]. intros [= <-]. symmetry. by apply (read_gone _ _ _ _ Es Er).
    + destruct (gone err) eqn:Eg; [| done]. intros [= <-]. symmetry. by apply (search_gone _ _ _ Es).
  - intros id k r k' _. destruct (search _ k) as [key | err] eqn:Es.
    + destruct (invalidate key k) as [o ring] eqn:Ei. destruct (invalidate_spec _ _ _ _ _ Es Ei) as [Hl Hg].
      destruct o as [[] | err]; [intros [= <- <-]; split; [done |]; intros j; by rewrite Hl, description_decide |].
      destruct (gone err) eqn:Eg; intros [= <- <-]; (split; [done |]); intros j; rewrite Hl; [| done].
      cbn -[description_for]. case_bool_decide as Hj; [| done]. subst. by apply (Hg err).
    + destruct (gone err) eqn:Eg; intros [= <- <-]; (split; [done |]); intros j; [| done].
      cbn -[description_for]. case_bool_decide as Hj; [| done]. subst. by apply (search_gone _ _ _ Es).
Qed.

(** Keys of other programs stay as they are. *)
Lemma kernel_foreign id s ring d : (forall j, d <> description_for j) ->
  live (kernel_put id s ring).2 d = live ring d /\ live (kernel_remove id ring).2 d = live ring d.
Proof using KeyutilsLaws0.
  intros Hd. unfold kernel_put, kernel_remove. split.
  - destruct (add_key _ _ _) as [o r'] eqn:E. cbn. rewrite (add_key_spec _ _ _ _ _ E). by rewrite bool_decide_false, andb_false_r.
  - destruct (search _ ring) as [key | err] eqn:Es; [| by destruct (gone err)].
    destruct (invalidate key ring) as [o r'] eqn:Ei. destruct (invalidate_spec _ _ _ _ _ Es Ei) as [Hl _].
    destruct o as [[] | err]; [| destruct (gone err)]; cbn; rewrite Hl; by rewrite bool_decide_false, ?andb_false_r.
Qed.
End kernel_laws.

Section service_laws.
Context `{SA : SecretServiceApi, !SecretServiceLaws SA}.

Lemma attributes_inj id j : attributes_for j ⊆ attributes_for id -> j = id.
Proof using.
  intros H. assert (E : attributes_for id !! SECRET_SERVICE_ATTR_ID = Some j).
  { eapply lookup_weaken; [apply lookup_insert_eq | exact H]. }
  unfold attributes_for in E. rewrite lookup_insert_eq in E. by injection E.
Qed.

Lemma in_matching x id i a s : (i, (a, s)) ∈ matching x id <-> items x !! i = Some (a, s) /\ attributes_for id ⊆ a.
Proof using. unfold matching. rewrite list_elem_of_filter, elem_of_map_to_list. cbn. tauto. Qed.

(** The secret an identifier has. *)
Lemma view_some x id s : service_wf x ->
  service_view x id = Some s <-> exists i, items x !! i = Some (attributes_for id, s).
Proof using.
  intros Hwf. unfold service_view. destruct (matching x id) as [| [i [a s']] l] eqn:E.
  - split; [done |]. intros [i Hi]. assert (H : (i, (attributes_for id, s)) ∈ matching x id) by (by apply in_matching).
    rewrite E in H. by apply not_elem_of_nil in H.
  - assert (H : (i, (a, s')) ∈ matching x id) by (rewrite E; left). apply in_matching in H as [Hi Ha].
    destruct (Hwf id i a s' Hi Ha) as [-> Hu]. cbn. split; [intros [= <-]; by exists i |].
    intros [j Hj]. rewrite (Hu j s Hj) in Hj. congruence.
Qed.

Lemma secret_view_none x id : service_wf x ->
  service_view x id = None <-> forall i s, items x !! i <> Some (attributes_for id, s).
Proof using.
  intros Hwf. split.
  - intros Hn i s Hi. assert (H : service_view x id = Some s) by (apply view_some; [done | by exists i]). congruence.
  - intros H. destruct (service_view x id) as [s |] eqn:E; [| done]. apply view_some in E as [i Hi]; [| done]. by apply H in Hi.
Qed.

(** Two collections whose items under every identifier agree but for one. *)
Lemma view_same x x' j : service_wf x -> service_wf x' ->
  (forall s, (exists i, items x' !! i = Some (attributes_for j, s)) <-> (exists i, items x !! i = Some (attributes_for j, s))) ->
  service_view x' j = service_view x j.
Proof using.
  intros Hw Hw' H. destruct (service_view x j) as [s |] eqn:E.
  - apply view_some; [done |]. apply H. by apply view_some.
  - apply secret_view_none; [done |]. intros i s Hi.
    assert (Hx : exists i', items x !! i' = Some (attributes_for j, s)) by (apply H; by exists i).
    destruct Hx as [i' Hi']. by apply (proj1 (secret_view_none x j Hw) E i' s).
Qed.

Lemma wf_subseteq x x' : items x' ⊆ items x -> service_wf x -> service_wf x'.
Proof using.
  intros Hs Hwf id i a s Hi Ha. apply (lookup_weaken _ _ _ _ Hi) in Hs as Hi'. destruct (Hwf id i a s Hi' Ha) as [-> Hu].
  split; [done |]. intros j s' Hj. apply (Hu j s'). by eapply lookup_weaken.
Qed.

Lemma view_equal x x' j : items x' = items x -> service_view x' j = service_view x j.
Proof using. intros E. unfold service_view, matching. by rewrite E. Qed.

(** One item was created or replaced under [id]. *)
Lemma wf_create x x' id i s : service_wf x -> items x' = <[i := (attributes_for id, s)]> (items x) ->
  match items x !! i with
  | Some (a', _) => a' = attributes_for id
  | None => forall j a' s', items x !! j = Some (a', s') -> a' <> attributes_for id
  end ->
  service_wf x' /\ (forall j s', items x !! j = Some (attributes_for id, s') -> j = i).
Proof using.
  intros Hwf E Hi. assert (Hid : forall j s', items x !! j = Some (attributes_for id, s') -> j = i).
  { intros j s' Hj. destruct (items x !! i) as [[a0 s0] |] eqn:E0; [| by apply Hi in Hj].
    subst a0. by destruct (Hwf id i _ _ E0 (reflexivity _)) as [_ Hu]; apply (Hu j s'). }
  split; [| exact Hid]. intros id' k a s0 Hk Ha. rewrite E in Hk |- *.
  apply lookup_insert_Some in Hk as [[<- [= <- <-]] | [Hne Hk]].
  - apply attributes_inj in Ha as ->. split; [done |]. intros j s' Hj.
    apply lookup_insert_Some in Hj as [[-> _] | [_ Hj]]; [done | by apply (Hid j s')].
  - destruct (Hwf id' k a s0 Hk Ha) as [-> Hu]. split; [done |]. intros j s' Hj.
    apply lookup_insert_Some in Hj as [[<- Heq%(f_equal fst)] | [_ Hj]]; [| by apply (Hu j s')].
    cbn [fst] in Heq. rewrite <- Heq in Hk. by apply Hid in Hk.
Qed.

Lemma view_create x x' id i s : service_wf x -> service_wf x' -> items x' = <[i := (attributes_for id, s)]> (items x) ->
  (forall j s', items x !! j = Some (attributes_for id, s') -> j = i) ->
  (forall a0 s0, items x !! i = Some (a0, s0) -> a0 = attributes_for id) ->
  forall j, service_view x' j = if bool_decide (j = id) then Some s else service_view x j.
Proof using.
  intros Hw Hw' E Hid Hi j. case_bool_decide as Hj.
  - subst j. apply view_some; [done |]. exists i. by rewrite E, lookup_insert_eq.
  - apply view_same; [done | done |]. intros s'. assert (Hne : attributes_for j <> attributes_for id).
    { intros H. apply Hj, attributes_inj. by rewrite H. }
    split; intros [k Hk]; exists k; rewrite E in *.
    + apply lookup_insert_Some in Hk as [[_ H%(f_equal fst)] | [_ Hk]]; [by destruct Hne | done].
    + rewrite lookup_insert_ne; [done |]. intros ->. by apply Hi in Hk.
Qed.

Lemma view_delete x x' id i s : service_wf x -> items x !! i = Some (attributes_for id, s) -> items x' = delete i (items x) ->
  service_wf x' /\ forall j, service_view x' j = if bool_decide (j = id) then None else service_view x j.
Proof using.
  intros Hw Hi E. assert (Hw' : service_wf x') by (eapply wf_subseteq; [rewrite E; apply delete_subseteq | done]).
  split; [done |]. intros j. case_bool_decide as Hj.
  - subst j. apply secret_view_none; [done |]. intros k s' Hk. rewrite E in Hk. apply lookup_delete_Some in Hk as [Hne Hk].
    destruct (Hw id i _ _ Hi (reflexivity _)) as [_ Hu]. by apply Hne, eq_sym, (Hu k s').
  - apply view_same; [done | done |]. intros s'. split; intros [k Hk]; exists k; rewrite E in *.
    + by apply lookup_delete_Some in Hk as [_ Hk].
    + apply lookup_delete_Some. split; [| done]. intros <-. rewrite Hi in Hk. apply Hj, attributes_inj.
      assert (Ha : attributes_for id = attributes_for j) by congruence. by rewrite Ha.
Qed.

(** A search under an identifier finds its item or nothing. *)
Lemma search_one x id l : service_wf x -> search_items (attributes_for id) x = Ok l ->
  match l with
  | [] => service_view x id = None
  | [i] => exists s, items x !! i = Some (attributes_for id, s)
  | _ => False
  end.
Proof using SecretServiceLaws0.
  intros Hw Hs. apply search_spec in Hs as [Hnd Hin].
  assert (Hx : forall i, i ∈ l -> exists s, items x !! i = Some (attributes_for id, s)).
  { intros i (a & s & Hi & Ha)%Hin. destruct (Hw id i a s Hi Ha) as [-> _]. by exists s. }
  destruct l as [| i [| j l]].
  - apply secret_view_none; [done |]. intros i s Hi. assert (H : i ∈ []) by (apply Hin; by exists (attributes_for id), s). by apply not_elem_of_nil in H.
  - apply Hx. left.
  - destruct (Hx i) as [s Hi]; [left |]. destruct (Hx j) as [s' Hj]; [right; left |].
    destruct (Hw id i _ _ Hi (reflexivity _)) as [_ Hu]. apply NoDup_cons in Hnd as [Hnd _]. apply Hnd. rewrite (Hu j s' Hj). left.
Qed.

#[export] Instance SecretService_laws : KeyStoreLaws SecretService.
Proof using SecretServiceLaws0.
  split; cbn -[attributes_for service_view]; unfold service_put, service_get, service_remove.
  - intros id s k r k' Hw. destruct (open_collection k); [| by intros [= <- <-]].
    destruct (create_item _ _ _ _ _ _) as [o x'] eqn:E. intros [= <- <-]. apply create_spec in E. rewrite is_ok_map_err.
    destruct (is_ok o); cbn [andb].
    + destruct E as (i & E & Hi). destruct (wf_create _ _ _ _ _ Hw E Hi) as [Hw' Hid]. split; [done |].
      apply (view_create _ _ _ _ _ Hw Hw' E Hid). intros a0 s0 Ha. by rewrite Ha in Hi.
    + split; [eapply wf_subseteq; [by rewrite E | done] |]. intros j. by apply view_equal.
  - intros id k o Hw. destruct (open_collection k); cbn [rbind]; [| done].
    destruct (search_items _ k) as [l |] eqn:E; cbn [map_err rbind]; [| done]. apply (search_one _ _ _ Hw) in E.
    destruct l as [| i [| ? ?]]; [by intros [= <-] | | done]. destruct E as [s Hi].
    destruct (get_secret i k) as [s' |] eqn:Eg; cbn [map_err rbind]; [| done]. intros [= <-]. apply get_secret_spec in Eg as [at_ Ha].
    symmetry. apply view_some; [done |]. exists i. congruence.
  - intros id k r k' Hw. destruct (open_collection k); [| by intros [= <- <-]].
    destruct (search_items _ k) as [l |] eqn:E; [| by intros [= <- <-]]. apply (search_one _ _ _ Hw) in E.
    destruct l as [| i [| ? ?]]; [| | done]; cbn [delete_items].
    + intros [= <- <-]. split; [done |]. intros j. cbn. case_bool_decide; by subst.
    + destruct E as [s Hi]. destruct (item_delete i k) as [o x'] eqn:Ed. apply delete_spec in Ed.
      destruct o as [[] | e]; cbn in Ed; intros [= <- <-]; cbn [is_ok andb].
      * by apply (view_delete _ _ _ _ _ Hw Hi).
      * split; [eapply wf_subseteq; [by rewrite Ed | done] |]. intros j. by apply view_equal.
Qed.
End service_laws.

#[export] Instance Dyn_laws `{KU : Keyutils, SA : SecretServiceApi, !KeyutilsLaws KU, !SecretServiceLaws SA} : KeyStoreLaws Dyn.
Proof.
  split.
  - intros id s [ring | x | m] r k' Hw; unfold put, Dyn, dyn_put.
    + destruct (put (KeyStore := KernelKeyring) id s ring) as [o k0] eqn:E. intros [= <- <-].
      exact (put_spec (S := KernelKeyring) _ _ _ _ _ Hw E).
    + destruct (put (KeyStore := SecretService) id s x) as [o k0] eqn:E. intros [= <- <-].
      exact (put_spec (S := SecretService) _ _ _ _ _ Hw E).
    + destruct (put (KeyStore := InMemory) id s m) as [o k0] eqn:E. intros [= <- <-].
      exact (put_spec (S := InMemory) _ _ _ _ _ Hw E).
  - intros id [ring | x | m] o Hw H; [exact (get_spec (S := KernelKeyring) _ _ _ Hw H) | exact (get_spec (S := SecretService) _ _ _ Hw H) |
      exact (get_spec (S := InMemory) _ _ _ Hw H)].
  - intros id [ring | x | m] r k' Hw; unfold remove, Dyn, dyn_remove.
    + destruct (remove (KeyStore := KernelKeyring) id ring) as [o k0] eqn:E. intros [= <- <-].
      exact (remove_spec (S := KernelKeyring) _ _ _ _ Hw E).
    + destruct (remove (KeyStore := SecretService) id x) as [o k0] eqn:E. intros [= <- <-].
      exact (remove_spec (S := SecretService) _ _ _ _ Hw E).
    + destruct (remove (KeyStore := InMemory) id m) as [o k0] eqn:E. intros [= <- <-].
      exact (remove_spec (S := InMemory) _ _ _ _ Hw E).
Qed.

(** ** A store is a finite map *)

Inductive secret_op := OpPut (id : str) (s : secret) | OpGet (id : str) | OpRemove (id : str).

(** What a map answers, and the map afterwards. *)
Definition map_op (op : secret_op) (m : gmap str secret) : option secret * gmap str secret :=
  match op with
  | OpPut id s => (None, <[id := s]> m)
  | OpGet id => (m !! id, m)
  | OpRemove id => (None, delete id m)
  end.

(** The answers are those of the map; a call that failed did nothing. *)
Fixpoint follows (m : gmap str secret) (ops : list secret_op) (rs : list (result (option secret) SecretError)) (m' : gmap str secret) : Prop :=
  match ops, rs with
  | [], [] => m' = m
  | op :: ops, Ok a :: rs => a = (map_op op m).1 /\ follows (map_op op m).2 ops rs m'
  | _ :: ops, Err _ :: rs => follows m ops rs m'
  | _, _ => False
  end.

Section store.
Context `{S : KeyStore, !KeyStoreLaws S}.

Definition store_op (op : secret_op) (k : KState) : result (option secret) SecretError * KState :=
  match op with
  | OpPut id s => let '(r, k) := put id s k in (match r with Ok _ => Ok None | Err e => Err e end, k)
  | OpGet id => (get id k, k)
  | OpRemove id => let '(r, k) := remove id k in (match r with Ok _ => Ok None | Err e => Err e end, k)
  end.

Fixpoint store_ops (ops : list secret_op) (k : KState) : list (result (option secret) SecretError) * KState :=
  match ops with
  | [] => ([], k)
  | op :: ops =>
      let '(r, k) := store_op op k in
      let '(rs, k) := store_ops ops k in
      (r :: rs, k)
  end.

Definition stands_for (k : KState) (m : gmap str secret) : Prop := kwf k /\ forall id, view k id = m !! id.

Lemma store_op_simulates op k m r k' : stands_for k m -> store_op op k = (r, k') ->
  match r with
  | Ok a => a = (map_op op m).1 /\ stands_for k' (map_op op m).2
  | Err _ => stands_for k' m
  end.
Proof using KeyStoreLaws0.
  intros [Hw Hv]. destruct op as [id s | id | id]; cbn.
  - destruct (put id s k) as [o k0] eqn:E. intros [= <- <-]. destruct (put_spec _ _ _ _ _ Hw E) as [Hw' Hv'].
    destruct o; cbn in Hv'; (split; [try done |]); [split; [done |] |]; intros j; rewrite Hv', Hv; [| done].
    case_bool_decide; subst; [by rewrite lookup_insert_eq | by rewrite lookup_insert_ne].
  - intros [= <- <-]. destruct (get id k) as [o |] eqn:E; [| by split]. rewrite (get_spec _ _ _ Hw E), Hv. by repeat split.
  - destruct (remove id k) as [o k0] eqn:E. intros [= <- <-]. destruct (remove_spec _ _ _ _ Hw E) as [Hw' Hv'].
    destruct o; cbn in Hv'; (split; [try done |]); [split; [done |] |]; intros j; rewrite Hv', Hv; [| done].
    case_bool_decide; subst; [by rewrite lookup_delete_eq | by rewrite lookup_delete_ne].
Qed.

Lemma store_refines ops : forall k m rs k', stands_for k m -> store_ops ops k = (rs, k') ->
  exists m', follows m ops rs m' /\ stands_for k' m'.
Proof using KeyStoreLaws0.
  induction ops as [| op ops IH]; intros k m rs k' Hs; cbn [store_ops].
  - intros [= <- <-]. by exists m.
  - destruct (store_op op k) as [r k1] eqn:E1. destruct (store_ops ops k1) as [rs1 k2] eqn:E2. intros [= <- <-].
    apply (store_op_simulates _ _ _ _ _ Hs) in E1. destruct r as [a | e].
    + destruct E1 as [-> H1]. destruct (IH _ _ _ _ H1 E2) as (m' & Hf & Hm). by exists m'.
    + destruct (IH _ _ _ _ E1 E2) as (m' & Hf & Hm). by exists m'.
Qed.
End store.

(** ** Theorems *)

Section theorems.
Context `{KU : Keyutils, SA : SecretServiceApi, !KeyutilsLaws KU, !SecretServiceLaws SA}.

(** C28: The store that [detect] chooses is a finite map from identifiers to secrets: whatever sequence of [put], [get] and [remove]
    follows, every call that succeeds answers as the map does and every call that fails leaves it as it was.  The kernel
    keyring is chosen if it can be probed, the Secret Service only if not, the map of the tests never; one
    line that names the choice is logged.  It is assumed of the start that the store stands for some map
    ([stands_for]): no one else gives items of the Secret Service this program's attributes, and
    there is one item for an identifier. *)
Theorem detected_store_is_a_map (probed opened : result KeyRing KeyError) (x : Ss) (store : DynStore) (log : list str)
  (m : gmap str secret) (ops : list secret_op) (rs : list (result (option secret) SecretError)) (store' : DynStore)
  (Hd : detect_with_logger probed opened x = (Ok store, log)) (Hm : stands_for (S := Dyn) store m)
  (Hr : store_ops (S := Dyn) ops store = (rs, store')) :
  (exists m', follows m ops rs m' /\ stands_for (S := Dyn) store' m') /\
  (kind_of store, log) = (if kernel_probe probed then (BackendKernel, [LOG_LINE_KERNEL]) else (BackendSecretService, [LOG_LINE_SECRET_SERVICE])).
Proof using KeyutilsLaws0 SecretServiceLaws0.
  split; [by apply (store_refines (S := Dyn) ops store m rs store' Hm) |].
  unfold detect_with_logger in Hd. destruct (kernel_probe probed).
  - destruct (kernel_open opened); [| done]. by injection Hd as <- <-.
  - destruct (service_probe x); [| done]. by injection Hd as <- <-.
Qed.

(** The store stays among its own: no [put] or [remove] changes a key of the keyring that is not under the prefix, or an item of
    the collection that does not have the attributes of that identifier. *)
Theorem secrets_leave_others_alone (id : str) (s : secret) (ring : KeyRing) (d : str) (x : Ss) (i : Item) (a : attributes) (v : secret)
  (Hd : forall j, d <> description_for j) (Hw : service_wf x) (Hi : items x !! i = Some (a, v)) (Ha : a <> attributes_for id) :
  live (kernel_put id s ring).2 d = live ring d /\ live (kernel_remove id ring).2 d = live ring d /\
  items (service_put id s x).2 !! i = Some (a, v) /\ items (service_remove id x).2 !! i = Some (a, v).
Proof using KeyutilsLaws0 SecretServiceLaws0.
  destruct (kernel_foreign id s ring d Hd) as [-> ->]. do 2 (split; [done |]). split.
  - unfold service_put. destruct (open_collection x); [| done]. destruct (create_item _ _ _ _ _ _) as [o x'] eqn:E.
    apply create_spec in E. cbn. destruct (is_ok o); [| by rewrite E]. destruct E as (j & -> & Hj).
    rewrite lookup_insert_ne; [done |]. intros ->. by rewrite Hi in Hj.
  - unfold service_remove. destruct (open_collection x); [| done]. destruct (search_items _ x) as [l |] eqn:E; [| done].
    apply (search_one _ _ _ Hw) in E. destruct l as [| j [| ? ?]]; [done | | done]. destruct E as [s' Hj]. cbn [delete_items].
    destruct (item_delete j x) as [o x'] eqn:Ed. apply delete_spec in Ed. assert (Hne : j <> i) by (intros ->; congruence).
    destruct o as [[] | e]; cbn in *; rewrite Ed; [by rewrite lookup_delete_ne | done].
Qed.
End theorems.

(** ** A keyring and a collection that work *)

Module ToySecrets.

#[export] Instance toy_keyring : Keyutils := {|
  KeyRing := gmap str secret;
  Key := str;
  add_key d s r := (Ok tt, <[d := s]> r);
  search d r := if decide (is_Some (r !! d)) then Ok d else Err KeyDoesNotExist;
  read_to_vec k r := match r !! k with Some s => Ok s | None => Err KeyRevoked end;
  invalidate k r := (Ok tt, delete k r);
  key_error_text _ := lit "no key";
  live r d := r !! d;
|}.

#[export] Instance toy_keyring_laws : KeyutilsLaws toy_keyring.
Proof.
  split; cbn.
  - intros d s r o r' [= <- <-] d'. cbn. case_bool_decide; subst; [apply lookup_insert_eq | by apply lookup_insert_ne].
  - intros d r e. case_decide as Hs; [done |]. intros _ _. destruct (r !! d) eqn:E; [| done]. destruct Hs. by eexists.
  - intros d r k s. case_decide; [| done]. intros [= <-]. destruct (r !! d); [by intros [= <-] | done].
  - intros d r k e. case_decide; [| done]. intros [= <-]. by destruct (r !! d).
  - intros d r k o r'. case_decide; [| done]. intros [= <-] [= <- <-]. split; [| done]. intros d'. cbn.
    case_bool_decide; subst; [apply lookup_delete_eq | by apply lookup_delete_ne].
Qed.

(** The place of an item with these attributes, or a new one. *)
Definition toy_place (a : attributes) (x : gmap nat (attributes * secret)) : nat :=
  match filter (fun p => p.2.1 = a) (map_to_list x) with
  | p :: _ => p.1
  | [] => fresh (dom x)
  end.

#[export] Instance toy_service : SecretServiceApi := {|
  Ss := gmap nat (attributes * secret);
  Item := nat;
  ss_connect _ := Ok tt;
  ss_default_collection _ := Ok tt;
  create_item label a s replace ct x := (Ok tt, <[if replace then toy_place a x else fresh (dom x) := (a, s)]> x);
  search_items a x := Ok (filter (fun p => a ⊆ p.2.1) (map_to_list x)).*1;
  get_secret i x := match x !! i with Some (_, s) => Ok s | None => Err (lit "no item") end;
  item_delete i x := (Ok tt, delete i x);
  items x := x;
|}.

#[export] Instance toy_service_laws : SecretServiceLaws toy_service.
Proof.
  split; cbn.
  - intros _ a s _ x o x' [= <- <-]. cbn. exists (toy_place a x). split; [done |]. unfold toy_place.
    destruct (filter _ _) as [| [i [a' s']] l] eqn:E; cbn.
    + rewrite not_elem_of_dom_1 by apply is_fresh. intros j a' s' Hj ->.
      assert (H : (j, (a, s')) ∈ filter (fun p => p.2.1 = a) (map_to_list x))
        by (apply list_elem_of_filter; split; [done | by apply elem_of_map_to_list]).
      rewrite E in H. by apply not_elem_of_nil in H.
    + assert (H : (i, (a', s')) ∈ filter (fun p => p.2.1 = a) (map_to_list x)) by (rewrite E; left).
      apply list_elem_of_filter in H as [H1 H2]. apply elem_of_map_to_list in H2. by rewrite H2.
  - intros a x l [= <-]. split.
    + eapply sublist_NoDup; [apply (NoDup_fst_map_to_list x) |]. apply fmap_sublist, sublist_filter.
    + intros i. rewrite list_elem_of_fmap. split.
      * intros ([i' [a' s]] & -> & H). apply list_elem_of_filter in H as [H1 H2]. apply elem_of_map_to_list in H2. by exists a', s.
      * intros (a' & s & Hi & Ha). exists (i, (a', s)). split; [done |]. apply list_elem_of_filter. split; [done |]. by apply elem_of_map_to_list.
  - intros i x s. destruct (x !! i) as [[a s'] |]; [intros [= <-]; by exists a | done].
  - by intros i x o x' [= <- <-].
Qed.
End ToySecrets.

Section samples.
Import ToySecrets.

Definition secret_session : list secret_op :=
  [OpGet (lit "host"); OpPut (lit "host") [1; 2]; OpPut (lit "phone") [3]; OpPut (lit "host") [4]; OpGet (lit "host"); OpRemove (lit "host");
   OpRemove (lit "host"); OpGet (lit "host"); OpGet (lit "phone")].

Lemma empty_stands : stands_for (S := Dyn) (DynService (∅ : Ss)) ∅.
Proof. split; [by intros id i a s Hi | by intros id]. Qed.

Lemma detected_store_is_a_map_witness :
  let store := DynService (∅ : Ss) in
  (store_ops (S := Dyn) secret_session store).1 =
    [Ok None; Ok None; Ok None; Ok None; Ok (Some [4]); Ok None; Ok None; Ok None; Ok (Some [3])] /\
  exists m', follows ∅ secret_session (store_ops (S := Dyn) secret_session store).1 m' /\
    stands_for (S := Dyn) (store_ops (S := Dyn) secret_session store).2 m'.
Proof.
  cbv zeta. split; [vm_compute; reflexivity |].
  apply (detected_store_is_a_map (Err (KeyFault (lit "ENOSYS"))) (Err (KeyFault (lit "ENOSYS"))) ∅ (DynService ∅) [LOG_LINE_SECRET_SERVICE]
    ∅ secret_session).
  - reflexivity.
  - apply empty_stands.
  - apply surjective_pairing.
Defined.

Definition mail : attributes := {[ lit "kind" := lit "mail" ]}.
Definition mail_item : Item (SecretServiceApi := toy_service) := 0%nat.
Definition mail_box : Ss (SecretServiceApi := toy_service) := ({[ 0%nat := (mail, [7]) ]} : gmap nat (attributes * secret)).
Definition shared_ring : KeyRing (Keyutils := toy_keyring) := ({[ lit "other:key" := [9] ]} : gmap str secret).

Lemma secrets_leave_others_alone_witness :
  live (kernel_remove (lit "host") shared_ring).2 (lit "other:key") = Some [9] /\
  items (service_put (lit "host") [1] mail_box).2 !! mail_item = Some (mail, [7]).
Proof.
  destruct (secrets_leave_others_alone (lit "host") [1] shared_ring (lit "other:key") mail_box mail_item mail [7]) as (_ & H2 & H3 & _).
  - intros j. discriminate.
  - intros id i a s Hi Ha. change ((({[ 0%nat := (mail, [7]) ]} : gmap nat (attributes * secret)) !! (i : nat)) = Some (a, s)) in Hi.
    apply lookup_singleton_Some in Hi as [_ [= <- _]].
    exfalso. apply (lookup_weaken _ _ SECRET_SERVICE_ATTR_KIND SECRET_SERVICE_ATTR_KIND_VALUE) in Ha; [| reflexivity]. discriminate.
  - reflexivity.
  - intros E. apply (f_equal (lookup (lit "kind"))) in E. discriminate.
  - split; [exact H2 | exact H3].
Defined.
End samples.
