(* ===== verification/Runtime.v ===== *)
(** * The daemon's runtime

    Models from crates/syauth-presenced/src/runtime.rs the start of the orchestrator ([maybe_spawn_orchestrator]), the loop
    on the signals ([wait_for_reason]) and the watcher of the bonds file ([spawn_inotify_watcher]), which feed the
    orchestrator's queue of reloads.

    The two loops are tasks with a program counter at their [await] points, polled in any order while signals,
    changes of the file and time come from outside, the start publishes its result, and the orchestrator takes commands from
    its queue.  Times are in milliseconds. *)

From stdpp Require Import prelude list gmap strings.
From Stdlib Require Import ZArith Lia.
From S2P Require Import Prelude WireFrame Fs Bond PairRecovery PairTransaction Peripheral AuditTrail Orchestrator Challenge Reload Pam Persistent.

Definition BLUEZ_RETRY_DELAY : Z := 5000.
Definition RELOAD_DEBOUNCE : Z := 200.
(** [mpsc::channel::<()>(32)] *)
Definition WATCH_CHANNEL_CAPACITY : nat := 32.

Inductive ShutdownReason := RSigterm | RSigint.

#[global] Instance ShutdownReason_eq_dec : EqDecision ShutdownReason.
Proof. solve_decision. Defined.

(** ** Start *)

Section start.
Context `{B3 : Blake3, ED : Ed25519, HK : Hkdf, CH : Chrono, TM : Toml, HX : Hex, HO : HashOrder, PP : Peripheral}.
Context (bonds_file keys : path).

(** One turn of the loop that opens the adapter: what [PersistentPeripheral::new] gives and, after an error, whether the
    shutdown comes before the retry. *)
Record Attempt := mkAttempt { at_opened : result PState unit; at_shutdown : bool }.

Inductive Opening := IsOpen (p : PState) | GaveUp | StillTrying.

Definition wait_for_bluez_retry (shutdown : bool) : bool := negb shutdown.

Fixpoint open_adapter (attempts : list Attempt) : Opening :=
  match attempts with
  | [] => StillTrying
  | a :: attempts =>
      match at_opened a with
      | Ok p => IsOpen p
      | Err _ => if wait_for_bluez_retry (at_shutdown a) then open_adapter attempts else GaveUp
      end
  end.

(** What the start returns: the three [None]s, or the orchestrator with its queue. *)
Inductive Started := NoOrchestrator | NotYet | Serving (s : St).

Definition seed_key (id : str) : io (result (list Z) unit) :=
  let! r := fs_read (join keys (id ++ BOND_KEY_FILE_EXT)) in
  iret match r with
       | Err _ => Err tt
       | Ok bytes => if negb (len bytes =? BOND_KEY_BYTES) then Err tt else Ok bytes
       end.

Definition first_active (store : BondStore) : option Bond :=
  List.find (fun b => bool_decide (status b = StBonded)) (BondStore_list store).

(** The rest once the radio and the seed are there; the disk is the orchestrator's from here on. *)
Definition spawn (p : PState) (seed_peers : list (Bond * list Z)) (audit : option AuditLog) (now : SystemTime) : io Started :=
  fun w => (Ret (Serving (set_exit_when_empty true (with_peers_and_audit p seed_peers w audit now))), w).

(** [audit] is the log if it could be opened. *)
Definition maybe_spawn_orchestrator (attempts : list Attempt) (audit : option AuditLog) (now : SystemTime) : io Started :=
  let! loaded := BondStore_load bonds_file in
  match loaded with
  | Err _ => iret NoOrchestrator
  | Ok store =>
      match open_adapter attempts with
      | GaveUp => iret NoOrchestrator
      | StillTrying => iret NotYet
      | IsOpen p =>
          match first_active store with
          | None => spawn p [] audit now
          | Some b =>
              let! key := seed_key (peer_id b) in
              match key with
              | Err _ => spawn p [] audit now
              | Ok k =>
                  match add_peer (peer_id b) k p with
                  | (Err _, _) => iret NoOrchestrator
                  | (Ok _, p) => spawn p [(b, k)] audit now
                  end
              end
          end
      end
  end.
End start.

(** [seed_fake_peripheral] *)
Definition seed_fake_peripheral (inject_responses : list (str * list Z)) (fake : Fake.FakeState) : Fake.FakeState :=
  foldl (fun s x => Fake.inject_response x.1 x.2 s) fake inject_responses.

(** ** Signals, the watcher and the queue *)

(** The watch channel: nothing yet, the start's result; its sender is gone after the one message. *)
Inductive Backend := BPending | BReady | BNone.

(** [WSetup]: the task has not placed its watch on the directory yet; [WDisabled]: that failed (no parent directory, no watcher,
    no watch), the task has returned and the daemon relies on SIGHUP. *)
Inductive watch_pc := WSetup | WDisabled | WIdle | WSleep (until : Z) | WBackend | WSend | WExit.
Inductive main_pc := MSelect | MSend | MDone (r : ShutdownReason).

#[global] Instance watch_pc_eq_dec : EqDecision watch_pc.
Proof. solve_decision. Defined.
#[global] Instance main_pc_eq_dec : EqDecision main_pc.
Proof. solve_decision. Defined.

(** What happened, oldest first: changes of the file that were reported, commands that were queued, signals. *)
Inductive happened := Change (at_ : Z) | Queued (trigger : ReloadTrigger) (at_ : Z) | Signalled (r : ShutdownReason).

Record Plumbing := mkPlumbing {
  p_now : Z;
  p_backend : Backend;
  p_queue : list ReloadTrigger; (* of the orchestrator *)
  p_receiver : bool; (* the orchestrator still receives *)
  p_term : bool; p_int : bool; p_hup : bool; (* signals that were not taken *)
  p_main : main_pc;
  p_events : nat; (* in the watcher's channel *)
  p_watch : watch_pc;
  p_log : list happened;
}.

Definition set_main (m : main_pc) (y : Plumbing) : Plumbing :=
  mkPlumbing (p_now y) (p_backend y) (p_queue y) (p_receiver y) (p_term y) (p_int y) (p_hup y) m (p_events y) (p_watch y) (p_log y).
Definition set_watch (n : nat) (w : watch_pc) (y : Plumbing) : Plumbing :=
  mkPlumbing (p_now y) (p_backend y) (p_queue y) (p_receiver y) (p_term y) (p_int y) (p_hup y) (p_main y) n w (p_log y).
Definition set_signals (t i h : bool) (y : Plumbing) : Plumbing :=
  mkPlumbing (p_now y) (p_backend y) (p_queue y) (p_receiver y) t i h (p_main y) (p_events y) (p_watch y) (p_log y).
Definition note (x : happened) (y : Plumbing) : Plumbing :=
  mkPlumbing (p_now y) (p_backend y) (p_queue y) (p_receiver y) (p_term y) (p_int y) (p_hup y) (p_main y) (p_events y) (p_watch y) (p_log y ++ [x]).
Definition set_reload_queue (q : list ReloadTrigger) (y : Plumbing) : Plumbing :=
  mkPlumbing (p_now y) (p_backend y) q (p_receiver y) (p_term y) (p_int y) (p_hup y) (p_main y) (p_events y) (p_watch y) (p_log y).

Inductive sent := SentOk | SentErr | SentWaits.

(** [reload_tx.send(..).await] *)
Definition send_reload (trigger : ReloadTrigger) (y : Plumbing) : sent * Plumbing :=
  if negb (p_receiver y) then (SentErr, y)
  else if len (p_queue y) <? RELOAD_CHANNEL_CAPACITY
  then (SentOk, note (Queued trigger (p_now y)) (set_reload_queue (p_queue y ++ [trigger]) y))
  else (SentWaits, y).

(** A poll of [wait_for_reason]. *)
Definition poll_main (y : Plumbing) : Plumbing :=
  match p_main y with
  | MDone _ => y
  | MSelect =>
      if p_term y then set_main (MDone RSigterm) (set_signals false (p_int y) (p_hup y) y)
      else if p_int y then set_main (MDone RSigint) (set_signals (p_term y) false (p_hup y) y)
      else if p_hup y then
        let y := set_signals (p_term y) (p_int y) false y in
        match p_backend y with
        | BReady => set_main MSend y
        | BPending | BNone => y
        end
      else y
  | MSend =>
      match send_reload Sighup y with
      | (SentOk, y) | (SentErr, y) => set_main MSelect y
      | (SentWaits, y) => y
      end
  end.

(** A poll of the watcher's task. *)
Definition poll_watch (y : Plumbing) : Plumbing :=
  match p_watch y with
  | WSetup | WDisabled | WExit => y
  | WIdle => match p_events y with O => y | S n => set_watch n (WSleep (p_now y + RELOAD_DEBOUNCE)) y end
  | WSleep until => if until <=? p_now y then set_watch 0 WBackend y else y
  | WBackend =>
      match p_backend y with
      | BReady => set_watch (p_events y) WSend y
      | BPending => y
      | BNone => set_watch (p_events y) WExit y
      end
  | WSend =>
      match send_reload Inotify y with
      | (SentOk, y) => set_watch (p_events y) WIdle y
      | (SentErr, y) => set_watch (p_events y) WExit y
      | (SentWaits, y) => y
      end
  end.

Inductive rt_event :=
| SigTerm | SigInt | SigHup
| WatchPlaced (ok : bool) (* the watcher's task was polled for the first time: its set-up *)
| FileChange (* reported to the callback, which waits for room *)
| PollMain | PollWatch
| Elapse (d : Z)
| PublishBackend (some : bool)
| Push (trigger : ReloadTrigger) (* of the socket or the commit consumer *)
| Receive (* the orchestrator takes a command *)
| Hangup. (* the orchestrator ended *)

(** The task is in its loop. *)
Definition watching (w : watch_pc) : bool := match w with WSetup | WDisabled | WExit => false | _ => true end.

(** An event that is not possible changes nothing. *)
Definition rt_step (y : Plumbing) (e : rt_event) : Plumbing :=
  match e with
  | SigTerm => note (Signalled RSigterm) (set_signals true (p_int y) (p_hup y) y)
  | SigInt => note (Signalled RSigint) (set_signals (p_term y) true (p_hup y) y)
  | SigHup => set_signals (p_term y) (p_int y) true y
  | WatchPlaced ok =>
      match p_watch y with WSetup => set_watch (p_events y) (if ok then WIdle else WDisabled) y | _ => y end
  | FileChange =>
      if (p_events y <? WATCH_CHANNEL_CAPACITY)%nat && watching (p_watch y)
      then note (Change (p_now y)) (set_watch (S (p_events y)) (p_watch y) y) else y
  | PollMain => poll_main y
  | PollWatch => poll_watch y
  | Elapse d =>
      if 0 <=? d
      then mkPlumbing (p_now y + d) (p_backend y) (p_queue y) (p_receiver y) (p_term y) (p_int y) (p_hup y) (p_main y) (p_events y) (p_watch y) (p_log y)
      else y
  | PublishBackend some =>
      match p_backend y with
      | BPending =>
          mkPlumbing (p_now y) (if some then BReady else BNone) (p_queue y) some (p_term y) (p_int y) (p_hup y) (p_main y) (p_events y) (p_watch y) (p_log y)
      | _ => y
      end
  | Push trigger => match trigger with Rpc | Pair => (send_reload trigger y).2 | _ => y end
  | Receive => if p_receiver y then set_reload_queue (tail (p_queue y)) y else y
  | Hangup =>
      mkPlumbing (p_now y) (p_backend y) [] false (p_term y) (p_int y) (p_hup y) (p_main y) (p_events y) (p_watch y) (p_log y)
  end.

Definition rt_init : Plumbing := mkPlumbing 0 BPending [] false false false false MSelect 0 WSetup [].

Definition rt_run (es : list rt_event) : Plumbing := foldl rt_step rt_init es.

(** ** Every change of the file is followed by a reload *)

Definition reloads_at (x : happened) : option Z := match x with Queued Inotify t => Some t | _ => None end.

(** A change that no queued reload of the watcher follows yet. *)
Definition owes (b : bool) (x : happened) : bool :=
  match x with Change _ => true | Queued Inotify _ => false | _ => b end.
Definition owed (log : list happened) : bool := foldl owes false log.

(** The time of the last reload of the watcher. *)
Definition last_reload (log : list happened) : option Z := last (omap reloads_at log).

(** The reloads of the watcher are [RELOAD_DEBOUNCE] apart. *)
Fixpoint reloads_spaced (ts : list Z) : Prop :=
  match ts with
  | t :: ((t' :: _) as ts) => t + RELOAD_DEBOUNCE <= t' /\ reloads_spaced ts
  | _ => True
  end.

Lemma owed_snoc log x : owed (log ++ [x]) = owes (owed log) x.
Proof. unfold owed. by rewrite foldl_app. Qed.

Lemma owed_false_split log l1 t l2 : owed log = false -> log = l1 ++ Change t :: l2 -> exists t', Queued Inotify t' ∈ l2.
Proof.
  intros Ho ->. unfold owed in Ho. rewrite foldl_app in Ho. cbn in Ho. revert Ho. induction l2 as [| x l2 IH] using rev_ind; [done |].
  rewrite foldl_app. cbn. destruct x as [t' | trigger t' | r]; cbn; [done | | intros H; destruct (IH H) as [t0 Ht]; exists t0; set_solver].
  destruct trigger; cbn; try (intros H; destruct (IH H) as [t0 Ht]; exists t0; set_solver). intros _. exists t'. set_solver.
Qed.

Lemma reloads_spaced_snoc ts t : reloads_spaced ts -> (forall t0, last ts = Some t0 -> t0 + RELOAD_DEBOUNCE <= t) -> reloads_spaced (ts ++ [t]).
Proof.
  induction ts as [| a [| b ts] IH]; intros Hs Ht; [done | cbn; split; [by apply Ht | done] |].
  destruct Hs as [Ha Hs]. cbn [app reloads_spaced]. split; [exact Ha |]. apply IH; [exact Hs |]. intros t0 H0. by apply Ht.
Qed.

Lemma omap_snoc log x : omap reloads_at (log ++ [x]) = omap reloads_at log ++ match reloads_at x with Some t => [t] | None => [] end.
Proof. rewrite omap_app. cbn. by destruct (reloads_at x). Qed.

(** The last reload of the watcher is at least so old. *)
Definition rested (y : Plumbing) (t : Z) : Prop := forall t0, last_reload (p_log y) = Some t0 -> t0 + RELOAD_DEBOUNCE <= t.

Record rt_inv (y : Plumbing) : Prop := {
  i_owed : owed (p_log y) = true -> (0 < p_events y)%nat \/ p_watch y <> WIdle;
  i_placed : p_watch y = WSetup \/ p_watch y = WDisabled -> owed (p_log y) = false;
  i_exit : p_watch y = WExit -> p_backend y = BNone \/ p_receiver y = false;
  i_send : p_watch y = WSend \/ p_watch y = WExit -> p_backend y <> BPending;
  i_sleep : forall u, p_watch y = WSleep u -> u <= p_now y + RELOAD_DEBOUNCE /\ rested y u;
  i_due : p_watch y = WBackend \/ p_watch y = WSend -> rested y (p_now y);
  i_past : forall t0, last_reload (p_log y) = Some t0 -> t0 <= p_now y;
  i_spaced : reloads_spaced (omap reloads_at (p_log y));
  i_done : forall r, p_main y = MDone r -> Signalled r ∈ p_log y;
  i_term : p_term y = true -> Signalled RSigterm ∈ p_log y;
  i_int : p_int y = true -> Signalled RSigint ∈ p_log y;
}.

(** What the steps of the other parts leave to the watcher. *)
Record same_watch (y y' : Plumbing) : Prop := {
  sw_events : p_events y' = p_events y;
  sw_watch : p_watch y' = p_watch y;
  sw_now : p_now y' = p_now y;
  sw_backend : p_backend y' = p_backend y;
  sw_receiver : p_receiver y' = p_receiver y;
  sw_owed : owed (p_log y') = owed (p_log y);
  sw_reloads : omap reloads_at (p_log y') = omap reloads_at (p_log y);
}.

Lemma inv_same y y' : rt_inv y -> same_watch y y' -> (forall x, x ∈ p_log y -> x ∈ p_log y') ->
  (forall r, p_main y' = MDone r -> Signalled r ∈ p_log y') ->
  (p_term y' = true -> Signalled RSigterm ∈ p_log y') -> (p_int y' = true -> Signalled RSigint ∈ p_log y') -> rt_inv y'.
Proof.
  intros [A1 A0 A2 A3 A4 A5 A6 A7 _ _ _] [B1 B2 B3 B4 B5 B6 B7] _ C1 C2 C3. unfold rested, last_reload in *.
  split; unfold rested, last_reload; rewrite ?B1, ?B2, ?B3, ?B4, ?B5, ?B6, ?B7; done.
Qed.

Lemma rt_inv_init : rt_inv rt_init.
Proof. by split; cbn; try done; intros; destruct_or?; try done. Qed.

Lemma inv_send y trigger : rt_inv y -> trigger <> Inotify -> rt_inv (send_reload trigger y).2 /\ same_watch y (send_reload trigger y).2 /\
  p_main (send_reload trigger y).2 = p_main y.
Proof.
  intros Hi Ht. unfold send_reload. destruct (negb (p_receiver y)); [by split |]. destruct (_ <? _); [| by split]. cbn [snd].
  assert (Hs : same_watch y (note (Queued trigger (p_now y)) (set_reload_queue (p_queue y ++ [trigger]) y))).
  { split; try done; cbn; [rewrite owed_snoc | rewrite omap_snoc]; destruct trigger; try done; by rewrite ?app_nil_r. }
  split; [| by split]. eapply inv_same; [exact Hi | exact Hs | ..]; cbn; try set_solver; destruct Hi as [_ _ _ _ _ _ _ _ D1 D2 D3].
  - intros r Hr. apply D1 in Hr. set_solver.
  - intros Hr. apply D2 in Hr. set_solver.
  - intros Hr. apply D3 in Hr. set_solver.
Qed.

Lemma inv_main y m t i h : rt_inv y -> (forall r, m = MDone r -> Signalled r ∈ p_log y) -> (t = true -> p_term y = true) -> (i = true -> p_int y = true) ->
  rt_inv (set_main m (set_signals t i h y)).
Proof.
  intros Hi Hm Ht Hi'. eapply inv_same; [exact Hi | by split | done | done | |]; cbn; intros H; [apply (i_term y Hi) | apply (i_int y Hi)]; auto.
Qed.

Lemma inv_poll_main y : rt_inv y -> rt_inv (poll_main y).
Proof.
  intros Hi. unfold poll_main. destruct (p_main y) as [| | r] eqn:Em; [| | done].
  - destruct (p_term y) eqn:Et; [apply inv_main; [done | intros r [= <-]; by apply (i_term y Hi) | done | done] |].
    destruct (p_int y) eqn:Ei; [apply inv_main; [done | intros r [= <-]; by apply (i_int y Hi) | done | done] |].
    destruct (p_hup y); [| done]. cbn [p_backend set_signals].
    assert (H : forall m, (forall r, m <> MDone r) -> rt_inv (set_main m (set_signals false false false y)))
      by (intros m Hm; apply inv_main; [done | intros r Hr; by apply Hm in Hr | done | done]).
    assert (Hs : set_signals false false false y = set_main MSelect (set_signals false false false y)) by (unfold set_main, set_signals; cbn; by rewrite Em).
    destruct (p_backend y); [rewrite Hs | | rewrite Hs]; by apply H.
  - destruct (inv_send y Sighup Hi) as (Hi' & _ & Hm'); [done |]. destruct (send_reload Sighup y) as [o y'] eqn:E. cbn in *.
    assert (H : rt_inv (set_main MSelect y')).
    { eapply inv_same; [exact Hi' | by split | done | done | apply (i_term y' Hi') | apply (i_int y' Hi')]. }
    by destruct o.
Qed.

Lemma inv_watch y n w : rt_inv y ->
  (owed (p_log y) = true -> (0 < n)%nat \/ w <> WIdle) ->
  (w = WSetup \/ w = WDisabled -> owed (p_log y) = false) ->
  (w = WExit -> p_backend y = BNone \/ p_receiver y = false) ->
  (w = WSend \/ w = WExit -> p_backend y <> BPending) ->
  (forall u, w = WSleep u -> u <= p_now y + RELOAD_DEBOUNCE /\ rested y u) ->
  (w = WBackend \/ w = WSend -> rested y (p_now y)) -> rt_inv (set_watch n w y).
Proof. intros [] A1 A0 A2 A3 A4 A5. by split. Qed.

Lemma inv_poll_watch y : rt_inv y -> rt_inv (poll_watch y).
Proof.
  intros Hi. pose proof (i_past y Hi) as Hp. unfold poll_watch. destruct (p_watch y) as [| | | u | | |] eqn:Ew; [done | done | | | | | done].
  - destruct (p_events y) as [| n]; [done |]. apply inv_watch; try done; try (by intros [|]); [by right |].
    intros u [= <-]. split; [lia |]. intros t0 H0. apply Hp in H0. lia.
  - destruct (Z.leb_spec u (p_now y)); [| done]. apply inv_watch; try done; try (by intros [|]); [by right |].
    intros _ t0 H0. apply (i_sleep y Hi u Ew) in H0. lia.
  - destruct (p_backend y) eqn:Eb; [done | |]; apply inv_watch; try done; try (by right); try (by intros [|]); rewrite ?Eb; auto.
    intros _. apply (i_due y Hi). by left.
  - unfold send_reload. destruct (p_receiver y) eqn:Er; cbn [negb].
    2: { apply inv_watch; try done; try (by right); try (by intros [|]); auto. intros _. apply (i_send y Hi). by left. }
    destruct (_ <? _); [| done]. assert (Hr : rested y (p_now y)) by (apply (i_due y Hi); by right).
    split; cbn; try done; try (by intros [|]).
    + by rewrite owed_snoc.
    + unfold last_reload. rewrite omap_snoc. cbn [reloads_at]. rewrite last_snoc. intros t0 [= <-]. lia.
    + rewrite omap_snoc. cbn. apply reloads_spaced_snoc; [apply (i_spaced y Hi) | exact Hr].
    + intros r H. apply (i_done y Hi) in H. set_solver.
    + intros H. apply (i_term y Hi) in H. set_solver.
    + intros H. apply (i_int y Hi) in H. set_solver.
Qed.

Lemma inv_rt_step y e : rt_inv y -> rt_inv (rt_step y e).
Proof.
  intros Hi. destruct e as [| | | ok | | | | d | some | trigger | |]; cbn [rt_step].
  - eapply inv_same; [exact Hi | split; try done; cbn; [by rewrite owed_snoc | by rewrite omap_snoc, app_nil_r] | ..]; cbn; try set_solver.
    + intros r H. apply (i_done y Hi) in H. set_solver.
    + intros H. apply (i_int y Hi) in H. set_solver.
  - eapply inv_same; [exact Hi | split; try done; cbn; [by rewrite owed_snoc | by rewrite omap_snoc, app_nil_r] | ..]; cbn; try set_solver.
    + intros r H. apply (i_done y Hi) in H. set_solver.
    + intros H. apply (i_term y Hi) in H. set_solver.
  - eapply inv_same; [exact Hi | by split | done | apply (i_done y Hi) | apply (i_term y Hi) | apply (i_int y Hi)].
  - destruct (p_watch y) eqn:Ew; try done. assert (Ho : owed (p_log y) = false) by (apply (i_placed y Hi); by left).
    apply inv_watch; try done; rewrite ?Ho; try done; destruct ok; try done; by intros [|].
  - destruct (_ && _) eqn:E; [| done]. apply andb_prop in E as [_ E].
    assert (Hn : p_watch y = WSetup \/ p_watch y = WDisabled -> False) by (intros [H | H]; by rewrite H in E).
    destruct Hi as [A1 A0 A2 A3 A4 A5 A6 A7 A8 A9 A10]. unfold rested, last_reload in *.
    split; cbn -[owed]; unfold rested, last_reload; cbn -[owed]; rewrite ?owed_snoc, ?omap_snoc, ?app_nil_r; try done; try (intros; left; lia);
      intros; rewrite ?omap_snoc, ?app_nil_r in *; cbn in *; rewrite ?app_nil_r in *; eauto; apply elem_of_app; left; eauto.
  - by apply inv_poll_main.
  - by apply inv_poll_watch.
  - destruct (Z.leb_spec 0 d); [| done]. destruct Hi as [A1 A0 A2 A3 A4 A5 A6 A7 A8 A9 A10]. unfold rested in *.
    split; cbn; unfold rested; cbn; try done.
    + intros u Hu. apply A4 in Hu as [? Hr]. split; [lia | exact Hr].
    + intros Hw t0 H0. apply A5 in H0; [lia | done].
    + intros t0 H0. apply A6 in H0. lia.
  - destruct (p_backend y) eqn:Eb; [| done | done]. destruct Hi as [A1 A0 A2 A3 A4 A5 A6 A7 A8 A9 A10].
    split; cbn; try done.
    + intros Hw. exfalso. apply (A3 (or_intror Hw)). exact Eb.
    + by destruct some.
  - destruct trigger; try done; by apply inv_send.
  - destruct (p_receiver y) eqn:E; [| done]. by destruct Hi; split.
  - destruct Hi as [A1 A0 A2 A3 A4 A5 A6 A7 A8 A9 A10]. split; cbn; try done. by right.
Qed.

Lemma inv_rt_run es : rt_inv (rt_run es).
Proof.
  unfold rt_run. generalize rt_inv_init. generalize rt_init. induction es as [| e es IH]; intros y Hy; [done |]. apply IH. by apply inv_rt_step.
Qed.

(** ** Theorems *)

(** The watcher's task has the reload in hand. *)
Definition in_hand (y : Plumbing) : Prop := (0 < p_events y)%nat \/ exists u, p_watch y = WSleep u \/ p_watch y = WBackend \/ p_watch y = WSend.

(** C12: On every schedule of signals, changes of the bonds file, polls and delays, no change is lost and no burst floods the
    orchestrator: every reported change is followed by a reload of the watcher in the queue, or the watcher still has
    it in hand, or it has exited, which it does only if there is no orchestrator (a watcher whose set-up failed reports nothing); two reloads of the watcher are
    queued at least 200 ms apart; and the daemon stops only for a SIGTERM or SIGINT that came. *)
Theorem no_change_is_lost (es : list rt_event) :
  let y := rt_run es in
  (forall l1 t l2, p_log y = l1 ++ Change t :: l2 -> (exists t', Queued Inotify t' ∈ l2) \/ in_hand y \/ p_watch y = WExit) /\
  (p_watch y = WExit -> p_backend y = BNone \/ p_receiver y = false) /\
  reloads_spaced (omap reloads_at (p_log y)) /\
  (forall r, p_main y = MDone r -> Signalled r ∈ p_log y).
Proof.
  cbv zeta. destruct (inv_rt_run es) as [A1 A0 A2 _ _ _ _ A7 A8 _ _]. split_and!; [| exact A2 | exact A7 | exact A8].
  intros l1 t l2 Hl. destruct (owed (p_log (rt_run es))) eqn:Ho; [| left; by eapply owed_false_split].
  right. unfold in_hand. destruct (A1 eq_refl) as [He | Hw]; [by left; left |].
  destruct (p_watch (rt_run es)) eqn:E; [by specialize (A0 (or_introl eq_refl)) | by specialize (A0 (or_intror eq_refl)) | done | left; right; by eauto | left; right; exists 0; by auto | left; right; exists 0; by auto | by right].
Qed.

(** What the watcher does when nothing else happens. *)
Definition left_alone : list rt_event := [PollWatch; Elapse RELOAD_DEBOUNCE; PollWatch; PollWatch; PollWatch].

(** A change reaches the orchestrator: with an orchestrator whose queue has room, a watcher that owes a reload queues it within the
    200 ms of its debounce and four polls, with nothing else happening. *)
Theorem change_reaches_orchestrator (es : list rt_event) (Hb : p_backend (rt_run es) = BReady) (Hr : p_receiver (rt_run es) = true)
  (Hq : len (p_queue (rt_run es)) < RELOAD_CHANNEL_CAPACITY) (Ho : owed (p_log (rt_run es)) = true) :
  let y' := foldl rt_step (rt_run es) left_alone in
  owed (p_log y') = false /\ p_queue y' = p_queue (rt_run es) ++ [Inotify].
Proof.
  pose proof (inv_rt_run es) as Hi. destruct (rt_run es) as [now b q rcv ht hi hu m ev w log] eqn:E. cbn in Hb, Hr, Hq, Ho. subst b rcv.
  assert (Hf : (len q <? RELOAD_CHANNEL_CAPACITY) = true) by lia.
  assert (Hown : forall t, owed (log ++ [Queued Inotify t]) = false) by (intros t; by rewrite owed_snoc).
  cbv zeta. destruct w as [| | | u | | |]; [pose proof (i_placed _ Hi (or_introl eq_refl)); cbn in *; congruence | pose proof (i_placed _ Hi (or_intror eq_refl)); cbn in *; congruence | | | | |]; cbn [left_alone foldl rt_step poll_watch p_watch p_events p_now].
  - destruct (i_owed _ Hi Ho) as [He | He]; [| done]. cbn in He. destruct ev as [| n]; [lia |]. cbn. rewrite Z.leb_refl. cbn.
    unfold send_reload. cbn -[len RELOAD_CHANNEL_CAPACITY Z.ltb]. rewrite Hf. cbn. by rewrite Hown.
  - destruct (i_sleep _ Hi u eq_refl) as [Hu _]. cbn in Hu. destruct (Z.leb_spec u now) as [Hle | Hlt]; cbn.
    + unfold send_reload. cbn -[len RELOAD_CHANNEL_CAPACITY Z.ltb]. rewrite Hf. cbn. by rewrite Hown.
    + assert (u <=? now + RELOAD_DEBOUNCE = true) as -> by lia. cbn.
      unfold send_reload. cbn -[len RELOAD_CHANNEL_CAPACITY Z.ltb]. rewrite Hf. cbn. by rewrite Hown.
  - cbn. unfold send_reload. cbn -[len RELOAD_CHANNEL_CAPACITY Z.ltb]. rewrite Hf. cbn. destruct ev as [| n]; cbn; [by rewrite Hown |].
    assert (now + RELOAD_DEBOUNCE + RELOAD_DEBOUNCE <=? now + RELOAD_DEBOUNCE = false) as -> by (unfold RELOAD_DEBOUNCE; lia). cbn. by rewrite Hown.
  - unfold send_reload. cbn -[len RELOAD_CHANNEL_CAPACITY Z.ltb]. rewrite Hf. cbn. destruct ev as [| n]; cbn; [by rewrite Hown |].
    assert (now + RELOAD_DEBOUNCE + RELOAD_DEBOUNCE <=? now + RELOAD_DEBOUNCE = false) as E2 by (unfold RELOAD_DEBOUNCE; lia). rewrite E2. cbn.
    rewrite E2. cbn. by rewrite Hown.
  - destruct (i_exit _ Hi eq_refl); done.
Qed.

(** While it waits for room for the reload of a SIGHUP, the loop on the signals does not look at them: with the queue full, no
    SIGTERM ends the daemon until the orchestrator takes a command or ends. *)
Theorem sighup_blocks_shutdown (y : Plumbing) (es : list rt_event) (Hm : p_main y = MSend) (Hr : p_receiver y = true)
  (Hb : p_backend y <> BPending) (Hq : RELOAD_CHANNEL_CAPACITY <= len (p_queue y)) (He : Forall (fun e => e <> Receive /\ e <> Hangup) es) :
  p_main (foldl rt_step y es) = MSend.
Proof.
  assert (H : forall y, p_main y = MSend /\ p_receiver y = true /\ p_backend y <> BPending /\ RELOAD_CHANNEL_CAPACITY <= len (p_queue y) ->
    forall e, e <> Receive /\ e <> Hangup -> let y' := rt_step y e in
    p_main y' = MSend /\ p_receiver y' = true /\ p_backend y' <> BPending /\ RELOAD_CHANNEL_CAPACITY <= len (p_queue y')).
  { clear. intros y (Hm & Hr & Hb & Hq) e [He1 He2]. assert (Hf : (len (p_queue y) <? RELOAD_CHANNEL_CAPACITY) = false) by lia.
    assert (Hs : forall t, send_reload t y = (SentWaits, y)) by (intros t; unfold send_reload; by rewrite Hr, Hf).
    destruct e as [| | | ok | | | | d | some | trigger | |]; cbn [rt_step]; try done.
    - by destruct (p_watch y).
    - by destruct (_ && _).
    - unfold poll_main. by rewrite Hm, Hs.
    - unfold poll_watch. destruct (p_watch y); try done; [by destruct (p_events y) | by destruct (_ <=? _) | by destruct (p_backend y) eqn:Eb; cbn; rewrite ?Eb | by rewrite Hs].
    - by destruct (0 <=? d).
    - by destruct (p_backend y) eqn:Eb; cbn; rewrite ?Eb.
    - destruct trigger; try done; by rewrite Hs. }
  revert y Hm Hr Hb Hq. induction He as [| e es He _ IH]; intros y Hm Hr Hb Hq; [done |]. cbn [foldl].
  destruct (H y (conj Hm (conj Hr (conj Hb Hq))) e He) as (A & B & C & D). by apply IH.
Qed.

Section start_theorems.
Context `{B3 : Blake3, ED : Ed25519, HK : Hkdf, CH : Chrono, TM : Toml, HX : Hex, HO : HashOrder, PP : Peripheral}.
Context `{!PeripheralLaws PP, !HashOrderLaws HO}.
Context (bonds_file keys : path).

(** The adapters the attempts open are new. *)
Definition opens_fresh (attempts : list Attempt) : Prop :=
  Forall (fun a => forall p, at_opened a = Ok p -> registered p = ∅) attempts.

Lemma open_fresh attempts p : opens_fresh attempts -> open_adapter attempts = IsOpen p -> registered p = ∅.
Proof using.
  induction 1 as [| a attempts Ha _ IH]; cbn; [done |]. destruct (at_opened a) as [p' | e] eqn:E; [intros [= <-]; by apply Ha |].
  destruct (wait_for_bluez_retry _); [done | done].
Qed.

Lemma seed_key_calm g id : seed_key keys id (calm g) = (Ret match key_of keys g id with Some k => Ok k | None => Err tt end, calm g).
Proof using.
  unfold seed_key, key_of, fs_read, ibind. rewrite syscall_calm. cbn [fst snd iret].
  destruct (read_op _ g) as [c | e]; [| done]. by destruct (len c =? BOND_KEY_BYTES).
Qed.

(** The state of a start with these seeds. *)
Definition starts_with (g : fs) (seed : option (Bond * list Z)) (s : St) : Prop :=
  in_sync s /\ s_world s = calm g /\ s_exit_when_empty s = true /\ s_sigterm s = false /\
  (forall id : str, is_Some (s_peers s !! id) <-> exists b k, seed = Some (b, k) /\ peer_id b = id) /\
  (forall b k, seed = Some (b, k) -> exists e, s_peers s !! peer_id b = Some e /\ bond_key e = k /\ phone_pubkey e = Some (pubkey b)).

Lemma starts_empty g p audit now : registered p = ∅ -> starts_with g None (set_exit_when_empty true (with_peers_and_audit p [] (calm g) audit now)).
Proof using.
  intros Hp. split_and!; try done.
  - intros id. cbn. rewrite Hp. rewrite !lookup_empty. done.
  - intros id. cbn. rewrite lookup_empty. split; [by intros [] | by intros (b & k & ? & _)].
Qed.

Lemma starts_one g p p' b k audit now : registered p = ∅ -> add_peer (peer_id b) k p = (Ok tt, p') ->
  starts_with g (Some (b, k)) (set_exit_when_empty true (with_peers_and_audit p' [(b, k)] (calm g) audit now)).
Proof using PeripheralLaws0.
  intros Hp Ha. apply add_peer_spec in Ha. cbn in Ha. rewrite Hp in Ha.
  assert (Hx : forall id : str, is_Some ((<[peer_id b := mkEntry k (Some (pubkey b)) O]> ∅ : gmap str PeerEntry) !! id) <-> peer_id b = id).
  { intros id. destruct (decide (peer_id b = id)) as [<- | Hn]; [rewrite lookup_insert_eq; split; [done | by eexists] |].
    rewrite lookup_insert_ne, lookup_empty by done. split; [by intros [] | done]. }
  split_and!; try done.
  - intros id. cbn. rewrite Ha, Hx. destruct (decide (peer_id b = id)) as [<- | Hn]; [rewrite lookup_insert_eq; split; [done | by eexists] |].
    rewrite lookup_insert_ne, lookup_empty by done. split; [by intros [] | done].
  - intros id. cbn. rewrite Hx. split; [intros <-; by exists b, k | by intros (b' & k' & [= <- <-] & <-)].
  - intros b' k' [= <- <-]. eexists. split; [apply lookup_insert_eq | done].
Qed.

(** The seed: the first bonded phone, if its key can be read. *)
Definition seed_of (g : fs) (store : BondStore) : option (Bond * list Z) :=
  b ← first_active store; k ← key_of keys g (peer_id b); Some (b, k).

Lemma start_calm attempts audit now g store s w : opens_fresh attempts ->
  BondStore_load bonds_file (calm g) = (Ret (Ok store), calm g) ->
  maybe_spawn_orchestrator bonds_file keys attempts audit now (calm g) = (Ret (Serving s), w) ->
  w = calm g /\ starts_with g (seed_of g store) s.
Proof using PeripheralLaws0.
  intros Hf Hl. unfold maybe_spawn_orchestrator, ibind at 1. rewrite Hl. unfold seed_of, spawn.
  destruct (open_adapter attempts) as [p | |] eqn:Ho; [| done | done]. apply (open_fresh _ _ Hf) in Ho.
  destruct (first_active store) as [b |]; cbn [mbind option_bind]; [| intros [= <- <-]; split; [done | by apply starts_empty]].
  unfold ibind. rewrite seed_key_calm. destruct (key_of keys g (peer_id b)) as [k |]; cbn [mbind option_bind];
    [| intros [= <- <-]; split; [done | by apply starts_empty]].
  destruct (add_peer (peer_id b) k p) as [[[] | e] p'] eqn:Ea; [| done]. intros [= <- <-]. split; [done |]. by apply (starts_one g p p').
Qed.

(** C13: On a disk without faults and with an adapter that was opened anew, a start that ends with an orchestrator is exact: the daemon serves the
    first bonded phone of the file, with the key on the disk, if that can be read, and no other, and the radio and the peer map
    agree.  The first reload after it keeps them in agreement and reconciles them with the disk; if the radio refuses no
    call, the peers are then exactly the phones that are bonded with a key. *)
Theorem cold_start_exact (attempts : list Attempt) (audit : option AuditLog) (now : SystemTime) (g : fs)
  (store : BondStore) (s : St) (w : world) (trigger : ReloadTrigger) (Hf : opens_fresh attempts)
  (Hl : BondStore_load bonds_file (calm g) = (Ret (Ok store), calm g))
  (Hs : maybe_spawn_orchestrator bonds_file keys attempts audit now (calm g) = (Ret (Serving s), w)) :
  starts_with g (seed_of g store) s /\
  exists s1, eval bonds_file keys (run_reload trigger) s = Some (tt, s1) /\ in_sync s1 /\ reconciled keys g store s s1 /\
    (WillingPeripheral PP -> forall id : str, is_Some (s_peers s1 !! id) <-> exists key, wanted keys g store id key).
Proof using PeripheralLaws0 HashOrderLaws0.
  destruct (start_calm attempts audit now g store s w Hf Hl Hs) as [_ Hst]. split; [exact Hst |].
  destruct Hst as (Hsync & Hw & _). destruct (eval_reload bonds_file keys trigger s g store Hsync Hw Hl) as (s1 & E & Hs1 & Hr1 & _ & _ & _ & Hx).
  exists s1. split_and!; [exact E | exact Hs1 | exact Hr1 |]. intros Hwill. by apply Hx.
Qed.

(** With two bonded phones the phone the PAM module asks for is unknown after a restart: the module takes the newest bonded
    record, the start seeds the first one, and nothing reloads the bonds by itself. *)
Theorem restart_forgets_newest `{CO : !ChronoOrd} (attempts : list Attempt) (audit : option AuditLog) (now : SystemTime) (g : fs)
  (store : BondStore) (s : St) (w : world) (b newest : Bond) (Hf : opens_fresh attempts)
  (Hl : BondStore_load bonds_file (calm g) = (Ret (Ok store), calm g))
  (Hs : maybe_spawn_orchestrator bonds_file keys attempts audit now (calm g) = (Ret (Serving s), w))
  (Hb : first_active store = Some b) (Hn : first_bonded store = Some newest) (Hne : peer_id b <> peer_id newest) :
  s_peers s !! peer_id newest = None.
Proof using PeripheralLaws0.
  destruct (start_calm attempts audit now g store s w Hf Hl Hs) as [_ (_ & _ & _ & _ & Hp & _)].
  apply eq_None_not_Some. intros H. apply Hp in H as (b' & k & E & Hid). unfold seed_of in E. rewrite Hb in E. cbn in E.
  destruct (key_of keys g (peer_id b)); [| done]. injection E as -> _. done.
Qed.
End start_theorems.

(** ** Samples *)

Section samples.
Import ToyCrypto ToyCrates ToyDaemon Fake.
#[local] Existing Instance toy_chrono_ord.

(** A save of the bonds file reports three events; meanwhile the adapter is opened. *)
Definition busy_day : list rt_event :=
  [WatchPlaced true; FileChange; PollWatch; FileChange; FileChange; SigHup; PollMain; Elapse 200; PollWatch; PublishBackend true; SigHup; PollMain; PollMain].

Lemma change_reaches_orchestrator_witness :
  let y' := foldl rt_step (rt_run busy_day) left_alone in
  owed (p_log y') = false /\ p_queue y' = [Sighup; Inotify].
Proof. apply (change_reaches_orchestrator busy_day); vm_compute; reflexivity. Defined.

Definition stuck_day : list rt_event := [PublishBackend true] ++ replicate 16 (Push Rpc) ++ [SigHup; PollMain].

Lemma sighup_blocks_shutdown_witness :
  p_main (foldl rt_step (rt_run stuck_day) [PollMain; SigTerm; PollMain; Elapse 60000; PollMain; SigInt; PollMain]) = MSend.
Proof.
  apply (sighup_blocks_shutdown (rt_run stuck_day)); [vm_compute; reflexivity | vm_compute; reflexivity | vm_compute; discriminate | vm_compute; discriminate |].
  repeat constructor; discriminate.
Defined.

(** Two bonded phones, the second one newer; both keys are on the disk. *)
Definition newer_bond : Bond := mkBond (peer_id sample_bond) sample_pubkey (lit "Pixel") (lit "2027-01-01T00:00:00Z") StBonded.
Definition two_store : BondStore := mkStore [phone_bond; newer_bond].
Definition two_bytes : list Z := match serialize_to_toml two_store with Ok b => b | Err _ => [] end.
Definition two_fs : fs :=
  <[join sample_dir (peer_id newer_bond ++ BOND_KEY_FILE_EXT) := File (replicate 32 5) 384]>
    (<[join sample_dir (peer_id phone_bond ++ BOND_KEY_FILE_EXT) := File phone_key 384]>
      (<[reload_file := File two_bytes 384]> sample_fs)).
Definition second_try : list (Attempt (PP := FakePeripheral)) :=
  [mkAttempt (PP := FakePeripheral) (Err tt) false; mkAttempt (PP := FakePeripheral) (Ok (FakePeripheral_new [])) false].

Lemma two_loads : BondStore_load reload_file (calm two_fs) = (Ret (Ok two_store), calm two_fs).
Proof.
  apply load_calm.
  - replace (two_fs !! reload_file) with (Some (File two_bytes 384)); [by split; vm_compute |].
    symmetry. unfold two_fs. do 2 (rewrite lookup_insert_ne; [| by vm_compute]). apply lookup_insert_eq.
  - unfold two_fs. do 2 (rewrite lookup_insert_ne; [| by vm_compute]). by rewrite lookup_insert_eq.
Qed.

Lemma second_try_fresh : opens_fresh (PP := FakePeripheral) second_try.
Proof. repeat constructor; by intros p [= <-]. Qed.

Notation two_start := (maybe_spawn_orchestrator (PP := FakePeripheral) reload_file sample_dir second_try (Some (opened [])) 1700000000000000000 (calm two_fs)).

Lemma phone_key_read : key_of sample_dir two_fs (peer_id phone_bond) = Some phone_key.
Proof.
  unfold key_of, read_op, two_fs. rewrite lookup_insert_ne, lookup_insert_eq; [reflexivity |]. by vm_compute.
Qed.

Lemma newer_key_read : key_of sample_dir two_fs (peer_id newer_bond) = Some (replicate 32 5).
Proof. unfold key_of, read_op, two_fs. rewrite lookup_insert_eq. reflexivity. Qed.

Lemma two_starts : exists s, two_start = (Ret (Serving s), calm two_fs).
Proof.
  unfold maybe_spawn_orchestrator, ibind at 1. rewrite two_loads. cbn [open_adapter second_try at_opened wait_for_bluez_retry at_shutdown negb].
  replace (first_active two_store) with (Some phone_bond) by reflexivity. unfold ibind. rewrite seed_key_calm, phone_key_read.
  by eexists.
Qed.

Lemma cold_start_exact_witness :
  exists s, two_start = (Ret (Serving s), calm two_fs) /\ is_Some (s_peers s !! peer_id phone_bond) /\
  exists s1, eval (PP := FakePeripheral) reload_file sample_dir (run_reload Sighup) s = Some (tt, s1) /\
    is_Some (s_peers s1 !! peer_id newer_bond).
Proof.
  destruct two_starts as [s Hs]. exists s. split; [exact Hs |].
  destruct (cold_start_exact (PP := FakePeripheral) reload_file sample_dir second_try (Some (opened [])) 1700000000000000000 two_fs two_store s
    (calm two_fs) Sighup second_try_fresh two_loads Hs) as [(_ & _ & _ & _ & Hp & _) (s1 & E & _ & _ & Hx)].
  split.
  - apply Hp. exists phone_bond, phone_key. split; [| reflexivity]. unfold seed_of.
    replace (first_active two_store) with (Some phone_bond) by reflexivity. cbn [mbind option_bind]. by rewrite phone_key_read.
  - exists s1. split; [exact E |]. apply (Hx _). exists (replicate 32 5). split; [apply newer_key_read |].
    exists newer_bond. split; [right; left; reflexivity | by split].
Defined.

Lemma restart_forgets_newest_witness :
  first_bonded two_store = Some newer_bond /\
  exists s, two_start = (Ret (Serving s), calm two_fs) /\ s_peers s !! peer_id newer_bond = None.
Proof.
  assert (Hn : first_bonded two_store = Some newer_bond) by (vm_compute; reflexivity).
  split; [exact Hn |]. destruct two_starts as [s Hs]. exists s. split; [exact Hs |].
  apply (restart_forgets_newest (PP := FakePeripheral) reload_file sample_dir second_try (Some (opened [])) 1700000000000000000 two_fs two_store s
    (calm two_fs) phone_bond newer_bond second_try_fresh two_loads Hs); [reflexivity | exact Hn | by vm_compute].
Defined.
End samples.
