(* ===== verification/DaemonRun.v ===== *)
(** * The life of the daemon

    Models [run] of crates/syauth-presenced/src/runtime.rs: signal handlers, the pid file lock, the task that starts the orchestrator, the
    socket server, the wait for a signal and the shutdown.

    [run] is a task with a program counter at its [await] points.  The tasks it spawned are the environment: the start
    finishes or is cancelled, the orchestrator and the server end or fail, in any order; signals, the watcher and the queue are those of
    Runtime.v.  To abort the watcher is a request ([d_stop_watcher]) that [run] does not wait for: the watcher may go on,
    also after [run] returned, until it stops.  Each task's own steps are in Runtime.v, Reload.v, Challenge.v and Server.v. *)

From stdpp Require Import prelude list gmap strings.
From Stdlib Require Import ZArith Lia.
From S2P Require Import Prelude WireFrame Fs Orchestrator Challenge Reload Runtime.

Inductive RunError := SignalFailed (name : str) | LockFailed | ServerFailed.

(** The accept loop's task: what [JoinHandle] gives. *)
Inductive serve_state := ServeRunning | ServeReturned (r : result unit unit) | ServeJoinError.

(** The task that starts the orchestrator; a start that returned gave an orchestrator or not. *)
Inductive init_state := InitRunning | InitCancelled | InitReturned (orchestrator : bool).

Inductive run_pc :=
| RunWaiting
| RunAborting (r : ShutdownReason) (* [init_task.await] after [abort] *)
| RunOrchestrator (r : ShutdownReason) (* [handle.await] *)
| RunServer (r : ShutdownReason) (* [serve_task.await] *)
| RunReturned (r : result ShutdownReason RunError).

#[local] Instance join_result_eq_dec : EqDecision (result unit unit).
Proof. solve_decision. Defined.
#[global] Instance serve_state_eq_dec : EqDecision serve_state.
Proof. solve_decision. Defined.
#[global] Instance init_state_eq_dec : EqDecision init_state.
Proof. solve_decision. Defined.

Record DaemonTasks := mkDaemonTasks {
  d_plumbing : Plumbing;
  d_lock : bool;
  d_init : init_state;
  d_orchestrator : bool; (* its task is running *)
  d_serve : serve_state;
  d_stop_serve : bool; (* [shutdown_tx] was used *)
  d_stop_orchestrator : bool; (* [orch_shutdown_tx] was used *)
  d_stop_watcher : bool; (* the watcher's handle was aborted *)
  d_pc : run_pc;
}.

(** Up to the wait: the three handlers, then the lock, then the tasks. *)
Definition run_start (sigterm sigint sighup lock : result unit unit) : result DaemonTasks RunError :=
  match sigterm, sigint, sighup, lock with
  | Err _, _, _, _ => Err (SignalFailed (lit "SIGTERM"))
  | _, Err _, _, _ => Err (SignalFailed (lit "SIGINT"))
  | _, _, Err _, _ => Err (SignalFailed (lit "SIGHUP"))
  | _, _, _, Err _ => Err LockFailed
  | Ok _, Ok _, Ok _, Ok _ => Ok (mkDaemonTasks rt_init true InitRunning false ServeRunning false false false RunWaiting)
  end.

Definition set_pc (pc : run_pc) (d : DaemonTasks) : DaemonTasks :=
  mkDaemonTasks (d_plumbing d) (d_lock d) (d_init d) (d_orchestrator d) (d_serve d) (d_stop_serve d) (d_stop_orchestrator d) (d_stop_watcher d) pc.
Definition set_plumbing (y : Plumbing) (d : DaemonTasks) : DaemonTasks :=
  mkDaemonTasks y (d_lock d) (d_init d) (d_orchestrator d) (d_serve d) (d_stop_serve d) (d_stop_orchestrator d) (d_stop_watcher d) (d_pc d).

(** [handle.abort()] of the watcher, on the way to the server's handle: a request, which nothing waits for; the watcher may go on until
    the runtime cancels it ([WatcherStops]). *)
Definition stop_watcher (r : ShutdownReason) (d : DaemonTasks) : DaemonTasks :=
  mkDaemonTasks (d_plumbing d) (d_lock d) (d_init d) (d_orchestrator d) (d_serve d) (d_stop_serve d) (d_stop_orchestrator d) true (RunServer r).

(** The two messages of the shutdown, then the choice on [init_task.is_finished()]. *)
Definition drain (r : ShutdownReason) (d : DaemonTasks) : DaemonTasks :=
  let d := mkDaemonTasks (d_plumbing d) (d_lock d) (d_init d) (d_orchestrator d) (d_serve d) true true (d_stop_watcher d) (d_pc d) in
  match d_init d with
  | InitRunning => set_pc (RunAborting r) d
  | InitReturned true => set_pc (RunOrchestrator r) d
  | InitReturned false | InitCancelled => stop_watcher r d
  end.

(** [drop(lock)] and the return. *)
Definition return_run (out : result ShutdownReason RunError) (d : DaemonTasks) : DaemonTasks :=
  mkDaemonTasks (d_plumbing d) false (d_init d) (d_orchestrator d) (d_serve d) (d_stop_serve d) (d_stop_orchestrator d) (d_stop_watcher d) (RunReturned out).

Definition poll_run (d : DaemonTasks) : DaemonTasks :=
  match d_pc d with
  | RunReturned _ => d
  | RunWaiting =>
      let y := poll_main (d_plumbing d) in
      match p_main y with MDone r => drain r (set_plumbing y d) | _ => set_plumbing y d end
  | RunAborting r => match d_init d with InitRunning => d | _ => stop_watcher r d end
  | RunOrchestrator r => if d_orchestrator d then d else stop_watcher r d
  | RunServer r =>
      match d_serve d with
      | ServeRunning => d
      | ServeReturned (Ok _) | ServeJoinError => return_run (Ok r) d
      | ServeReturned (Err _) => return_run (Err ServerFailed) d
      end
  end.

Inductive life_event :=
| Outside (e : rt_event) (* signals, the file, time, the watcher and the queue *)
| PollRun
| InitEnds (orchestrator : bool)
| InitStops (* the cancellation takes effect *)
| OrchestratorEnds
| WatcherStops (* the abort takes effect *)
| ServeEnds (out : serve_state). (* in good order only after the shutdown message *)

(** The events of Runtime.v that belong to [run] and to its tasks happen through them. *)
Definition is_outside (e : rt_event) : bool :=
  match e with PollMain | PublishBackend _ | Hangup => false | _ => true end.

(** An event that is not possible changes nothing. *)
Definition life_step (d : DaemonTasks) (e : life_event) : DaemonTasks :=
  match e with
  | Outside x => if is_outside x then set_plumbing (rt_step (d_plumbing d) x) d else d
  | PollRun => poll_run d
  | InitEnds some =>
      match d_init d with
      | InitRunning =>
          mkDaemonTasks (rt_step (d_plumbing d) (PublishBackend some)) (d_lock d) (InitReturned some) some (d_serve d) (d_stop_serve d)
                   (d_stop_orchestrator d) (d_stop_watcher d) (d_pc d)
      | _ => d
      end
  | InitStops =>
      match d_init d, d_pc d with
      | InitRunning, RunAborting _ =>
          mkDaemonTasks (rt_step (d_plumbing d) (PublishBackend false)) (d_lock d) InitCancelled (d_orchestrator d) (d_serve d) (d_stop_serve d)
                   (d_stop_orchestrator d) (d_stop_watcher d) (d_pc d)
      | _, _ => d
      end
  | OrchestratorEnds =>
      if d_orchestrator d
      then mkDaemonTasks (rt_step (d_plumbing d) Hangup) (d_lock d) (d_init d) false (d_serve d) (d_stop_serve d) (d_stop_orchestrator d) (d_stop_watcher d) (d_pc d)
      else d
  | WatcherStops =>
      if d_stop_watcher d then set_plumbing (set_watch (p_events (d_plumbing d)) WExit (d_plumbing d)) d else d
  | ServeEnds out =>
      match d_serve d with
      | ServeRunning =>
          if bool_decide (out = ServeReturned (Ok tt)) && negb (d_stop_serve d) then d
          else mkDaemonTasks (d_plumbing d) (d_lock d) (d_init d) (d_orchestrator d) out (d_stop_serve d) (d_stop_orchestrator d) (d_stop_watcher d) (d_pc d)
      | _ => d
      end
  end.

Definition life (d : DaemonTasks) (es : list life_event) : DaemonTasks := foldl life_step d es.

(** ** Invariant *)

(** A signal that is taken was sent. *)
Record signals_known (y : Plumbing) : Prop := {
  known_term : p_term y = true -> Signalled RSigterm ∈ p_log y;
  known_int : p_int y = true -> Signalled RSigint ∈ p_log y;
  known_done : forall r, p_main y = MDone r -> Signalled r ∈ p_log y;
}.

Lemma known_log y y' :
  p_term y' = p_term y -> p_int y' = p_int y -> p_main y' = p_main y -> (forall x, x ∈ p_log y -> x ∈ p_log y') ->
  signals_known y -> signals_known y'.
Proof. intros E1 E2 E3 Hl [H1 H2 H3]. split; rewrite ?E1, ?E2, ?E3; eauto. Qed.

Lemma note_elem x y z : z ∈ p_log y -> z ∈ p_log (note x y).
Proof. cbn. rewrite elem_of_app. auto. Qed.

Lemma known_send t y : signals_known y -> signals_known (send_reload t y).2.
Proof.
  unfold send_reload. destruct (negb (p_receiver y)); [done |]. destruct (_ <? _); [| done].
  apply known_log; try done. intros x. apply (note_elem _ y).
Qed.

Lemma known_set_signals t i h y :
  signals_known y -> (t = true -> p_term y = true) -> (i = true -> p_int y = true) -> signals_known (set_signals t i h y).
Proof. intros [K1 K2 K3] Ht Hi. split; cbn; eauto. Qed.

Lemma known_set_main m y : signals_known y -> (forall r, m = MDone r -> Signalled r ∈ p_log y) -> signals_known (set_main m y).
Proof. intros [K1 K2 K3] Hm. by split. Qed.

Lemma known_poll_main y : signals_known y -> signals_known (poll_main y).
Proof.
  intros K. unfold poll_main. destruct (p_main y) eqn:Em; [| | done].
  - destruct (p_term y) eqn:Et.
    { apply known_set_main; [by apply known_set_signals |]. intros r [= <-]. by apply (known_term y K). }
    destruct (p_int y) eqn:Ei.
    { apply known_set_main; [by apply known_set_signals |]. intros r [= <-]. by apply (known_int y K). }
    destruct (p_hup y); [| done]. assert (K' : signals_known (set_signals false false false y)) by (by apply known_set_signals).
    cbn. destruct (p_backend y); solve [exact K' | by apply (known_set_main MSend _ K')].
  - pose proof (known_send Sighup y K) as K'. destruct (send_reload Sighup y) as [[] y'] eqn:Es; cbn in K'; try done; by apply known_set_main.
Qed.

Lemma known_poll_watch y : signals_known y -> signals_known (poll_watch y).
Proof.
  intros K. unfold poll_watch. destruct (p_watch y).
  - done.
  - done.
  - destruct (p_events y); [done |]. by apply (known_log y).
  - destruct (_ <=? _); [| done]. by apply (known_log y).
  - destruct (p_backend y); [done | |]; by apply (known_log y).
  - pose proof (known_send Inotify y K) as K'. destruct (send_reload Inotify y) as [[] y'] eqn:Es; cbn in K'; try done; by apply (known_log y').
  - done.
Qed.

Lemma known_step y e : signals_known y -> signals_known (rt_step y e).
Proof.
  intros K. destruct e; cbn [rt_step].
  - destruct K as [K1 K2 K3]. split; cbn; intros; rewrite elem_of_app; try (left; by eauto). right. by apply list_elem_of_singleton.
  - destruct K as [K1 K2 K3]. split; cbn; intros; rewrite elem_of_app; try (left; by eauto). right. by apply list_elem_of_singleton.
  - by apply known_set_signals.
  - destruct (p_watch y); try done; by apply (known_log y).
  - destruct (_ && _); [| done]. apply (known_log y); try done. intros x. apply (note_elem _ y).
  - by apply known_poll_main.
  - by apply known_poll_watch.
  - destruct (_ <=? _); [| done]. by apply (known_log y).
  - destruct (p_backend y); [| done | done]. by apply (known_log y).
  - destruct trigger; try done; by apply known_send.
  - destruct (p_receiver y); [| done]. by apply (known_log y).
  - by apply (known_log y).
Qed.

Lemma main_stays_done y e r : p_main y = MDone r -> p_main (rt_step y e) = MDone r.
Proof.
  intros Hm. destruct e; cbn [rt_step]; try done.
  - by destruct (p_watch y).
  - by destruct (_ && _).
  - unfold poll_main. by rewrite Hm.
  - unfold poll_watch, send_reload. destruct (p_watch y); try done; [by destruct (p_events y) | by destruct (_ <=? _) | by destruct (p_backend y) |].
    destruct (negb _); [done |]. by destruct (_ <? _).
  - by destruct (_ <=? _).
  - by destruct (p_backend y).
  - unfold send_reload. destruct trigger; cbn; try done; (destruct (negb _); [done |]; by destruct (_ <? _)).
  - by destruct (p_receiver y).
Qed.

Lemma main_needs_poll y e : is_outside e = true -> p_main (rt_step y e) = p_main y.
Proof.
  intros He. destruct e; cbn [rt_step]; try done.
  - by destruct (p_watch y).
  - by destruct (_ && _).
  - unfold poll_watch, send_reload. destruct (p_watch y); try done; [by destruct (p_events y) | by destruct (_ <=? _) | by destruct (p_backend y) |].
    destruct (negb _); [done |]. by destruct (_ <? _).
  - by destruct (_ <=? _).
  - unfold send_reload. destruct trigger; cbn; try done; (destruct (negb _); [done |]; by destruct (_ <? _)).
  - by destruct (p_receiver y).
Qed.

Definition is_done (m : main_pc) : bool := match m with MDone _ => true | _ => false end.

(** What holds at each [await] of the shutdown. *)
Definition run_stage_ok (d : DaemonTasks) : Prop :=
  match d_pc d with
  | RunWaiting => is_done (p_main (d_plumbing d)) = false
  | RunAborting r => p_main (d_plumbing d) = MDone r /\ d_stop_serve d = true /\ d_stop_orchestrator d = true
  | RunOrchestrator r =>
      p_main (d_plumbing d) = MDone r /\ d_stop_serve d = true /\ d_stop_orchestrator d = true /\ d_init d <> InitRunning
  | RunServer r =>
      p_main (d_plumbing d) = MDone r /\ d_stop_serve d = true /\ d_stop_orchestrator d = true /\
      d_stop_watcher d = true /\ d_init d <> InitRunning
  | RunReturned out =>
      d_stop_orchestrator d = true /\ d_stop_watcher d = true /\ d_init d <> InitRunning /\
      match out with
      | Ok r => p_main (d_plumbing d) = MDone r /\ (d_serve d = ServeReturned (Ok tt) \/ d_serve d = ServeJoinError)
      | Err e => is_done (p_main (d_plumbing d)) = true /\ e = ServerFailed /\ d_serve d = ServeReturned (Err tt)
      end
  end.

Definition run_returned (d : DaemonTasks) : bool := match d_pc d with RunReturned _ => true | _ => false end.

Record life_inv (d : DaemonTasks) : Prop := {
  life_lock : d_lock d = negb (run_returned d);
  life_stage : run_stage_ok d;
  life_known : signals_known (d_plumbing d);
}.

Lemma drain_inv r d :
  d_lock d = true -> d_pc d = RunWaiting -> p_main (d_plumbing d) = MDone r -> signals_known (d_plumbing d) -> life_inv (drain r d).
Proof.
  intros Hl Hpc Hm K.
  unfold drain. cbn. destruct (d_init d) as [| | []] eqn:Ei; cbn; split; try done; unfold run_stage_ok; cbn; by rewrite ?Ei.
Qed.

(** A step that keeps the stage's data. *)
Lemma stage_frame d y i o s :
  (forall r, p_main (d_plumbing d) = MDone r -> p_main y = MDone r) -> (is_done (p_main (d_plumbing d)) = false -> is_done (p_main y) = false) ->
  (d_init d <> InitRunning -> i <> InitRunning) -> (d_serve d <> ServeRunning -> s = d_serve d) ->
  run_stage_ok d -> run_stage_ok (mkDaemonTasks y (d_lock d) i o s (d_stop_serve d) (d_stop_orchestrator d) (d_stop_watcher d) (d_pc d)).
Proof.
  unfold run_stage_ok. cbn. intros Hm Hn Hi Hs. destruct (d_pc d) as [| r | r | r | [r|e]]; cbn.
  - exact Hn.
  - intros (? & ? & ?). auto.
  - intros (? & ? & ? & ?). auto 6.
  - intros (? & ? & ? & ? & ?). auto 6.
  - intros (? & ? & ? & ? & [E | E]); rewrite E in Hs; rewrite Hs by done; auto 8.
  - intros (? & ? & ? & Hd & ? & E); rewrite E in Hs; rewrite Hs by done. destruct (p_main (d_plumbing d)) eqn:Em; try done.
    rewrite (Hm _ eq_refl). auto 8.
Qed.

(** [run] moves on from a stage where the watcher is stopped. *)
Lemma stop_watcher_inv r d :
  d_lock d = true -> p_main (d_plumbing d) = MDone r -> d_stop_serve d = true -> d_stop_orchestrator d = true -> d_init d <> InitRunning ->
  signals_known (d_plumbing d) -> life_inv (stop_watcher r d).
Proof. intros. split; [done | unfold run_stage_ok; cbn; auto 6 | done]. Qed.

Lemma poll_run_inv d : life_inv d -> life_inv (poll_run d).
Proof.
  intros [Hl Hs K]. assert (same : life_inv d) by done. revert Hl Hs. unfold poll_run, run_stage_ok, run_returned.
  destruct (d_pc d) as [| r | r | r | out] eqn:Epc; [| | | | done]; cbn; intros Hl Hs.
  - pose proof (known_poll_main _ K) as K'. destruct (p_main (poll_main (d_plumbing d))) as [| | r] eqn:Em; [| | by apply drain_inv].
    all: split; [unfold run_returned; cbn; by rewrite Epc | unfold run_stage_ok; cbn; by rewrite Epc, Em | done].
  - destruct Hs as (Hm & Hss & Hso). destruct (d_init d) eqn:Ei; [done | |]; (apply stop_watcher_inv; try done; by rewrite Ei).
  - destruct Hs as (Hm & Hss & Hso & Hi). destruct (d_orchestrator d); [done |]. by apply stop_watcher_inv.
  - destruct Hs as (Hm & Hss & Hso & Hw & Hi).
    destruct (d_serve d) as [| [[]|[]] |] eqn:Es; [done | | |]; split; try done; unfold run_stage_ok; cbn; rewrite ?Es, ?Hm; auto 8.
Qed.

Lemma life_step_inv d e : life_inv d -> life_inv (life_step d e).
Proof.
  intros Hd. pose proof Hd as [Hl Hs K]. destruct e as [x | | some | | | | out]; cbn [life_step].
  - destruct (is_outside x) eqn:Ex; [| done]. pose proof (main_needs_poll (d_plumbing d) x Ex) as Em. split; [done | | by apply known_step].
    apply stage_frame; try done; rewrite ?Em; try done.
  - by apply poll_run_inv.
  - destruct (d_init d) eqn:Ei; [| done | done]. split; [done | | by apply known_step]. apply stage_frame; try done.
    + intros r. apply main_stays_done.
    + cbn. by destruct (p_backend _).
  - destruct (d_init d) eqn:Ei; [| done | done]. destruct (d_pc d) eqn:Epc; try done.
    split; [by unfold run_returned in *; rewrite Epc in * | | by apply known_step]. rewrite <- Epc. apply stage_frame; try done.
    + intros r0. apply main_stays_done.
    + cbn. by destruct (p_backend _).
  - destruct (d_orchestrator d); [| done]. split; [done | | by apply known_step]. by apply stage_frame.
  - destruct (d_stop_watcher d); [| done]. split; [done | by apply stage_frame | by apply (known_log (d_plumbing d))].
  - destruct (d_serve d) eqn:Es; [| done | done]. destruct (_ && _); [done |]. split; [done | | done]. by apply stage_frame; try rewrite Es.
Qed.

Lemma life_run_inv es d : life_inv d -> life_inv (life d es).
Proof. revert d. induction es as [| e es IH]; intros d Hd; [done |]. apply IH, life_step_inv, Hd. Qed.

Lemma run_start_inv a b c l d : run_start a b c l = Ok d -> life_inv d.
Proof.
  destruct a, b, c, l; try done. intros [= <-]. by split.
Qed.

(** ** The lock covers the server *)

(** C11: while [run] has not returned the daemon holds its pid file lock, and when it has returned, the accept loop has ended, the
    orchestrator's start is over, and the orchestrator and the watcher were told to stop; it returned the signal that was sent, or the failure of the accept loop
    after a signal.  For every order of signals, ends and failures. *)
Theorem run_lock_covers_server (sigterm sigint sighup lock : result unit unit) (d0 : DaemonTasks) (es : list life_event) :
  run_start sigterm sigint sighup lock = Ok d0 ->
  let d := life d0 es in
  d_lock d = negb (run_returned d) /\
  forall out, d_pc d = RunReturned out ->
    d_serve d <> ServeRunning /\ d_init d <> InitRunning /\ d_stop_watcher d = true /\ d_stop_orchestrator d = true /\
    match out with
    | Ok r => Signalled r ∈ p_log (d_plumbing d)
    | Err e => e = ServerFailed /\ d_serve d = ServeReturned (Err tt) /\ exists r, Signalled r ∈ p_log (d_plumbing d)
    end.
Proof.
  intros Hd d. destruct (life_run_inv es d0 (run_start_inv _ _ _ _ _ Hd)) as [Hl Hs K]. fold d in Hl, Hs, K. split; [done |].
  intros out Hout. unfold run_stage_ok in Hs. rewrite Hout in Hs. destruct Hs as (Hso & Hw & Hi & Hs). destruct out as [r|e].
  - destruct Hs as [Hm [E | E]]; rewrite E; split_and!; try done; by apply (known_done _ K).
  - destruct Hs as (Hm & -> & E). rewrite E. split_and!; try done. destruct (p_main (d_plumbing d)) as [| | r] eqn:Em; try done.
    exists r. by apply (known_done _ K).
Qed.

(** ** Only signals end it *)

Definition is_signal (e : life_event) : bool := match e with Outside SigTerm | Outside SigInt => true | _ => false end.

Definition unsignalled (y : Plumbing) : Prop := forall r, Signalled r ∉ p_log y.

Lemma unsignalled_note x y : unsignalled y -> (forall r, x <> Signalled r) -> unsignalled (note x y).
Proof. intros Hy Hx r. cbn. rewrite elem_of_app, list_elem_of_singleton. intros [H | H]; [by apply (Hy r) | by apply (Hx r)]. Qed.

Lemma unsignalled_send t y : unsignalled y -> unsignalled (send_reload t y).2.
Proof.
  intros Hy. unfold send_reload. destruct (negb _); [done |]. destruct (_ <? _); [| done]. by apply (unsignalled_note _ (set_reload_queue _ y)).
Qed.

Lemma unsignalled_step y e : e <> SigTerm -> e <> SigInt -> unsignalled y -> unsignalled (rt_step y e).
Proof.
  intros H1 H2 Hy. destruct e; try done; cbn [rt_step].
  - by destruct (p_watch y).
  - destruct (_ && _); [| done]. by apply (unsignalled_note _ (set_watch _ _ y)).
  - unfold poll_main. destruct (p_main y); [| | done].
    + destruct (p_term y), (p_int y), (p_hup y); cbn; try done; by destruct (p_backend y).
    + pose proof (unsignalled_send Sighup y Hy). by destruct (send_reload Sighup y) as [[] y'].
  - unfold poll_watch. destruct (p_watch y); [done | done | by destruct (p_events y) | by destruct (_ <=? _) | by destruct (p_backend y) | | done].
    pose proof (unsignalled_send Inotify y Hy). by destruct (send_reload Inotify y) as [[] y'].
  - by destruct (_ <=? _).
  - by destruct (p_backend y).
  - destruct trigger; try done; by apply unsignalled_send.
  - by destruct (p_receiver y).
Qed.

Lemma unsignalled_life_step d e : is_signal e = false -> unsignalled (d_plumbing d) -> unsignalled (d_plumbing (life_step d e)).
Proof.
  intros He Hy. destruct e as [x | | some | | | | out]; cbn [life_step].
  - destruct (is_outside x); [| done]. apply unsignalled_step; [by intros -> | by intros -> | done].
  - pose proof (unsignalled_step (d_plumbing d) PollMain ltac:(done) ltac:(done) Hy) as Hp. cbn [rt_step] in Hp. unfold poll_run.
    destruct (d_pc d); [| by destruct (d_init d) | by destruct (d_orchestrator d) | by destruct (d_serve d) as [| [] |] | done].
    destruct (p_main _); [done | done |]. unfold drain. cbn. by destruct (d_init d) as [| | []].
  - destruct (d_init d); try done. by apply unsignalled_step.
  - destruct (d_init d); try done. destruct (d_pc d); try done. by apply unsignalled_step.
  - destruct (d_orchestrator d); [| done]. by apply unsignalled_step.
  - by destruct (d_stop_watcher d).
  - destruct (d_serve d); try done. by destruct (_ && _).
Qed.

Lemma unsignalled_life es d : forallb (fun e => negb (is_signal e)) es = true -> unsignalled (d_plumbing d) -> unsignalled (d_plumbing (life d es)).
Proof.
  revert d. induction es as [| e es IH]; intros d He Hy; [done |]. apply andb_true_iff in He as [H1 H2]. apply negb_true_iff in H1.
  apply IH, unsignalled_life_step; done.
Qed.

(** Without a signal [run] never returns and keeps the lock, whatever its tasks do: also when the accept loop has failed, for instance because
    the socket could not be bound. *)
Theorem failed_server_is_not_noticed (sigterm sigint sighup lock : result unit unit) (d0 : DaemonTasks) (es : list life_event) :
  run_start sigterm sigint sighup lock = Ok d0 -> forallb (fun e => negb (is_signal e)) es = true ->
  d_pc (life d0 es) = RunWaiting /\ d_lock (life d0 es) = true.
Proof.
  intros Hd He. destruct (life_run_inv es d0 (run_start_inv _ _ _ _ _ Hd)) as [Hl Hs K].
  assert (Hu : unsignalled (d_plumbing (life d0 es))).
  { apply unsignalled_life; [done |]. destruct sigterm, sigint, sighup, lock; try done. injection Hd as <-. intros r H. by apply elem_of_nil in H. }
  assert (Hn : is_done (p_main (d_plumbing (life d0 es))) = false).
  { destruct (p_main _) as [| | r] eqn:Em; try done. exfalso. by apply (Hu r), (known_done _ K). }
  assert (Epc : d_pc (life d0 es) = RunWaiting).
  { unfold run_stage_ok in Hs. destruct (d_pc _) as [| r | r | r | [r|e]]; [done | | | | |]; exfalso; destruct (p_main _); naive_solver. }
  split; [done |]. rewrite Hl. unfold run_returned. by rewrite Epc.
Qed.

(** ** A signal ends it *)

(** SIGTERM, and then everything that was told to stop does. *)
Definition shutdown_events : list life_event :=
  [Outside SigTerm; PollRun; InitStops; OrchestratorEnds; PollRun; ServeEnds (ServeReturned (Ok tt)); PollRun].

(** After SIGTERM, if the main loop is at its select and the tasks end when they are told to, [run] returns and gives the lock back; it reports
    SIGTERM, or the accept loop's error if that had failed before. *)
Theorem sigterm_ends_run (sigterm sigint sighup lock : result unit unit) (d0 : DaemonTasks) (es : list life_event) :
  run_start sigterm sigint sighup lock = Ok d0 -> d_pc (life d0 es) = RunWaiting -> p_main (d_plumbing (life d0 es)) = MSelect ->
  let d := life d0 (es ++ shutdown_events) in
  d_pc d = RunReturned (match d_serve (life d0 es) with ServeReturned (Err _) => Err ServerFailed | _ => Ok RSigterm end) /\
  d_lock d = false.
Proof.
  intros Hd Hpc Hm d. unfold d, life. rewrite foldl_app. fold (life d0 es). generalize dependent (life d0 es). clear d Hd es. intros d Hpc Hm.
  destruct d as [y l i o s ss so sw pc]. cbn in Hpc, Hm. subst pc. cbn [foldl shutdown_events life_step is_outside set_plumbing].
  destruct y as [now be q rc te ti th ma ev wa lg]. cbn in Hm. subst ma. destruct i as [| | []], o, s as [| [[]|[]] |]; by destruct be.
Qed.

Lemma run_lock_covers_server_witness :
  exists d0, run_start (Ok tt) (Ok tt) (Ok tt) (Ok tt) = Ok d0 /\
  let d := life d0 ([InitEnds true; Outside SigInt] ++ shutdown_events) in
  d_pc d = RunReturned (Ok RSigterm) /\ d_lock d = false /\ d_serve d <> ServeRunning.
Proof.
  eexists. split; [reflexivity |]. split_and!; [reflexivity | reflexivity |].
  apply (proj2 (run_lock_covers_server (Ok tt) (Ok tt) (Ok tt) (Ok tt) _ ([InitEnds true; Outside SigInt] ++ shutdown_events) eq_refl) (Ok RSigterm)).
  reflexivity.
Defined.

Lemma failed_server_is_not_noticed_witness :
  exists d0, run_start (Ok tt) (Ok tt) (Ok tt) (Ok tt) = Ok d0 /\
  let d := life d0 [ServeEnds (ServeReturned (Err tt)); InitEnds true; PollRun; Outside SigHup; PollRun] in
  d_serve d = ServeReturned (Err tt) /\ d_pc d = RunWaiting /\ d_lock d = true.
Proof.
  eexists. split; [reflexivity |]. split; [reflexivity |]. by apply (failed_server_is_not_noticed (Ok tt) (Ok tt) (Ok tt) (Ok tt)).
Defined.

Lemma sigterm_ends_run_witness :
  exists d0, run_start (Ok tt) (Ok tt) (Ok tt) (Ok tt) = Ok d0 /\
  d_pc (life d0 ([InitEnds true; ServeEnds (ServeReturned (Err tt))] ++ shutdown_events)) = RunReturned (Err ServerFailed).
Proof.
  eexists. split; [reflexivity |].
  exact (proj1 (sigterm_ends_run (Ok tt) (Ok tt) (Ok tt) (Ok tt) _ [InitEnds true; ServeEnds (ServeReturned (Err tt))] eq_refl eq_refl eq_refl)).
Defined.
