(* ===== verification/InstallPresenced.v ===== *)
(** * Installing the daemon

    Models crates/syauth-cli/src/install_presenced.rs: [syauth install-presenced] writes the systemd unit of the daemon, copies the
    binary and calls systemctl, on the file system with faults of Fs.v.

    Paths are absolute.  The environment, the path of the running executable and what systemctl answers are inputs; the
    calls of systemctl that were made are part of the result. *)

From stdpp Require Import prelude list gmap strings.
From Stdlib Require Import ZArith Lia.
From S2P Require Import Prelude WireFrame Fs Bond PairRecovery Mobile PamService.

Definition DEFAULT_DAEMON_BIN_PATH : path := [lit "usr"; lit "local"; lit "libexec"; lit "syauth-presenced"].
Definition SYSTEMD_USER_UNIT_NAME : str := lit "syauth-presenced.service".
Definition DAEMON_BIN_NAME : str := lit "syauth-presenced".
Definition SYSTEMD_USER_UNIT_SUBDIR : path := [lit "systemd"; lit "user"].
Definition XDG_CONFIG_HOME_FALLBACK_SUBDIR : str := lit ".config".

(** The unit that is compiled into the command: crates/syauth-presenced/dist/syauth-presenced.service. *)
Definition SYSTEMD_USER_UNIT_BUNDLED : str :=
  lit "# syauth-presenced — long-running desktop user-service.
#
# SPEC anchor: specs/unlock-proximity/SPEC.md §3 Approach (per-user
# user-systemd service), §4 Architecture, and §3 Decisions row
# " ++ [34] ++
  lit "Daemon process model" ++ [34] ++
  lit " (per-user, not system).
# Roadmap row: specs/unlock-proximity/ROADMAP.md Step S-001.
# Journey: specs/journeys/JOURNEY-S-001-scaffold-syauth-presenced.md.
#
# Install path: ~/.config/systemd/user/syauth-presenced.service
# Enable: systemctl --user daemon-reload && systemctl --user enable --now syauth-presenced
# Logs:   journalctl --user -t syauth-presenced -f

[Unit]
Description=syauth phone-as-key presence daemon
Documentation=https://github.com/sy/syauth specs/unlock-proximity/SPEC.md
# Daemon binds ${XDG_RUNTIME_DIR}/syauth/auth.sock (S-002+) and
# locks ${XDG_RUNTIME_DIR}/syauth/presenced.pid (S-001), so the
# XDG_RUNTIME_DIR must exist before the unit starts.
ConditionPathIsDirectory=%t

[Service]
Type=simple
# The binary lives under /usr/local/libexec/syauth-presenced once
# `syauth install-presenced` (S-009) is run. Until S-009 lands an
# installer, operators can override via systemctl edit.
ExecStart=/usr/local/libexec/syauth-presenced
# Clean shutdown: SIGTERM is the default; the daemon's signal handler
# drops the pidfile lock + unlinks the pidfile + exits within ~1s.
KillSignal=SIGTERM
TimeoutStopSec=5
# Restart on crash so a transient BlueZ adapter blip (S-003+) does
# not require operator intervention. S-001 has no crash conditions
# of its own; this setting is forward-looking for the BLE event loop
# that arrives in S-003+.
Restart=on-failure
RestartSec=2
# Sandboxing aligned with SPEC §7 Security (" ++ [34] ++
  lit "only the daemon's own
# UID can connect" ++ [34] ++
  lit "). The pidfile + socket live under the per-user
# runtime dir (already mode 0700 by systemd), so NoNewPrivileges is
# the only meaningful sandbox knob a user-service can enforce.
NoNewPrivileges=yes
# Audit log path (SPEC §7) writes to /var/lib/syauth/last.log; the
# daemon needs write access there even though it runs as the user.
# An operator who wants the audit log under their $XDG_DATA_HOME can
# override --bonds-file / --keys-dir / the audit path via a drop-in.
ProtectSystem=strict
ProtectHome=read-only
ReadWritePaths=/var/lib/syauth /var/log/syauth

[Install]
WantedBy=default.target
".

Record InstallPresencedOpts := mkPresencedOpts { ip_from : option path; ip_unit_dir : option path; ip_dry_run : bool }.

Inductive InstallPresencedOutcome :=
| PresencedInstalled (unit_path binary_path : path)
| PresencedDryRun (unit_path source_binary : path).

Inductive InstallPresencedError :=
| SourceMissing
| CurrentExe (k : ErrorKind)
| UnitDirUnresolvable
| PresencedIo (p : path) (k : ErrorKind)
| SystemctlFailed (verb : list str)
| SystemctlSpawn.

(** A variable of the environment that names a directory. *)
Inductive EnvDir := EnvUnset | EnvEmpty | EnvDirAt (p : path).

(** A run of [systemctl --user]. *)
Inductive systemctl_result := SystemctlOk | SystemctlBad | SystemctlNotFound.

Record InstallHost := mkInstallHost {
  ih_xdg_config_home : EnvDir;
  ih_home : EnvDir;
  ih_current_exe : result path ErrorKind;
  ih_systemctl : list str -> systemctl_result;
}.

Definition resolve_unit_dir (over : option path) (h : InstallHost) : result path InstallPresencedError :=
  match over with
  | Some p => Ok p
  | None =>
      match ih_xdg_config_home h with
      | EnvDirAt xdg => Ok (xdg ++ SYSTEMD_USER_UNIT_SUBDIR)
      | _ =>
          match ih_home h with
          | EnvDirAt home => Ok (join home XDG_CONFIG_HOME_FALLBACK_SUBDIR ++ SYSTEMD_USER_UNIT_SUBDIR)
          | _ => Err UnitDirUnresolvable
          end
      end
  end.

(** [Path::display] *)
Definition display (p : path) : str := match p with [] => [47] | _ => concat (map (cons 47) p) end.

Definition EXEC_START : str := lit "ExecStart=".

(** [line.starts_with("ExecStart=")] *)
Definition is_exec_start (line : str) : bool := match strip_prefix EXEC_START line with Some _ => true | None => false end.

(** The loop over [body.lines()]. *)
Fixpoint exec_start_loop (replaced : bool) (binary : str) (ls : list str) : str :=
  match ls with
  | [] => []
  | line :: ls =>
      if negb replaced && is_exec_start line
      then EXEC_START ++ binary ++ [10] ++ exec_start_loop true binary ls
      else line ++ [10] ++ exec_start_loop replaced binary ls
  end.

Definition rewrite_exec_start (body : str) (binary_path : path) : str := exec_start_loop false (display binary_path) (str_lines body).

Section install.
Context `{UM : Umask, TF : Tempfile}.

Definition resolve_source_binary (over : option path) (h : InstallHost) : io (result path InstallPresencedError) :=
  match over with
  | Some p => iret (Ok p)
  | None =>
      match ih_current_exe h with
      | Err k => iret (Err (CurrentExe k))
      | Ok me =>
          match parent me with
          | None => iret (Err SourceMissing)
          | Some d => let! there := fs_exists (join d DAEMON_BIN_NAME) in
                      iret (if there then Ok (join d DAEMON_BIN_NAME) else Err SourceMissing)
          end
      end
  end.

(** What [atomic_write_text] does with its temporary file. *)
Definition fill_and_rename (tmp target : path) (body : str) : io (result unit InstallPresencedError) :=
  let!? _ := imap_err (PresencedIo tmp) (fs_write tmp body) in
  let!? _ := imap_err (PresencedIo tmp) fs_sync_all in
  imap_err (PresencedIo target) (fs_rename tmp target).

(** An error drops the temporary file, which unlinks it. *)
Definition atomic_write_text (target : path) (body : str) : io (result unit InstallPresencedError) :=
  let d := default [] (parent target) in
  let!? _ := match parent target with
             | Some d => imap_err (PresencedIo d) (fs_create_dir_all d)
             | None => iret (Ok tt)
             end in
  let!? tmp := imap_err (PresencedIo d) (tmp_create d) in
  let! r := fill_and_rename tmp target body in
  match r with
  | Ok _ => iret (Ok tt)
  | Err e => let! _ := fs_remove_file tmp in iret (Err e)
  end.

Definition run_systemctl (args : list str) (h : InstallHost) : result unit InstallPresencedError :=
  match ih_systemctl h args with
  | SystemctlOk => Ok tt
  | SystemctlBad => Err (SystemctlFailed args)
  | SystemctlNotFound => Err SystemctlSpawn
  end.

Definition DAEMON_RELOAD : list str := [lit "daemon-reload"].
Definition ENABLE_NOW : list str := [lit "enable"; lit "--now"; SYSTEMD_USER_UNIT_NAME].

(** The two calls at the end, with the list of what was called. *)
Definition activate_unit (unit_path : path) (h : InstallHost) : result InstallPresencedOutcome InstallPresencedError * list (list str) :=
  match run_systemctl DAEMON_RELOAD h with
  | Err e => (Err e, [DAEMON_RELOAD])
  | Ok _ =>
      match run_systemctl ENABLE_NOW h with
      | Err e => (Err e, [DAEMON_RELOAD; ENABLE_NOW])
      | Ok _ => (Ok (PresencedInstalled unit_path DEFAULT_DAEMON_BIN_PATH), [DAEMON_RELOAD; ENABLE_NOW])
      end
  end.

Definition binary_path_of (opts : InstallPresencedOpts) (source_binary : path) : path :=
  if ip_dry_run opts || bool_decide (is_Some (ip_from opts)) then source_binary else DEFAULT_DAEMON_BIN_PATH.

Definition unit_body (opts : InstallPresencedOpts) (source_binary : path) : str :=
  rewrite_exec_start SYSTEMD_USER_UNIT_BUNDLED (binary_path_of opts source_binary).

(** [fs::copy] of a file onto itself: the target is truncated when it is opened, before anything is read from the source. *)
Definition fs_copy_onto (src dst : path) : io (result unit ErrorKind) :=
  if bool_decide (src = dst)
  then let!? cm := syscall (fun g => (source_op src g, g)) in fs_put dst [] cm.2
  else fs_copy src dst.

Definition copy_binary (source_binary : path) : io (result unit InstallPresencedError) :=
  let!? _ := match parent DEFAULT_DAEMON_BIN_PATH with
             | Some d => imap_err (PresencedIo d) (fs_create_dir_all d)
             | None => iret (Ok tt)
             end in
  imap_err (PresencedIo DEFAULT_DAEMON_BIN_PATH) (fs_copy_onto source_binary DEFAULT_DAEMON_BIN_PATH).

(** The lines a dry run prints are not modelled. *)
Definition install_presenced (opts : InstallPresencedOpts) (h : InstallHost)
  : io (result InstallPresencedOutcome InstallPresencedError * list (list str)) :=
  match resolve_unit_dir (ip_unit_dir opts) h with
  | Err e => iret (Err e, [])
  | Ok unit_dir =>
      let unit_path := join unit_dir SYSTEMD_USER_UNIT_NAME in
      let! source := resolve_source_binary (ip_from opts) h in
      match source with
      | Err e => iret (Err e, [])
      | Ok source_binary =>
          let! written := atomic_write_text unit_path (unit_body opts source_binary) in
          match written with
          | Err e => iret (Err e, [])
          | Ok _ =>
              if ip_dry_run opts then iret (Ok (PresencedDryRun unit_path source_binary), [])
              else
                let! copied := copy_binary source_binary in
                iret match copied with
                     | Err e => (Err e, [])
                     | Ok _ => activate_unit unit_path h
                     end
          end
      end
  end.
End install.

(** ** The unit text *)

(** A line that [str::lines] gives back as it is. *)
Definition plain_line (l : str) : Prop := 10 ∉ l /\ strip_cr l = l.

Definition unlines (ls : list str) : str := concat (map (fun l => l ++ [10]) ls).

Lemma lines_from_plain cur l rest : 10 ∉ l -> lines_from cur (l ++ 10 :: rest) = strip_cr (cur ++ l) :: lines_from [] rest.
Proof.
  revert cur. induction l as [| c l IH]; intros cur Hl; cbn; [by rewrite app_nil_r |].
  rewrite not_elem_of_cons in Hl. destruct Hl as [Hc Hl]. destruct (Z.eqb_spec c 10) as [-> |]; [done |].
  rewrite IH by done. by rewrite <- app_assoc.
Qed.

Lemma str_lines_unlines ls : Forall plain_line ls -> str_lines (unlines ls) = ls.
Proof.
  induction 1 as [| l ls [Hn Hc] _ IH]; [done |]. unfold str_lines, unlines in *. cbn.
  rewrite <- app_assoc. cbn. rewrite lines_from_plain by done. cbn. by rewrite Hc, IH.
Qed.

Fixpoint replace_first (f : str -> bool) (x : str) (ls : list str) : list str :=
  match ls with [] => [] | l :: ls => if f l then x :: ls else l :: replace_first f x ls end.

Lemma exec_start_loop_unlines b binary ls :
  exec_start_loop b binary ls = unlines (if b then ls else replace_first is_exec_start (EXEC_START ++ binary) ls).
Proof.
  unfold unlines. revert b. induction ls as [| l ls IH]; intros b; [by destruct b |]. cbn [exec_start_loop].
  destruct b; cbn [negb andb replace_first]; [by rewrite IH; cbn; rewrite <- app_assoc |].
  destruct (is_exec_start l); rewrite IH; cbn; by rewrite <- !app_assoc.
Qed.

Lemma replace_first_plain f x ls : plain_line x -> Forall plain_line ls -> Forall plain_line (replace_first f x ls).
Proof. intros Hx. induction 1 as [| l ls Hl Hls IH]; cbn; [constructor |]. by destruct (f l); constructor. Qed.

Lemma strip_cr_last l x : x <> [] -> strip_cr x = x -> strip_cr (l ++ x) = l ++ x.
Proof.
  intros Hx. destruct (exists_last Hx) as [y [c ->]]. unfold strip_cr. rewrite app_assoc, !last_snoc.
  destruct (Z.eq_dec c 13) as [-> |]; [| by intros _; repeat case_match; try done; congruence].
  rewrite removelast_last. intros F. exfalso. apply (f_equal length) in F. rewrite length_app in F. cbn in F. lia.
Qed.

Lemma plain_exec_start x : x <> [] -> plain_line x -> plain_line (EXEC_START ++ x).
Proof.
  intros Hx [Hn Hc]. split; [| by apply strip_cr_last]. rewrite elem_of_app. intros [H | H]; [| done].
  revert H. by apply (bool_decide_unpack (10 ∉ EXEC_START)).
Qed.

Lemma display_nonempty p : display p <> [].
Proof. by destruct p. Qed.

(** The lines of the unit that is written. *)
Lemma unit_lines opts src :
  plain_line (display (binary_path_of opts src)) ->
  str_lines (unit_body opts src) =
  replace_first is_exec_start (EXEC_START ++ display (binary_path_of opts src)) (str_lines SYSTEMD_USER_UNIT_BUNDLED).
Proof.
  intros Hp. unfold unit_body, rewrite_exec_start. rewrite exec_start_loop_unlines. apply str_lines_unlines.
  apply replace_first_plain; [apply plain_exec_start; [apply display_nonempty | done] |].
  apply Forall_forall. intros l Hl. apply (bool_decide_unpack (plain_line l)). revert l Hl. apply Forall_forall. 
  by vm_compute; repeat constructor.
Qed.

Lemma replace_first_match x pre l post :
  is_exec_start l = true -> Forall (fun y => is_exec_start y = false) pre -> replace_first is_exec_start x (pre ++ l :: post) = pre ++ x :: post.
Proof. intros Hl. induction 1 as [| y pre Hy _ IH]; cbn; [by rewrite Hl |]. by rewrite Hy, IH. Qed.

Definition EXEC_START_LINE : nat := 25.

(** One line that starts with ExecStart=, at a known place. *)
Definition one_exec_start (k : nat) (ls : list str) : bool :=
  forallb (fun l => negb (is_exec_start l)) (take k ls) && is_exec_start (nth k ls []) && forallb (fun l => negb (is_exec_start l)) (drop (S k) ls).

Lemma filter_none (f : str -> bool) ls : forallb (fun l => negb (f l)) ls = true -> List.filter f ls = [].
Proof. induction ls as [| l ls IH]; cbn; [done |]. destruct (f l); [done |]. apply IH. Qed.

Lemma replace_one k ls x :
  one_exec_start k ls = true -> is_exec_start x = true ->
  replace_first is_exec_start x ls = take k ls ++ [x] ++ drop (S k) ls /\
  List.filter is_exec_start (take k ls ++ [x] ++ drop (S k) ls) = [x].
Proof.
  unfold one_exec_start. rewrite !andb_true_iff. intros [[H1 H2] H3] Hx. split.
  - destruct (le_lt_dec (length ls) k) as [Hk | Hk]; [by rewrite nth_overflow in H2 |].
    assert (E : ls = take k ls ++ nth k ls [] :: drop (S k) ls).
    { rewrite <- (take_drop k ls) at 1. f_equal. apply drop_S. destruct (lookup_lt_is_Some_2 ls k Hk) as [y Hy]. by rewrite (nth_lookup_Some _ _ _ _ Hy). }
    rewrite E at 1. apply replace_first_match; [done |]. apply Forall_forall. intros y Hy.
    rewrite forallb_forall in H1. apply negb_true_iff, H1. by apply list_elem_of_In.
  - rewrite !List.filter_app, (filter_none _ (take k ls)), (filter_none _ (drop (S k) ls)) by done. cbn. by rewrite Hx.
Qed.

Lemma bundled_one_exec_start : one_exec_start EXEC_START_LINE (str_lines SYSTEMD_USER_UNIT_BUNDLED) = true.
Proof. by vm_compute. Qed.

#[local] Opaque SYSTEMD_USER_UNIT_BUNDLED.

(** The unit that [syauth install-presenced] writes is the bundled one with one line changed: line 26, the only one that starts
    with ExecStart=, names the binary that was chosen.  The path must not hold a newline or end with a carriage return. *)
Theorem unit_is_bundled_but_for_exec_start (opts : InstallPresencedOpts) (src : path) :
  plain_line (display (binary_path_of opts src)) ->
  let bundled := str_lines SYSTEMD_USER_UNIT_BUNDLED in
  str_lines (unit_body opts src) =
    take EXEC_START_LINE bundled ++ [lit "ExecStart=" ++ display (binary_path_of opts src)] ++ drop (S EXEC_START_LINE) bundled /\
  List.filter is_exec_start (str_lines (unit_body opts src)) = [lit "ExecStart=" ++ display (binary_path_of opts src)].
Proof.
  intros Hp bundled. rewrite unit_lines by done.
  destruct (replace_one _ _ (EXEC_START ++ display (binary_path_of opts src)) bundled_one_exec_start) as [E1 E2].
  { unfold is_exec_start. by rewrite strip_prefix_app. }
  split; [exact E1 |]. rewrite E1. exact E2.
Qed.

(** ** Runs that meet faults *)

Section faults.
Context `{UM : Umask, TF : Tempfile}.

(** The file at [p] holds [data]. *)
Definition holds_text (data : list Z) (n : option node) : Prop := exists m, n = Some (File data m).

Lemma fill_and_rename_triple tmp p data old :
  tmp <> p ->
  ctriple (fun g => g !! p = old) (fill_and_rename tmp p data)
    (fun r g => match r with Ok _ => holds_text data (g !! p) | Err _ => g !! p = old end)
    (fun g => g !! p = old \/ holds_text data (g !! p)).
Proof using.
  intros Hne. unfold fill_and_rename. set (kept := fun g : fs => g !! p = old).
  set (filled := fun g : fs => kept g /\ holds_text data (g !! tmp)).
  eapply (ctriple_try _ _ _ (fun _ => filled)).
  { apply ctriple_map_err, ctriple_write. intros g Hg.
    assert (Hw : forall x, (write_op tmp x g).2 !! p = old) by (intros x; rewrite write_op_other; done).
    split_and!; [| done | by left | intros n; split; [left; apply Hw | intros k; apply Hw]].
    unfold filled, kept, write_op, holds_text. destruct (resolve_parent g tmp); [| done].
    destruct (g !! tmp) as [[c m|m]|]; cbn; try done; rewrite lookup_insert_ne, lookup_insert_eq by done; eauto. }
  intros _. eapply (ctriple_try _ _ _ (fun _ => filled)).
  { apply ctriple_map_err, ctriple_syscall. intros g [Hg Hf]. cbn. unfold filled. auto. }
  intros _. apply ctriple_map_err, ctriple_syscall. intros g [Hg [m Hm]]. unfold rename_op, kept, holds_text in *.
  destruct (resolve_parent g tmp), (resolve_parent g p); try (by auto). rewrite Hm.
  destruct (g !! p) as [[c m'|m']|] eqn:E; cbn; rewrite ?lookup_insert_eq; split_and!; intros; eauto; try left; congruence.
Qed.

Lemma atomic_write_text_triple d n data old :
  ~ is_tmp_name n ->
  ctriple (fun g => g !! join d n = old) (atomic_write_text (join d n) data)
    (fun r g => match r with Ok _ => holds_text data (g !! join d n) | Err _ => g !! join d n = old end)
    (fun g => g !! join d n = old \/ holds_text data (g !! join d n)).
Proof using.
  intros Hn. unfold atomic_write_text. rewrite parent_join. change (default [] (Some d)) with d.
  set (kept := fun g : fs => g !! join d n = old).
  eapply (ctriple_stable_try (ancestor d) kept).
  { apply touches_map_err, touches_create_dir_all. }
  { apply (stable_lookup _ _ (fun x => x = old)), join_not_ancestor. }
  { by left. } { done. }
  intros _. eapply (ctriple_try _ _ _ (fun tmp g => tmp <> join d n /\ kept g)).
  { apply ctriple_map_err, ctriple_syscall. intros g Hg. unfold tmp_create_op.
    assert (Ht : join d (tmp_name g d) <> join d n) by (intros [_ E] % join_inj; apply Hn; by eexists).
    destruct (resolve g [] d); [| by auto]. destruct (g !! join d (tmp_name g d)); [by auto |].
    cbn. unfold kept. rewrite !lookup_insert_ne by done. auto. }
  intros tmp. apply ctriple_pure. intros Ht.
  eapply ctriple_bind; [apply (fill_and_rename_triple tmp (join d n) data old Ht) |].
  intros [[]|e]; [by apply ctriple_ret |].
  eapply (ctriple_bind _ _ _ (fun _ => kept)); [| intros _; by apply ctriple_ret].
  eapply ctriple_conseq; [apply (ctriple_stable (eq tmp) kept) | done | done | by left].
  - apply touches_remove_file.
  - apply (stable_lookup _ _ (fun x => x = old)). by intros ->.
Qed.

(** What [fs::copy] leaves at its target. *)
Definition copied (src dst : path) (g : fs) : Prop :=
  exists c m, if bool_decide (src = dst) then g !! dst = Some (File [] m)
              else g !! src = Some (File c m) /\ g !! dst = Some (File c m).

Lemma put_op_other p data m g q : q <> p -> (put_op p data m g).2 !! q = g !! q.
Proof using.
  intros Hq. unfold put_op. destruct (resolve_parent g p); [| done].
  destruct (g !! p) as [[]|]; cbn; rewrite ?lookup_insert_ne by done; done.
Qed.

Lemma put_op_ok p data m g x : (put_op p data m g).1 = Ok x -> (put_op p data m g).2 !! p = Some (File data m).
Proof using.
  unfold put_op. destruct (resolve_parent g p); [| done]. destruct (g !! p) as [[]|]; cbn; rewrite ?lookup_insert_eq; done.
Qed.

Lemma touches_put p data m : touches (eq p) (fs_put p data m).
Proof using.
  intros w q Hq. unfold fs_put. rewrite <- (next_fault_files w).
  assert (Hne : q <> p) by congruence.
  destruct (next_fault w) as [[|k [n|]|[n|]] w1]; cbn; try done; try by apply put_op_other.
  pose proof (put_op_other p data m (files w1) q Hne). by destruct (put_op p data m (files w1)).
Qed.

Lemma touches_copy_binary src : touches (fun q => ancestor DEFAULT_DAEMON_BIN_PATH q) (copy_binary src).
Proof using.
  assert (Hd : ancestor DEFAULT_DAEMON_BIN_PATH DEFAULT_DAEMON_BIN_PATH) by (by exists []).
  unfold copy_binary. apply touches_try; [apply touches_map_err; eapply touches_weaken; [apply touches_create_dir_all |] |].
  - intros q (k & Hq & E). exists (k ++ [lit "syauth-presenced"]). split; [done |]. by rewrite app_assoc, E.
  - intros _. apply touches_map_err. unfold fs_copy_onto, fs_copy.
    destruct (bool_decide _); (apply touches_try; [by apply touches_syscall |]); intros cm;
      (eapply touches_weaken; [apply touches_put | by intros q <-]).
Qed.

Lemma source_triple src :
  ctriple (fun _ => True) (syscall (fun g => (source_op src g, g)))
    (fun r g => match r with Ok cm => g !! src = Some (File cm.1 cm.2) | Err _ => True end) (fun _ => True).
Proof using.
  apply ctriple_syscall. intros g _. cbn. split_and!; try done. unfold source_op.
  destruct (g !! src) as [[c m|m]|]; try done. by destruct (resolve_parent g src).
Qed.

Lemma put_triple (F : fs -> Prop) p data m :
  stable (eq p) F ->
  ctriple F (fs_put p data m) (fun r g => F g /\ (is_ok r = true -> g !! p = Some (File data m))) (fun _ => True).
Proof using.
  intros Hs. apply ctriple_put. intros g HF.
  assert (HP : forall x, F (put_op p x m g).2) by (intros x; apply (Hs g); [intros q Hq; apply put_op_other; congruence | done]).
  split_and!; try done. destruct (put_op p data m g).1 eqn:E; [| done]. intros _. by eapply put_op_ok.
Qed.

Lemma copy_binary_triple src :
  ctriple (fun _ => True) (copy_binary src) (fun r g => is_ok r = true -> copied src DEFAULT_DAEMON_BIN_PATH g) (fun _ => True).
Proof using.
  unfold copy_binary. eapply (ctriple_stable_try (fun _ => True) (fun _ => True)); try done; [by intros w q [] |].
  intros _. apply ctriple_map_err. unfold fs_copy_onto, fs_copy, copied. case_bool_decide as Hsrc.
  - eapply (ctriple_try _ _ _ (fun _ _ => True)).
    + eapply ctriple_conseq; [apply source_triple | done | | done]. by intros [cm|e] g.
    + intros cm. eapply ctriple_conseq; [apply (put_triple (fun _ => True)) | done | | done]; [done |].
      intros r g [_ Hr] Hok. exists [], cm.2. apply Hr. by destruct r.
  - eapply (ctriple_try _ _ _ (fun cm g => g !! src = Some (File cm.1 cm.2))).
    + eapply ctriple_conseq; [apply source_triple | done | | done]. by intros [cm|e] g.
    + intros cm. eapply ctriple_conseq; [apply (put_triple (fun g => g !! src = Some (File cm.1 cm.2))) | done | | done].
      * apply (stable_lookup _ _ (fun x => x = Some (File cm.1 cm.2))). intros E; by apply Hsrc.
      * intros r g [Hg Hr] Hok. exists cm.1, cm.2. split; [done |]. apply Hr. by destruct r.
Qed.

(** The binary the command takes. *)
Definition source_path (opts : InstallPresencedOpts) (h : InstallHost) : option path :=
  match ip_from opts, ih_current_exe h with
  | Some p, _ => Some p
  | None, Ok me => (fun d => join d DAEMON_BIN_NAME) <$> parent me
  | None, Err _ => None
  end.

(** The unit is there whole, for the binary the command takes. *)
Definition unit_installed (opts : InstallPresencedOpts) (h : InstallHost) (unit_path : path) (g : fs) : Prop :=
  exists src, source_path opts h = Some src /\ holds_text (unit_body opts src) (g !! unit_path).

(** The unit and the binary are there whole. *)
Definition all_installed (opts : InstallPresencedOpts) (h : InstallHost) (unit_path : path) (g : fs) : Prop :=
  exists src, source_path opts h = Some src /\ holds_text (unit_body opts src) (g !! unit_path) /\ copied src DEFAULT_DAEMON_BIN_PATH g.

(** What the command leaves on disk, and when it calls systemctl. *)
Definition presenced_post (opts : InstallPresencedOpts) (h : InstallHost) (unit_path : path) (g0 g : fs)
    (out : result InstallPresencedOutcome InstallPresencedError * list (list str)) : Prop :=
  (out.2 <> [] -> ip_dry_run opts = false /\ all_installed opts h unit_path g) /\
  match out.1 with
  | Ok (PresencedInstalled u b) =>
      u = unit_path /\ b = DEFAULT_DAEMON_BIN_PATH /\ out.2 = [DAEMON_RELOAD; ENABLE_NOW] /\ Forall (fun c => ih_systemctl h c = SystemctlOk) out.2
  | Ok (PresencedDryRun u src) =>
      u = unit_path /\ out.2 = [] /\ ip_dry_run opts = true /\ unit_installed opts h unit_path g
  | Err _ => g !! unit_path = g0 !! unit_path \/ unit_installed opts h unit_path g
  end.

Lemma unit_name_not_tmp : ~ is_tmp_name SYSTEMD_USER_UNIT_NAME.
Proof using. by intros [s E]. Qed.

Lemma unit_not_under_binary d : ~ ancestor DEFAULT_DAEMON_BIN_PATH (join d SYSTEMD_USER_UNIT_NAME).
Proof using.
  intros (k & _ & E). assert (H : SYSTEMD_USER_UNIT_NAME ∈ DEFAULT_DAEMON_BIN_PATH).
  { rewrite <- E. unfold join. rewrite !elem_of_app. left. right. by apply list_elem_of_singleton. }
  revert H. by apply (bool_decide_unpack (SYSTEMD_USER_UNIT_NAME ∉ DEFAULT_DAEMON_BIN_PATH)).
Qed.

Lemma resolve_source_binary_triple opts h g0 :
  ctriple (eq g0) (resolve_source_binary (ip_from opts) h)
    (fun r g => (forall src, r = Ok src -> source_path opts h = Some src) /\ g0 = g) (eq g0).
Proof using.
  unfold resolve_source_binary, source_path. destruct (ip_from opts) as [p|]; [apply ctriple_ret; intros g <-; by split; [intros ? [= ->] |] |].
  destruct (ih_current_exe h) as [me|k]; [| by apply ctriple_ret; intros g <-]. destruct (parent me) as [d|]; [| by apply ctriple_ret; intros g <-].
  eapply ctriple_bind; [eapply ctriple_conseq; [apply (exists_triple (eq g0)) | done | | done] |].
  { intros b g [Hg _]. exact Hg. }
  intros [|]; apply ctriple_ret; intros g <-; split; try done. by intros ? [= <-].
Qed.

Lemma activate_post opts h u g0 g :
  ip_dry_run opts = false -> all_installed opts h u g -> presenced_post opts h u g0 g (activate_unit u h).
Proof using.
  intros Hd Hall. assert (unit_installed opts h u g) by (destruct Hall as (src & ? & ? & _); by exists src).
  unfold activate_unit, run_systemctl, presenced_post.
  destruct (ih_systemctl h DAEMON_RELOAD) eqn:E1; cbn; [| by auto | by auto].
  destruct (ih_systemctl h ENABLE_NOW) eqn:E2; cbn; [| by auto | by auto]. split_and!; auto.
Qed.

(** The unit is the old one or the new one. *)
Definition unit_atomic (opts : InstallPresencedOpts) (h : InstallHost) (unit_path : path) (g0 g : fs) : Prop :=
  g !! unit_path = g0 !! unit_path \/ unit_installed opts h unit_path g.

Lemma failed_post opts h u g0 g e : unit_atomic opts h u g0 g -> presenced_post opts h u g0 g (Err e, []).
Proof using. intros Hu. by split. Qed.

Lemma install_presenced_triple opts h unit_dir g0 :
  resolve_unit_dir (ip_unit_dir opts) h = Ok unit_dir ->
  let unit_path := join unit_dir SYSTEMD_USER_UNIT_NAME in
  ctriple (eq g0) (install_presenced opts h)
    (fun out g => presenced_post opts h unit_path g0 g out) (unit_atomic opts h unit_path g0).
Proof using.
  intros Hdir u. unfold install_presenced. rewrite Hdir. fold u.
  eapply ctriple_bind; [eapply ctriple_conseq; [apply resolve_source_binary_triple | done | done | by intros g <-; left] |].
  intros source. apply ctriple_pure. intros Hsrc. destruct source as [src|e]; [| apply ctriple_ret; intros g <-; apply failed_post; by left].
  specialize (Hsrc src eq_refl). set (body := unit_body opts src).
  assert (Hnew : forall g, holds_text body (g !! u) -> unit_installed opts h u g) by (intros g Hg; by exists src).
  eapply ctriple_bind.
  { eapply ctriple_conseq; [apply (atomic_write_text_triple unit_dir _ body (g0 !! u) unit_name_not_tmp) | by intros g <- | intros r g Hr; exact Hr |].
    intros g [Hg | Hg]; [by left | right; auto]. }
  intros [[]|e]; [| apply ctriple_ret; intros g Hg; apply failed_post; by left].
  destruct (ip_dry_run opts) eqn:Hdry; [apply ctriple_ret; intros g Hg; split; cbn; [done | split_and!; auto] |].
  eapply ctriple_bind.
  { eapply ctriple_conseq.
    - eapply (ctriple_keep _ (fun g => holds_text body (g !! u)) (fun _ => True)); [apply (touches_copy_binary src) | | apply copy_binary_triple].
      apply (stable_lookup _ u (holds_text body)), unit_not_under_binary.
    - by split.
    - intros r g Hr. exact Hr.
    - intros g [_ Hg]. right. auto. }
  intros [x|e]; apply ctriple_ret; intros g [Hc Hg]; [| apply failed_post; right; auto].
  apply activate_post; [done |]. exists src. split_and!; auto.
Qed.

(** C31: the unit file is never torn, and systemctl is called only on a finished installation.  On every script of faults, and also when the
    command is killed, the unit is what it was or the whole new text.  The calls of systemctl come after the unit and the copy of the
    binary are in place, never in a dry run; the command reports an installation only if both calls succeeded.  The copy is the source
    unless the source is the installed binary itself, which the command empties. *)
Theorem install_presenced_safe (opts : InstallPresencedOpts) (h : InstallHost) (unit_dir : path) (w : world) :
  resolve_unit_dir (ip_unit_dir opts) h = Ok unit_dir ->
  let unit_path := join unit_dir SYSTEMD_USER_UNIT_NAME in
  match install_presenced opts h w with
  | (Ret out, w') => presenced_post opts h unit_path (files w) (files w') out
  | (_, w') => unit_atomic opts h unit_path (files w) (files w')
  end.
Proof using.
  intros Hdir u. pose proof (install_presenced_triple opts h unit_dir (files w) Hdir w eq_refl) as H.
  by destruct (install_presenced opts h w) as [[] w'].
Qed.
End faults.

(** ** Concrete runs *)

Section toy_runs.
Import ToyTempfile.

Definition toy_host : InstallHost :=
  mkInstallHost EnvEmpty (EnvDirAt [lit "home"; lit "u"]) (Ok [lit "opt"; lit "syauth"]) (fun _ => SystemctlOk).

Definition toy_disk : fs :=
  list_to_map [([lit "home"], Dir 493); ([lit "home"; lit "u"], Dir 448); ([lit "opt"], Dir 493);
               ([lit "opt"; lit "syauth-presenced"], File [127; 69; 76; 70] 493);
               ([lit "usr"], Dir 493); ([lit "usr"; lit "local"], Dir 493)].

Definition toy_unit_dir : path := [lit "home"; lit "u"; lit ".config"; lit "systemd"; lit "user"].

Definition fresh_install : InstallPresencedOpts := mkPresencedOpts None None false.
Definition reinstall : InstallPresencedOpts := mkPresencedOpts (Some DEFAULT_DAEMON_BIN_PATH) None false.

(** A first installation, and one from the installed binary: the daemon is emptied and systemctl is called. *)
Lemma install_presenced_safe_witness :
  (let '(r, w) := install_presenced fresh_install toy_host (calm toy_disk) in
   r = Ret (Ok (PresencedInstalled (join toy_unit_dir SYSTEMD_USER_UNIT_NAME) DEFAULT_DAEMON_BIN_PATH), [DAEMON_RELOAD; ENABLE_NOW]) /\
   files w !! DEFAULT_DAEMON_BIN_PATH = Some (File [127; 69; 76; 70] 493) /\
   let '(r2, w2) := install_presenced reinstall toy_host w in
   r2 = r /\ files w2 !! DEFAULT_DAEMON_BIN_PATH = Some (File [] 493)) /\
  let unit_path := join toy_unit_dir SYSTEMD_USER_UNIT_NAME in
  match install_presenced fresh_install toy_host (calm toy_disk) with
  | (Ret out, w') => presenced_post fresh_install toy_host unit_path (files (calm toy_disk)) (files w') out
  | (_, w') => unit_atomic fresh_install toy_host unit_path (files (calm toy_disk)) (files w')
  end.
Proof using.
  split; [vm_compute; by repeat split |].
  apply (install_presenced_safe fresh_install toy_host toy_unit_dir (calm toy_disk)). reflexivity.
Defined.

Lemma unit_is_bundled_but_for_exec_start_witness :
  let bin := binary_path_of fresh_install [lit "opt"; lit "syauth-presenced"] in
  bin = DEFAULT_DAEMON_BIN_PATH /\
  List.filter is_exec_start (str_lines (unit_body fresh_install [lit "opt"; lit "syauth-presenced"])) = [lit "ExecStart=" ++ display bin].
Proof using.
  intros bin. split; [reflexivity |].
  assert (Hp : plain_line (display bin)).
  { split; [| by vm_compute]. by apply (bool_decide_unpack (10 ∉ display DEFAULT_DAEMON_BIN_PATH)). }
  destruct (unit_is_bundled_but_for_exec_start fresh_install [lit "opt"; lit "syauth-presenced"] Hp) as [_ H]. exact H.
Defined.
End toy_runs.
