(* ===== verification/Startup.v ===== *)
(** * The start of the daemon's process

    Models crates/syauth-presenced/src/main.rs, with [Config] of runtime.rs: the configuration from the command line, and the gate that
    lets the daemon serve only with an associated phone or during a pairing, on the file system with faults of Fs.v.

    Logging and the construction of the tokio runtime are inputs that may fail; [run] is in DaemonRun.v.  Paths are absolute. *)

From stdpp Require Import prelude list gmap strings.
From Stdlib Require Import ZArith Lia.
From S2P Require Import Prelude WireFrame Fs Bond PairRecovery PairTransaction Peripheral AuditTrail Orchestrator PairEngine PairCommit InstallPresenced.

Definition DEFAULT_BONDS_FILE : path := [lit "var"; lit "lib"; lit "syauth"; lit "bonds.toml"].
Definition DEFAULT_KEYS_DIR : path := [lit "var"; lit "lib"; lit "syauth"; lit "keys"].
Definition DEFAULT_AUDIT_LOG_PATH : path := [lit "var"; lit "lib"; lit "syauth"; lit "last.log"].
Definition PIDFILE_BASENAME : str := lit "presenced.pid".
Definition SOCKET_BASENAME : str := lit "auth.sock".
Definition SYAUTH_SUBDIR : str := lit "syauth".
Definition PERIPHERAL_REAL : str := lit "real".
Definition PERIPHERAL_FAKE : str := lit "fake".
Definition PAIRING_MODE_MARKER : str := lit "pairing-mode".

Inductive PeripheralMode := RealPeripheral | FakePeripheralMode.

Record Config := mkConfig {
  cfg_socket : path;
  cfg_bonds_file : path;
  cfg_keys_dir : path;
  cfg_audit_log_path : path;
  cfg_pidfile : path;
  cfg_expected_uid : option Z;
  cfg_peripheral_mode : PeripheralMode;
  cfg_inject_responses : list (str * list Z);
  cfg_test_fixed_nonce : option (list Z);
}.

Definition with_runtime_dir (runtime_dir : path) : Config :=
  let subdir := join runtime_dir SYAUTH_SUBDIR in
  mkConfig (join subdir SOCKET_BASENAME) DEFAULT_BONDS_FILE DEFAULT_KEYS_DIR DEFAULT_AUDIT_LOG_PATH (join subdir PIDFILE_BASENAME) None
    RealPeripheral [] None.

(** The arguments; clap fills in the defaults of the paths. *)
Record Cli := mkCli {
  cli_socket : option path;
  cli_bonds_file : path;
  cli_keys_dir : path;
  cli_audit_log : path;
  cli_pidfile : option path;
  cli_peripheral : str;
  cli_inject_response : list str;
  cli_test_fixed_nonce : option str;
}.

(** [str::split_once] *)
Fixpoint split_once (sep : Z) (s : str) : option (str * str) :=
  match s with
  | [] => None
  | c :: s => if c =? sep then Some ([], s) else match split_once sep s with Some (a, b) => Some (c :: a, b) | None => None end
  end.

(** The errors of the command line, which are rendered with their argument. *)
Inductive ConfigError :=
| BadPeripheral (other : str)
| BadInjection (spec : str)
| BadInjectionHex (spec : str)
| BadNonceHex (hex_str : str)
| BadNonceLength (got : Z).

Section config.
Context `{HX : Hex}.

Definition resolve_runtime_dir (xdg : EnvDir) (uid : Z) : path :=
  match xdg with EnvDirAt dir => dir | _ => [lit "run"; lit "user"; decimal uid] end.

Fixpoint parse_injections (specs : list str) : result (list (str * list Z)) ConfigError :=
  match specs with
  | [] => Ok []
  | spec :: specs =>
      match split_once 58 spec with
      | None => Err (BadInjection spec)
      | Some (peer_id, hex_part) =>
          match hex_to_bytes hex_part with
          | None => Err (BadInjectionHex spec)
          | Some bytes => let? rest := parse_injections specs in Ok ((peer_id, bytes) :: rest)
          end
      end
  end.

Definition parse_fixed_nonce (arg : option str) : result (option (list Z)) ConfigError :=
  match arg with
  | None => Ok None
  | Some hex_str =>
      match hex_to_bytes hex_str with
      | None => Err (BadNonceHex hex_str)
      | Some bytes => if negb (len bytes =? NONCE_LEN) then Err (BadNonceLength (len bytes)) else Ok (Some bytes)
      end
  end.

Definition parse_peripheral (arg : str) : result PeripheralMode ConfigError :=
  if bool_decide (arg = PERIPHERAL_REAL) then Ok RealPeripheral
  else if bool_decide (arg = PERIPHERAL_FAKE) then Ok FakePeripheralMode
  else Err (BadPeripheral arg).

Definition build_config (cli : Cli) (xdg : EnvDir) (uid : Z) : result Config ConfigError :=
  let runtime_dir := resolve_runtime_dir xdg uid in
  let socket_default := join (join runtime_dir SYAUTH_SUBDIR) SOCKET_BASENAME in
  let pidfile_default := join (join runtime_dir SYAUTH_SUBDIR) PIDFILE_BASENAME in
  let? peripheral_mode := parse_peripheral (cli_peripheral cli) in
  let? inject_responses := parse_injections (cli_inject_response cli) in
  let? test_fixed_nonce := parse_fixed_nonce (cli_test_fixed_nonce cli) in
  Ok (mkConfig (default socket_default (cli_socket cli)) (cli_bonds_file cli) (cli_keys_dir cli) (cli_audit_log cli)
        (default pidfile_default (cli_pidfile cli)) None peripheral_mode inject_responses test_fixed_nonce).
End config.

(** ** The gate *)

Section gate.
Context `{B3 : Blake3, ED : Ed25519, CH : Chrono, TM : Toml, UM : Umask, TF : Tempfile}.

Definition NO_BONDED_PEER : str := lit "no bonded peer in the store".
Definition STORE_UNREADABLE : str := lit "bonds store unreadable".

Definition pairing_mode_marker (config : Config) : path :=
  match parent (cfg_pidfile config) with
  | Some dir => join dir PAIRING_MODE_MARKER
  | None => [PAIRING_MODE_MARKER]
  end.

Definition any_bonded (store : BondStore) : bool := existsb (fun b => bool_decide (status b = StBonded)) (BondStore_list store).

Definition idle_without_a_bond (config : Config) : io (option str) :=
  let! marker := fs_exists (pairing_mode_marker config) in
  if marker then iret None
  else
    let! r := BondStore_load (cfg_bonds_file config) in
    iret match r with
         | Ok store => if any_bonded store then None else Some NO_BONDED_PEER
         | Err _ => Some STORE_UNREADABLE
         end.

Definition has_bonded_peer (config : Config) : io bool :=
  let! r := BondStore_load (cfg_bonds_file config) in
  iret match r with Ok store => any_bonded store | Err _ => false end.

Definition prepare_startup (config : Config) : io (option str) :=
  let! idle := idle_without_a_bond config in
  match idle with
  | Some reason => iret (Some reason)
  | None =>
      let! bonded := has_bonded_peer config in
      if bonded then let! _ := fs_remove_file (pairing_mode_marker config) in iret None else iret None
  end.

Inductive ExitCode := ExitSuccess | ExitFailure.

(** [main]: the results of [init_tracing], of [build_config] and of the runtime's construction, and what [run] returns. *)
Definition main (tracing : result unit unit) (config : result Config ConfigError) (runtime : result unit unit)
    (run : Config -> io (result unit unit)) : io ExitCode :=
  match tracing with
  | Err _ => iret ExitFailure
  | Ok _ =>
      match config with
      | Err _ => iret ExitFailure
      | Ok config =>
          let! idle := prepare_startup config in
          match idle with
          | Some _ => iret ExitSuccess
          | None =>
              match runtime with
              | Err _ => iret ExitFailure
              | Ok _ => let! r := run config in iret match r with Ok _ => ExitSuccess | Err _ => ExitFailure end
              end
          end
      end
  end.
End gate.

(** ** What the gate does *)

Section gate_props.
Context `{B3 : Blake3, CH : Chrono, TM : Toml, UM : Umask, TF : Tempfile}.

(** The start removes the marker or nothing. *)
Lemma touches_prepare_startup cfg : touches (eq (pairing_mode_marker cfg)) (prepare_startup cfg).
Proof using.
  assert (Hl : touches (eq (pairing_mode_marker cfg)) (BondStore_load (cfg_bonds_file cfg))) by (by eapply touches_weaken; [apply touches_load |]).
  unfold prepare_startup, idle_without_a_bond, has_bonded_peer. touch; first [exact Hl | idtac].
Qed.

Lemma load_keeps p g : (BondStore_load p (calm g)).2 = calm g.
Proof using.
  unfold BondStore_load, fs_read_to_string, ibind. rewrite syscall_calm. cbn [fst snd].
  destruct (_ : result str ErrorKind) as [raw | []]; cbn; try done. by rewrite load_document_world_free.
Qed.

(** The disk has an associated phone. *)
Definition associated (cfg : Config) (g : fs) : Prop :=
  exists st, (BondStore_load (cfg_bonds_file cfg) (calm g)).1 = Ret (Ok st) /\ any_bonded st = true.

Lemma has_bonded_calm cfg g r :
  (BondStore_load (cfg_bonds_file cfg) (calm g)).1 = Ret r ->
  exists b, has_bonded_peer cfg (calm g) = (Ret b, calm g) /\ (b = true <-> associated cfg g).
Proof using.
  intros Hr. unfold has_bonded_peer, associated, ibind. pose proof (load_keeps (cfg_bonds_file cfg) g) as E.
  destruct (BondStore_load _ _) as [x w]. cbn in Hr, E. subst x w. eexists. split; [reflexivity |]. cbn. destruct r as [st|e]; [| naive_solver].
  split; [by exists st | by intros (? & [= <-] & ?)].
Qed.

(** C17: the daemon serves exactly when a phone is associated or a pairing was announced, and a start with an associated phone ends the announcement.
    On a disk without faults whose bonds file is readable as a store or not at all. *)
Theorem startup_gate_exact (cfg : Config) (dir : path) (g : fs) (r : result BondStore BondError) :
  parent (cfg_pidfile cfg) = Some dir -> resolve g [] dir = Ok tt ->
  not_dir (g !! pairing_mode_marker cfg) ->
  (BondStore_load (cfg_bonds_file cfg) (calm g)).1 = Ret r ->
  let announced := is_Some (g !! pairing_mode_marker cfg) in
  exists out g', prepare_startup cfg (calm g) = (Ret out, calm g') /\
  (out = None <-> announced \/ associated cfg g) /\
  (associated cfg g -> g' = delete (pairing_mode_marker cfg) g) /\ (~ associated cfg g -> g' = g).
Proof using.
  intros Hp Hd Hn Hr announced. assert (Em : pairing_mode_marker cfg = join dir PAIRING_MODE_MARKER) by (unfold pairing_mode_marker; by rewrite Hp).
  destruct (has_bonded_calm cfg g r Hr) as (b & Hb & Hab).
  assert (Hidle : exists idle, idle_without_a_bond cfg (calm g) = (Ret idle, calm g) /\ (idle = None <-> announced \/ associated cfg g)).
  { unfold idle_without_a_bond, ibind at 1. rewrite Em, exists_calm by done. rewrite <- Em. fold announced. case_bool_decide as Ha; [eexists; split; [reflexivity | naive_solver] |].
    unfold ibind. pose proof (load_keeps (cfg_bonds_file cfg) g) as E. unfold associated.
    destruct (BondStore_load _ _) as [x w]. cbn in Hr, E. subst x w. eexists. split; [reflexivity |]. cbn. destruct r as [st|e]; [| naive_solver].
    destruct (any_bonded st) eqn:Est; [split; [intros _; right; by exists st | done] |]. split; [done |]. intros [? | (? & [= <-] & ?)]; [done | congruence]. }
  destruct Hidle as (idle & Hi & Hout). unfold prepare_startup, ibind at 1. rewrite Hi. destruct idle as [reason|].
  - exists (Some reason), g. assert (~ associated cfg g) by naive_solver. by split_and!.
  - unfold ibind at 1. rewrite Hb. destruct b.
    + assert (Has : associated cfg g) by (by apply Hab). unfold ibind, fs_remove_file. rewrite syscall_calm, Em. unfold remove_op.
      rewrite resolve_parent_join, Hd. rewrite <- Em. destruct (g !! pairing_mode_marker cfg) as [[c m|m]|] eqn:E; [| done |]; cbn;
        eexists _, _; (split; [reflexivity |]); (split; [done |]); (split; [| done]); [done |]. intros _. by rewrite delete_id.
    + exists None, g. split; [done |]. split; [done |]. split; [| done]. intros Has. by apply Hab in Has.
Qed.
End gate_props.

(** ** The announcement outlives the pairing *)

Section stale.
Context `{B3 : Blake3, HK : Hkdf, CH : Chrono, TM : Toml, UM : Umask, TF : Tempfile, !DaemonEnv}.

(** At or under a directory, or on the way to it. *)
Definition near (d q : path) : Prop := ancestor d q \/ exists k, q = d ++ k.

Lemma near_join d n q : near (join d n) q -> near d q.
Proof using.
  intros [[Ha | ->] % ancestor_join | [k ->]]; [by left | by right; exists [n] |]. right. exists (n :: k). unfold join. by rewrite <- app_assoc.
Qed.

Lemma near_child d n : near d (join d n).
Proof using. right. by exists [n]. Qed.

Lemma near_save d n q : save_touches d (join d n) q -> near d q.
Proof using.
  intros [Ha | [-> | [[s ->] | ->]]]; [by left | right; exists []; by rewrite app_nil_r | apply near_child | apply near_child].
Qed.

Lemma near_key d n : near d (join (keys_dir d) n).
Proof using. apply (near_join d KEYS_DIR_NAME), near_child. Qed.

Lemma near_staging d q : staging d q -> near d q.
Proof using.
  intros [-> | [Ha | [[s ->] | [-> | [-> | (id & [-> | ->])]]]]]; try apply near_child; try apply near_key.
  - right. exists []. by rewrite app_nil_r.
  - apply (near_join d KEYS_DIR_NAME). by left.
Qed.

Lemma near_self d q : q = d -> near d q.
Proof using. intros ->. right. exists []. by rewrite app_nil_r. Qed.

Lemma touches_promote_key d id : touches (near d) (promote_key d id).
Proof using.
  assert (Hk : forall n q, join (keys_dir d) n = q -> near d q) by (intros n q <-; apply near_key). unfold promote_key. cbv zeta.
  apply touches_bind; [by eapply touches_weaken; [apply touches_exists |] |]. intros [|].
  - apply touches_try; [apply touches_map_err; by eapply touches_weaken; [apply touches_read |] |]. intros key.
    destruct (negb _); [apply touches_ret |]. unfold active_key_path. rewrite parent_join. cbn [ok_or]. apply touches_try_ok.
    apply touches_try; [apply touches_map_err; eapply touches_weaken; [apply touches_create_dir_all |] | intros _].
    { intros q Hq. apply (near_join d KEYS_DIR_NAME). by left. }
    apply touches_try; [apply touches_map_err; eapply touches_weaken; [apply touches_write | apply Hk] | intros _].
    apply touches_try; [apply touches_map_err; eapply touches_weaken; [apply touches_set_permissions | apply Hk] | intros _].
    apply touches_map_err. eapply touches_weaken; [apply touches_rename |]. intros q [-> | ->]; apply near_key.
  - apply touches_bind; [by eapply touches_weaken; [apply touches_exists |] |]. intros [|]; apply touches_ret.
Qed.

Lemma touches_near_load d p : touches (near d) (BondStore_load p).
Proof using. by eapply touches_weaken; [apply touches_load |]. Qed.

Lemma touches_near_save d st : touches (near d) (BondStore_save st (bonds_path d)).
Proof using. eapply touches_weaken; [apply touches_save |]. apply near_save. Qed.

Lemma touches_promote d id : touches (near d) (promote d id).
Proof using.
  unfold promote. cbv zeta. apply touches_try; [apply touches_map_err, touches_near_load | intros staged].
  apply touches_try; [apply touches_ret | intros bond]. apply touches_try; [apply touches_promote_key | intros _].
  apply touches_try; [apply touches_map_err, touches_near_load | intros active]. apply touches_try; [apply touches_ret | intros new].
  apply touches_try; [apply touches_map_err, touches_near_save | intros _]. apply touches_bind; [| intros _; apply touches_ret].
  eapply touches_weaken; [apply touches_discard | apply near_staging].
Qed.

Lemma touches_revoke d id : touches (near d) (revoke_bond_by_peer_id d id).
Proof using.
  unfold revoke_bond_by_peer_id. cbv zeta. apply touches_try; [apply touches_map_err, touches_near_load | intros store].
  destruct (negb _); [apply touches_ret |]. destruct (BondStore_mark_revoked _ _ _) as [st r].
  apply touches_try; [apply touches_map_err, touches_ret | intros _]. apply touches_try; [apply touches_map_err, touches_near_save | intros _].
  apply touches_bind; [| intros _; apply touches_ret]. eapply touches_weaken; [apply touches_remove_file |]. intros q <-. apply near_key.
Qed.

(** Every durable action of a pairing and of a revocation stays at the bond directory. *)
Lemma touches_any_action d rq : touches (near d) (commit_action d rq).
Proof using.
  destruct (rq_phase rq) eqn:Ep.
  1, 2, 4: eapply touches_weaken; [apply touches_commit_action; by auto | apply near_staging].
  - unfold commit_action. rewrite Ep. apply touches_bind; [apply touches_map_err, touches_promote | intros; apply touches_ret].
  - unfold commit_action. rewrite Ep. apply touches_bind; [apply touches_revoke | intros [|]; [| apply touches_ret]].
    unfold bond_dir_has_a_bonded_peer. apply touches_bind; [| intros; apply touches_ret].
    apply touches_bind; [apply touches_near_load | intros; apply touches_ret].
Qed.

Fixpoint actions (d : path) (rqs : list PairCommitRequest) (w : world) : world :=
  match rqs with [] => w | rq :: rqs => actions d rqs (commit_action d rq w).2 end.

(** C18: the announcement of a pairing outlives the pairing.  Whatever the running daemon stages, promotes, discards and revokes, on any script of faults, the
    marker stays; so the next start serves, also when the phone was paired and revoked meanwhile and no phone is associated. *)
Theorem announcement_outlives_pairing (cfg : Config) (d dir : path) (rqs : list PairCommitRequest) (w : world) (c : list Z) (m : Z)
    (r : result BondStore BondError) :
  let g := files (actions d rqs w) in
  parent (cfg_pidfile cfg) = Some dir -> ~ near d (pairing_mode_marker cfg) ->
  files w !! pairing_mode_marker cfg = Some (File c m) -> resolve g [] dir = Ok tt ->
  (BondStore_load (cfg_bonds_file cfg) (calm g)).1 = Ret r ->
  g !! pairing_mode_marker cfg = Some (File c m) /\ (prepare_startup cfg (calm g)).1 = Ret None.
Proof using.
  intros g Hp Hnear Hm Hd Hr. assert (Hg : g !! pairing_mode_marker cfg = Some (File c m)).
  { unfold g. clear Hd Hr g. revert w Hm. induction rqs as [| rq rqs IH]; intros w Hm; [done |]. apply IH. by rewrite (touches_any_action d rq w). }
  split; [done |]. assert (Em : pairing_mode_marker cfg = join dir PAIRING_MODE_MARKER) by (unfold pairing_mode_marker; by rewrite Hp).
  destruct (has_bonded_calm cfg g r Hr) as (b & Hb & _). unfold prepare_startup, idle_without_a_bond, ibind at 1 2. rewrite Em, exists_calm by done.
  rewrite <- Em, Hg. rewrite bool_decide_eq_true_2 by done. cbn [iret]. unfold ibind at 1. rewrite Hb. destruct b; [| done].
  unfold ibind, fs_remove_file. by rewrite syscall_calm.
Qed.
End stale.

(** ** The command line *)

Section config_props.
Context `{HX : Hex}.

Definition injection_ok (spec : str) (x : str * list Z) : Prop := exists h, split_once 58 spec = Some (x.1, h) /\ hex_to_bytes h = Some x.2.

Lemma split_once_spec sep s a b : split_once sep s = Some (a, b) <-> s = a ++ sep :: b /\ sep ∉ a.
Proof.
  revert a. induction s as [| c s IH]; intros a; cbn.
  - split; [done |]. by intros [E _]; destruct a.
  - destruct (Z.eqb_spec c sep) as [-> | Hc].
    + split; [intros [= <- <-]; split; [done | apply not_elem_of_nil] |]. intros [E Hn]. destruct a as [| x a]; injection E as E; [by subst |].
      subst. exfalso. apply Hn. left.
    + destruct (split_once sep s) as [[a' b']|] eqn:Es.
      * split.
        -- intros [= <- <-]. destruct (proj1 (IH a') eq_refl) as [-> Hn]. split; [done |]. rewrite not_elem_of_cons. auto.
        -- intros [E Hn]. destruct a as [| x a]; injection E as -> E; [done |]. rewrite not_elem_of_cons in Hn.
           assert (Some (a', b') = Some (a, b)) as [= -> ->] by (apply IH; tauto). done.
      * split; [done |]. intros [E Hn]. destruct a as [| x a]; injection E as -> E; [done |]. rewrite not_elem_of_cons in Hn.
        by assert (None = Some (a, b)) by (apply IH; tauto).
Qed.

Lemma parse_injections_ok specs l : parse_injections specs = Ok l <-> Forall2 injection_ok specs l.
Proof.
  revert l. induction specs as [| spec specs IH]; intros l; cbn; [split; [intros [= <-]; constructor | intros H; by inversion H] |].
  destruct (split_once 58 spec) as [[p h]|] eqn:Es; [destruct (hex_to_bytes h) as [b|] eqn:Eh; [destruct (parse_injections specs) as [rest|e] |] |]; cbn.
  - split; [intros [= <-]; constructor; [by exists h | by apply IH] |]. intros H. inversion H as [| ? [p' b'] ? l' (h' & E1 & E2) Hr]; subst. cbn in *.
    rewrite Es in E1. injection E1 as -> ->. rewrite Eh in E2. injection E2 as ->. assert (Ok (E := ConfigError) rest = Ok l') as [= ->] by (by apply IH). done.
  - split; [done |]. intros H. inversion H as [| ? ? ? l' _ Hr]; subst. by apply IH in Hr.
  - split; [done |]. intros H. inversion H as [| ? ? ? l' (h' & E1 & E2) Hr]; subst. rewrite Es in E1. injection E1 as _ ->. congruence.
  - split; [done |]. intros H. inversion H as [| ? ? ? l' (h' & E1 & E2) Hr]; subst. congruence.
Qed.

Lemma parse_peripheral_ok arg mode :
  parse_peripheral arg = Ok mode <-> arg = PERIPHERAL_REAL /\ mode = RealPeripheral \/ arg = PERIPHERAL_FAKE /\ mode = FakePeripheralMode.
Proof.
  unfold parse_peripheral. split; [case_bool_decide; [naive_solver |]; case_bool_decide; naive_solver |]. by intros [[-> ->] | [-> ->]].
Qed.

Lemma parse_fixed_nonce_ok arg n :
  parse_fixed_nonce arg = Ok n <->
  match arg with None => n = None | Some h => exists b, hex_to_bytes h = Some b /\ len b = NONCE_LEN /\ n = Some b end.
Proof.
  unfold parse_fixed_nonce. destruct arg as [h|]; [| naive_solver].
  destruct (hex_to_bytes h) as [b|]; [| naive_solver]. destruct (Z.eqb_spec (len b) NONCE_LEN); cbn; naive_solver.
Qed.

(** The configuration is built exactly when the back end is one of the two names, every injection is an identifier, a colon and hex bytes, and
    the fixed nonce, if given, is 16 bytes in hex; it then has these values, and the pid file is in the runtime directory unless it was given. *)
Theorem config_exact (cli : Cli) (xdg : EnvDir) (uid : Z) (cfg : Config) :
  build_config cli xdg uid = Ok cfg <->
  exists mode, (cli_peripheral cli = PERIPHERAL_REAL /\ mode = RealPeripheral \/ cli_peripheral cli = PERIPHERAL_FAKE /\ mode = FakePeripheralMode) /\
  Forall2 injection_ok (cli_inject_response cli) (cfg_inject_responses cfg) /\
  match cli_test_fixed_nonce cli with
  | None => cfg_test_fixed_nonce cfg = None
  | Some h => exists b, hex_to_bytes h = Some b /\ len b = NONCE_LEN /\ cfg_test_fixed_nonce cfg = Some b
  end /\
  cfg = mkConfig (default (cfg_socket (with_runtime_dir (resolve_runtime_dir xdg uid))) (cli_socket cli)) (cli_bonds_file cli) (cli_keys_dir cli)
          (cli_audit_log cli) (default (cfg_pidfile (with_runtime_dir (resolve_runtime_dir xdg uid))) (cli_pidfile cli)) None mode
          (cfg_inject_responses cfg) (cfg_test_fixed_nonce cfg).
Proof.
  unfold build_config. split.
  - intros H. destruct (parse_peripheral _) as [mode|] eqn:Em; [cbn in H | done]. destruct (parse_injections _) as [inj|] eqn:Ei; [cbn in H | done].
    destruct (parse_fixed_nonce _) as [n|] eqn:En; [cbn in H | done]. injection H as <-. exists mode. cbn.
    split_and!; [by apply parse_peripheral_ok | by apply parse_injections_ok | by apply parse_fixed_nonce_ok | done].
  - intros (mode & Hm & Hi & Hn & Hc). apply parse_peripheral_ok in Hm. apply parse_injections_ok in Hi. apply parse_fixed_nonce_ok in Hn.
    rewrite Hm, Hi, Hn. cbn. by rewrite Hc at 3.
Qed.
End config_props.

(** ** Concrete runs *)

Section toy_start.
Import ToyCrypto ToyCrates ToyTempfile.

#[local] Instance start_env : DaemonEnv := {|
  peer_display_name a := None;
  now_utc := lit "2026-01-01T00:00:00Z";
  hex_encode := hex_lowercase;
|}.

Definition toy_runtime_dir : path := [lit "run"].
Definition toy_config : Config :=
  mkConfig [] (bonds_path sample_dir) [] [] (cfg_pidfile (with_runtime_dir toy_runtime_dir)) None RealPeripheral [] None.

(** No bond, a pairing was announced. *)
Definition announced_site : fs :=
  <[pairing_mode_marker toy_config := File [] 420]> (<[join toy_runtime_dir SYAUTH_SUBDIR := Dir 448]> (<[toy_runtime_dir := Dir 493]> sample_site)).

(** The phone is paired, and then dissociates. *)
Definition pair_and_revoke : list PairCommitRequest :=
  let id := slice 0 PEER_ID_BLAKE3_BYTES (blake3_hash sample_pubkey) in
  [mkRequest Stage sample_tx sample_pubkey sample_pubkey sample_addr; mkRequest MarkCommit sample_tx sample_pubkey sample_pubkey sample_addr;
   mkRequest Promote sample_tx sample_pubkey sample_pubkey sample_addr; mkRequest Revoke id sample_pubkey sample_pubkey sample_addr].

Lemma start_marker_far : ~ near sample_dir (pairing_mode_marker toy_config).
Proof using. by intros [(k & _ & [=]) | [k [=]]]. Qed.

Lemma announcement_outlives_pairing_witness :
  exists st, (BondStore_load (bonds_path sample_dir) (calm (files (actions sample_dir (take 3 pair_and_revoke) (calm announced_site))))).1 = Ret (Ok st) /\ any_bonded st = true /\
  let g := files (actions sample_dir pair_and_revoke (calm announced_site)) in
  exists st', (BondStore_load (bonds_path sample_dir) (calm g)).1 = Ret (Ok st') /\ any_bonded st' = false /\
  (prepare_startup toy_config (calm g)).1 = Ret None.
Proof using.
  eexists. split; [vm_compute; reflexivity |]. split; [reflexivity |].
  eexists. split; [vm_compute; reflexivity |]. split; [reflexivity |].
  eapply (announcement_outlives_pairing toy_config sample_dir (join toy_runtime_dir SYAUTH_SUBDIR) pair_and_revoke (calm announced_site) [] 420).
  - reflexivity.
  - exact start_marker_far.
  - vm_compute. reflexivity.
  - vm_compute. reflexivity.
  - vm_compute. reflexivity.
Defined.

Lemma startup_gate_exact_witness : (prepare_startup toy_config (calm announced_site)).1 = Ret None.
Proof using.
  assert (Hl : exists r, (BondStore_load (cfg_bonds_file toy_config) (calm announced_site)).1 = Ret r) by (eexists; vm_compute; reflexivity).
  destruct Hl as [r Hl].
  destruct (startup_gate_exact toy_config (join toy_runtime_dir SYAUTH_SUBDIR) announced_site r eq_refl ltac:(vm_compute; reflexivity) ltac:(done) Hl)
    as (out & g & E & H & _).
  rewrite E. cbn. f_equal. apply H. left. vm_compute. by eexists.
Defined.
End toy_start.
