(* ===== verification/BtLink.v ===== *)
(** * The link of a central: traits, mock and BlueZ

    Models the trait [Session] of crates/syauth-transport/src/lib.rs as the class [BtSession] and [BtPeer::connect] as one function per
    implementation, the one in process (mock.rs) and the one over BlueZ (bluez.rs): the pairing gate, the scan, the discovery of the
    two characteristics, the session, the exchange of public keys over the pair service and the suspend loop.

    [bluer] is a record of what it answers; the calls that reach it are part of the result.  Times are in nanoseconds, as
    [Duration] counts them. *)

From stdpp Require Import prelude list gmap strings.
From Stdlib Require Import ZArith Lia.
From S2P Require Import Prelude WireFrame Fs PairTransaction Peripheral Reconcile.

(** ** The traits *)

Class BtSession := {
  SState : Type;
  send_frame : Frame -> SState -> result unit TransportError * SState;
  recv_frame : Z -> SState -> result Frame TransportError * SState;
}.

(** Names of wire constants that only this file uses. *)
Definition SYAUTH_GATT_SERVICE_UUID : Z := 0x5a4e8e3c1c4c4a179c81d518a55a0001.
Definition SYAUTH_CHALLENGE_CHAR_UUID : Z := 0x5a4e8e3c1c4c4a179c81d518a55a0002.
Definition SYAUTH_RESPONSE_CHAR_UUID : Z := 0x5a4e8e3c1c4c4a179c81d518a55a0003.
Definition SYAUTH_PAIR_HOST_PUBKEY_CHAR_UUID : Z := 0x5a4e8e3c1c4c4a179c81d518a55a0102.
Definition SYAUTH_PAIR_PHONE_PUBKEY_CHAR_UUID : Z := 0x5a4e8e3c1c4c4a179c81d518a55a0103.
Definition LINK_PUBKEY_LEN : Z := 32.

(** ** The mock *)

Definition MOCK_CHAN_CAP : Z := 16.
Definition GOLDEN_PAYLOAD_XOR_MASK : Z := 0x5A.
Definition REORDERED_BUFFER_DEPTH : Z := 4.
Definition U32_MAX : Z := 2 ^ 32 - 1.

Inductive MockScenario :=
| Golden
| Offline
| Slow (delay : Z)
| Reordered
| Replay (duplicate_count : Z)
| MockWrongVersion (injected_version : Z).

Record MockSession := mkMockSession {
  ms_scenario : MockScenario;
  ms_inbox : list Frame;
  ms_sent_count : Z;
  ms_reorder_pending : option Frame;
}.

Definition MockSession_new (scenario : MockScenario) : MockSession := mkMockSession scenario [] 0 None.

Definition set_mock_inbox (inbox : list Frame) (s : MockSession) : MockSession :=
  mkMockSession (ms_scenario s) inbox (ms_sent_count s) (ms_reorder_pending s).

Definition mock_connect (scenario : MockScenario) (timeout : Z) : result MockSession TransportError :=
  match scenario with Offline => Err Unreachable | other => Ok (MockSession_new other) end.

Definition xor_payload (frame : Frame) (mask : Z) : Frame :=
  mkFrame (version frame) (nonce frame) (map (fun b => Z.lxor b mask) (payload frame)) (tag frame).

(** [for _ in 0..total] of a replay. *)
Fixpoint push_copies (total : nat) (frame : Frame) (inbox : list Frame) : result unit TransportError * list Frame :=
  match total with
  | O => (Ok tt, inbox)
  | S total => if MOCK_CHAN_CAP <=? len inbox then (Err TransportClosed, inbox) else push_copies total frame (inbox ++ [frame])
  end.

Definition mock_send_frame (frame : Frame) (s : MockSession) : result unit TransportError * MockSession :=
  match ms_scenario s with
  | Golden | Slow _ | MockWrongVersion _ =>
      if MOCK_CHAN_CAP <=? len (ms_inbox s) then (Err TransportClosed, s)
      else (Ok tt, set_mock_inbox (ms_inbox s ++ [xor_payload frame GOLDEN_PAYLOAD_XOR_MASK]) s)
  | Replay duplicate_count =>
      let '(r, inbox) := push_copies (Z.to_nat (duplicate_count + 1)) frame (ms_inbox s) in (r, set_mock_inbox inbox s)
  | Reordered =>
      let current := Z.min (ms_sent_count s + 1) U32_MAX in
      if current =? 1 then (Ok tt, mkMockSession (ms_scenario s) (ms_inbox s) current (Some frame))
      else
        let inbox := ms_inbox s ++ [frame] in
        match ms_reorder_pending s with
        | None => (Ok tt, mkMockSession (ms_scenario s) inbox current None)
        | Some first =>
            if REORDERED_BUFFER_DEPTH <=? len inbox then (Err TransportClosed, mkMockSession (ms_scenario s) inbox current None)
            else (Ok tt, mkMockSession (ms_scenario s) (inbox ++ [first]) current None)
        end
  | Offline => (Err Unreachable, s)
  end.

(** After the sleep of [Slow]. *)
Definition scenario_read (s : MockSession) : result Frame TransportError * MockSession :=
  match ms_inbox s with
  | [] => (Err TransportTimeout, s)
  | frame :: inbox =>
      let s := set_mock_inbox inbox s in
      match ms_scenario s with
      | MockWrongVersion injected_version =>
          if len (payload frame) <=? MAX_PAYLOAD_LEN then
            let '(buf, r) := Frame_encode (mkFrame SYAUTH_WIRE_VERSION_V1 (nonce frame) (payload frame) (tag frame)) [] in
            match r with
            | Err e => (Err (BadFrame e), s)
            | Ok _ => (map_err BadFrame (Frame_decode (<[Z.to_nat VERSION_OFFSET := injected_version]> buf)), s)
            end
          else (Ok frame, s)
      | _ => (Ok frame, s)
      end
  end.

(** [timeout(caller_timeout, ..)]: the read is polled before the timer. *)
Definition mock_recv_frame (caller_timeout : Z) (s : MockSession) : result Frame TransportError * MockSession :=
  match ms_scenario s with
  | Slow delay => if delay <=? caller_timeout then scenario_read s else (Err TransportTimeout, s)
  | _ => scenario_read s
  end.

#[export] Instance Mock : BtSession := {| SState := MockSession; send_frame := mock_send_frame; recv_frame := mock_recv_frame |}.

(** ** BlueZ *)

Definition DEFAULT_SCAN_WINDOW : Z := 8 * 10 ^ 9.
Definition MIN_SCAN_WINDOW : Z := 1 * 10 ^ 9.

Inductive PairingState := BtBonded (peer_id : str) | BtNotPaired.

Record BlueZBtPeer := mkBtPeer {
  bt_adapter_id : str;
  bt_bond_key : list Z;
  bt_pairing_state : PairingState;
  bt_restart_count : Z; (* u64 *)
}.

Inductive BluerErrorKind := BluerNotFound | BluerOther.
Record BluerError := mkBluerError { be_kind : BluerErrorKind; be_text : str }.

(** A stream of notifications: each with the time it comes after the one before, and when the stream ends after that, if it does. *)
Record Stream := mkStream { items : list (Z * list Z); ends : option Z }.

(** A device the adapter knows or discovers: what it advertises, its GATT tree and the notifications of its characteristics. *)
Record Nearby := mkNearby {
  n_uuids : result (option (list Z)) str;
  n_device : Device;
  n_notify : Characteristic -> result Stream str;
}.

Inductive AdapterEvent := DeviceAdded (address : str) | OtherEvent.

(** What [bluer] answers. *)
Record BtRadio := mkBtRadio {
  r_session : result unit BluerError;
  r_adapter : str -> result unit BluerError;
  r_set_powered : result unit str;
  r_set_filter : result unit str;
  r_discover : result (list (Z * AdapterEvent)) str; (* with the time since the scan started *)
  r_known : result (list str) str;
  r_device : str -> option Nearby;
}.

Definition map_adapter_open_error (adapter_id : str) (err : BluerError) : TransportError :=
  match be_kind err with
  | BluerNotFound => TransportAdapterMissing adapter_id
  | BluerOther => TransportBackend (be_text err)
  end.

(** The calls of [bluer] that were made. *)
Inductive radio_call := CallSession | CallAdapter | CallPower | CallFilter | CallDiscover | CallScan | CallConnect | CallSubscribe.

Definition probe_adapter (r : BtRadio) (adapter_id : str) : result unit TransportError * list radio_call :=
  match map_err (map_adapter_open_error adapter_id) (r_session r) with
  | Err e => (Err e, [CallSession])
  | Ok _ => (map_err (map_adapter_open_error adapter_id) (r_adapter r adapter_id), [CallSession; CallAdapter])
  end.

Definition BlueZBtPeer_new_sync (adapter_id : str) (bond_key : list Z) (pairing_state : PairingState) : BlueZBtPeer :=
  mkBtPeer adapter_id bond_key pairing_state 0.

Definition BlueZBtPeer_new (r : BtRadio) (adapter_id : str) (bond_key : list Z) (pairing_state : PairingState)
  : result BlueZBtPeer TransportError * list radio_call :=
  let '(probe, calls) := match pairing_state with BtBonded _ => probe_adapter r adapter_id | BtNotPaired => (Ok tt, []) end in
  (let? _ := probe in Ok (BlueZBtPeer_new_sync adapter_id bond_key pairing_state), calls).

Definition restart (peer : BlueZBtPeer) : BlueZBtPeer :=
  mkBtPeer (bt_adapter_id peer) (bt_bond_key peer) (bt_pairing_state peer) ((bt_restart_count peer + 1) mod 2 ^ 64).

Fixpoint suspend_loop (last_was_true : bool) (peer : BlueZBtPeer) (events : list bool) : BlueZBtPeer :=
  match events with
  | [] => peer
  | event :: events => suspend_loop event (if last_was_true && negb event then restart peer else peer) events
  end.

Definition run_suspend_resume_loop (peer : BlueZBtPeer) (events : list bool) : BlueZBtPeer := suspend_loop false peer events.

Definition scan_window_for (total : Z) : Z := Z.min (Z.max (total / 2) MIN_SCAN_WINDOW) DEFAULT_SCAN_WINDOW.

Definition device_advertises_syauth (d : Nearby) : bool :=
  match n_uuids d with Ok (Some uuids) => bool_decide (SYAUTH_GATT_SERVICE_UUID ∈ uuids) | _ => false end.

Definition syauth_device (r : BtRadio) (address : str) : option Nearby :=
  match r_device r address with Some d => if device_advertises_syauth d then Some d else None | None => None end.

Fixpoint sweep_known (r : BtRadio) (known : list str) : option Nearby :=
  match known with
  | [] => None
  | a :: known => match syauth_device r a with Some d => Some d | None => sweep_known r known end
  end.

(** The discovery events that come within the window. *)
Fixpoint watch_events (r : BtRadio) (window : Z) (events : list (Z * AdapterEvent)) : option Nearby :=
  match events with
  | [] => None
  | (at_, ev) :: events =>
      if window <? at_ then None
      else match ev with
           | DeviceAdded a => match syauth_device r a with Some d => Some d | None => watch_events r window events end
           | OtherEvent => watch_events r window events
           end
  end.

(** [find_syauth_device] under the timeout: a window that closes and a stream that ends are both [Unreachable]. *)
Definition find_syauth_device (r : BtRadio) (window : Z) (events : list (Z * AdapterEvent)) : result Nearby TransportError :=
  let? known := map_err (backend "device_addresses: ") (r_known r) in
  match sweep_known r known with
  | Some d => Ok d
  | None => ok_or (watch_events r window events) Unreachable
  end.

(** The loops over services and characteristics: the first service with the wanted identifier, in it the last characteristic of each of the two. *)
Fixpoint pick_characteristics (want1 want2 : Z) (cs : list Characteristic) (f : found) : result found TransportError :=
  match cs with
  | [] => Ok f
  | c :: cs =>
      let? cu := map_err (backend "characteristic.uuid: ") (c_uuid c) in
      pick_characteristics want1 want2 cs (if cu =? want1 then (Some c, f.2) else if cu =? want2 then (f.1, Some c) else f)
  end.

Fixpoint pick_service (service want1 want2 : Z) (ss : list Service) : result found TransportError :=
  match ss with
  | [] => Ok (None, None)
  | s :: ss =>
      let? uuid := map_err (backend "service.uuid: ") (v_uuid s) in
      if negb (uuid =? service) then pick_service service want1 want2 ss
      else
        let? cs := map_err (backend "service.characteristics: ") (v_characteristics s) in
        pick_characteristics want1 want2 cs (None, None)
  end.

Definition discover (device : Device) (service want1 want2 : Z) : result found TransportError :=
  let? _ := map_err (backend "device.connect: ") (d_connect device) in
  let? services := map_err (backend "device.services: ") (d_services device) in
  pick_service service want1 want2 services.

(** The session: the characteristic that is written, what was written, the notifications to come. *)
Record BlueZSession := mkBlueZSession {
  bs_challenge_char : Characteristic;
  bs_written : list (list Z);
  bs_notify : Stream;
}.

(** A call that failed ends the list of calls. *)
Definition radio_step {A B : Type} (c : radio_call) (r : result A TransportError) (k : A -> result B TransportError * list radio_call)
  : result B TransportError * list radio_call :=
  match r with
  | Err e => (Err e, [c])
  | Ok a => let '(out, calls) := k a in (out, c :: calls)
  end.

Definition connect_inner (peer : BlueZBtPeer) (r : BtRadio) (peer_timeout : Z) : result BlueZSession TransportError * list radio_call :=
  radio_step CallSession (map_err (map_adapter_open_error (bt_adapter_id peer)) (r_session r)) (fun _ =>
  radio_step CallAdapter (map_err (map_adapter_open_error (bt_adapter_id peer)) (r_adapter r (bt_adapter_id peer))) (fun _ =>
  radio_step CallPower (map_err (backend "adapter set_powered: ") (r_set_powered r)) (fun _ =>
  radio_step CallFilter (map_err (backend "set_discovery_filter: ") (r_set_filter r)) (fun _ =>
  radio_step CallDiscover (map_err (backend "discover_devices: ") (r_discover r)) (fun events =>
  radio_step CallScan (find_syauth_device r (scan_window_for peer_timeout) events) (fun device =>
  radio_step CallConnect
    (let? f := discover (n_device device) SYAUTH_GATT_SERVICE_UUID SYAUTH_CHALLENGE_CHAR_UUID SYAUTH_RESPONSE_CHAR_UUID in
     let? challenge_char := ok_or f.1 (TransportBackend (lit "syauth challenge characteristic not exposed by peer")) in
     let? response_char := ok_or f.2 (TransportBackend (lit "syauth response characteristic not exposed by peer")) in
     Ok (challenge_char, response_char)) (fun cr =>
  radio_step CallSubscribe (map_err (backend "response.notify subscribe: ") (n_notify device cr.2)) (fun stream =>
  (Ok (mkBlueZSession cr.1 [] stream), []))))))))).

Definition bluez_connect (peer : BlueZBtPeer) (r : BtRadio) (peer_timeout : Z) : result BlueZSession TransportError * list radio_call :=
  match bt_pairing_state peer with
  | BtNotPaired => (Err TransportNotPaired, [])
  | BtBonded _ => connect_inner peer r peer_timeout
  end.

Definition bluez_send_frame (frame : Frame) (s : BlueZSession) : result unit TransportError * BlueZSession :=
  let '(bytes, r) := Frame_encode frame [] in
  match r with
  | Err e => (Err (BadFrame e), s)
  | Ok _ =>
      match c_write (bs_challenge_char s) bytes with
      | Err err => (Err (backend "challenge.write: " err), s)
      | Ok _ => (Ok tt, mkBlueZSession (bs_challenge_char s) (bs_written s ++ [bytes]) (bs_notify s))
      end
  end.

(** [timeout(deadline, stream.next())] *)
Definition stream_next (deadline : Z) (st : Stream) : result (option (list Z)) unit * Stream :=
  match items st with
  | (at_, b) :: rest => if at_ <=? deadline then (Ok (Some b), mkStream rest (ends st)) else (Err tt, mkStream ((at_ - deadline, b) :: rest) (ends st))
  | [] =>
      match ends st with
      | None => (Err tt, st)
      | Some at_ => if at_ <=? deadline then (Ok None, mkStream [] (Some 0)) else (Err tt, mkStream [] (Some (at_ - deadline)))
      end
  end.

Definition bluez_recv_frame (deadline : Z) (s : BlueZSession) : result Frame TransportError * BlueZSession :=
  let '(next, st) := stream_next deadline (bs_notify s) in
  (match next with
   | Ok (Some b) => map_err BadFrame (Frame_decode b)
   | Ok None => Err TransportClosed
   | Err _ => Err TransportTimeout
   end, mkBlueZSession (bs_challenge_char s) (bs_written s) st).

#[export] Instance BlueZ : BtSession := {| SState := BlueZSession; send_frame := bluez_send_frame; recv_frame := bluez_recv_frame |}.

(** The exchange of public keys over the pair service. *)
Definition connect_pair_service (device : Device) (host_pubkey : list Z) : result (list Z) TransportError :=
  let? f := discover device SYAUTH_PAIR_SERVICE_UUID SYAUTH_PAIR_HOST_PUBKEY_CHAR_UUID SYAUTH_PAIR_PHONE_PUBKEY_CHAR_UUID in
  let? host_char := ok_or f.1 Unreachable in
  let? phone_char := ok_or f.2 Unreachable in
  let? _ := map_err (backend "host-pubkey.write: ") (c_write host_char host_pubkey) in
  let? phone_bytes := map_err (backend "phone-pubkey.read: ") (c_read phone_char host_pubkey) in
  if negb (len phone_bytes =? LINK_PUBKEY_LEN) then Err (BadFrame (TooShort LINK_PUBKEY_LEN (len phone_bytes)))
  else Ok phone_bytes.

(** ** What a connection is *)

Definition ALL_CALLS : list radio_call := [CallSession; CallAdapter; CallPower; CallFilter; CallDiscover; CallScan; CallConnect; CallSubscribe].

(** [c1] and [c2] are the characteristics of [cs] with the two identifiers. *)
Definition found_in (want1 want2 : Z) (cs : list Characteristic) (f : found) : Prop :=
  (forall c, f.1 = Some c -> c ∈ cs /\ c_uuid c = Ok want1) /\ (forall c, f.2 = Some c -> c ∈ cs /\ c_uuid c = Ok want2).

Lemma pick_characteristics_found want1 want2 pre cs f f' :
  found_in want1 want2 pre f -> pick_characteristics want1 want2 cs f = Ok f' -> found_in want1 want2 (pre ++ cs) f'.
Proof.
  revert pre f. induction cs as [| c cs IH]; intros pre f Hf; cbn; [intros [= <-]; by rewrite app_nil_r |].
  destruct (c_uuid c) as [cu|e] eqn:Ec; [| done]. cbn. intros Hr. replace (pre ++ c :: cs) with ((pre ++ [c]) ++ cs) by (by rewrite <- app_assoc).
  refine (IH _ _ _ Hr). destruct Hf as [H1 H2]. assert (Hc : c ∈ pre ++ [c]) by (rewrite elem_of_app, list_elem_of_singleton; auto).
  assert (Hw : forall x, x ∈ pre -> x ∈ pre ++ [c]) by (intros x; rewrite elem_of_app; auto).
  destruct (Z.eqb_spec cu want1) as [-> |]; [| destruct (Z.eqb_spec cu want2) as [-> |]]; split; cbn; intros x Hx; simplify_eq; eauto;
    (destruct (H1 x Hx) || destruct (H2 x Hx)); eauto.
Qed.

(** What [discover] finds is in a service of the device with the wanted identifier. *)
Lemma discover_found device service want1 want2 f :
  discover device service want1 want2 = Ok f ->
  d_connect device = Ok tt /\
  exists services, d_services device = Ok services /\
  (f = (None, None) \/
   exists s cs, s ∈ services /\ v_uuid s = Ok service /\ v_characteristics s = Ok cs /\ found_in want1 want2 cs f).
Proof.
  unfold discover. destruct (d_connect device) as [[]|e]; [cbn | done]. destruct (d_services device) as [ss|e]; [cbn | done].
  intros H. split; [done |]. exists ss. split; [done |]. induction ss as [| s ss IH]; cbn in H; [injection H as <-; by left |].
  destruct (v_uuid s) as [u|e] eqn:Eu; [cbn in H | done]. destruct (Z.eqb_spec u service) as [-> |]; cbn in H.
  - destruct (v_characteristics s) as [cs|e] eqn:Ec; [cbn in H | done]. right. exists s, cs. split; [left |]. split_and!; try done;
      apply (pick_characteristics_found want1 want2 [] cs (None, None) f); done.
  - destruct (IH H) as [-> | (s' & cs & Hin & ?)]; [by left | right]. exists s', cs. split; [by right | done].
Qed.

Lemma advertises_spec d : device_advertises_syauth d = true -> exists uuids, n_uuids d = Ok (Some uuids) /\ SYAUTH_GATT_SERVICE_UUID ∈ uuids.
Proof. unfold device_advertises_syauth. destruct (n_uuids d) as [[uuids |] |]; try done. intros H % bool_decide_eq_true. eauto. Qed.

Lemma syauth_device_spec r a d : syauth_device r a = Some d -> r_device r a = Some d /\ device_advertises_syauth d = true.
Proof. unfold syauth_device. destruct (r_device r a) as [d'|]; [| done]. destruct (device_advertises_syauth d') eqn:E; [| done]. by intros [= <-]. Qed.

(** A device the scan may return: known, or discovered within the window. *)
Definition in_range (r : BtRadio) (window : Z) (events : list (Z * AdapterEvent)) (a : str) : Prop :=
  (exists known, r_known r = Ok known /\ a ∈ known) \/ (exists t, (t, DeviceAdded a) ∈ events /\ t <= window).

Lemma find_syauth_device_spec r window events d :
  find_syauth_device r window events = Ok d ->
  exists a, r_device r a = Some d /\ device_advertises_syauth d = true /\ in_range r window events a.
Proof.
  unfold find_syauth_device. destruct (r_known r) as [known|e] eqn:Ek; [cbn | done].
  assert (Hk : forall d, sweep_known r known = Some d -> exists a, r_device r a = Some d /\ device_advertises_syauth d = true /\ a ∈ known).
  { clear. intros d. induction known as [| a known IH]; cbn; [done |]. destruct (syauth_device r a) eqn:E.
    - intros [= ->]. destruct (syauth_device_spec _ _ _ E). exists a. split_and!; [done | done | left].
    - intros H. destruct (IH H) as (b & ? & ? & ?). exists b. split_and!; [done | done | by right]. }
  destruct (sweep_known r known) as [d'|] eqn:Es.
  - intros [= <-]. destruct (Hk _ eq_refl) as (a & ? & ? & ?). exists a. split_and!; [done | done |]. left. eauto.
  - clear Hk Es. intros H. unfold ok_or in H. destruct (watch_events r window events) as [d'|] eqn:Ew; [injection H as -> | done].
    induction events as [| [t ev] events IH]; cbn in Ew; [done |]. destruct (Z.ltb_spec window t) as [|Ht]; [done |].
    assert (Hrest : watch_events r window events = Some d ->
                    exists a, r_device r a = Some d /\ device_advertises_syauth d = true /\ in_range r window ((t, ev) :: events) a).
    { intros H. destruct (IH H) as (a & ? & ? & [Hr | (t' & Hin & ?)]); exists a; split_and!; try done; [by left |]. right. exists t'.
      split; [by right | done]. }
    destruct ev as [a|]; [| by apply Hrest]. destruct (syauth_device r a) as [d'|] eqn:E; [| by apply Hrest]. injection Ew as ->.
    destruct (syauth_device_spec _ _ _ E). exists a. split_and!; try done. right. exists t. split; [left | done].
Qed.

Lemma radio_step_ok {A B : Type} c (r : result A TransportError) (k : A -> result B TransportError * list radio_call) b calls :
  radio_step c r k = (Ok b, calls) -> exists a cs, r = Ok a /\ k a = (Ok b, cs) /\ calls = c :: cs.
Proof. unfold radio_step. destruct r as [a|e]; [| done]. destruct (k a) as [[b'|e] cs] eqn:E; [| done]. intros [= <- <-]. eauto. Qed.

Lemma radio_step_prefix {A B : Type} c (r : result A TransportError) (k : A -> result B TransportError * list radio_call) cs :
  (forall a, exists post, (k a).2 ++ post = cs) -> exists post, (radio_step c r k).2 ++ post = c :: cs.
Proof.
  intros H. unfold radio_step. destruct r as [a|e]; cbn; [| by exists cs]. destruct (H a) as [post Hp]. destruct (k a) as [out calls]. cbn in *.
  exists post. by rewrite Hp.
Qed.

(** C29: a connection over BlueZ is to a phone of this program, and only for a bonded peer.  The calls of the radio are a prefix of one fixed sequence,
    and none for a peer that is not bonded; a session comes after all of them, with a device that advertises the unlock service and was known or seen
    within the scan window, was connected, and has the unlock service among its services; the session writes to the challenge characteristic of this service and
    listens to its response characteristic. *)
Theorem connect_reaches_the_phone (peer : BlueZBtPeer) (r : BtRadio) (t : Z) :
  (exists post, (bluez_connect peer r t).2 ++ post = ALL_CALLS) /\
  (bt_pairing_state peer = BtNotPaired -> bluez_connect peer r t = (Err TransportNotPaired, [])) /\
  forall s, (bluez_connect peer r t).1 = Ok s ->
    (bluez_connect peer r t).2 = ALL_CALLS /\
    exists id events a d uuids services srv cs resp st, bt_pairing_state peer = BtBonded id /\
      r_discover r = Ok events /\ in_range r (scan_window_for t) events a /\ r_device r a = Some d /\ n_uuids d = Ok (Some uuids) /\ SYAUTH_GATT_SERVICE_UUID ∈ uuids /\
      d_connect (n_device d) = Ok tt /\ d_services (n_device d) = Ok services /\ srv ∈ services /\
      v_uuid srv = Ok SYAUTH_GATT_SERVICE_UUID /\ v_characteristics srv = Ok cs /\
      bs_challenge_char s ∈ cs /\ c_uuid (bs_challenge_char s) = Ok SYAUTH_CHALLENGE_CHAR_UUID /\
      resp ∈ cs /\ c_uuid resp = Ok SYAUTH_RESPONSE_CHAR_UUID /\ n_notify d resp = Ok st /\ s = mkBlueZSession (bs_challenge_char s) [] st.
Proof.
  split_and!.
  - unfold bluez_connect. destruct (bt_pairing_state peer); [| by exists ALL_CALLS]. unfold connect_inner, ALL_CALLS.
    repeat (apply radio_step_prefix; intros ?). by exists [].
  - unfold bluez_connect. by intros ->.
  - intros s. unfold bluez_connect. destruct (bt_pairing_state peer) as [id|] eqn:Ep; [| done]. destruct (connect_inner peer r t) as [out calls] eqn:E.
    intros H. cbn in H. subst out. revert E. unfold connect_inner.
    intros (? & c1 & _ & E & ->) % radio_step_ok. apply radio_step_ok in E as (? & c2 & _ & E & ->). apply radio_step_ok in E as (? & c3 & _ & E & ->).
    apply radio_step_ok in E as (? & c4 & _ & E & ->). apply radio_step_ok in E as (events & c5 & Hev & E & ->). apply radio_step_ok in E as (d & c6 & Hd & E & ->).
    apply radio_step_ok in E as ([cc rc] & c7 & Hc & E & ->). apply radio_step_ok in E as (st & c8 & Hst & E & ->). injection E as <- <-. split; [done |].
    destruct (find_syauth_device_spec _ _ _ _ Hd) as (a & Ha & Hadv & Hr).
    destruct (discover _ _ _ _) as [f|] eqn:Ef; [cbn in Hc | done]. destruct f as [[c1'|] [c2'|]]; try done. cbn in Hc. injection Hc as -> ->.
    destruct (discover_found _ _ _ _ _ Ef) as (Hcon & ss & Hss & [? | (srv & cs & Hsrv & Hu & Hcs & H1 & H2)]); [done |].
    destruct (H1 _ eq_refl), (H2 _ eq_refl). destruct (r_discover r) as [ev|] eqn:Er; [| done]. injection Hev as <-.
    cbn [snd fst] in *. destruct (n_notify d rc) as [st'|] eqn:En; [| done]. injection Hst as <-. destruct (advertises_spec d Hadv) as (uuids & ? & ?).
    exists id, ev, a, d, uuids, ss, srv, cs, rc, st'. by split_and!.
Qed.

(** A session over BlueZ carries frames unchanged.  A well-formed frame is written as its wire bytes, and the wire bytes of a frame that come as a
    notification within the deadline are that frame. *)
Theorem link_carries_frames (s : BlueZSession) (f g : Frame) (at_ deadline : Z) (rest : list (Z * list Z)) (e : option Z) :
  Frame_wf f -> Frame_wf g -> c_write (bs_challenge_char s) (frame_wire f) = Ok tt ->
  bs_notify s = mkStream ((at_, frame_wire g) :: rest) e -> at_ <= deadline ->
  exists s1 s2, send_frame f s = (Ok tt, s1) /\ bs_written s1 = bs_written s ++ [frame_wire f] /\
    recv_frame deadline s1 = (Ok g, s2) /\ bs_notify s2 = mkStream rest e.
Proof.
  intros Hf Hg Hw Hn Hd. cbn [send_frame recv_frame BlueZ]. unfold bluez_send_frame. rewrite Frame_encode_ok by apply Hf. cbn [app]. rewrite Hw.
  eexists _, _. split; [reflexivity |]. split; [reflexivity |]. unfold bluez_recv_frame, stream_next. cbn [bs_notify]. rewrite Hn. cbn [items ends].
  rewrite (proj2 (Z.leb_le _ _) Hd), Frame_decode_wire by done. by split.
Qed.

(** ** The suspend loop *)

(** The number of times a [true] is followed by a [false]. *)
Fixpoint falling_edges (prev : bool) (events : list bool) : Z :=
  match events with [] => 0 | e :: events => (if prev && negb e then 1 else 0) + falling_edges e events end.

(** The counter counts the ends of a suspend, modulo 2^64; nothing else of the peer changes. *)
Theorem suspend_loop_counts (peer : BlueZBtPeer) (events : list bool) :
  0 <= bt_restart_count peer < 2 ^ 64 ->
  run_suspend_resume_loop peer events =
  mkBtPeer (bt_adapter_id peer) (bt_bond_key peer) (bt_pairing_state peer) ((bt_restart_count peer + falling_edges false events) mod 2 ^ 64).
Proof.
  unfold run_suspend_resume_loop. generalize false. revert peer. induction events as [| e events IH]; intros peer prev Hc; cbn [suspend_loop falling_edges].
  - rewrite Z.add_0_r, Z.mod_small by done. by destruct peer.
  - destruct (prev && negb e).
    + rewrite IH by (cbn; apply Z.mod_pos_bound; lia). cbn. f_equal. rewrite Z.add_mod_idemp_l by lia. f_equal. lia.
    + rewrite IH by done. f_equal.
Qed.

(** ** The scan window *)

(** The scan window is half the budget within its two bounds; a budget under a second is exceeded by the scan alone. *)
Theorem scan_window_bounds (total : Z) :
  0 <= total ->
  MIN_SCAN_WINDOW <= scan_window_for total <= DEFAULT_SCAN_WINDOW /\
  (2 * MIN_SCAN_WINDOW <= total <= 2 * DEFAULT_SCAN_WINDOW -> scan_window_for total = total / 2) /\
  (total < MIN_SCAN_WINDOW -> total < scan_window_for total).
Proof.
  intros Ht. unfold scan_window_for, MIN_SCAN_WINDOW, DEFAULT_SCAN_WINDOW. pose proof (Z.div_mod total 2 ltac:(lia)).
  pose proof (Z.mod_pos_bound total 2 ltac:(lia)). lia.
Qed.

(** ** The exchange of public keys *)

(** The key that is returned has 32 bytes and was read from the phone's characteristic of the pair service, after the host's key was written to its own. *)
Theorem pair_keys_exchanged (device : Device) (host_pubkey k : list Z) :
  connect_pair_service device host_pubkey = Ok k ->
  len k = LINK_PUBKEY_LEN /\
  exists services s cs hc pc, d_services device = Ok services /\ s ∈ services /\ v_uuid s = Ok SYAUTH_PAIR_SERVICE_UUID /\ v_characteristics s = Ok cs /\
    hc ∈ cs /\ c_uuid hc = Ok SYAUTH_PAIR_HOST_PUBKEY_CHAR_UUID /\ c_write hc host_pubkey = Ok tt /\
    pc ∈ cs /\ c_uuid pc = Ok SYAUTH_PAIR_PHONE_PUBKEY_CHAR_UUID /\ c_read pc host_pubkey = Ok k.
Proof.
  unfold connect_pair_service. destruct (discover _ _ _ _) as [[[hc|] [pc|]]|] eqn:Ef; try done. cbn.
  destruct (c_write hc host_pubkey) as [[]|] eqn:Ew; [cbn | done]. destruct (c_read pc host_pubkey) as [b|] eqn:Er; [cbn | done].
  destruct (Z.eqb_spec (len b) LINK_PUBKEY_LEN) as [Hl |]; [cbn | done]. intros [= <-]. split; [done |].
  destruct (discover_found _ _ _ _ _ Ef) as (_ & ss & Hss & [? | (s & cs & Hin & Hu & Hcs & H1 & H2)]); [done |].
  destruct (H1 _ eq_refl), (H2 _ eq_refl). exists ss, s, cs, hc, pc. by split_and!.
Qed.

(** ** The mock is a queue *)

Inductive link_op := Send (f : Frame) | Recv (timeout : Z).

(** A run of operations on a session: the frames that were accepted and the frames that were received. *)
Fixpoint link_run `{S : BtSession} (ops : list link_op) (s : SState) : list Frame * list Frame * SState :=
  match ops with
  | [] => ([], [], s)
  | Send f :: ops =>
      let '(r, s) := send_frame f s in
      let '(acc, rcv, s) := link_run ops s in (match r with Ok _ => f :: acc | Err _ => acc end, rcv, s)
  | Recv t :: ops =>
      let '(r, s) := recv_frame t s in
      let '(acc, rcv, s) := link_run ops s in (acc, match r with Ok f => f :: rcv | Err _ => rcv end, s)
  end.

Definition sent_frames (ops : list link_op) : list Frame := omap (fun op => match op with Send f => Some f | _ => None end) ops.

(** The scenarios without a fault, and what they deliver. *)
Definition delivery (sc : MockScenario) (acc : list Frame) : option (list Frame) :=
  match sc with
  | Golden | Slow _ => Some (map (fun f => xor_payload f GOLDEN_PAYLOAD_XOR_MASK) acc)
  | Reordered => Some (match acc with a :: b :: rest => b :: a :: rest | _ => [] end)
  | _ => None
  end.

(** The frame that waits for the second one. *)
Definition reorder_ok (acc : list Frame) (s : MockSession) : Prop :=
  match acc with
  | [] => ms_sent_count s = 0 /\ ms_reorder_pending s = None
  | [x] => ms_sent_count s = 1 /\ ms_reorder_pending s = Some x
  | _ => 2 <= ms_sent_count s /\ ms_reorder_pending s = None
  end.

Record mock_inv (sc : MockScenario) (acc rcv : list Frame) (s : MockSession) : Prop := {
  mi_scenario : ms_scenario s = sc;
  mi_queue : delivery sc acc = Some (rcv ++ ms_inbox s);
  mi_bound : sc <> Reordered -> len (ms_inbox s) <= MOCK_CHAN_CAP;
  mi_reorder : sc = Reordered -> reorder_ok acc s;
}.

Lemma mock_recv_inv sc t acc rcv s :
  mock_inv sc acc rcv s ->
  mock_inv sc acc (rcv ++ match (mock_recv_frame t s).1 with Ok f => [f] | Err _ => [] end) (mock_recv_frame t s).2.
Proof.
  intros [H1 H2 H3 H4]. assert (same : mock_inv sc acc (rcv ++ []) s) by (split; rewrite ?app_nil_r; done).
  assert (read : mock_inv sc acc (rcv ++ match (scenario_read s).1 with Ok f => [f] | Err _ => [] end) (scenario_read s).2).
  { unfold scenario_read. destruct (ms_inbox s) as [| f inbox] eqn:Ei; [done |]. cbn [set_mock_inbox ms_scenario]. rewrite H1.
    assert (mock_inv sc acc (rcv ++ [f]) (set_mock_inbox inbox s)); [| by destruct sc].
    split; cbn; [done | by rewrite <- app_assoc | | done]. intros Hr. specialize (H3 Hr). unfold len in *. cbn in H3. lia. }
  unfold mock_recv_frame. destruct (ms_scenario s); try exact read. by destruct (_ <=? _).
Qed.

Lemma mock_send_inv sc f acc rcv s :
  mock_inv sc acc rcv s ->
  mock_inv sc (acc ++ match (mock_send_frame f s).1 with Ok _ => [f] | Err _ => [] end) rcv (mock_send_frame f s).2 /\
  (sc = Reordered -> (mock_send_frame f s).1 = Ok tt).
Proof.
  intros [H1 H2 H3 H4]. unfold mock_send_frame. rewrite H1.
  assert (queue : sc <> Reordered -> delivery sc (acc ++ [f]) = Some (rcv ++ ms_inbox s ++ [xor_payload f GOLDEN_PAYLOAD_XOR_MASK]) ->
    let out := if MOCK_CHAN_CAP <=? len (ms_inbox s) then (Err TransportClosed, s)
               else (Ok tt, set_mock_inbox (ms_inbox s ++ [xor_payload f GOLDEN_PAYLOAD_XOR_MASK]) s) in
    mock_inv sc (acc ++ match out.1 with Ok _ => [f] | Err _ => [] end) rcv out.2).
  { intros Hr Hd. destruct (Z.leb_spec MOCK_CHAN_CAP (len (ms_inbox s))) as [Hb | Hb]; cbn; [rewrite app_nil_r; by split |].
    split; cbn; try done. intros _. unfold len in *. rewrite length_app. cbn. lia. }
  destruct sc; try done; cbn [delivery] in H2.
  - split; [apply queue; [done |] | done]. cbn. injection H2 as H2. by rewrite map_app, H2, <- app_assoc.
  - split; [apply queue; [done |] | done]. cbn. injection H2 as H2. by rewrite map_app, H2, <- app_assoc.
  - specialize (H4 eq_refl). injection H2 as H2. unfold reorder_ok in H4. cbn zeta. unfold U32_MAX.
    destruct acc as [| a [| b acc]]; destruct H4 as [Hn Hp]; rewrite Hp.
    + rewrite Hn. change (Z.min (0 + 1) (2 ^ 32 - 1)) with 1. cbn. split; [| done]. split; cbn; try done. by rewrite <- H2.
    + rewrite Hn. change (Z.min (1 + 1) (2 ^ 32 - 1)) with 2. symmetry in H2. apply app_eq_nil in H2 as [-> Hi]. cbn. rewrite Hi. cbn.
      split; [| done]. by split.
    + rewrite (proj2 (Z.eqb_neq _ 1)) by lia. cbn. split; [| done]. split; cbn; try done.
      * f_equal. by rewrite app_assoc, <- H2.
      * intros _. destruct (acc ++ [f]); cbn; (split; [lia | done]).
Qed.

(** In its scenarios without a fault the mock is a queue.  For every sequence of sends and receives, what was received and what is still in
    the inbox are the accepted frames in order with the payload masked, or with the first two swapped in the reordering scenario; the inbox is
    bounded in the former and nothing is ever refused in the latter. *)
Theorem mock_delivers_in_order (sc : MockScenario) (t : Z) (s0 s : MockSession) (ops : list link_op) (acc rcv : list Frame) :
  mock_connect sc t = Ok s0 -> is_Some (delivery sc []) -> link_run (S := Mock) ops s0 = (acc, rcv, s) ->
  delivery sc acc = Some (rcv ++ ms_inbox s) /\
  (sc <> Reordered -> len (ms_inbox s) <= MOCK_CHAN_CAP) /\
  (sc = Reordered -> acc = sent_frames ops).
Proof.
  intros Hc Hd Hr. assert (Hi : mock_inv sc [] [] s0) by (destruct sc; try (by destruct Hd); injection Hc as <-; by split; cbn).
  assert (Hg : forall acc0 rcv0, mock_inv sc acc0 rcv0 s0 ->
    mock_inv sc (acc0 ++ acc) (rcv0 ++ rcv) s /\ (sc = Reordered -> acc = sent_frames ops)).
  { clear Hi Hc. revert s0 acc rcv Hr. induction ops as [| [f | t'] ops IH]; intros s0 acc rcv Hr acc0 rcv0 Hi; cbn in Hr.
    - injection Hr as <- <- <-. by rewrite !app_nil_r.
    - destruct (mock_send_inv sc f acc0 rcv0 s0 Hi) as [Hs Hok]. destruct (mock_send_frame f s0) as [r s1]. cbn in Hs, Hok.
      destruct (link_run (S := Mock) ops s1) as [[acc1 rcv1] s2] eqn:E. injection Hr as <- <- <-. destruct (IH s1 acc1 rcv1 E _ _ Hs) as [Hj He].
      rewrite <- app_assoc in Hj. destruct r; cbn in *; (split; [done |]); intros Hre; [by rewrite He |]. by specialize (Hok Hre).
    - pose proof (mock_recv_inv sc t' acc0 rcv0 s0 Hi) as Hs. destruct (mock_recv_frame t' s0) as [r s1]. cbn in Hs.
      destruct (link_run (S := Mock) ops s1) as [[acc1 rcv1] s2] eqn:E. injection Hr as <- <- <-. destruct (IH s1 acc1 rcv1 E _ _ Hs) as [Hj He].
      rewrite <- app_assoc in Hj. by destruct r. }
  destruct (Hg [] [] Hi) as [[H1 H2 H3 H4] He]. by split_and!.
Qed.

(** A frame that comes back with another version is rejected for that version. *)
Theorem wrong_version_rejected (v t t' : Z) (f : Frame) :
  v <> SYAUTH_WIRE_VERSION_V1 -> Frame_wf f ->
  exists s0, mock_connect (MockWrongVersion v) t = Ok s0 /\
  (recv_frame (BtSession := Mock) t' (send_frame (BtSession := Mock) f s0).2).1 = Err (BadFrame (BadVersion v)).
Proof.
  intros Hv [(Hu & Hn & Hb & Ht) [_ Hp]]. eexists. split; [reflexivity |].
  set (x := xor_payload f GOLDEN_PAYLOAD_XOR_MASK). set (g := mkFrame SYAUTH_WIRE_VERSION_V1 (nonce f) (payload x) (tag f)).
  assert (Hl : len (payload g) <= MAX_PAYLOAD_LEN) by (unfold g, x, len in *; cbn; by rewrite length_map).
  assert (Hs : (send_frame (BtSession := Mock) f (MockSession_new (MockWrongVersion v))).2 = mkMockSession (MockWrongVersion v) [x] 0 None) by done.
  rewrite Hs. cbn [recv_frame Mock]. unfold mock_recv_frame, scenario_read. cbn [ms_scenario ms_inbox set_mock_inbox].
  change (payload x) with (payload g). rewrite (proj2 (Z.leb_le _ _) Hl). change (mkFrame _ _ _ _) with g. rewrite Frame_encode_ok by done.
  cbn [app fst map_err]. change (<[Z.to_nat VERSION_OFFSET:=v]> (frame_wire g)) with (v :: nonce f ++ payload g ++ tag f).
  unfold Frame_decode. apply arr_len in Hn, Ht.
  assert (Hlen : MIN_FRAME_LEN <= len (v :: nonce f ++ payload g ++ tag f)).
  { revert Hn Ht. layout. unfold len. cbn [length]. rewrite !length_app. lia. }
  rewrite (proj2 (Z.ltb_ge _ _) Hlen). change (byte_at (v :: nonce f ++ payload g ++ tag f) VERSION_OFFSET) with v.
  by rewrite (proj2 (Z.eqb_neq _ _) Hv).
Qed.

(** ** Concrete runs *)

Section toy_link.
Local Definition toy_challenge : Characteristic := mkCharacteristic (Ok SYAUTH_CHALLENGE_CHAR_UUID) (fun _ => Ok tt) (fun _ => Ok []).
Local Definition toy_response : Characteristic := mkCharacteristic (Ok SYAUTH_RESPONSE_CHAR_UUID) (fun _ => Ok tt) (fun _ => Ok []).
Local Definition toy_host_key : Characteristic := mkCharacteristic (Ok SYAUTH_PAIR_HOST_PUBKEY_CHAR_UUID) (fun _ => Ok tt) (fun _ => Ok []).
Local Definition toy_phone_key : Characteristic :=
  mkCharacteristic (Ok SYAUTH_PAIR_PHONE_PUBKEY_CHAR_UUID) (fun _ => Ok tt) (fun _ => Ok (replicate 32 7)).

Definition toy_phone : Device :=
  mkDevice (Ok tt) (Ok [mkService (Ok SYAUTH_PAIR_SERVICE_UUID) (Ok [toy_host_key; toy_phone_key]);
                        mkService (Ok SYAUTH_GATT_SERVICE_UUID) (Ok [toy_challenge; toy_response])]).

Definition toy_stream : Stream := mkStream [(3, frame_wire sample_frame)] None.
Definition toy_near : Nearby := mkNearby (Ok (Some [SYAUTH_GATT_SERVICE_UUID])) toy_phone (fun _ => Ok toy_stream).
Definition toy_radio : BtRadio :=
  mkBtRadio (Ok tt) (fun _ => Ok tt) (Ok tt) (Ok tt) (Ok [(5, OtherEvent); (7, DeviceAdded (lit "AA"))]) (Ok [lit "BB"])
    (fun a => if bool_decide (a = lit "AA") then Some toy_near else None).
Definition toy_session : BlueZSession := mkBlueZSession toy_challenge [] toy_stream.

Lemma toy_connects : bluez_connect (BlueZBtPeer_new_sync (lit "hci0") [] (BtBonded (lit "p"))) toy_radio (10 ^ 9) = (Ok toy_session, ALL_CALLS).
Proof. vm_compute. reflexivity. Qed.

Lemma sample_frame_wf : Frame_wf sample_frame.
Proof. apply (bool_decide_unpack _). vm_compute. exact I. Qed.

Lemma connect_reaches_the_phone_witness :
  exists d, device_advertises_syauth d = true /\ r_device toy_radio (lit "AA") = Some d /\
  (bluez_connect (BlueZBtPeer_new_sync (lit "hci0") [] (BtBonded (lit "p"))) toy_radio (10 ^ 9)).2 = ALL_CALLS.
Proof.
  exists toy_near. split_and!; [reflexivity | reflexivity |].
  pose proof (connect_reaches_the_phone (BlueZBtPeer_new_sync (lit "hci0") [] (BtBonded (lit "p"))) toy_radio (10 ^ 9)) as (_ & _ & H).
  apply (H toy_session). by rewrite toy_connects.
Defined.

Lemma link_carries_frames_witness :
  exists s1 s2, send_frame (BtSession := BlueZ) sample_frame toy_session = (Ok tt, s1) /\ recv_frame (BtSession := BlueZ) 10 s1 = (Ok sample_frame, s2).
Proof.
  destruct (link_carries_frames toy_session sample_frame sample_frame 3 10 [] None sample_frame_wf sample_frame_wf eq_refl eq_refl ltac:(lia))
    as (s1 & s2 & H1 & _ & H2 & _).
  by exists s1, s2.
Defined.

Lemma suspend_loop_counts_witness :
  bt_restart_count (run_suspend_resume_loop (mkBtPeer [] [] BtNotPaired (2 ^ 64 - 1)) [false; true; true; false; true; false]) = 1.
Proof. rewrite suspend_loop_counts by (cbn; lia). reflexivity. Defined.

Lemma scan_window_bounds_witness : 500000000 < scan_window_for 500000000.
Proof. apply (scan_window_bounds 500000000); unfold MIN_SCAN_WINDOW; lia. Defined.

Lemma pair_keys_exchanged_witness : connect_pair_service toy_phone [1] = Ok (replicate 32 7) /\ len (replicate 32 7) = LINK_PUBKEY_LEN.
Proof.
  assert (H : connect_pair_service toy_phone [1] = Ok (replicate 32 7)) by reflexivity.
  exact (conj H (proj1 (pair_keys_exchanged toy_phone [1] (replicate 32 7) H))).
Defined.

Lemma mock_delivers_in_order_witness :
  exists rcv s, link_run (S := Mock) [Send sample_frame; Recv 1; Send oversized_frame; Recv 1; Recv 1] (MockSession_new Reordered) =
    ([sample_frame; oversized_frame], rcv, s) /\ rcv ++ ms_inbox s = [oversized_frame; sample_frame].
Proof.
  destruct (link_run (S := Mock) [Send sample_frame; Recv 1; Send oversized_frame; Recv 1; Recv 1] (MockSession_new Reordered)) as [[acc rcv] s] eqn:E.
  destruct (mock_delivers_in_order Reordered 1 (MockSession_new Reordered) s _ acc rcv eq_refl ltac:(by eexists) E) as (H1 & _ & H2).
  specialize (H2 eq_refl). cbn in H2. subst acc. exists rcv, s. split; [done |]. cbn in H1. by injection H1 as ->.
Defined.

Lemma wrong_version_rejected_witness :
  exists s0, mock_connect (MockWrongVersion 2) 1 = Ok s0 /\
  (recv_frame (BtSession := Mock) 1 (send_frame (BtSession := Mock) sample_frame s0).2).1 = Err (BadFrame (BadVersion 2)).
Proof. by apply (wrong_version_rejected 2 1 1 sample_frame); [| apply sample_frame_wf]. Defined.
End toy_link.
