(* ===== verification/Confirm.v ===== *)
(** * Confirmation of the pairing code on the desktop

    Models from crates/syauth-cli/src/pair_backend.rs the two handlers that answer BlueZ's numeric comparison: the prompt on the terminal and the exchange of
    files with the status bar's applet, with the scanner of its answer.

    The applet is outside: before each turn of the wait it does to the disk what it likes, a function on the disk; the wait reads the response
    file from that disk.  Times are in milliseconds; a sleep may be late by any amount, other calls take no time. *)

From stdpp Require Import prelude list gmap strings.
From Stdlib Require Import ZArith Lia.
From S2P Require Import Prelude WireFrame Fs Bond PairRecovery AuditTrail Mobile PamService PairCli InstallPresenced.

Definition PAIR_IPC_DIR_SUBPATH : str := lit "syauth".
Definition PAIR_IPC_REQUEST_FILE : str := lit "pair-request.json".
Definition PAIR_IPC_RESPONSE_FILE : str := lit "pair-response.json".
Definition PAIR_IPC_DECISION_TIMEOUT : Z := 25000.
Definition PAIR_IPC_POLL_INTERVAL : Z := 100.

(** ** The terminal *)

(** [None] is an error of [read_line]. *)
Definition stdio_confirm (line : option str) : bool :=
  match line with
  | None => false
  | Some buf =>
      let answer := to_ascii_lowercase (trim buf) in
      bool_decide (answer = lit "y") || bool_decide (answer = lit "yes")
  end.

(** ** The scanner *)

(** [text.find(needle)]: what comes before the first occurrence and after it. *)
Fixpoint find_str (needle text : str) : option (str * str) :=
  match strip_prefix needle text with
  | Some after => Some ([], after)
  | None =>
      match text with
      | [] => None
      | c :: text => match find_str needle text with Some (before, after) => Some (c :: before, after) | None => None end
      end
  end.

Definition json_string_field (text key : str) : option str :=
  match find_str ([34] ++ key ++ [34]) text with
  | None => None
  | Some (_, after_key) =>
      match find_str [58] after_key with
      | None => None
      | Some (_, after_colon) =>
          match find_str [34] after_colon with
          | None => None
          | Some (_, rest) => fst <$> find_str [34] rest
          end
      end
  end.

Definition parse_decision (bytes : list Z) (expected_id : str) : option bool :=
  if negb (utf8 bytes) then None
  else
    match json_string_field bytes (lit "request_id") with
    | None => None
    | Some id =>
        if negb (bool_decide (id = expected_id)) then None
        else
          match json_string_field bytes (lit "decision") with
          | None => None
          | Some decision =>
              if bool_decide (decision = lit "accept") then Some true
              else if bool_decide (decision = lit "reject") then Some false
              else None
          end
    end.

(** ** The wait *)

(** What the applet does to the disk. *)
Definition act (f : fs -> fs) : io unit := fun w => (Ret tt, with_files (f (files w)) w).

(** [applet i] acts before the [i]-th turn; [late i] is how much longer than asked the sleep after it takes.  [None] is fuel that ran out. *)
Fixpoint wait_loop (applet : nat -> fs -> fs) (late : nat -> Z) (response_path : path) (request_id : str) (fuel i : nat) (now : Z)
  : io (option (bool * Z)) :=
  match fuel with
  | O => iret None
  | S fuel =>
      let! _ := act (applet i) in
      if PAIR_IPC_DECISION_TIMEOUT <=? now then iret (Some (false, now))
      else
        let! r := fs_read response_path in
        match match r with Ok bytes => parse_decision bytes request_id | Err _ => None end with
        | Some decision => iret (Some (decision, now))
        | None => wait_loop applet late response_path request_id fuel (S i) (now + PAIR_IPC_POLL_INTERVAL + late i)
        end
  end.

(** 25 s at 100 ms, and the check that ends the loop. *)
Definition POLLS : nat := 251.

Definition wait_for_decision (applet : nat -> fs -> fs) (late : nat -> Z) (response_path : path) (request_id : str) : io (option (bool * Z)) :=
  wait_loop applet late response_path request_id POLLS 0 0.

(** ** The files *)

(** [str::parse::<u32>]: an optional plus sign, then decimal digits. *)
Definition parse_u32 (s : str) : option Z :=
  let ds := match s with 43 :: ds => ds | _ => s end in
  match ds with
  | [] => None
  | _ =>
      if forallb (fun c => (48 <=? c) && (c <=? 57)) ds then
        let n := foldl (fun a c => 10 * a + (c - 48)) 0 ds in
        if n <? 2 ^ 32 then Some n else None
      else None
  end.

(** [sudo_uid] is SUDO_UID if it is set and UTF-8. *)
Definition pair_ipc_dir (sudo_uid : option str) (xdg : EnvDir) : option path :=
  match match sudo_uid with Some s => parse_u32 s | None => None end with
  | Some uid => Some [lit "run"; lit "user"; decimal uid; PAIR_IPC_DIR_SUBPATH]
  | None => match xdg with EnvDirAt dir => Some (join dir PAIR_IPC_DIR_SUBPATH) | _ => None end
  end.

Definition request_id_of (pid nanos : Z) : str := decimal pid ++ [45] ++ decimal nanos.

Definition request_json (request_id : str) (passkey secs : Z) : str :=
  let q := [34] in
  lit "{" ++ q ++ lit "schema_version" ++ q ++ lit ":1," ++ q ++ lit "kind" ++ q ++ lit ":" ++ q ++ lit "pair_confirm" ++ q ++ lit "," ++
  q ++ lit "request_id" ++ q ++ lit ":" ++ q ++ request_id ++ q ++ lit "," ++ q ++ lit "passkey" ++ q ++ lit ":" ++ q ++ zero_padded 6 passkey ++ q ++
  lit "," ++ q ++ lit "created_at_secs" ++ q ++ lit ":" ++ decimal secs ++ lit "}".

Section handler.
Context `{UM : Umask}.

Definition chmod_world_readable (p : path) : io (result unit ErrorKind) := fs_set_permissions p 420.

(** [nanos] and [secs] are the two readings of the clock.  The answer, and how long the wait took. *)
Definition waybar_confirm (dir : option path) (pid nanos secs : Z) (applet : nat -> fs -> fs) (late : nat -> Z) (passkey : Z) : io (option (bool * Z)) :=
  match dir with
  | None => iret (Some (false, 0))
  | Some dir =>
      let! made := fs_create_dir_all dir in
      match made with
      | Err _ => iret (Some (false, 0))
      | Ok _ =>
          let request_path := join dir PAIR_IPC_REQUEST_FILE in
          let response_path := join dir PAIR_IPC_RESPONSE_FILE in
          let! _ := fs_remove_file response_path in
          let request_id := request_id_of pid nanos in
          let! wrote := fs_write request_path (request_json request_id passkey secs) in
          match wrote with
          | Err _ => iret (Some (false, 0))
          | Ok _ =>
              let! _ := chmod_world_readable request_path in
              let! decision := wait_for_decision applet late response_path request_id in
              let! _ := fs_remove_file request_path in
              let! _ := fs_remove_file response_path in
              iret decision
          end
      end
  end.
End handler.

(** ** What the scanner finds *)

Lemma find_str_spec needle text before after : find_str needle text = Some (before, after) ->
  text = before ++ needle ++ after /\ forall b a, text = b ++ needle ++ a -> (length before <= length b)%nat.
Proof.
  revert before. induction text as [| c text IH]; intros before; cbn; destruct (strip_prefix needle _) as [r |] eqn:E.
  - intros [= <- <-]. apply strip_prefix_inv in E. split; [exact E | cbn; lia].
  - done.
  - intros [= <- <-]. apply strip_prefix_inv in E. split; [exact E | cbn; lia].
  - destruct (find_str needle text) as [[b0 a0] |]; [| done]. intros [= <- <-]. destruct (IH b0 eq_refl) as [-> Hm]. split; [done |].
    intros [| x b] a Hb; cbn in Hb.
    + exfalso. assert (H : strip_prefix needle (needle ++ a) = Some a).
      { clear. induction needle as [| y n IH]; cbn; [done |]. by rewrite Z.eqb_refl. }
      rewrite <- Hb in H. cbn in H, E. congruence.
    + injection Hb as _ Hb. cbn. specialize (Hm b a Hb). lia.
Qed.

Lemma find_char_spec c text before after : find_str [c] text = Some (before, after) -> text = before ++ c :: after /\ c ∉ before.
Proof.
  intros H. apply find_str_spec in H as [-> Hm]. split; [done |]. intros Hin. apply list_elem_of_split in Hin as (l1 & l2 & ->).
  specialize (Hm l1 (l2 ++ c :: after)). rewrite <- app_assoc in Hm. specialize (Hm eq_refl). rewrite length_app in Hm. cbn in Hm. lia.
Qed.

(** The value of a field of a flat JSON object with string values: the quoted key, a colon, the value in quotes, at the first occurrence
    of the key. *)
Definition has_field (text key value : str) : Prop :=
  exists pre gap blank rest, text = pre ++ ([34] ++ key ++ [34]) ++ (gap ++ 58 :: blank ++ 34 :: value ++ 34 :: rest) /\
    58 ∉ gap /\ 34 ∉ blank /\ 34 ∉ value /\ forall b a, text = b ++ ([34] ++ key ++ [34]) ++ a -> (length pre <= length b)%nat.

Lemma json_string_field_spec text key value : json_string_field text key = Some value -> has_field text key value.
Proof.
  unfold json_string_field. destruct (find_str ([34] ++ key ++ [34]) text) as [[pre t1] |] eqn:E1; [| done].
  destruct (find_str [58] t1) as [[gap t2] |] eqn:E2; [| done]. destruct (find_str [34] t2) as [[blank t3] |] eqn:E3; [| done].
  destruct (find_str [34] t3) as [[v rest] |] eqn:E4; [| done]. intros [= <-].
  apply find_str_spec in E1 as [-> Hm]. apply find_char_spec in E2 as [-> ?], E3 as [-> ?], E4 as [-> ?].
  exists pre, gap, blank, rest. by split_and!.
Qed.

Lemma parse_accept bytes id : parse_decision bytes id = Some true -> has_field bytes (lit "request_id") id /\ has_field bytes (lit "decision") (lit "accept").
Proof.
  unfold parse_decision. destruct (utf8 bytes); [| done]. cbn [negb]. destruct (json_string_field bytes (lit "request_id")) as [i |] eqn:Ei; [| done].
  case_bool_decide as Hi; [| done]. cbn [negb]. subst i. destruct (json_string_field bytes (lit "decision")) as [d |] eqn:Ed; [| done].
  case_bool_decide as Hd; [| by case_bool_decide]. subst d. intros _. split; by apply json_string_field_spec.
Qed.

(** ** The wait ends with the applet's answer or without one *)

(** The disk after the applet has acted before turns [i] to [i + n]. *)
Fixpoint acts (applet : nat -> fs -> fs) (n i : nat) (g : fs) : fs :=
  match n with O => applet i g | S n => acts applet n (S i) (applet i g) end.

Section wait.
Context (applet : nat -> fs -> fs) (late : nat -> Z) (p : path) (id : str) (slack : Z).
Hypothesis Hlate : forall i, 0 <= late i <= slack.

(** What the file says on a disk. *)
Definition decided (g : fs) : option bool := match read_op p g with Ok bytes => parse_decision bytes id | Err _ => None end.

(** Among the turns from [i] on, one before the deadline found an acceptance. *)
Definition accepted (i : nat) (g : fs) : Prop := exists n bytes m, acts applet n i g !! p = Some (File bytes m) /\ parse_decision bytes id = Some true.

Lemma read_free w r w' : fs_read p w = (Ret r, w') -> files w' = files w /\ forall bytes, r = Ok bytes -> exists m, files w !! p = Some (File bytes m).
Proof using.
  unfold fs_read, syscall. pose proof (next_fault_files w) as Hn. destruct (next_fault w) as [[| k pr | [n |]] w1]; cbn in *; try done.
  - intros [= <- <-]. cbn. split; [by rewrite Hn |]. rewrite Hn. unfold read_op. intros bytes. destruct (files w !! p) as [[c m |] |]; [| done |].
    + intros [= ->]. by exists m.
    + by destruct (resolve_parent _ _).
  - intros [= <- <-]. by rewrite Hn.
Qed.

Lemma wait_loop_ends fuel i now w :
  (0 < fuel)%nat -> 0 <= now < PAIR_IPC_DECISION_TIMEOUT + PAIR_IPC_POLL_INTERVAL + slack ->
  PAIR_IPC_DECISION_TIMEOUT <= now + PAIR_IPC_POLL_INTERVAL * (Z.of_nat fuel - 1) ->
  match (wait_loop applet late p id fuel i now w).1 with
  | Ret o => exists d t, o = Some (d, t) /\ now <= t < PAIR_IPC_DECISION_TIMEOUT + PAIR_IPC_POLL_INTERVAL + slack /\
      (d = true -> t < PAIR_IPC_DECISION_TIMEOUT /\ accepted i (files w))
  | Killed => True
  | Panicked => False
  end.
Proof using Hlate.
  revert i now w. unfold PAIR_IPC_DECISION_TIMEOUT, PAIR_IPC_POLL_INTERVAL. induction fuel as [| fuel IH]; intros i now w H0 Hn Hf; [lia |].
  cbn [wait_loop]. unfold ibind at 1, act. unfold PAIR_IPC_DECISION_TIMEOUT, PAIR_IPC_POLL_INTERVAL. destruct (Z.leb_spec 25000 now) as [Ht | Ht].
  { exists false, now. split_and!; [done | lia | lia | done]. }
  unfold ibind at 1. destruct (fs_read p _) as [[r | |] w1] eqn:Er; [| done | unfold fs_read, syscall in Er; by destruct (next_fault _) as [[| | []] ?]].
  apply read_free in Er as [Hfr Hb]. cbn in Hfr, Hb.
  destruct (match r with Ok bytes => parse_decision bytes id | Err _ => None end) as [d |] eqn:Ed.
  - exists d, now. split_and!; [done | lia | lia |]. intros ->. split; [lia |]. destruct r as [bytes | e]; [| done].
    destruct (Hb bytes eq_refl) as [m Hm]. by exists O, bytes, m.
  - pose proof (Hlate i) as Hi. specialize (IH (S i) (now + 100 + late i) w1 ltac:(lia) ltac:(lia) ltac:(lia)).
    destruct (wait_loop _ _ _ _ _ _ _ w1).1 as [o | |]; [| done | done]. destruct IH as (d & t & -> & Hle & Hd). exists d, t.
    split_and!; [done | lia | lia |]. intros ->. destruct (Hd eq_refl) as [Hlt (n & bytes & m & Hm & Hp)]. split; [done |].
    exists (S n), bytes, m. rewrite Hfr in Hm. done.
Qed.

(** An answer that comes in time is taken. *)
Lemma wait_takes_answer d k fuel i now g :
  (forall j, (j < k)%nat -> decided (acts applet j i g) = None) -> decided (acts applet k i g) = Some d -> (k < fuel)%nat ->
  now + (PAIR_IPC_POLL_INTERVAL + slack) * Z.of_nat k < PAIR_IPC_DECISION_TIMEOUT ->
  exists t, (wait_loop applet late p id fuel i now (calm g)).1 = Ret (Some (d, t)).
Proof using Hlate.
  revert fuel i now g. unfold PAIR_IPC_POLL_INTERVAL, PAIR_IPC_DECISION_TIMEOUT.
  induction k as [| k IH]; intros [| fuel] i now g Hb Ha Hf Ht; try lia; cbn [wait_loop]; unfold ibind, act; cbn [files calm with_files];
    unfold PAIR_IPC_DECISION_TIMEOUT; pose proof (Hlate i); (rewrite (proj2 (Z.leb_gt 25000 now)) by nia);
    change (with_files (applet i g) (calm g)) with (calm (applet i g)); unfold fs_read; rewrite syscall_calm; cbn [fst snd].
  - fold (decided (applet i g)). cbn in Ha. rewrite Ha. by exists now.
  - fold (decided (applet i g)). specialize (Hb O ltac:(lia)) as Hb0. cbn in Hb0. rewrite Hb0. apply IH.
    + intros j Hj. apply (Hb (S j)). lia.
    + exact Ha.
    + lia.
    + unfold PAIR_IPC_POLL_INTERVAL. nia.
Qed.
End wait.

(** The calls of the handler do not panic, and the request is on the disk when it waits. *)
Lemma syscall_no_panic {A} (f : fs -> result A ErrorKind * fs) w w' : syscall f w <> (Panicked, w').
Proof. unfold syscall. destruct (next_fault w) as [[| | []] w1]; [by destruct (f _) | done | done | done]. Qed.

Lemma create_dirs_no_panic `{UM : Umask} rest pre w w' : create_dirs pre rest w <> (Panicked, w').
Proof.
  revert pre w. induction rest as [| c rest IH]; intros pre w; cbn [create_dirs]; [done |]. unfold itry, ibind.
  destruct (syscall _ w) as [[[] | |] w1] eqn:E; try done. intros _. by apply syscall_no_panic in E.
Qed.

Lemma write_lands `{UM : Umask} p data w r w' : fs_write p data w = (r, w') ->
  r <> Panicked /\ (r = Ret (Ok tt) -> exists m, files w' !! p = Some (File data m)).
Proof.
  unfold fs_write. destruct (next_fault w) as [[| k [n |] | [n |]] w1]; intros E; try (by injection E as <- <-).
  destruct (write_op p data (files w1)) as [r1 g1] eqn:Ew. injection E as <- <-. revert Ew.
  unfold write_op. destruct (resolve_parent _ p); [| by intros [= <- <-]]. destruct (files w1 !! p) as [[] |]; intros [= <- <-]; (split; [done |]); try done;
    intros _; eexists; apply lookup_insert_eq.
Qed.

Lemma chmod_keeps p m w r w' c m0 : fs_set_permissions p m w = (Ret r, w') -> files w !! p = Some (File c m0) ->
  exists m', files w' !! p = Some (File c m').
Proof.
  unfold fs_set_permissions, syscall. pose proof (next_fault_files w) as Hn. destruct (next_fault w) as [[| k pr | [n |]] w1]; cbn in *; try done.
  - rewrite <- Hn. intros E Hp. unfold set_permissions_op in E. rewrite Hp in E. destruct (resolve_parent _ p); injection E as _ <-; cbn; eauto.
    eexists. apply lookup_insert_eq.
  - intros [= _ <-]. rewrite Hn. eauto.
Qed.

(** C16: the handler accepts a code only on the applet's word, and its wait ends.  On every script of faults and whatever the applet does to the disk, it
    answers unless the process dies in a call, and the answer comes less than a poll and the latest sleep's delay after the 25 seconds.  The answer is
    yes only if the request had been written and at one of the turns before the deadline the response file on the disk was an object whose field request_id was the
    identifier of this very request and whose field decision was "accept". *)
Theorem waybar_accept_is_answered `{UM : Umask} (dir : option path) (pid nanos secs passkey slack : Z) (applet : nat -> fs -> fs) (late : nat -> Z)
    (w : world) :
  (forall i, 0 <= late i <= slack) ->
  match (waybar_confirm dir pid nanos secs applet late passkey w).1 with
  | Ret answer => exists b t, answer = Some (b, t) /\ 0 <= t < PAIR_IPC_DECISION_TIMEOUT + PAIR_IPC_POLL_INTERVAL + slack /\
      (b = true -> t < PAIR_IPC_DECISION_TIMEOUT /\ exists d g n bytes m m', dir = Some d /\
         g !! join d PAIR_IPC_REQUEST_FILE = Some (File (request_json (request_id_of pid nanos) passkey secs) m') /\
         acts applet n 0 g !! join d PAIR_IPC_RESPONSE_FILE = Some (File bytes m) /\
         has_field bytes (lit "request_id") (request_id_of pid nanos) /\ has_field bytes (lit "decision") (lit "accept"))
  | Killed => True
  | Panicked => False
  end.
Proof.
  intros Hl. pose proof (Hl O) as Hl0. unfold PAIR_IPC_DECISION_TIMEOUT, PAIR_IPC_POLL_INTERVAL in *.
  assert (no : exists b t, Some (false, 0) = Some (b, t) /\ 0 <= t < 25000 + 100 + slack /\ (b = true -> False))
    by (exists false, 0; split_and!; [done | lia | lia | done]).
  unfold waybar_confirm. destruct dir as [d |]; [| cbn; naive_solver]. unfold ibind at 1.
  destruct (fs_create_dir_all d w) as [[[] | |] w1] eqn:E0; [| cbn; naive_solver | done | by apply create_dirs_no_panic in E0]. unfold ibind at 1.
  destruct (fs_remove_file _ w1) as [[r1 | |] w2] eqn:E1; [| done | by apply syscall_no_panic in E1]. cbv zeta. unfold ibind at 1.
  destruct (fs_write _ _ w2) as [[[[]|] | |] w3] eqn:E2; apply write_lands in E2 as [Hnp Hw]; [| cbn; naive_solver | done | done].
  destruct (Hw eq_refl) as [m0 Hm0]. unfold ibind at 1, chmod_world_readable.
  destruct (fs_set_permissions _ _ w3) as [[r3 | |] w4] eqn:E3; [| done | by apply syscall_no_panic in E3].
  destruct (chmod_keeps _ _ _ _ _ _ _ E3 Hm0) as [m' Hm']. unfold ibind at 1.
  pose proof (wait_loop_ends applet late (join d PAIR_IPC_RESPONSE_FILE) (request_id_of pid nanos) slack Hl POLLS 0 0 w4 ltac:(unfold POLLS; lia)
    ltac:(unfold PAIR_IPC_DECISION_TIMEOUT, PAIR_IPC_POLL_INTERVAL; lia) ltac:(by vm_compute)) as Hwait.
  unfold wait_for_decision. destruct (wait_loop _ _ _ _ _ _ _ w4) as [[o | |] w5]; [| done | done]. cbn [fst] in Hwait. unfold ibind.
  destruct (fs_remove_file _ w5) as [[r5 | |] w6] eqn:E5; [| done | by apply syscall_no_panic in E5].
  destruct (fs_remove_file _ w6) as [[r6 | |] w7] eqn:E6; [| done | by apply syscall_no_panic in E6].
  destruct Hwait as (b & t & -> & Ht & Hb). exists b, t. split; [done |]. split; [exact Ht |]. intros ->.
  destruct (Hb eq_refl) as [Hlt (n & bytes & m & Hfile & Hp)]. split; [exact Hlt |]. apply parse_accept in Hp as [Hid Hdec].
  by exists d, (files w4), n, bytes, m, m'.
Qed.
(** ** The scanner reads what the applet writes *)

(** The applet's answer. *)
Definition reply_text (id : str) (accept : bool) : str :=
  let q := [34] in
  lit "{" ++ q ++ lit "request_id" ++ q ++ lit ":" ++ q ++ id ++ q ++ lit "," ++ q ++ lit "decision" ++ q ++ lit ":" ++ q ++
  (if accept then lit "accept" else lit "reject") ++ q ++ lit "}".

Definition digit_or_dash (c : Z) : Prop := 45 <= c <= 57.

Lemma find_str_skip k a s : Forall digit_or_dash a -> find_str (34 :: k) (a ++ s) = (fun x => (a ++ x.1, x.2)) <$> find_str (34 :: k) s.
Proof.
  induction 1 as [| c a Hc _ IH]; [cbn [app]; destruct (find_str (34 :: k) s) as [[b r]|]; done |]. cbn [app find_str strip_prefix].
  destruct (Z.eqb_spec 34 c) as [<- |]; [unfold digit_or_dash in Hc; lia |]. rewrite IH. by destruct (find_str (34 :: k) s) as [[b r]|].
Qed.

Lemma strip_needle c k a s : Forall digit_or_dash a -> 57 < c -> strip_prefix (34 :: c :: k) (34 :: a ++ 34 :: s) = None.
Proof.
  intros Ha Hc. cbn. destruct a as [| x a]; cbn; [by destruct (Z.eqb_spec c 34); [lia |] |]. apply Forall_cons in Ha as [Hx _].
  unfold digit_or_dash in Hx. by destruct (Z.eqb_spec c x); [lia |].
Qed.

(** The quoted string that comes next. *)
Lemma find_close a s : Forall digit_or_dash a -> find_str [34] (a ++ 34 :: s) = Some (a, s).
Proof. intros Ha. rewrite find_str_skip by done. cbn. by rewrite app_nil_r. Qed.

Lemma reply_id id accept : Forall digit_or_dash id -> json_string_field (reply_text id accept) (lit "request_id") = Some id.
Proof.
  intros Hid.
  assert (Hk : forall x, find_str ([34] ++ lit "request_id" ++ [34]) (lit "{" ++ [34] ++ lit "request_id" ++ [34] ++ lit ":" ++ [34] ++ x) =
    Some (lit "{", [58; 34] ++ x)) by (intros; reflexivity).
  unfold json_string_field, reply_text. cbv zeta. rewrite Hk. cbn [app find_str strip_prefix Z.eqb Pos.eqb]. by rewrite find_close.
Qed.

Lemma find_str_cons needle c s :
  strip_prefix needle (c :: s) = None -> find_str needle (c :: s) = (fun x => (c :: x.1, x.2)) <$> find_str needle s.
Proof. intros H. cbn [find_str]. rewrite H. by destruct (find_str needle s) as [[b r]|]. Qed.

Lemma reply_decision id accept :
  Forall digit_or_dash id -> json_string_field (reply_text id accept) (lit "decision") = Some (if accept then lit "accept" else lit "reject").
Proof.
  intros Hid. unfold json_string_field. set (needle := [34] ++ lit "decision" ++ [34]).
  set (value := if accept then lit "accept" else lit "reject"). set (rest := [58; 34] ++ value ++ [34] ++ lit "}").
  assert (Ht : find_str needle (id ++ 34 :: 44 :: needle ++ rest) = Some (id ++ [34; 44], rest)).
  { unfold needle. cbn [app]. rewrite find_str_skip by done. reflexivity. }
  assert (Hn : strip_prefix needle (34 :: id ++ 34 :: 44 :: needle ++ rest) = None) by (by apply (strip_needle 100)).
  assert (E : reply_text id accept =
    123 :: 34 :: 114 :: 101 :: 113 :: 117 :: 101 :: 115 :: 116 :: 95 :: 105 :: 100 :: 34 :: 58 :: 34 :: id ++ 34 :: 44 :: needle ++ rest)
    by reflexivity.
  rewrite E. do 14 (rewrite find_str_cons by reflexivity). rewrite find_str_cons by done. rewrite Ht. cbn [fmap option_fmap option_map fst snd].
  unfold rest, value. by destruct accept.
Qed.

Lemma reply_utf8 id accept : Forall digit_or_dash id -> utf8 (reply_text id accept) = true.
Proof.
  intros Hid. apply utf8_ascii. unfold reply_text. 
  assert (H : Forall (fun c => 0 <= c <= 127) id) by (eapply Forall_impl; [exact Hid |]; unfold digit_or_dash; lia).
  repeat apply Forall_app_2; try exact H; try destruct accept; by apply (bool_decide_unpack _).
Qed.

Lemma decimal_dash n : Forall digit_or_dash (decimal n).
Proof.
  unfold decimal. generalize (S (Z.to_nat (Z.log2 n))). intros fuel. assert (H : Forall digit_or_dash []) by constructor. revert n H.
  generalize (@nil Z). induction fuel as [| fuel IH]; intros rest n H; cbn [digits]; [done |].
  assert (H' : Forall digit_or_dash (48 + n mod 10 :: rest)).
  { constructor; [| done]. unfold digit_or_dash. pose proof (Z.mod_pos_bound n 10 ltac:(lia)). lia. }
  destruct (n / 10 =? 0); [done | by apply IH].
Qed.

Lemma request_id_dash pid nanos : Forall digit_or_dash (request_id_of pid nanos).
Proof. unfold request_id_of. apply Forall_app_2; [apply decimal_dash |]. constructor; [unfold digit_or_dash; lia | apply decimal_dash]. Qed.

Lemma decimal_no_dash n : 45 ∉ decimal n.
Proof.
  unfold decimal. generalize (S (Z.to_nat (Z.log2 n))). intros fuel. assert (H : 45 ∉ @nil Z) by apply not_elem_of_nil. revert n H.
  generalize (@nil Z). induction fuel as [| fuel IH]; intros rest n H; cbn [digits]; [done |].
  assert (H' : 45 ∉ 48 + n mod 10 :: rest).
  { rewrite not_elem_of_cons. split; [| done]. pose proof (Z.mod_pos_bound n 10 ltac:(lia)). lia. }
  destruct (n / 10 =? 0); [done | by apply IH].
Qed.

(** Two requests have the same identifier only if they are of one process at one time. *)
Lemma request_id_inj p1 n1 p2 n2 :
  0 <= p1 -> 0 <= n1 -> 0 <= p2 -> 0 <= n2 -> request_id_of p1 n1 = request_id_of p2 n2 -> p1 = p2 /\ n1 = n2.
Proof.
  intros H1 H2 H3 H4 E. unfold request_id_of in E. cbn [app] in E.
  assert (Hs : forall a b x y, 45 ∉ a -> 45 ∉ b -> a ++ 45 :: x = b ++ 45 :: y -> a = b /\ x = y).
  { clear. intros a. induction a as [| c a IH]; intros [| c' b] x y Ha Hb E; cbn in E; rewrite ?not_elem_of_cons in *.
    - by injection E as ->.
    - injection E as <- _. by destruct Hb.
    - injection E as -> _. by destruct Ha.
    - injection E as -> E. destruct (IH b x y) as [-> ->]; tauto. }
  destruct (Hs _ _ _ _ (decimal_no_dash p1) (decimal_no_dash p2) E) as [Ep En].
  split; [by rewrite <- (value_decimal p1), <- (value_decimal p2), Ep | by rewrite <- (value_decimal n1), <- (value_decimal n2), En].
Qed.

Lemma decision_read (p1 n1 p2 n2 : Z) (accept : bool) :
  0 <= p1 -> 0 <= n1 -> 0 <= p2 -> 0 <= n2 ->
  parse_decision (reply_text (request_id_of p1 n1) accept) (request_id_of p2 n2) =
  if bool_decide (p1 = p2 /\ n1 = n2) then Some accept else None.
Proof.
  intros H1 H2 H3 H4. pose proof (request_id_dash p1 n1) as Hd. unfold parse_decision. rewrite reply_utf8, reply_id, reply_decision by done. cbn [negb].
  destruct (decide (p1 = p2 /\ n1 = n2)) as [[-> ->] | Hne].
  - rewrite !(bool_decide_eq_true_2 (_ = request_id_of _ _)), (bool_decide_eq_true_2 (_ /\ _)) by done. by destruct accept.
  - rewrite (bool_decide_eq_false_2 (_ = request_id_of _ _)) by (intros E; by apply Hne, request_id_inj). by rewrite (bool_decide_eq_false_2 (_ /\ _)).
Qed.

(** The applet's answer is read back, and only by the request it answers.  The response file written for the request of one process at one time gives its
    decision to that request and none to any other. *)
Theorem decision_roundtrip (p1 n1 p2 n2 : Z) (accept : bool) :
  0 <= p1 -> 0 <= n1 -> 0 <= p2 -> 0 <= n2 ->
  parse_decision (reply_text (request_id_of p1 n1) accept) (request_id_of p2 n2) =
  if bool_decide (p1 = p2 /\ n1 = n2) then Some accept else None.
Proof. apply decision_read. Qed.

(** A click in time is taken.  If the applet's answer to the request is in the response file at the [k]-th turn, none is there before, and that
    turn comes before the deadline, the wait gives this answer, on a disk without faults. *)
Theorem waybar_click_counts (pid nanos slack : Z) (applet : nat -> fs -> fs) (late : nat -> Z) (p : path) (g : fs) (m : Z) (k : nat) (accept : bool) :
  0 <= pid -> 0 <= nanos -> (forall i, 0 <= late i <= slack) ->
  (forall j, (j < k)%nat -> acts applet j 0 g !! p = None) -> acts applet k 0 g !! p = Some (File (reply_text (request_id_of pid nanos) accept) m) ->
  (PAIR_IPC_POLL_INTERVAL + slack) * Z.of_nat k < PAIR_IPC_DECISION_TIMEOUT ->
  exists t, (wait_for_decision applet late p (request_id_of pid nanos) (calm g)).1 = Ret (Some (accept, t)).
Proof.
  intros Hp Hn Hl Hb Ha Ht. apply (wait_takes_answer applet late p _ slack Hl accept k).
  - intros j Hj. unfold decided, read_op. rewrite Hb by done. by destruct (resolve_parent _ _).
  - unfold decided, read_op. rewrite Ha, decision_read by done. by rewrite bool_decide_eq_true_2.
  - unfold PAIR_IPC_POLL_INTERVAL, PAIR_IPC_DECISION_TIMEOUT in Ht. specialize (Hl 0%nat). unfold POLLS. nia.
  - done.
Qed.

(** ** Concrete runs *)

Section toy_confirm.
Import ToyTempfile.

Notation toy_dir := [lit "run"; lit "user"; lit "1000"; lit "syauth"].

(** The applet answers before turn [k]. *)
Definition click_at (k : nat) (accept : bool) (i : nat) (g : fs) : fs :=
  if (i =? k)%nat then <[join toy_dir PAIR_IPC_RESPONSE_FILE := File (reply_text (request_id_of 42 1700000000000000000) accept) 420]> g else g.

Notation toy_dialog := (waybar_confirm (pair_ipc_dir (Some (lit "1000")) EnvUnset) 42 1700000000000000000 1700000000 (click_at 9 true) (fun _ => 3) 42
  (calm (<[[lit "run"] := Dir 493]> ∅))).

Lemma waybar_accept_is_answered_witness :
  (exists t, toy_dialog.1 = Ret (Some (true, t)) /\ t < PAIR_IPC_DECISION_TIMEOUT) /\ files toy_dialog.2 !! join toy_dir PAIR_IPC_REQUEST_FILE = None.
Proof using.
  assert (Hl : forall i : nat, 0 <= (fun _ : nat => 3) i <= 3) by (intros; lia).
  pose proof (waybar_accept_is_answered (pair_ipc_dir (Some (lit "1000")) EnvUnset) 42 1700000000000000000 1700000000 42 3 (click_at 9 true) (fun _ => 3)
    (calm (<[[lit "run"] := Dir 493]> ∅)) Hl) as H.
  assert (E : exists t, toy_dialog.1 = Ret (Some (true, t))) by (eexists; vm_compute; reflexivity). destruct E as [t E]. rewrite E in H.
  destruct H as (b & t' & [= <- <-] & _ & H). split; [| vm_compute; reflexivity]. exists t. split; [exact E | apply (H eq_refl)].
Defined.

Lemma decision_roundtrip_witness :
  parse_decision (reply_text (request_id_of 42 7) true) (request_id_of 42 8) = None /\
  parse_decision (reply_text (request_id_of 42 7) true) (request_id_of 42 7) = Some true.
Proof using. split; [rewrite (decision_roundtrip 42 7 42 8) by lia | rewrite (decision_roundtrip 42 7 42 7) by lia]; reflexivity. Defined.

Lemma waybar_click_counts_witness :
  exists t, (wait_for_decision (click_at 40 false) (fun _ => 500) (join toy_dir PAIR_IPC_RESPONSE_FILE) (request_id_of 42 1700000000000000000) (calm ∅)).1 =
    Ret (Some (false, t)).
Proof using.
  apply (waybar_click_counts 42 1700000000000000000 500 (click_at 40 false) (fun _ => 500) _ ∅ 420 40); try (intros; lia); [| by vm_compute | by vm_compute].
  intros j Hj. do 40 (destruct j as [| j]; [by vm_compute |]). lia.
Defined.
End toy_confirm.
