(* ===== verification/StatusCmd.v ===== *)
(** * The status command

    Models the rest of crates/syauth-cli/src/status.rs: the probe of the daemon's socket, the
    report and its two renderings, the labelled lines, and the loop of [--watch].  The readers
    of the log are in Diagnostics.v.

    Standard output is a stream that takes bytes until it fails; [stdout]'s line buffer is
    not modelled.  An age is divided and printed as Rust's [f64] does it, in exact integer
    arithmetic.  In the watch loop time passes while a redraw is made and while the
    thread sleeps; a sleep may last longer than it should.  The texts of the operating system's
    errors, [serde_json] and the [time] crate are parameters. *)

From stdpp Require Import prelude list gmap strings.
From Stdlib Require Import ZArith Lia.
From S2P Require Import Prelude WireFrame Fs Bond PairRecovery AuditTrail Orchestrator Rpc Server Pam Lock Mobile PamService PairCli Diagnostics.

(** Milliseconds *)
Definition WATCH_INTERVAL : Z := 1000.
Definition WATCH_SLEEP_TICK : Z := 50.
Definition WATCH_CLEAR_SCREEN : str := [27; 91; 50; 74; 27; 91; 72].
Definition DAEMON_CONNECT_TIMEOUT : Z := 50.
Definition DAEMON_STATUS_READ_TIMEOUT : Z := 200.
Definition SHORT_UUID_HEX_LEN : nat := 8.
Definition DEFAULT_SOCKET_BASENAME : str := lit "syauth/auth.sock".
Definition LAST_UNLOCK_NO_ENTRIES : str := lit "(no entries)".
Definition LAST_UNLOCK_UNPARSEABLE_PREFIX : str := lit "(unparseable: ".
Definition ADVERTISING_STATE_V01 : bool := false.

Inductive DaemonProbeState :=
| ProbeUp (started_at : SystemTime) (peers : list PeerStatus)
| ProbeDown (reason : str).

Record CliStatusReport := mkCliReport { cr_daemon_socket : str; cr_daemon : DaemonProbeState }.

(** What the JSON carries: [epoch_seconds] makes a number of the time. *)
Inductive JsonProbe := JsonUp (started_at : Z) (peers : list PeerStatus) | JsonDown (reason : str).

Definition epoch_seconds (value : SystemTime) : Z := as_secs (default 0 (since_epoch value)).

Definition json_of_probe (p : DaemonProbeState) : JsonProbe :=
  match p with
  | ProbeUp started_at peers => JsonUp (epoch_seconds started_at) peers
  | ProbeDown reason => JsonDown reason
  end.

(** [Display] of an [io::Error], [Display] and [Debug] of its kind. *)
Class IoTexts := { io_error_text : ErrorKind -> str; kind_text : ErrorKind -> str; kind_debug : ErrorKind -> str }.

(** [OffsetDateTime::from_unix_timestamp], [serde_json::to_string_pretty] *)
Class UnixTime `{Chrono} := { from_unix_timestamp : Z -> option OffsetDateTime }.
Class JsonText := { to_string_pretty : str -> JsonProbe -> result str str }.

(** BlueZ as the probe of the adapter finds it: whether a session opens, the adapters' names, which of them open and
    whether they are powered. *)
Record Bluez := mkBluez {
  bz_session : bool;
  bz_adapter_names : option (list str);
  bz_adapter : str -> bool;
  bz_is_powered : str -> option bool;
}.

Definition bluer_probe (z : Bluez) (adapter_id : str) : option AdapterState :=
  if negb (bz_session z) then None
  else
    match bz_adapter_names z with
    | None => None
    | Some names =>
        if negb (existsb (fun n => bool_decide (n = adapter_id)) names) then Some AdapterAbsent
        else if negb (bz_adapter z adapter_id) then None
        else
          Some match bz_is_powered z adapter_id with
               | Some true => Powered
               | Some false => AdapterDown
               | None => AdapterAbsent
               end
    end.

Definition probe_async (z : Bluez) (adapter_id : str) : AdapterState := default AdapterAbsent (bluer_probe z adapter_id).

Definition as_token (s : AdapterState) : str :=
  match s with Powered => lit "Powered" | AdapterDown => lit "Down" | AdapterAbsent => lit "Missing" end.

(** ** Ages *)

(** [n / d] rounded to an integer, a tie to the even one. *)
Definition div_round_even (n d : Z) : Z :=
  let q := n / d in
  match 2 * (n mod d) ?= d with
  | Lt => q
  | Gt => q + 1
  | Eq => if Z.even q then q else q + 1
  end.

(** [m as f64] of a [u64]: an integer of 53 significant bits. *)
Definition f64_of_u64 (m : Z) : Z :=
  let s := Z.max 0 (Z.log2 m - 52) in div_round_even m (2 ^ s) * 2 ^ s.

(** [a / 1000.0] for an [f64] that is an integer, in units of [2 ^ -62]: the quotient lies in
    [2 ^ (u - 10), 2 ^ (u - 9)), where an [f64] is a multiple of [2 ^ (u - 62)]. *)
Definition f64_div_1000 (a : Z) : Z :=
  let u := Z.log2 (a * 1024 / 1000) in div_round_even (a * 2 ^ 62) (1000 * 2 ^ u) * 2 ^ u.

(** The tenths that [{:.1}] prints. *)
Definition tenths (m : Z) : Z := div_round_even (10 * f64_div_1000 (f64_of_u64 m)) (2 ^ 62).

Definition format_ms_ago (ms : option Z) : str :=
  match ms with
  | Some m => decimal (tenths m / 10) ++ lit "." ++ decimal (tenths m mod 10) ++ lit "s ago"
  | None => lit "never"
  end.

(** ** The table *)

(** [{:<n}]: a string is padded to [n] characters. *)
Definition is_continuation (b : Z) : bool := (128 <=? b) && (b <? 192).
Definition char_count (s : str) : nat := length (List.filter (fun b => negb (is_continuation b)) s).
Definition pad (n : nat) (s : str) : str := s ++ replicate (n - char_count s) 32.

Definition short_uuid_hex (uuid : list Z) : str := take SHORT_UUID_HEX_LEN (hex_lowercase uuid).

Definition PEER_HEADING : str :=
  lit "peer_id                                                              last_challenge  last_connect    uuid      in_flight".

Definition peer_row (p : PeerStatus) : str :=
  pad 68 (st_peer_id p) ++ lit "  " ++ pad 14 (format_ms_ago (last_challenge_ms_ago p)) ++ lit "  " ++
  pad 14 (format_ms_ago (last_connect_ms_ago p)) ++ lit "  " ++ pad 8 (short_uuid_hex (current_session_uuid p)) ++ lit "  " ++
  decimal (in_flight_challenges p).

(** ** Standard output *)

Definition out : Type := Writer -> result unit StatusError * Writer.

Definition put (s : str) : out := fun w => let '(r, w) := write_all s w in (map_err SIo r, w).
Definition put_line (s : str) : out := put (s ++ [10]).
Definition nothing : out := fun w => (Ok tt, w).
Definition and_then (a b : out) : out := fun w => match a w with (Ok _, w) => b w | (Err e, w) => (Err e, w) end.
Notation "a ;; b" := (and_then a b) (at level 100, right associativity) : rust_scope.

Section render.
Context `{CH : Chrono, UT : !UnixTime, SJ : JsonText}.

Definition format_rfc3339 (t : SystemTime) : str :=
  match since_epoch t with
  | None => lit "epoch+0"
  | Some d =>
      let secs := as_secs d in
      let secs_i64 := if secs <? 2 ^ 63 then secs else 2 ^ 63 - 1 in
      match from_unix_timestamp secs_i64 with
      | Some dt => default (lit "epoch+" ++ decimal secs) (rfc3339_format dt)
      | None => lit "epoch+" ++ decimal secs
      end
  end.

Definition write_daemon_section (report : CliStatusReport) : out :=
  match cr_daemon report with
  | ProbeUp started_at peers =>
      put_line (lit "daemon=up started_at=" ++ format_rfc3339 started_at);;
      put_line PEER_HEADING;;
      foldr (fun peer rest => put_line (peer_row peer);; rest) nothing peers
  | ProbeDown reason => put_line (lit "daemon=down: " ++ reason)
  end.

Definition write_json_report (report : CliStatusReport) : out :=
  match to_string_pretty (cr_daemon_socket report) (json_of_probe (cr_daemon report)) with
  | Err e => fun w => (Err (SJson e), w)
  | Ok s => put s;; put [10]
  end.

Definition render_status_to (s : StatusSnapshot) : out :=
  put_line (lit "adapter:           " ++ sn_adapter s);;
  put_line (lit "adapter-state:     " ++ as_token (sn_adapter_state s));;
  put_line (lit "advertising:       " ++ (if sn_advertising s then lit "true" else lit "false"));;
  put_line (lit "bonds-count:       " ++ decimal (sn_bonds_count s));;
  put (lit "last-unlock:       ");;
  match sn_last_unlock s with
  | NoEntries => put_line LAST_UNLOCK_NO_ENTRIES
  | Entry e => put_line (le_timestamp e ++ lit "  " ++ le_outcome e ++ lit "  " ++ le_peer_id e)
  | Unparseable raw => put_line (LAST_UNLOCK_UNPARSEABLE_PREFIX ++ raw ++ lit ")")
  end;;
  put (lit "last-successful-unlock: ");;
  match sn_last_successful_unlock s with
  | Some e => put_line (le_timestamp e)
  | None => put_line LAST_UNLOCK_NO_ENTRIES
  end.
End render.

(** ** The probe and the report *)

(** What the command finds outside the file system. *)
Record StatusHost := mkStatusHost { sh_xdg : option str; sh_euid : Z; sh_sockets : str -> bool * Socket; sh_bluez : Bluez }.

Definition default_socket_path (h : StatusHost) : str :=
  let base := match sh_xdg h with
              | Some (c :: v) => c :: v
              | _ => lit "/run/user/" ++ decimal (sh_euid h)
              end in
  path_join base DEFAULT_SOCKET_BASENAME.

Section command.
Context `{B3 : Blake3, CH : Chrono, TM : Toml, UM : Umask, CB : Ciborium, UT : !UnixTime, SJ : JsonText, IT : IoTexts}.

Definition connect_error_reason (k : ErrorKind) : str :=
  match k with
  | NotFound => lit "socket-missing"
  | ConnectionRefused => lit "connect-refused"
  | PermissionDenied => lit "permission-denied"
  | TimedOut => lit "timeout"
  | other => lit "connect-error: " ++ kind_debug other
  end.

(** [Display] of a [FrameError] *)
Definition frame_error_text (e : FrameError) : str :=
  match e with
  | FrIo k => lit "frame I/O failed: " ++ io_error_text k
  | FrDecode m => lit "CBOR decode failed: " ++ m
  | FrEncode m => lit "CBOR encode failed: " ++ m
  | FrTooLarge announced max => lit "frame too large: " ++ decimal announced ++ lit " bytes > " ++ decimal max ++ lit " bytes max"
  end.

Definition probe_daemon (exists_ : bool) (k : Socket) : outcome DaemonProbeState :=
  if negb exists_ then Ret (ProbeDown (lit "socket-missing"))
  else
    match k_connect k with
    | Err e => Ret (ProbeDown (connect_error_reason e))
    | Ok _ =>
        match k_read_timeout k, k_write_timeout k with
        | Err e, _ => Ret (ProbeDown (lit "read-timeout-setup-failed: " ++ kind_text e))
        | _, Err e => Ret (ProbeDown (lit "write-timeout-setup-failed: " ++ kind_text e))
        | Ok _, Ok _ =>
            match write_frame_blocking ReqStatus (k_out k DAEMON_CONNECT_TIMEOUT) with
            | (Err e, _) => Ret (ProbeDown (lit "frame-error: " ++ frame_error_text e))
            | (Ok _, _) =>
                match read_frame_blocking (blocking (k_in k DAEMON_STATUS_READ_TIMEOUT)) with
                | Ready (Ret (Ok (RespStatus peers started_at)), _) => Ret (ProbeUp started_at peers)
                | Ready (Ret (Ok _), _) => Ret (ProbeDown (lit "unexpected-response"))
                | Ready (Ret (Err e), _) => Ret (ProbeDown (lit "frame-error: " ++ frame_error_text e))
                | Ready (Killed, _) => Killed
                | Ready (Panicked, _) => Panicked
                | Pending => Ret (ProbeDown (lit "frame-error: " ++ frame_error_text (FrIo WouldBlock)))
                end
            end
        end
    end.

Definition build_cli_report (opts : StatusOpts) (h : StatusHost) : outcome CliStatusReport :=
  let socket := default (default_socket_path h) (so_socket opts) in
  match probe_daemon (sh_sockets h socket).1 (sh_sockets h socket).2 with
  | Ret daemon => Ret (mkCliReport socket daemon)
  | Killed => Killed
  | Panicked => Panicked
  end.

Definition gather_status_async (opts : StatusOpts) (z : Bluez) : io (result StatusSnapshot StatusError) :=
  let!? store := imap_err SBond (BondStore_load (bonds_path (so_bond_dir opts))) in
  let log_path := effective_last_log_path opts in
  let!? last_unlock := read_last_unlock log_path in
  let!? last_successful_unlock := read_last_successful_unlock log_path in
  let adapter_state := probe_async z (so_adapter opts) in
  iret (Ok (mkSnapshot (so_adapter opts) adapter_state ADVERTISING_STATE_V01 (len (BondStore_list store)) last_unlock last_successful_unlock)).

(** A redraw onto [w]. *)
Definition render_one_shot (opts : StatusOpts) (h : StatusHost) (w : Writer) : io (result unit StatusError * Writer) :=
  let! cli_report := lift (build_cli_report opts h) in
  if so_json opts then iret (write_json_report cli_report w)
  else
    match write_daemon_section cli_report w with
    | (Err e, w) => iret (Err e, w)
    | (Ok _, w) =>
        let! gathered := gather_status_async opts (sh_bluez h) in
        iret match gathered with
             | Ok snapshot => render_status_to snapshot w
             | Err e => (Err e, w)
             end
    end.

(** ** Watching *)

(** [stop] is the flag as a function of time; the [n]-th sleep of the run lasts [lag n] longer
    than it should; the [i]-th redraw finds the host [hosts i] and takes [took i]. *)
Record Watch := mkWatch { stop : Z -> bool; lag : nat -> Z; hosts : nat -> StatusHost; took : nat -> Z }.

(** The loop of [wait_or_break]: whether the flag was seen, the sleeps so far and the time. *)
Fixpoint wait_slices (fuel : nat) (x : Watch) (n : nat) (now deadline : Z) : option (bool * nat * Z) :=
  if now <? deadline then
    if stop x now then Some (true, n, now)
    else
      match fuel with
      | O => None
      | S fuel => wait_slices fuel x (S n) (now + WATCH_SLEEP_TICK + lag x n) deadline
      end
  else Some (stop x now, n, now).

Definition wait_or_break (x : Watch) (n : nat) (now dur : Z) : option (bool * nat * Z) :=
  wait_slices (S (Z.to_nat (dur / WATCH_SLEEP_TICK))) x n now (now + dur).

(** [None]: still watching after [fuel] redraws. *)
Fixpoint watch_loop (fuel : nat) (x : Watch) (opts : StatusOpts) (i n : nat) (now : Z) (w : Writer)
    : io (option (result unit StatusError * Writer * Z)) :=
  if stop x now then iret (Some (Ok tt, w, now))
  else
    match fuel with
    | O => iret None
    | S fuel =>
        match put WATCH_CLEAR_SCREEN w with
        | (Err e, w) => iret (Some (Err e, w, now))
        | (Ok _, w) =>
            let! drawn := render_one_shot opts (hosts x i) w in
            let now := now + took x i in
            match drawn with
            | (Err e, w) => iret (Some (Err e, w, now))
            | (Ok _, w) =>
                match wait_or_break x n now WATCH_INTERVAL with
                | None => iret None
                | Some (true, _, now) => iret (Some (Ok tt, w, now))
                | Some (false, n, now) => watch_loop fuel x opts (S i) n now w
                end
            end
        end
    end.

Definition run_status_watch_loop (fuel : nat) (x : Watch) (opts : StatusOpts) (now : Z) (w : Writer) :=
  watch_loop fuel x opts 0 0 now w.

Definition run_status (fuel : nat) (x : Watch) (opts : StatusOpts) (now : Z) (w : Writer)
    : io (option (result unit StatusError * Writer * Z)) :=
  if so_watch opts && negb (so_json opts) then run_status_watch_loop fuel x opts now w
  else
    let! drawn := render_one_shot opts (hosts x 0) w in
    iret (Some (drawn, now + took x 0)).
End command.

(** ** Rounding *)

Lemma div_round_even_error n d : 0 < d -> Z.abs (2 * (d * div_round_even n d - n)) <= d.
Proof.
  intros Hd. unfold div_round_even. pose proof (Z.div_mod n d ltac:(lia)) as E. pose proof (Z.mod_pos_bound n d Hd).
  generalize dependent (n mod d). generalize (n / d). intros q r -> Hr.
  destruct (Z.compare_spec (2 * r) d); [destruct (Z.even q) | |]; rewrite ?Z.mul_add_distr_l; lia.
Qed.

Lemma f64_of_u64_exact m : 0 <= m < 2 ^ 53 -> f64_of_u64 m = m.
Proof.
  intros Hm. unfold f64_of_u64. assert (Z.log2 m <= 52).
  { destruct (Z.eq_dec m 0) as [-> | ?]; [cbn; lia |]. assert (Z.log2 m < 53) by (apply Z.log2_lt_pow2; lia). lia. }
  rewrite Z.max_l by lia. unfold div_round_even. rewrite Z.pow_0_r, Z.mod_1_r, Z.div_1_r. change (2 * 0 ?= 1) with Lt. ring.
Qed.

Lemma f64_div_1000_error a : 0 <= a < 2 ^ 53 -> Z.abs (1000 * f64_div_1000 a - a * 2 ^ 62) < 2 ^ 62.
Proof.
  intros Ha. unfold f64_div_1000. set (u := Z.log2 (a * 1024 / 1000)).
  assert (Hu : 0 <= u <= 53).
  { split; [apply Z.log2_nonneg |]. destruct (Z.le_gt_cases (a * 1024 / 1000) 0) as [Hz | Hz]; [unfold u; rewrite Z.log2_nonpos by lia; lia |].
    assert (u < 54); [| lia]. apply Z.log2_lt_pow2; [done |]. apply Z.div_lt_upper_bound; lia. }
  pose proof (Z.pow_pos_nonneg 2 u ltac:(lia) ltac:(lia)) as Hp.
  pose proof (Z.pow_le_mono_r 2 u 53 ltac:(lia) ltac:(lia)) as Hle.
  pose proof (div_round_even_error (a * 2 ^ 62) (1000 * 2 ^ u) ltac:(lia)) as He.
  set (r := div_round_even _ _) in *. replace (1000 * (r * 2 ^ u)) with (1000 * 2 ^ u * r) by ring. lia.
Qed.

Lemma age_error m : 0 <= m < 2 ^ 53 -> Z.abs (100 * tenths m - m) <= 50.
Proof.
  intros Hm. unfold tenths. rewrite f64_of_u64_exact by done. pose proof (f64_div_1000_error m Hm) as H1.
  pose proof (div_round_even_error (10 * f64_div_1000 m) (2 ^ 62) ltac:(lia)) as H2. lia.
Qed.

(** ** A row of the table *)

Lemma decimal_word n : word (decimal n).
Proof.
  split.
  - unfold decimal. cbn [digits]. destruct (_ =? 0); [done |]. intros H. apply (f_equal length) in H. revert H.
    assert (G : forall fuel n rest, (length rest <= length (digits fuel n rest))%nat).
    { induction fuel as [| fuel IH]; intros n' rest; cbn [digits]; [done |]. destruct (_ =? 0); [cbn; lia |].
      etrans; [| apply IH]. cbn. lia. }
    specialize (G (Z.to_nat (Z.log2 n)) (n / 10) [48 + n mod 10]). cbn in *. lia.
  - eapply Forall_impl; [apply digits_digits; constructor |]. cbn. lia.
Qed.

Lemma short_uuid_word p : status_wf p -> word (short_uuid_hex (current_session_uuid p)).
Proof.
  intros (_ & _ & _ & [Hl Hb] & _). unfold short_uuid_hex. split.
  - pose proof (len_hex_lowercase (current_session_uuid p)) as H. unfold len in H.
    destruct (hex_lowercase _); [cbn in H; lia | done].
  - apply Forall_take. eapply Forall_impl; [by apply hex_lowercase_ascii |]. cbn. lia.
Qed.

(** The words of an age. *)
Definition age_words (ms : option Z) : list str :=
  match ms with
  | Some m => [decimal (tenths m / 10) ++ lit "." ++ decimal (tenths m mod 10) ++ lit "s"; lit "ago"]
  | None => [lit "never"]
  end.

Lemma words_from_blanks k s : words_from [] (replicate k 32 ++ s) = words_from [] s.
Proof. induction k as [| k IH]; cbn; [done | exact IH]. Qed.

Lemma words_from_field w k s : word w -> words_from [] (w ++ replicate k 32 ++ 32 :: s) = w :: words_from [] s.
Proof.
  intros [Hw Fw]. rewrite words_from_word by done. cbn [app]. 
  destruct k; cbn; (destruct w as [| c w]; [done |]); cbn; [done |]. by rewrite words_from_blanks.
Qed.

Lemma words_from_padded n w s : word w -> words_from [] (pad n w ++ lit "  " ++ s) = w :: words_from [] s.
Proof. intros Hw. unfold pad. rewrite <- app_assoc. cbn. by rewrite words_from_field. Qed.

Lemma words_from_age n ms s : words_from [] (pad n (format_ms_ago ms) ++ lit "  " ++ s) = age_words ms ++ words_from [] s.
Proof.
  destruct ms as [m |]; [| by rewrite words_from_padded by decide_now]. unfold pad. set (k := (n - _)%nat). cbn [format_ms_ago age_words].
  change (lit "s ago") with (lit "s" ++ [32] ++ lit "ago"). set (a := decimal (tenths m / 10)). set (b := decimal (tenths m mod 10)).
  transitivity (words_from [] ((a ++ lit "." ++ b ++ lit "s") ++ replicate 0 32 ++ 32 :: lit "ago" ++ replicate k 32 ++ 32 :: 32 :: s)).
  { f_equal. rewrite <- !app_assoc. reflexivity. }
  rewrite words_from_field, words_from_field; [done | decide_now |].
  destruct (decimal_word (tenths m / 10)) as [Ha Fa], (decimal_word (tenths m mod 10)) as [_ Fb]. fold a in Ha, Fa. fold b in Fb. split.
  - by destruct a.
  - apply Forall_app. split; [done |]. apply Forall_app. split; [decide_now |]. apply Forall_app. split; [done | decide_now].
Qed.

(** Every field of a peer can be read off its row. *)
Lemma peer_row_words p : status_wf p -> word (st_peer_id p) ->
  split_ascii_whitespace (peer_row p) =
    st_peer_id p :: age_words (last_challenge_ms_ago p) ++ age_words (last_connect_ms_ago p) ++
      [short_uuid_hex (current_session_uuid p); decimal (in_flight_challenges p)].
Proof.
  intros Hp Hid. unfold split_ascii_whitespace, peer_row.
  rewrite words_from_padded by done. f_equal. rewrite words_from_age. f_equal. rewrite words_from_age. f_equal.
  rewrite words_from_padded by (by apply short_uuid_word). f_equal. destruct (decimal_word (in_flight_challenges p)) as [Hn Fn].
  rewrite <- (app_nil_r (decimal _)), words_from_word by done. cbn [app words_from]. rewrite app_nil_r.
  by destruct (decimal (in_flight_challenges p)).
Qed.

(** [text] stands in the line at an offset. *)
Definition at_column (n : nat) (text line : str) : Prop := take (length text) (drop n line) = text.

Lemma at_column_pad k text rest : at_column 0 text (pad k text ++ rest).
Proof. unfold at_column, pad. by rewrite drop_0, <- app_assoc, take_app_length. Qed.

Lemma at_column_next n pre text rest : (length pre <= n)%nat -> at_column (n - length pre) text rest -> at_column n text (pre ++ rest).
Proof. intros Hl. unfold at_column. by rewrite drop_app_ge. Qed.

Lemma pad_ascii n s : Forall (fun c => 32 <= c <= 126) s -> (length s <= n)%nat -> length (pad n s) = n.
Proof.
  intros Ha Hl. unfold pad. rewrite length_app, length_replicate. assert (char_count s = length s) as ->; [| lia].
  clear Hl. unfold char_count. induction Ha as [| c s Hc _ IH]; [done |]. cbn.
  assert (is_continuation c = false) as -> by (unfold is_continuation; lia). cbn. by rewrite IH.
Qed.

Lemma age_plain ms : Forall (fun c => 32 <= c <= 126) (format_ms_ago ms).
Proof.
  assert (Hd : forall n, Forall (fun c => 32 <= c <= 126) (decimal n)).
  { intros n. eapply Forall_impl; [apply decimal_word |]. cbn. lia. }
  destruct ms as [m |]; cbn [format_ms_ago]; [| decide_now].
  rewrite !Forall_app. split_and!; [apply Hd | decide_now | apply Hd | decide_now].
Qed.

(** The values of a peer whose identifier and ages fit their columns stand one character
    to the right of the headings. *)
Theorem heading_one_column_left (p : PeerStatus) (Hp : status_wf p) (Hid : word (st_peer_id p)) (Hl : len (st_peer_id p) <= 68)
    (Hc : len (format_ms_ago (last_challenge_ms_ago p)) <= 14) (Hk : len (format_ms_ago (last_connect_ms_ago p)) <= 14) :
  (at_column 69 (lit "last_challenge") PEER_HEADING /\ at_column 70 (format_ms_ago (last_challenge_ms_ago p)) (peer_row p)) /\
  (at_column 85 (lit "last_connect") PEER_HEADING /\ at_column 86 (format_ms_ago (last_connect_ms_ago p)) (peer_row p)) /\
  (at_column 101 (lit "uuid") PEER_HEADING /\ at_column 102 (short_uuid_hex (current_session_uuid p)) (peer_row p)) /\
  (at_column 111 (lit "in_flight") PEER_HEADING /\ at_column 112 (decimal (in_flight_challenges p)) (peer_row p)).
Proof.
  pose proof (pad_ascii 68 (st_peer_id p)) as H1. pose proof (pad_ascii 14 _ (age_plain (last_challenge_ms_ago p))) as H2.
  pose proof (pad_ascii 14 _ (age_plain (last_connect_ms_ago p))) as H3.
  pose proof (pad_ascii 8 (short_uuid_hex (current_session_uuid p))) as H4. unfold len in *.
  destruct (short_uuid_word p Hp) as [_ Hu]. destruct Hid as [_ Hid].
  specialize (H1 ltac:(eapply Forall_impl; [exact Hid |]; cbn; lia) ltac:(lia)). specialize (H2 ltac:(lia)). specialize (H3 ltac:(lia)).
  specialize (H4 ltac:(eapply Forall_impl; [exact Hu |]; cbn; lia) ltac:(unfold short_uuid_hex; rewrite length_take; unfold SHORT_UUID_HEX_LEN; lia)).
  pose proof (at_column_pad 0 (decimal (in_flight_challenges p)) []) as H5. unfold pad in H5. cbn [Nat.sub replicate] in H5.
  rewrite !app_nil_r in H5.
  split_and!; try reflexivity; unfold peer_row;
    repeat (apply at_column_next; [rewrite ?H1, ?H2, ?H3, ?H4; cbn; lia | rewrite ?H1, ?H2, ?H3, ?H4; cbn [Nat.sub length lit map]]);
    first [apply at_column_pad | exact H5].
Qed.

(** ** What is printed *)

(** On an output that does not fail [o] prints [text]. *)
Definition prints (o : out) (text : str) : Prop :=
  forall w, w_fault w = None -> o w = (Ok tt, mkWriter (w_bytes w ++ text) None).

Lemma prints_put s : prints (put s) s.
Proof. intros [b f] Hw. cbn in Hw. subst f. reflexivity. Qed.

Lemma prints_line s : prints (put_line s) (s ++ [10]).
Proof. apply prints_put. Qed.

Lemma prints_nothing : prints nothing [].
Proof. intros [b f] Hw. cbn in *. subst f. by rewrite app_nil_r. Qed.

Lemma prints_then a b s t : prints a s -> prints b t -> prints (and_then a b) (s ++ t).
Proof. intros Ha Hb w Hw. unfold and_then. rewrite (Ha w Hw), Hb by done. cbn. by rewrite app_assoc. Qed.

Lemma prints_rows peers :
  prints (foldr (fun peer rest => and_then (put_line (peer_row peer)) rest) nothing peers) (concat (map (fun p => peer_row p ++ [10]) peers)).
Proof. induction peers as [| p peers IH]; [apply prints_nothing |]. apply prints_then; [apply prints_line | exact IH]. Qed.

Create HintDb prints.
#[export] Hint Resolve prints_put prints_line prints_nothing prints_then prints_rows : prints.

Section printed.
Context `{CH : Chrono, UT : !UnixTime, SJ : JsonText}.

Definition daemon_text (d : DaemonProbeState) : str :=
  match d with
  | ProbeUp started_at peers =>
      (lit "daemon=up started_at=" ++ format_rfc3339 started_at ++ [10]) ++ (PEER_HEADING ++ [10]) ++
      concat (map (fun p => peer_row p ++ [10]) peers)
  | ProbeDown reason => lit "daemon=down: " ++ reason ++ [10]
  end.

(** The six labelled lines. *)
Definition status_lines (s : StatusSnapshot) : list str :=
  [ lit "adapter:           " ++ sn_adapter s;
    lit "adapter-state:     " ++ as_token (sn_adapter_state s);
    lit "advertising:       " ++ (if sn_advertising s then lit "true" else lit "false");
    lit "bonds-count:       " ++ decimal (sn_bonds_count s);
    lit "last-unlock:       " ++
      match sn_last_unlock s with
      | NoEntries => LAST_UNLOCK_NO_ENTRIES
      | Entry e => le_timestamp e ++ lit "  " ++ le_outcome e ++ lit "  " ++ le_peer_id e
      | Unparseable raw => LAST_UNLOCK_UNPARSEABLE_PREFIX ++ raw ++ lit ")"
      end;
    lit "last-successful-unlock: " ++ match sn_last_successful_unlock s with Some e => le_timestamp e | None => LAST_UNLOCK_NO_ENTRIES end ].

Definition lines_text (ls : list str) : str := concat (map (fun l => l ++ [10]) ls).

Lemma prints_daemon r : prints (write_daemon_section r) (daemon_text (cr_daemon r)).
Proof.
  unfold write_daemon_section, daemon_text. destruct (cr_daemon r) as [t peers | reason].
  - rewrite !(app_assoc (lit _)). auto with prints.
  - rewrite app_assoc. apply prints_line.
Qed.

Lemma prints_status s : prints (render_status_to s) (lines_text (status_lines s)).
Proof.
  unfold render_status_to, status_lines, lines_text. cbn [map concat]. rewrite <- !(app_assoc (lit "last-unlock:       ")), <- !(app_assoc (lit "last-successful-unlock: ")).
  do 4 (apply prints_then; [apply prints_line |]).
  apply prints_then; [apply prints_put |]. apply prints_then; [destruct (sn_last_unlock s); apply prints_line |].
  apply prints_then; [apply prints_put |]. rewrite app_nil_r. destruct (sn_last_successful_unlock s); apply prints_line.
Qed.
End printed.

Section shown.
Context `{B3 : Blake3, CH : Chrono, TM : Toml, UM : Umask, CB : Ciborium, UT : !UnixTime, SJ : JsonText, IT : IoTexts}.

(** What a one-shot run leaves on an output that does not fail. *)
Lemma render_one_shot_prints opts h r w g :
  build_cli_report opts h = Ret r -> so_json opts = false -> w_fault w = None ->
  render_one_shot opts h w g =
    match gather_status_async opts (sh_bluez h) g with
    | (Ret (Ok s), g) => (Ret (Ok tt, mkWriter (w_bytes w ++ daemon_text (cr_daemon r) ++ lines_text (status_lines s)) None), g)
    | (Ret (Err e), g) => (Ret (Err e, mkWriter (w_bytes w ++ daemon_text (cr_daemon r)) None), g)
    | (Killed, g) => (Killed, g)
    | (Panicked, g) => (Panicked, g)
    end.
Proof using.
  intros Hr Hj Hw. unfold render_one_shot, ibind at 1. rewrite lift_same, Hr, Hj, prints_daemon by done.
  unfold ibind. destruct (gather_status_async _ _ g) as [[[s | e] | |] g']; try done.
  unfold iret. rewrite prints_status by done. cbn. by rewrite <- app_assoc.
Qed.

(** The time of a daemon that started since the epoch, at a time the [time] crate knows. *)
Lemma format_rfc3339_known t dt ts : 0 <= t -> from_unix_timestamp (t / 1000000000) = Some dt -> rfc3339_format dt = Some ts -> t < 2 ^ 63 * 1000000000 ->
  format_rfc3339 (epoch_seconds t * 1000000000) = ts.
Proof using.
  intros H0 Hdt Hts Hlt. unfold format_rfc3339, epoch_seconds, since_epoch, as_secs. rewrite (proj2 (Z.ltb_ge t 0)) by lia. cbn [default from_option id].
  pose proof (Z.div_pos t 1000000000 H0 ltac:(lia)). rewrite (proj2 (Z.ltb_ge _ 0)) by lia. rewrite Z.div_mul by lia.
  assert (t / 1000000000 < 2 ^ 63) by (apply Z.div_lt_upper_bound; lia). rewrite (proj2 (Z.ltb_lt _ _)) by lia. by rewrite Hdt, Hts.
Qed.

Lemma probe_daemon_reads k peers t framed rest `{!CiboriumLaws CB} :
  k_connect k = Ok tt -> k_read_timeout k = Ok tt -> k_write_timeout k = Ok tt ->
  (write_frame_blocking ReqStatus (k_out k DAEMON_CONNECT_TIMEOUT)).1 = Ok tt ->
  response_wf (RespStatus peers t) -> encode_frame (RespStatus peers t) = Ok framed ->
  r_bytes (k_in k DAEMON_STATUS_READ_TIMEOUT) = framed ++ rest ->
  probe_daemon true k = Ret (ProbeUp (epoch_seconds t * 1000000000) peers).
Proof using.
  intros Hc Hrt Hwt Hw Hwf He Hb. unfold probe_daemon. cbn [negb]. rewrite Hc, Hrt, Hwt.
  destruct (write_frame_blocking _ _) as [o ?]. cbn in Hw. subst o.
  unfold blocking. rewrite Hb, read_frame_blocking_same. apply encode_frame_ok in He as (payload & Hp & Hl & ->).
  rewrite read_frame_payload by done. unfold decode_frame. destruct (Z.gtb_spec (len payload) MAX_FRAME_LEN); [lia |].
  by rewrite (serde_roundtrip _ payload Hwf Hp).
Qed.

(** C38: without --json, on an output that does not fail: when the daemon answers the request with a status, [syauth status] prints the
    time the daemon reported, to the second and in RFC 3339, and a row for each of the daemon's peers in the daemon's order, and behind it
    the six labelled lines; a bond file or a log that cannot be read is the run's error, after the daemon's section was printed.  From the row of a peer whose
    identifier is one word its words can be read off: the identifier, the two ages, rounded to a tenth of a second (for ages below 2^53 milliseconds), or "never",
    the first eight hexadecimal digits of the session UUID, and the number of challenges in flight. *)
Theorem status_shows_the_daemon `{!CiboriumLaws CB, !ChronoLaws CH} (opts : StatusOpts) (h : StatusHost) (w : Writer) (g : world) (k : Socket)
    (peers : list PeerStatus) (t : SystemTime) (framed rest : list Z) (dt : OffsetDateTime) (ts : str)
    (Hj : so_json opts = false) (Hw : w_fault w = None)
    (Hk : sh_sockets h (default (default_socket_path h) (so_socket opts)) = (true, k))
    (Hc : k_connect k = Ok tt) (Hrt : k_read_timeout k = Ok tt) (Hwt : k_write_timeout k = Ok tt)
    (Hreq : (write_frame_blocking ReqStatus (k_out k DAEMON_CONNECT_TIMEOUT)).1 = Ok tt)
    (Hwf : response_wf (RespStatus peers t)) (He : encode_frame (RespStatus peers t) = Ok framed)
    (Hb : r_bytes (k_in k DAEMON_STATUS_READ_TIMEOUT) = framed ++ rest)
    (H0 : 0 <= t) (Hdt : from_unix_timestamp (t / 1000000000) = Some dt) (Hts : rfc3339_format dt = Some ts) :
  let section := (lit "daemon=up started_at=" ++ ts ++ [10]) ++ (PEER_HEADING ++ [10]) ++ concat (map (fun p => peer_row p ++ [10]) peers) in
  rfc3339_parse ts = Some dt /\
  render_one_shot opts h w g =
    match gather_status_async opts (sh_bluez h) g with
    | (Ret (Ok s), g) => (Ret (Ok tt, mkWriter (w_bytes w ++ section ++ lines_text (status_lines s)) None), g)
    | (Ret (Err e), g) => (Ret (Err e, mkWriter (w_bytes w ++ section) None), g)
    | (Killed, g) => (Killed, g)
    | (Panicked, g) => (Panicked, g)
    end /\
  forall p, p ∈ peers -> word (st_peer_id p) ->
    split_ascii_whitespace (peer_row p) =
      st_peer_id p :: age_words (last_challenge_ms_ago p) ++ age_words (last_connect_ms_ago p) ++
        [take 8 (hex_lowercase (current_session_uuid p)); decimal (in_flight_challenges p)] /\
    forall m, last_challenge_ms_ago p = Some m \/ last_connect_ms_ago p = Some m -> m < 2 ^ 53 -> Z.abs (100 * tenths m - m) <= 50.
Proof using.
  cbv zeta. split; [by apply rfc3339_roundtrip |]. split.
  - rewrite (render_one_shot_prints opts h (mkCliReport (default (default_socket_path h) (so_socket opts)) (ProbeUp (epoch_seconds t * 1000000000) peers)));
      [| unfold build_cli_report; rewrite Hk; cbn [fst snd]; by rewrite (probe_daemon_reads k peers t framed rest) | done | done].
    cbn [cr_daemon daemon_text]. rewrite (format_rfc3339_known t dt ts) by (done || apply Hwf). by rewrite <- !app_assoc.
  - intros p Hin Hid. destruct Hwf as [[Hp _] _]. rewrite Forall_forall in Hp. specialize (Hp p Hin). split; [by apply peer_row_words |].
    intros m Hm Hlt. apply age_error. destruct Hp as (_ & Hu1 & Hu2 & _). destruct Hm as [Hm | Hm]; [apply Hu1 in Hm | apply Hu2 in Hm]; destruct Hm; lia.
Qed.

(** ** The watch ends *)

Section ends.
Variables (x : Watch) (s L D : Z).
Hypothesis Hstop : forall t, stop x t = (s <=? t).
Hypothesis Hlag : forall n, 0 <= lag x n <= L.
Hypothesis Htook : forall i, 0 <= took x i <= D.

Lemma wait_slices_ends fuel n now deadline :
  deadline - now <= WATCH_SLEEP_TICK * Z.of_nat fuel ->
  exists b n' t, wait_slices fuel x n now deadline = Some (b, n', t) /\ b = stop x t /\
    (b = false -> deadline <= t) /\ now <= t <= Z.max now (s + WATCH_SLEEP_TICK + L).
Proof using Hstop Hlag.
  revert n now. induction fuel as [| fuel IH]; intros n now Hf; cbn [wait_slices]; destruct (Z.ltb_spec now deadline) as [Hn | Hn].
  - lia.
  - do 3 eexists. split; [done |]. split_and!; [done | lia | lia | lia].
  - destruct (stop x now) eqn:Es; [do 3 eexists; split; [done |]; split_and!; [by rewrite Es | done | lia | lia] |].
    rewrite Hstop in Es. specialize (Hlag n). unfold WATCH_SLEEP_TICK in *.
    destruct (IH (S n) (now + 50 + lag x n) ltac:(lia)) as (b & n' & t & E & Hb & Hd & Ht).
    exists b, n', t. split; [done |]. split_and!; [done | done | lia | lia].
  - do 3 eexists. split; [done |]. split_and!; [done | lia | lia | lia].
Qed.

Lemma wait_or_break_ends n now dur : 0 <= dur ->
  exists b n' t, wait_or_break x n now dur = Some (b, n', t) /\ b = stop x t /\
    (b = false -> now + dur <= t) /\ now <= t <= Z.max now (s + WATCH_SLEEP_TICK + L).
Proof using Hstop Hlag.
  intros Hd. apply wait_slices_ends. unfold WATCH_SLEEP_TICK. pose proof (Z.div_mod dur 50 ltac:(lia)).
  pose proof (Z.mod_pos_bound dur 50 ltac:(lia)). pose proof (Z.div_pos dur 50 Hd ltac:(lia)). lia.
Qed.

Variables (opts : StatusOpts) (g : fs).
Hypothesis Hreport : forall i, exists r, build_cli_report opts (hosts x i) = Ret r.
Hypothesis Hgather : forall i, exists r, gather_status_async opts (sh_bluez (hosts x i)) (calm g) = (Ret r, calm g).

Lemma redraw_returns i w : exists r, render_one_shot opts (hosts x i) w (calm g) = (Ret r, calm g).
Proof using Hreport Hgather.
  destruct (Hreport i) as [r Hr], (Hgather i) as [o Ho]. unfold render_one_shot, ibind at 1. rewrite lift_same, Hr.
  destruct (so_json opts); [by eexists |]. destruct (write_daemon_section r w) as [[] ?]; [| by eexists].
  unfold ibind. rewrite Ho. by eexists.
Qed.

Lemma watch_loop_ends fuel i n now w : s - now <= WATCH_INTERVAL * Z.of_nat fuel ->
  exists r w' t, watch_loop fuel x opts i n now w (calm g) = (Ret (Some (r, w', t)), calm g) /\
    now <= t <= Z.max now (s + Z.max D (WATCH_SLEEP_TICK + L)) /\ (r = Ok tt -> s <= t).
Proof using Hstop Hlag Htook Hreport Hgather.
  revert i n now w. induction fuel as [| fuel IH]; intros i n now w Hf; cbn [watch_loop]; rewrite Hstop; destruct (Z.leb_spec s now) as [Hs | Hs].
  1, 3: by do 3 eexists; split; [done | lia].
  { unfold WATCH_INTERVAL in Hf. lia. }
  destruct (put WATCH_CLEAR_SCREEN w) as [[] w1]; [| do 3 eexists; split; [done |]; split; [lia | done]].
  unfold ibind. destruct (redraw_returns i w1) as [[[[] | e] w2] ->];
    (specialize (Htook i)); [| do 3 eexists; split; [done |]; split; [lia | done]].
  destruct (wait_or_break_ends n (now + took x i) WATCH_INTERVAL ltac:(done)) as ([] & n' & t & -> & Hb & Hd & Ht); rewrite Hstop in Hb.
  - do 3 eexists. split; [done |]. lia.
  - specialize (Hd eq_refl). unfold WATCH_INTERVAL in *. destruct (IH (S i) n' t w2 ltac:(lia)) as (r & w' & t' & E & Ht' & Hr).
    exists r, w', t'. split; [done |]. split; [lia | done].
Qed.
End ends.

(** [syauth status --watch] ends: with an interrupt at time [s] (milliseconds), redraws of at most [D] and sleeps of at
    most [L] too long, it returns after at most one redraw a second, and at the latest the longer of a redraw and a
    sleep after the interrupt; if it did not fail before, it was not before the interrupt. *)
Theorem watch_ends_on_sigint (x : Watch) (opts : StatusOpts) (g : fs) (s L D now : Z) (w : Writer) (fuel : nat)
    (Hstop : forall t, stop x t = (s <=? t)) (Hlag : forall n, 0 <= lag x n <= L) (Htook : forall i, 0 <= took x i <= D)
    (Hreport : forall i, exists r, build_cli_report opts (hosts x i) = Ret r)
    (Hgather : forall i, exists r, gather_status_async opts (sh_bluez (hosts x i)) (calm g) = (Ret r, calm g))
    (Hwatch : so_watch opts = true) (Hj : so_json opts = false) (Hfuel : s - now <= 1000 * Z.of_nat fuel) :
  exists r w' t, run_status fuel x opts now w (calm g) = (Ret (Some (r, w', t)), calm g) /\
    now <= t <= Z.max now (s + Z.max D (WATCH_SLEEP_TICK + L)) /\ (r = Ok tt -> s <= t).
Proof using.
  unfold run_status. rewrite Hwatch, Hj. cbn [andb negb]. by apply (watch_loop_ends x s L D).
Qed.

(** A report in JSON looks at neither the bonds nor the log nor the adapter. *)
Theorem json_report_only_probes (opts : StatusOpts) (h : StatusHost) (r : CliStatusReport) (text : str) (w : Writer) (g : world)
    (Hj : so_json opts = true) (Hr : build_cli_report opts h = Ret r) (Hw : w_fault w = None)
    (Ht : to_string_pretty (cr_daemon_socket r) (json_of_probe (cr_daemon r)) = Ok text) :
  render_one_shot opts h w g = (Ret (Ok tt, mkWriter (w_bytes w ++ text ++ [10]) None), g).
Proof using.
  unfold render_one_shot, ibind. rewrite lift_same, Hr, Hj. unfold iret, write_json_report. rewrite Ht.
  by rewrite (prints_then _ _ _ _ (prints_put text) (prints_put [10])).
Qed.
End shown.

(** ** A sample run *)

Section samples.
Import ToyCrypto ToyCrates ToyTempfile ToyCbor.

#[local] Instance toy_unix_time : UnixTime := { from_unix_timestamp t := if t <? 2 ^ 38 then Some (decimal t) else None }.
#[local] Instance toy_json_text : JsonText := { to_string_pretty socket p := Ok (socket ++ match p with JsonUp t _ => decimal t | JsonDown r => r end) }.
#[local] Instance toy_texts : IoTexts := { io_error_text _ := lit "error"; kind_text _ := lit "kind"; kind_debug _ := lit "Kind" }.

(** Ties of the exact quotient go either way: an [f64] near 0.35 lies below it, one near 0.05 above, and 0.25 is one. *)
Example ages_shown : map tenths [0; 49; 50; 250; 350; 1949; 1950; 42000; 2 ^ 53 + 7; 2 ^ 64 - 1] =
  [0; 0; 1; 2; 3; 19; 19; 420; 90071992547410; 184467440737095520].
Proof. vm_compute. reflexivity. Qed.

Definition shown_peers : list PeerStatus :=
  [mkStatus (lit "phone") (Some 300) None (replicate 16 171) 1; mkStatus (lit "tablet") None (Some 61250) (replicate 16 5) 0].

Notation shown_frame := (match encode_frame (RespStatus shown_peers 1700000000999999999) with Ok f => f | Err _ => [] end).

Definition shown_host : StatusHost :=
  mkStatusHost (Some (lit "/run/user/1000")) 1000 (fun p => (true, daemon_at shown_frame p))
    (mkBluez true (Some [lit "hci0"]) (fun _ => true) (fun _ => Some true)).

Lemma shown_peers_wf : response_wf (RespStatus shown_peers 1700000000999999999).
Proof.
  assert (Ha : forall b, is_u8 b -> arr 16 (replicate 16 b)) by (intros b Hb; split; [done | by apply Forall_replicate]).
  split; [split |]; [| by vm_compute | by vm_compute].
  apply Forall_cons; split; [| apply Forall_singleton];
    (unfold status_wf; split_and!; [reflexivity | intros ? [= <-]; by vm_compute | intros ? [= <-]; by vm_compute | apply Ha; by vm_compute | done | done]).
Qed.

Lemma heading_one_column_left_witness :
  at_column 112 (lit "1") (peer_row (mkStatus (lit "phone") (Some 300) None (replicate 16 171) 1)).
Proof.
  apply (heading_one_column_left (mkStatus (lit "phone") (Some 300) None (replicate 16 171) 1));
    [| decide_now | vm_compute; discriminate | vm_compute; discriminate | vm_compute; discriminate].
  destruct shown_peers_wf as [[H _] _]. by inversion H.
Defined.

Definition shown_lines : list str :=
  [ lit "adapter:           hci0"; lit "adapter-state:     Powered"; lit "advertising:       false"; lit "bonds-count:       2";
    lit "last-unlock:       tuesday  success  phone"; lit "last-successful-unlock: tuesday" ].

Lemma shown_gather watch : exists s,
  gather_status_async (mkStatusOpts (lit "hci0") DEFAULT_BOND_DIR None None watch false) (sh_bluez shown_host) (calm seen_fs) = (Ret (Ok s), calm seen_fs) /\
  status_lines s = shown_lines.
Proof.
  pose (e := mkEntry (lit "tuesday") (lit "success") (lit "phone")).
  exists (mkSnapshot (lit "hci0") Powered false 2 (Entry e) (Some e)). split; [vm_compute; reflexivity | reflexivity].
Qed.

Lemma shown_encoded : encode_frame (RespStatus shown_peers 1700000000999999999) = Ok shown_frame.
Proof. vm_compute. reflexivity. Qed.

Lemma status_shows_the_daemon_witness :
  exists s, (render_one_shot seen_opts shown_host (mkWriter [] None) (calm seen_fs)).1 =
    Ret (Ok tt, mkWriter (daemon_text (ProbeUp 1700000000000000000 shown_peers) ++ lines_text (status_lines s)) None) /\
    status_lines s = shown_lines.
Proof.
  destruct (status_shows_the_daemon (ChronoLaws0 := toy_chrono_laws) seen_opts shown_host (mkWriter [] None) (calm seen_fs)
    (daemon_at shown_frame (lit "/run/user/1000/syauth/auth.sock")) shown_peers 1700000000999999999 shown_frame [] (decimal 1700000000) (decimal 1700000000))
    as (_ & E & _); [done | done | done | done | done | done | done | apply shown_peers_wf | apply shown_encoded | by rewrite app_nil_r | lia | done | done |].
  cbv zeta in E. rewrite E. destruct (shown_gather false) as (s & G & Hs). exists s. unfold seen_opts. rewrite G. split; [reflexivity | exact Hs].
Defined.

(** The table that this daemon's answer gives. *)
Example shown_table : daemon_text (ProbeUp 1700000000000000000 shown_peers) = lines_text [
  lit "daemon=up started_at=1700000000";
  lit "peer_id                                                              last_challenge  last_connect    uuid      in_flight";
  lit "phone                                                                 0.3s ago        never           abababab  1";
  lit "tablet                                                                never           61.2s ago       05050505  0" ].
Proof. vm_compute. reflexivity. Qed.

Definition watch_opts : StatusOpts := mkStatusOpts (lit "hci0") DEFAULT_BOND_DIR None None true false.
Definition shown_watch : Watch := mkWatch (fun t => 1720 <=? t) (fun _ => 3) (fun _ => shown_host) (fun _ => 20).

Lemma shown_report : exists r, build_cli_report watch_opts shown_host = Ret r.
Proof. eexists. vm_compute. reflexivity. Qed.

Lemma watch_ends_on_sigint_witness :
  exists r w' t, run_status 2 shown_watch watch_opts 0 (mkWriter [] None) (calm seen_fs) = (Ret (Some (r, w', t)), calm seen_fs) /\ t <= 1773.
Proof.
  destruct (watch_ends_on_sigint shown_watch watch_opts seen_fs 1720 3 20 0 (mkWriter [] None) 2) as (r & w' & t & E & Ht & _);
    [done | intros; cbn; lia | intros; cbn; lia | intros i; apply shown_report | intros i; destruct (shown_gather true) as (o & G & _); eauto
    | done | done | lia |].
  exists r, w', t. split; [exact E |]. unfold WATCH_SLEEP_TICK in Ht. lia.
Defined.

Lemma json_report_only_probes_witness :
  (render_one_shot (mkStatusOpts (lit "hci0") DEFAULT_BOND_DIR None (Some (lit "/tmp/none")) false true) shown_host (mkWriter [] None) (calm ∅)).1 =
  Ret (Ok tt, mkWriter (lit "/tmp/noneconnect-refused" ++ [10]) None).
Proof.
  rewrite (json_report_only_probes (mkStatusOpts (lit "hci0") DEFAULT_BOND_DIR None (Some (lit "/tmp/none")) false true) shown_host
    (mkCliReport (lit "/tmp/none") (ProbeDown (lit "connect-refused"))) (lit "/tmp/noneconnect-refused")); reflexivity.
Defined.
End samples.
